(* ===== verification/_CoqProject ===== *)
-Q . S2P
Prelude.v
ErrorCodes.v
Engine.v
Memory.v
HandleManager.v
CamlUtils.v
RegistryFacts.v
RegistryObjects.v
HandleManagerSpec.v
CamlData.v
ValueTypes.v
CamlObject.v
CamlRepresentation.v
Scenarios.v
RoundTrips.v
UnitTests.v
Concurrency.v
ConcurrentDestroy.v
Api.v
RepresentationTests.v
Sample.v
