(* ===== verification/Prelude.v ===== *)
(** * A verification development for the C binding of the AML data model

    The repository (datamodel-aml-c) is a C API over the C++ AML data
    model engine.  It hands out opaque handles ([amlObjectHandle_t],
    [amlDataHandle_t], [representation_t]) to C callers and keeps, per
    handle domain, a registry that maps handles to native C++ objects
    ([src/src/camlhandlemanager.cpp]).  Every API function
    ([src/src/camldata.cpp], [src/src/camlobject.cpp],
    [src/src/camlrepresentation.cpp]) checks its pointer arguments,
    resolves its handles through the registry, calls the engine, maps an
    engine exception to a result code ([src/src/camlutils.cpp],
    [ExceptionCodeToErrorCode]) and, when it returns a value by
    reference, registers a borrowing handle for it.  Destroying an owning
    handle runs a walker ([RemoveOwnedAmlDataHandles]) meant to purge the
    borrowing handles of every nested value before the owner is freed.

    ** How the code is modelled

    A C function is a computation of the state-and-crash monad [st World]
    ([let*] in [aml_scope]): it returns its result, or ends with a
    [crash] where C has undefined behaviour or an exception escapes the
    [extern "C"] boundary (use after free, [std::bad_alloc], invalid
    [delete], [NULL] given to [strlen], out-of-bounds or uninitialised
    reads).  An API function returns its [CAMLErrorCode] and what it wrote
    to its out-parameter ([result T], [None] for "unwritten").  The
    [World] is the native heap (a [gmap] from block address to a C++
    object: [BData], [BObj] or [BRep]) and the three registries, each a
    list of nodes in [LL_APPEND] order as in utlist.  A handle is the
    address of its node, as in the code.  A pointer into the engine's
    value graph is a block plus a key path ([ptr]), so that the address of
    a nested value returned by reference is stable and comparable, and
    the walker's local copies live at stack addresses that no registered
    pointer has.  [malloc] and [new] are a class [Allocator] with the
    contract [AllocatorSpec] (a fresh, non-[NULL] address); the theorems
    hold for every allocator meeting it, and the concrete runs and witnesses use
    [bump_alloc] (never reuses), [first_fit_alloc] (reuses the lowest free
    address, as a real [malloc] may) and [capped_alloc] (refuses large
    requests).  The engine is outside the repository: [Engine] models the
    part of it the binding calls from the spec (containers as association
    lists, objects, their exceptions), and [RepresentationEngine] is an
    interface for the schema conversions, with the round-trip law
    [RepresentationLaws].

    ** Files, in dependency order

    - [Prelude] (this file): pointers, the monad and its lemmas,
      association lists, the hint databases [aml] and [aml_rw], tactics.
    - [ErrorCodes]: [CAMLErrorCode] ([camlerrorcodes.h]), the engine's
      [ResultCode], [ExceptionCodeToErrorCode], the [VERIFY_PARAM_NON_NULL]
      guard.
    - [Engine]: the engine's [AMLValue], [AMLData] and [AMLObject] and
      their operations (spec-modelled).
    - [Memory]: addresses, pointers with paths, heap blocks, navigation
      into nested values, node sizes, the allocator class and instances
      ([zero_null_alloc] is a [malloc] that returns [NULL] for size 0).
    - [HandleManager]: the registries of camlhandlemanager.cpp
      ([AddAmlDataHandle], [RemoveAmlData], [FindAmlData],
      [FindAmlDataHandle] and the object and representation ones), both
      teardown walkers, and the registry invariant [reg_wf] with its
      boolean checker.
    - [CamlUtils]: string marshaling ([ConvertStringToCharStr],
      [ConvertVectorToCharStrArr]), [new]/[delete], dereferences, the
      shared alias lookup [find_or_add_alias].
    - [RegistryFacts], [RegistryObjects]: how each primitive step changes
      the world, and the frameworks [st_pure], [st_preserves reg_wf] and
      [st_atomic] (a failing call changes nothing), with their tactics.
    - [HandleManagerSpec]: the contract of the internal header
      camlhandlemanager.h as a class [DataRegistry] with laws
      [DataRegistryLaws] over a [gmap] view of the registry; the
      linked-list registry is an instance ([handle_manager_refines]), and
      the alias lookup is a client proved against the laws alone; the
      object and representation registries meet the record [TableLaws]
      ([registries_refine]).
    - [CamlData], [CamlObject], [CamlRepresentation]: every exported
      function of camldata.cpp, camlobject.cpp and camlrepresentation.cpp,
      guards and early returns in source order; each family ends with a
      call type ([data_call], [obj_call], [rep_call]) and the proofs that
      every call keeps [reg_wf] and changes nothing when it fails.
    - [ValueTypes]: [AMLData_GetValueType] against the three typed
      getters, and the string setter against its getter.
    - [Scenarios]: the scenario of section 8 of the spec (fetch a nested
      value, destroy its owner) on every well-formed world, and a run of
      a client's calls with an allocator that reuses addresses.
    - [RoundTrips]: the other setters against their getters: string
      arrays, nested values ([AMLData_SetValueAMLData]) and the named data
      of an object ([AMLObject_AddData]), the last two through the
      lookup-or-register block [find_or_add_alias].
    - [UnitTests]: the 45 gtest cases of unittests/camlinterfacetest.cpp
      and their helpers as client programs.
    - [Concurrency], [ConcurrentDestroy]: threads running
      [AMLData_GetValueAMLData], resp. [DestroyAMLData], split where the
      code releases [g_amlDataMtx] between two registry calls, as step
      relations ([cstep], [dstep]) on configurations of threads.
    - [Api]: the three families in one client program ([run_api_calls])
      and the worlds a single-threaded client reaches ([api_step]).
    - [RepresentationTests]: the gtest cases of
      unittests/camlrepresentationtest.cpp, over any engine meeting the
      contract the test files fix ([TestFiles]).
    - [Sample]: the sample client src/samples/sample.c, its printers and
      its [main].

    ** What the theorems show

    The teardown walker, as written, removes nothing
    ([RemoveOwnedAmlDataHandles_rec_noop]): it unregisters the address
    of a stack copy.  Hence destroying a container or an object keeps
    every borrowed handle into it ([DestroyAMLData_keeps_other_handles],
    [DestroyAMLObject_keeps_data_handles]), and on every well-formed
    world the spec's own scenario ends in a read of freed memory through
    the handle of a nested value ([nested_handle_dangles]).  With a
    reusing allocator a destroyed handle value comes back (the run
    [scenario_reuse_resurrects]).  The registry functions lock only
    their own list operation, so two threads fetching one nested value
    can both register it ([GetValueAMLData_race]), and two threads
    destroying one handle reach a use after free
    ([destroy_race_crashes]) where two calls in sequence are harmless.
    The sample crashes when the binary API is compiled out
    ([sample_main_crashes]), and its [strncat] loop overflows the
    100-byte indent buffer exactly from depth 25
    ([printAMLData_indent_overflow]); a representation test reads an
    unwritten local ([InvalidAml_reads_uninitialized]).  What the code
    gets right is proved too:
    - the three registries implement their header's contract
      ([handle_manager_refines], [registries_refine]), and the alias lookup, from that
      contract alone, returns the same handle twice ([alias_lookup_again]);
      so do both getters ([AMLData_GetValueAMLData_same_handle],
      [AMLObject_GetData_same_handle]);
    - any client program keeps the registry invariant and a program whose
      calls all fail changes nothing ([run_api_calls_wf],
      [run_api_calls_atomic]);
    - the reported value type decides which getter succeeds
      ([AMLData_GetValueType_getters]); a string set is read back, and a
      key is never overwritten ([AMLData_SetValueStr_roundtrip]);
    - so is a string array ([AMLData_SetValueStrArr_roundtrip]); a value
      stored in a container or in an object is read back as a handle to a
      value equal to it, [CAML_NO_MEMORY] coming only from a failed
      [malloc] of the registry node ([AMLData_SetValueAMLData_roundtrip],
      [AMLObject_AddData_roundtrip]);
    - double destroy, the text round trip
      through a representation given the engine's law
      ([Representation_roundtrip]), the error-code translation;
    - the representation tests pass for every engine meeting the test
      files' contract ([binding_tests_pass], [engine_tests_pass]); the
      binding's own gtest suite runs to success in the model (the run
      [unit_tests_pass]).
    The two-phase splits of the concurrent functions are the functions
    themselves ([GetValueAMLData_split], [DestroyAMLData_split]), which
    makes the races found in the model races of the code.
    Divergences proved as behaviour: the string getters write [NULL] on
    [CAML_NO_MEMORY], [Representation_ByteToData] refuses a size of 0,
    and [AMLData_GetKeys] of an empty value depends on what [malloc(0)]
    returns.

    ** Bounds and fuel

    The walker recurses structurally on the nested value, [ConvertEach]
    and [read_cstr_array] on their lists.  Two functions take fuel, a
    bound on the nesting depth.  The tests' [isEqualAMLData] is run with
    fuel 8; the tests nest at most two levels, and the run
    [unit_tests_pass] shows 8 is enough (running out would be the crash
    [FuelExhausted]).  The sample's [printAMLData] is run with
    [PRINT_FUEL] = 26: from depth 25 the code overflows its buffer
    anyway, and the lemma [printAMLData_fuel_enough] shows that fuel plus
    depth at least 26 never runs out.  A thread of the concurrent models
    takes two steps, so every interleaving is finite.  Sizes are [nat],
    as [size_t] is unsigned and no computation here wraps; the indent
    buffer of the sample is checked, [strncat] by [strncat], against its
    100 bytes.

    ** Not modelled

    The engine's XML and protobuf conversions are an interface only
    ([RepresentationEngine]), and the contents of the representation
    tests' data files are parameters: the files are read from disk.  The
    buffers the caller frees keep their contents, not their addresses.
    Concurrency covers the two functions above only, with the removal
    phase of [DestroyAMLData] as one step: the model exhibits races the
    code has, it does not prove the absence of others.  [freeCharArr] of
    the sample and the [free] calls of the tests release caller buffers,
    which the model does not track. *)

From stdpp Require Export base gmap list strings finite.
From Stdlib Require Export ZArith.

Declare Scope aml_scope.
Delimit Scope aml_scope with aml.
Open Scope aml_scope.

(** ** C pointers *)

(** A C pointer value; [NULL] is address 0. *)
Definition cptr := Z.
Bind Scope Z_scope with cptr.
Definition NULL : cptr := 0%Z.

(** [VERIFY_PARAM_NON_NULL] tests a pointer against [NULL]. *)
Definition is_null (p : cptr) : bool := bool_decide (p = NULL).

(** A [const char*] argument: [None] is [NULL]. *)
Definition cstr := option string.

(** ** The state-and-crash monad *)

(** What the C code does that C does not define, or that escapes the
    C boundary, ends the run: a read of freed memory, a [std::bad_alloc]
    thrown by [new] inside an [extern "C"] function, a [delete] of an
    address [new] did not return, a [NULL] string given to [strlen], a
    read past the end of an array or a write past the end of a buffer, or
    a read of a local that was never written.  [FuelExhausted] ends a recursive client (the tests'
    [isEqualAMLData]) whose fuel, a bound on the nesting depth, ran out. *)
Inductive crash :=
  | UseAfterFree
  | BadAllocEscapes
  | InvalidDelete
  | NullDereference
  | OutOfBoundsRead
  | OutOfBoundsWrite
  | UninitializedRead
  | FuelExhausted.

#[export] Instance crash_eq_dec : EqDecision crash.
Proof. solve_decision. Defined.

Inductive outcome (S A : Type) :=
  | Done (s : S) (a : A)
  | Crashed (c : crash).
Arguments Done {S A} s a.
Arguments Crashed {S A} c.

Definition st (S A : Type) := S -> outcome S A.

Definition st_ret {S A} (a : A) : st S A := fun s => Done s a.

Definition st_bind {S A B} (m : st S A) (f : A -> st S B) : st S B :=
  fun s => match m s with
           | Done s' a => f a s'
           | Crashed c => Crashed c
           end.

Definition st_get {S} : st S S := fun s => Done s s.
Definition st_put {S} (s : S) : st S unit := fun _ => Done s tt.
Definition st_crash {S A} (c : crash) : st S A := fun _ => Crashed c.

Notation "'let*' x := m 'in' k" := (st_bind m (fun x => k))
  (at level 10, x name, m at level 100, k at level 200) : aml_scope.

(** Run a computation and keep its result. *)
Definition st_eval {S A} (m : st S A) (s : S) : option A :=
  match m s with Done _ a => Some a | Crashed _ => None end.

Section MonadLaws.
Context {S : Type}.

Lemma st_bind_ret_l {A B} (a : A) (f : A -> st S B) :
  st_bind (st_ret a) f = f a.
Proof. reflexivity. Qed.

Lemma st_bind_Done {A B} (m : st S A) (f : A -> st S B) s s' a :
  m s = Done s' a -> st_bind m f s = f a s'.
Proof. intros H. unfold st_bind. by rewrite H. Qed.

Lemma st_bind_Crashed {A B} (m : st S A) (f : A -> st S B) s c :
  m s = Crashed c -> st_bind m f s = Crashed c.
Proof. intros H. unfold st_bind. by rewrite H. Qed.

Lemma st_bind_assoc {A B C} (m : st S A) (f : A -> st S B) (g : B -> st S C) s :
  st_bind (st_bind m f) g s = st_bind m (fun a => st_bind (f a) g) s.
Proof. unfold st_bind. by destruct (m s). Qed.
End MonadLaws.

(** ** Runs that leave the state alone, runs that keep an invariant *)

Section Frames.
Context {S : Type}.

(** [m] never changes the state when it returns. *)
Definition st_pure {A} (m : st S A) : Prop := forall s s' a, m s = Done s' a -> s' = s.

(** [m] keeps [I] when it returns. *)
Definition st_preserves (I : S -> Prop) {A} (m : st S A) : Prop :=
  forall s s' a, I s -> m s = Done s' a -> I s'.

Lemma st_pure_ret {A} (a : A) : st_pure (st_ret a).
Proof. by intros s s' a' [= ->]. Qed.

Lemma st_pure_crash {A} c : st_pure (@st_crash S A c).
Proof. done. Qed.

Lemma st_pure_bind {A B} (m : st S A) (f : A -> st S B) :
  st_pure m -> (forall a, st_pure (f a)) -> st_pure (st_bind m f).
Proof.
  intros Hm Hf s s' b. unfold st_bind. destruct (m s) as [s1 a|] eqn:E; [|done].
  intros Hb. rewrite (Hf a _ _ _ Hb). by eapply Hm.
Qed.

Lemma st_pure_preserves I {A} (m : st S A) : st_pure m -> st_preserves I m.
Proof. intros Hm s s' a HI Hs. by rewrite (Hm _ _ _ Hs). Qed.

Lemma st_preserves_bind I {A B} (m : st S A) (f : A -> st S B) :
  st_preserves I m -> (forall a, st_preserves I (f a)) -> st_preserves I (st_bind m f).
Proof.
  intros Hm Hf s s' b HI. unfold st_bind. destruct (m s) as [s1 a|] eqn:E; [|done].
  intros Hb. eapply Hf; [|exact Hb]. by eapply Hm.
Qed.
End Frames.

(** ** Association lists with unique keys

    The engine's key-to-value maps are [std::map]s whose keys are unique;
    they are association lists here, new keys added at the end. *)

Section Assoc.
Context {A : Type}.

Fixpoint assoc_lookup (k : string) (l : list (string * A)) : option A :=
  match l with
  | [] => None
  | (k', v) :: l' => if String.eqb k k' then Some v else assoc_lookup k l'
  end.

(** Replace the value of the first binding of [k]. *)
Fixpoint assoc_set (k : string) (v : A) (l : list (string * A)) : list (string * A) :=
  match l with
  | [] => []
  | (k', v') :: l' =>
      if String.eqb k k' then (k', v) :: l' else (k', v') :: assoc_set k v l'
  end.

Lemma assoc_lookup_app_new k v l :
  assoc_lookup k l = None -> assoc_lookup k (l ++ [(k, v)]) = Some v.
Proof.
  induction l as [|[k' v'] l IH]; simpl.
  - by rewrite String.eqb_refl.
  - destruct (String.eqb k k'); [discriminate|]. exact IH.
Qed.

Lemma assoc_lookup_app_ne k k' v l :
  k <> k' -> assoc_lookup k (l ++ [(k', v)]) = assoc_lookup k l.
Proof.
  intros Hne. induction l as [|[k'' v'] l IH]; simpl.
  - destruct (String.eqb_spec k k'); [congruence|done].
  - by destruct (String.eqb k k'').
Qed.

Lemma assoc_lookup_set_eq k v l :
  is_Some (assoc_lookup k l) -> assoc_lookup k (assoc_set k v l) = Some v.
Proof.
  induction l as [|[k' v'] l IH]; simpl; [by intros []|].
  destruct (String.eqb_spec k k') as [->|Hne]; simpl.
  - by rewrite String.eqb_refl.
  - intros H. destruct (String.eqb_spec k k'); [congruence|]. by apply IH.
Qed.

Lemma assoc_lookup_set_ne k k' v l :
  k <> k' -> assoc_lookup k' (assoc_set k v l) = assoc_lookup k' l.
Proof.
  intros Hne. induction l as [|[k'' v'] l IH]; simpl; [done|].
  destruct (String.eqb_spec k k'') as [->|]; simpl.
  - destruct (String.eqb_spec k' k''); congruence.
  - by rewrite IH.
Qed.

Lemma assoc_set_keys k v l : map fst (assoc_set k v l) = map fst l.
Proof.
  induction l as [|[k' v'] l IH]; simpl; [done|].
  destruct (String.eqb k k'); simpl; by rewrite ?IH.
Qed.

Lemma assoc_lookup_None_keys k l : assoc_lookup k l = None <-> k ∉ map fst l.
Proof.
  induction l as [|[k' v'] l IH]; simpl.
  - split; [intros _; apply not_elem_of_nil|done].
  - rewrite elem_of_cons. destruct (String.eqb_spec k k') as [->|Hne].
    + split; [discriminate|]. intros H. exfalso. apply H. by left.
    + rewrite IH. naive_solver.
Qed.
End Assoc.

(** ** Sublists *)

Lemma Forall_sublist_of {A} (P : A -> Prop) (l1 l2 : list A) :
  sublist l1 l2 -> Forall P l2 -> Forall P l1.
Proof.
  induction 1 as [|x l1 l2 _ IH|x l1 l2 _ IH]; [done| |].
  - intros [Hx Hl]%Forall_cons. constructor; auto.
  - intros [_ Hl]%Forall_cons. auto.
Qed.

Lemma map_sublist_of {A B} (f : A -> B) (l1 l2 : list A) :
  sublist l1 l2 -> sublist (map f l1) (map f l2).
Proof.
  induction 1; simpl; [done|by apply sublist_skip|by apply sublist_cons].
Qed.

(** Updating one element of a list changes a weighted count by the
    difference of the weights. *)
Lemma sum_list_with_insert {A} (f : A -> nat) (l : list A) i x y :
  l !! i = Some y -> sum_list_with f (<[i:=x]> l) + f y = sum_list_with f l + f x.
Proof.
  revert i. induction l as [|z l IH]; intros [|i]; simpl; try discriminate.
  - intros [= ->]. lia.
  - intros Hi. specialize (IH i Hi). lia.
Qed.

(** ** Automation *)

Create HintDb aml.
Create Rewrite HintDb aml_rw.
#[export] Hint Resolve st_bind_Done st_bind_Crashed : aml.
#[export] Hint Rewrite @st_bind_ret_l @st_bind_assoc : aml_rw.
#[export] Hint Rewrite @assoc_set_keys : aml_rw.

#[export] Hint Resolve st_pure_ret st_pure_crash st_pure_bind : aml.

(** Prove [st_pure] of a composed run: split binds, case on matches. *)
Ltac solve_pure :=
  repeat (intros; first
    [ apply st_pure_ret | apply st_pure_crash | apply st_pure_bind
    | progress case_match | eauto with aml ]).

(** Unfold one layer of the monad in the goal. *)
Ltac st_unfold :=
  repeat (unfold st_bind, st_ret, st_get, st_put, st_crash in *; simpl in * ).
