(* ===== verification/ErrorCodes.v ===== *)
(** * Result codes of the C API and the translation of engine exceptions

    [CAMLErrorCode] is the enumeration of [src/include/camlerrorcodes.h];
    [ResultCode] is the code an [AML::AMLException] of the C++ engine
    carries (the engine is not part of this repository: its constructors
    are the cases [src/src/camlutils.cpp] translates);
    [ExceptionCodeToErrorCode] is the translation of camlutils.cpp, and the
    theorems show it is one-to-one and never yields [CAML_INVALID_HANDLE],
    so that a caller can tell a handle error from an engine error. *)

From S2P Require Import Prelude.

Inductive CAMLErrorCode :=
  | CAML_OK
  | CAML_INVALID_PARAM
  | CAML_INVALID_FILE_PATH
  | CAML_INVALID_AML_SCHEMA
  | CAML_INVALID_XML_STR
  | CAML_INVALID_HANDLE
  | CAML_NOT_MATCH_TO_AML_MODEL
  | CAML_INVALID_BYTE_STR
  | CAML_SERIALIZE_FAIL
  | CAML_NO_MEMORY
  | CAML_KEY_NOT_EXIST
  | CAML_KEY_ALREADY_EXIST
  | CAML_WRONG_GETTER_TYPE
  | CAML_API_NOT_ENABLED.

#[export] Instance CAMLErrorCode_eq_dec : EqDecision CAMLErrorCode.
Proof. solve_decision. Defined.

(** [AML::ResultCode] of the engine's [AMLException]. *)
Inductive ResultCode :=
  | NO_ERROR
  | INVALID_PARAM
  | INVALID_FILE_PATH
  | INVALID_AML_SCHEMA
  | INVALID_XML_STR
  | NOT_MATCH_TO_AML_MODEL
  | INVALID_BYTE_STR
  | SERIALIZE_FAIL
  | NO_MEMORY
  | KEY_NOT_EXIST
  | KEY_ALREADY_EXIST
  | WRONG_GETTER_TYPE
  | API_NOT_ENABLED.

#[export] Instance ResultCode_eq_dec : EqDecision ResultCode.
Proof. solve_decision. Defined.

(** [CAMLErrorCode ExceptionCodeToErrorCode(AML::ResultCode result)]:
    one case per code, [NO_ERROR] falling into [default]. *)
Definition ExceptionCodeToErrorCode (result : ResultCode) : CAMLErrorCode :=
  match result with
  | INVALID_PARAM => CAML_INVALID_PARAM
  | INVALID_FILE_PATH => CAML_INVALID_FILE_PATH
  | INVALID_AML_SCHEMA => CAML_INVALID_AML_SCHEMA
  | INVALID_XML_STR => CAML_INVALID_XML_STR
  | NOT_MATCH_TO_AML_MODEL => CAML_NOT_MATCH_TO_AML_MODEL
  | INVALID_BYTE_STR => CAML_INVALID_BYTE_STR
  | SERIALIZE_FAIL => CAML_SERIALIZE_FAIL
  | NO_MEMORY => CAML_NO_MEMORY
  | KEY_NOT_EXIST => CAML_KEY_NOT_EXIST
  | KEY_ALREADY_EXIST => CAML_KEY_ALREADY_EXIST
  | WRONG_GETTER_TYPE => CAML_WRONG_GETTER_TYPE
  | API_NOT_ENABLED => CAML_API_NOT_ENABLED
  | NO_ERROR => CAML_OK
  end.

(** [VERIFY_PARAM_NON_NULL(PARAM)]: [if (!PARAM) return CAML_INVALID_PARAM;] *)
Definition VERIFY_PARAM_NON_NULL (p : cptr) : option CAMLErrorCode :=
  if is_null p then Some CAML_INVALID_PARAM else None.

(** The same check on a [const char*]. *)
Definition VERIFY_STR_NON_NULL (s : cstr) : option CAMLErrorCode :=
  match s with None => Some CAML_INVALID_PARAM | Some _ => None end.

(** ** Theorems *)

(** C29: the translation of engine codes is one-to-one: two different
    engine exceptions never give the same C result code. *)
Theorem ExceptionCodeToErrorCode_inj : Inj eq eq ExceptionCodeToErrorCode.
Proof. intros [] []; simpl; congruence. Qed.

(** C30: the codes the translation reaches are exactly the codes other
    than [CAML_INVALID_HANDLE]: a handle error is never confused with an
    engine error, and every other code is the image of an engine code. *)
Theorem ExceptionCodeToErrorCode_image (c : CAMLErrorCode) :
  c <> CAML_INVALID_HANDLE <-> exists r, ExceptionCodeToErrorCode r = c.
Proof.
  split.
  - destruct c; intros H; try congruence;
      [exists NO_ERROR | exists INVALID_PARAM | exists INVALID_FILE_PATH
      | exists INVALID_AML_SCHEMA | exists INVALID_XML_STR
      | exists NOT_MATCH_TO_AML_MODEL | exists INVALID_BYTE_STR
      | exists SERIALIZE_FAIL | exists NO_MEMORY | exists KEY_NOT_EXIST
      | exists KEY_ALREADY_EXIST | exists WRONG_GETTER_TYPE
      | exists API_NOT_ENABLED]; reflexivity.
  - intros [[] <-]; discriminate.
Qed.

(** Only [NO_ERROR] becomes [CAML_OK]. *)
Lemma ExceptionCodeToErrorCode_ok r :
  ExceptionCodeToErrorCode r = CAML_OK <-> r = NO_ERROR.
Proof. destruct r; simpl; split; congruence. Qed.

Lemma VERIFY_PARAM_NON_NULL_None p : p <> NULL -> VERIFY_PARAM_NON_NULL p = None.
Proof. intros Hp. unfold VERIFY_PARAM_NON_NULL, is_null. by rewrite bool_decide_eq_false_2. Qed.

Lemma VERIFY_PARAM_NON_NULL_ok p c : VERIFY_PARAM_NON_NULL p = Some c -> c = CAML_INVALID_PARAM.
Proof. unfold VERIFY_PARAM_NON_NULL. by destruct (is_null p); intros [= <-]. Qed.

Lemma VERIFY_STR_NON_NULL_ok s c : VERIFY_STR_NON_NULL s = Some c -> c = CAML_INVALID_PARAM.
Proof. unfold VERIFY_STR_NON_NULL. by destruct s; intros [= <-]. Qed.
