(* ===== verification/Engine.v ===== *)
(** * The C++ value-graph engine, as the binding uses it

    The C binding calls the AML engine ([AML::AMLData], [AML::AMLObject])
    of the companion C++ library, which is not part of this repository:
    this file models, from the spec, the part of it the binding relies on.
    An [AMLData] maps unique string keys to a value of one of three kinds
    (string, string array, nested [AMLData]); an [AMLObject] carries a
    device id, a time stamp, an id and a map from names to [AMLData].
    Inserting a value copies it (the spec's copy-on-insert assumption,
    section 9).  An operation that throws an [AMLException] returns
    [inl] of its [ResultCode]. *)

From S2P Require Import Prelude ErrorCodes.

(** [enum class AMLValueType { String, StringArray, AMLData }] *)
Inductive AMLValueType := VT_String | VT_StringArray | VT_AMLData.

#[export] Instance AMLValueType_eq_dec : EqDecision AMLValueType.
Proof. solve_decision. Defined.

Inductive AMLValue :=
  | AVString (s : string)
  | AVStringArray (l : list string)
  | AVData (d : list (string * AMLValue)).

(** An [AMLData] is its key-to-value map, in key insertion order. *)
Definition AMLData := list (string * AMLValue).

(** Induction on values that sees the values nested in an [AMLData]. *)
Section AMLValue_ind.
Variable P : AMLValue -> Prop.
Hypothesis Hstr : forall s, P (AVString s).
Hypothesis Harr : forall l, P (AVStringArray l).
Hypothesis Hdata : forall d, Forall (fun kv => P (snd kv)) d -> P (AVData d).

Fixpoint AMLValue_ind' (v : AMLValue) : P v :=
  match v with
  | AVString s => Hstr s
  | AVStringArray l => Harr l
  | AVData d =>
      Hdata d ((fix go (d : list (string * AMLValue)) : Forall (fun kv => P (snd kv)) d :=
                  match d with
                  | [] => Forall_nil_2 _
                  | kv :: rest => Forall_cons_2 _ kv rest (AMLValue_ind' (snd kv)) (go rest)
                  end) d)
  end.
End AMLValue_ind.

Definition valueType (v : AMLValue) : AMLValueType :=
  match v with
  | AVString _ => VT_String
  | AVStringArray _ => VT_StringArray
  | AVData _ => VT_AMLData
  end.

Module AMLDataOps.

(** [AMLData::AMLData()] *)
Definition empty : AMLData := [].

(** The three [AMLData::setValue] overloads: a key that is already
    present throws [KEY_ALREADY_EXIST]; otherwise the value is copied in. *)
Definition setValue (d : AMLData) (key : string) (v : AMLValue) : ResultCode + AMLData :=
  match assoc_lookup key d with
  | Some _ => inl KEY_ALREADY_EXIST
  | None => inr (d ++ [(key, v)])
  end.

Definition lookupValue (d : AMLData) (key : string) : ResultCode + AMLValue :=
  match assoc_lookup key d with
  | Some v => inr v
  | None => inl KEY_NOT_EXIST
  end.

(** [getValueToStr], [getValueToStrArr], [getValueToAMLData]: a missing
    key throws [KEY_NOT_EXIST], a value of another kind throws
    [WRONG_GETTER_TYPE]. *)
Definition getValueToStr (d : AMLData) (key : string) : ResultCode + string :=
  match lookupValue d key with
  | inr (AVString s) => inr s
  | inr _ => inl WRONG_GETTER_TYPE
  | inl e => inl e
  end.

Definition getValueToStrArr (d : AMLData) (key : string) : ResultCode + list string :=
  match lookupValue d key with
  | inr (AVStringArray l) => inr l
  | inr _ => inl WRONG_GETTER_TYPE
  | inl e => inl e
  end.

Definition getValueToAMLData (d : AMLData) (key : string) : ResultCode + AMLData :=
  match lookupValue d key with
  | inr (AVData sub) => inr sub
  | inr _ => inl WRONG_GETTER_TYPE
  | inl e => inl e
  end.

Definition getKeys (d : AMLData) : list string := map fst d.

Definition getValueType (d : AMLData) (key : string) : ResultCode + AMLValueType :=
  match lookupValue d key with
  | inr v => inr (valueType v)
  | inl e => inl e
  end.

(** Keys are unique. *)
Definition wf (d : AMLData) : Prop := NoDup (getKeys d).

End AMLDataOps.

(** [AML::AMLObject] *)
Record AMLObject := mkAMLObject {
  o_deviceId : string;
  o_timeStamp : string;
  o_id : string;
  o_datas : list (string * AMLData)
}.

Module AMLObjectOps.

(** [AMLObject(deviceId, timeStamp)]: an empty argument throws
    [INVALID_PARAM] (as the binding's tests expect).  The id is the
    device id and the time stamp joined by an underscore: the spec does
    not say how the engine makes it, and no test reads it.  Only
    [engine_tests_pass] depends on the rule, through the id of
    [test_object]. *)
Definition create (deviceId timeStamp : string) : ResultCode + AMLObject :=
  if bool_decide (deviceId = "" \/ timeStamp = "")%string then inl INVALID_PARAM
  else inr (mkAMLObject deviceId timeStamp (deviceId +:+ "_" +:+ timeStamp) []).

(** [AMLObject(deviceId, timeStamp, id)] *)
Definition createWithId (deviceId timeStamp id : string) : ResultCode + AMLObject :=
  if bool_decide (deviceId = "" \/ timeStamp = "" \/ id = "")%string then inl INVALID_PARAM
  else inr (mkAMLObject deviceId timeStamp id []).

(** [addData(name, data)]: copies [data] in; a present name throws. *)
Definition addData (o : AMLObject) (name : string) (d : AMLData) : ResultCode + AMLObject :=
  match assoc_lookup name (o_datas o) with
  | Some _ => inl KEY_ALREADY_EXIST
  | None => inr (mkAMLObject (o_deviceId o) (o_timeStamp o) (o_id o) (o_datas o ++ [(name, d)]))
  end.

Definition getData (o : AMLObject) (name : string) : ResultCode + AMLData :=
  match assoc_lookup name (o_datas o) with
  | Some d => inr d
  | None => inl KEY_NOT_EXIST
  end.

Definition getDataNames (o : AMLObject) : list string := map fst (o_datas o).

End AMLObjectOps.

(** ** Engine lemmas used by the binding's theorems *)

Lemma setValue_lookup d k v d' :
  AMLDataOps.setValue d k v = inr d' -> assoc_lookup k d' = Some v.
Proof.
  unfold AMLDataOps.setValue. destruct (assoc_lookup k d) eqn:E; [discriminate|].
  intros [= <-]. by apply assoc_lookup_app_new.
Qed.

Lemma setValue_keys d k v d' :
  AMLDataOps.setValue d k v = inr d' -> AMLDataOps.getKeys d' = AMLDataOps.getKeys d ++ [k].
Proof.
  unfold AMLDataOps.setValue, AMLDataOps.getKeys.
  destruct (assoc_lookup k d); [discriminate|]. intros [= <-]. by rewrite map_app.
Qed.

(** Keys stay unique under [setValue]. *)
Lemma setValue_wf d k v d' :
  AMLDataOps.wf d -> AMLDataOps.setValue d k v = inr d' -> AMLDataOps.wf d'.
Proof.
  unfold AMLDataOps.wf. intros Hnd Hs. rewrite (setValue_keys _ _ _ _ Hs).
  unfold AMLDataOps.setValue in Hs. destruct (assoc_lookup k d) eqn:E; [discriminate|].
  apply NoDup_app. split; [done|]. split; [|apply NoDup_singleton].
  intros x Hx ->%list_elem_of_singleton. by apply (assoc_lookup_None_keys k d).
Qed.

#[export] Hint Resolve setValue_wf : aml.
