(* ===== verification/Memory.v ===== *)
(** * The native memory the handles point into

    A C++ object made by [new] is a heap block ([HeapAddr b]); a nested
    [AMLData] lives inside its parent's map and its address is the
    parent's address followed by the key path that reaches it (keys are
    never removed by the engine, so such an address is stable while its
    root block is alive).  The teardown walker of camlhandlemanager.cpp
    copies nested values into a local variable: the address of that local
    is a stack address, one per recursion frame ([StackAddr n]).

    The allocator ([malloc] for registry nodes, [operator new] for engine
    objects) is the class [Allocator]; [AllocatorSpec] is its contract: a
    returned address is not [NULL] and not in use.  [bump_alloc] never
    reuses an address, [first_fit_alloc] reuses the lowest free one, as a
    real allocator may. *)

From S2P Require Import Prelude ErrorCodes Engine.

Inductive addr :=
  | HeapAddr (b : Z)
  | StackAddr (frame : nat).

#[export] Instance addr_eq_dec : EqDecision addr.
Proof. solve_decision. Defined.

(** An [AMLData*]: a base address and the key path inside it. *)
Record ptr := Ptr { p_addr : addr; p_path : list string }.

#[export] Instance ptr_eq_dec : EqDecision ptr.
Proof. solve_decision. Defined.

Definition heap_root (b : Z) : ptr := Ptr (HeapAddr b) [].

(** What a heap block holds: an object made by [new AMLData],
    [new AMLObject] or [new Representation] (the last is known by the
    schema file it was built from). *)
Inductive block :=
  | BData (d : AMLData)
  | BObj (o : AMLObject)
  | BRep (filePath : string).

Notation heap := (gmap Z block).

(** ** Navigating and updating nested data *)

(** The chain of [getValueToAMLData] references along a key path. *)
Fixpoint data_at (d : AMLData) (path : list string) : option AMLData :=
  match path with
  | [] => Some d
  | k :: rest =>
      match assoc_lookup k d with
      | Some (AVData sub) => data_at sub rest
      | _ => None
      end
  end.

(** Apply an engine mutator to the data at [path], in place. *)
Fixpoint data_update_at (d : AMLData) (path : list string)
    (f : AMLData -> ResultCode + AMLData) : option (ResultCode + AMLData) :=
  match path with
  | [] => Some (f d)
  | k :: rest =>
      match assoc_lookup k d with
      | Some (AVData sub) =>
          match data_update_at sub rest f with
          | Some (inr sub') => Some (inr (assoc_set k (AVData sub') d))
          | Some (inl e) => Some (inl e)
          | None => None
          end
      | _ => None
      end
  end.

(** [*p] for an [AMLData*]; [None] when [p] does not point to a live
    [AMLData]. *)
Definition heap_data_at (h : heap) (p : ptr) : option AMLData :=
  match p_addr p with
  | HeapAddr b =>
      match h !! b, p_path p with
      | Some (BData d), path => data_at d path
      | Some (BObj o), name :: path =>
          match assoc_lookup name (o_datas o) with
          | Some d => data_at d path
          | None => None
          end
      | _, _ => None
      end
  | StackAddr _ => None
  end.

(** Run a mutator on [*p]; [None] when [p] is dangling. *)
Definition heap_data_update (h : heap) (p : ptr) (f : AMLData -> ResultCode + AMLData)
    : option (ResultCode + heap) :=
  match p_addr p with
  | HeapAddr b =>
      match h !! b, p_path p with
      | Some (BData d), path =>
          match data_update_at d path f with
          | Some (inr d') => Some (inr (<[b := BData d']> h))
          | Some (inl e) => Some (inl e)
          | None => None
          end
      | Some (BObj o), name :: path =>
          match assoc_lookup name (o_datas o) with
          | Some d =>
              match data_update_at d path f with
              | Some (inr d') =>
                  Some (inr (<[b := BObj (mkAMLObject (o_deviceId o) (o_timeStamp o) (o_id o)
                                           (assoc_set name d' (o_datas o)))]> h))
              | Some (inl e) => Some (inl e)
              | None => None
              end
          | None => None
          end
      | _, _ => None
      end
  | StackAddr _ => None
  end.

(** ** The allocator *)

(** Sizes of the registry nodes on an LP64 target. *)
Definition sizeof_amlObject_t : nat := 24.
Definition sizeof_amlData_t : nat := 24.
Definition sizeof_amlRep_t : nat := 16.
Definition sizeof_ptr : nat := 8.

Class Allocator := {
  (** [malloc(size)]: [None] is [NULL]. *)
  malloc : gset Z -> nat -> option Z;
  (** [operator new]: [None] is a thrown [std::bad_alloc]. *)
  new_block : gset Z -> option Z
}.

Class AllocatorSpec (A : Allocator) := {
  malloc_fresh : forall L n a, malloc L n = Some a -> (a ∉ L) /\ a <> 0%Z;
  new_block_fresh : forall L a, new_block L = Some a -> (a ∉ L) /\ a <> 0%Z
}.

(** One more than every address in use. *)
Definition fresh_above (L : gset Z) : Z := (1 + foldr Z.max 0 (elements L))%Z.

Lemma foldr_max_ge (l : list Z) x : x ∈ l -> (x <= foldr Z.max 0 l)%Z.
Proof.
  induction l as [|y l IH]; simpl; [intros ?%not_elem_of_nil; done|].
  intros [->|Hx]%elem_of_cons; [lia|]. specialize (IH Hx). lia.
Qed.

Lemma foldr_max_nonneg (l : list Z) : (0 <= foldr Z.max 0 l)%Z.
Proof. induction l; simpl; lia. Qed.

Lemma fresh_above_fresh L : (fresh_above L ∉ L) /\ fresh_above L <> 0%Z.
Proof.
  unfold fresh_above. split.
  - intros Hin%elem_of_elements%foldr_max_ge. lia.
  - pose proof (foldr_max_nonneg (elements L)). lia.
Qed.

(** The lowest positive address not in use. *)
Definition first_fit (L : gset Z) : Z :=
  match List.find (fun a => bool_decide (a ∉ L)) (map Z.of_nat (seq 1 (size L + 1))) with
  | Some a => a
  | None => fresh_above L
  end.

Lemma first_fit_fresh L : (first_fit L ∉ L) /\ first_fit L <> 0%Z.
Proof.
  unfold first_fit. destruct (List.find _ _) as [a|] eqn:E; [|apply fresh_above_fresh].
  apply find_some in E as [Hin Hp]. apply bool_decide_eq_true in Hp.
  split; [done|]. apply in_map_iff in Hin as (n & <- & Hn). apply in_seq in Hn. lia.
Qed.

Definition bump_alloc : Allocator :=
  {| malloc := fun L _ => Some (fresh_above L); new_block := fun L => Some (fresh_above L) |}.

Definition first_fit_alloc : Allocator :=
  {| malloc := fun L _ => Some (first_fit L); new_block := fun L => Some (first_fit L) |}.

#[export] Instance bump_alloc_spec : AllocatorSpec bump_alloc.
Proof. split; intros L *; intros [= <-]; apply fresh_above_fresh. Qed.

#[export] Instance first_fit_alloc_spec : AllocatorSpec first_fit_alloc.
Proof. split; intros L *; intros [= <-]; apply first_fit_fresh. Qed.

(** An allocator whose [malloc] fails on requests above [cap] bytes (a
    process near its memory limit), while [new] of an engine object still
    succeeds. *)
Definition capped_alloc (cap : nat) : Allocator :=
  {| malloc := fun L n => if decide (n <= cap)%nat then Some (fresh_above L) else None;
     new_block := fun L => Some (fresh_above L) |}.

#[export] Instance capped_alloc_spec cap : AllocatorSpec (capped_alloc cap).
Proof.
  split; intros L *; simpl; [case_decide; [|done]|]; intros [= <-]; apply fresh_above_fresh.
Qed.

(** A [malloc] that returns [NULL] for a request of zero bytes, which C
    allows ("either a null pointer or a unique pointer"), and otherwise
    [bump_alloc]'s fresh address. *)
Definition zero_null_alloc : Allocator :=
  {| malloc := fun L n => if decide (n = 0)%nat then None else Some (fresh_above L);
     new_block := fun L => Some (fresh_above L) |}.

#[export] Instance zero_null_alloc_spec : AllocatorSpec zero_null_alloc.
Proof.
  split; intros L *; simpl; [case_decide; [done|]|]; intros [= <-]; apply fresh_above_fresh.
Qed.
