(* ===== verification/HandleManager.v ===== *)
(** * The handle registries and the teardown walker (camlhandlemanager.cpp)

    Each handle domain keeps a singly linked list of malloc'd nodes
    ([g_amlObjectHead], [g_amlDataHead], [g_amlRepHead]); a handle is the
    address of its node.  A node records the native pointer and, for
    objects and data, [needsDelete] (the node owns its object).  Every list
    operation runs under its domain's mutex, so each is one atomic step
    here.  [World] is the whole native state: the heap and the three
    lists.

    The generic part ([LinkedList]) models utlist's [LL_APPEND],
    [LL_DELETE] and the [LL_FOREACH] searches once, with the lemmas the
    three domains share. *)

From S2P Require Import Prelude ErrorCodes Engine Memory.

(** ** utlist singly linked lists *)

Section LinkedList.
Context {N : Type} (node_addr : N -> Z).

(** [LL_DELETE(head, del)]: unlink the node at address [a], if any. *)
Fixpoint ll_delete (a : Z) (l : list N) : list N :=
  match l with
  | [] => []
  | n :: l' => if bool_decide (node_addr n = a) then l' else n :: ll_delete a l'
  end.

(** [LL_FOREACH] looking for the node at address [a]. *)
Definition ll_find (a : Z) (l : list N) : option N :=
  List.find (fun n => bool_decide (node_addr n = a)) l.

Lemma ll_find_app_new (l : list N) n :
  node_addr n ∉ map node_addr l -> ll_find (node_addr n) (l ++ [n]) = Some n.
Proof.
  unfold ll_find. induction l as [|m l IH]; simpl; intros Hn.
  - by rewrite bool_decide_eq_true_2.
  - rewrite elem_of_cons in Hn. rewrite bool_decide_eq_false_2 by naive_solver.
    apply IH. naive_solver.
Qed.

Lemma ll_find_app_ne (l : list N) n a :
  node_addr n <> a -> ll_find a (l ++ [n]) = ll_find a l.
Proof.
  unfold ll_find. intros Hne. induction l as [|m l IH]; simpl.
  - by rewrite bool_decide_eq_false_2.
  - by case_bool_decide.
Qed.

Lemma ll_find_Some a (l : list N) n : ll_find a l = Some n -> n ∈ l /\ node_addr n = a.
Proof.
  unfold ll_find. intros [Hin Hp]%find_some.
  apply bool_decide_eq_true in Hp. split; [by apply list_elem_of_In|done].
Qed.

Lemma ll_find_None a (l : list N) : ll_find a l = None <-> a ∉ map node_addr l.
Proof.
  unfold ll_find. induction l as [|m l IH]; simpl.
  - split; [intros _; apply not_elem_of_nil|done].
  - rewrite elem_of_cons. case_bool_decide; [naive_solver|]. rewrite IH. naive_solver.
Qed.

Lemma ll_delete_sublist a (l : list N) : sublist (ll_delete a l) l.
Proof.
  induction l as [|m l IH]; simpl; [done|].
  case_bool_decide; [by apply sublist_cons|by apply sublist_skip].
Qed.

Lemma ll_delete_not_in a (l : list N) :
  NoDup (map node_addr l) -> a ∉ map node_addr (ll_delete a l).
Proof.
  induction l as [|m l IH]; simpl; [intros _; apply not_elem_of_nil|].
  rewrite NoDup_cons. intros [Hm Hnd]. case_bool_decide as Heq; [by subst|].
  simpl. rewrite elem_of_cons. intros [->|?]; [done|by apply IH].
Qed.

Lemma ll_find_delete_ne a b (l : list N) :
  a <> b -> ll_find b (ll_delete a l) = ll_find b l.
Proof.
  intros Hne. unfold ll_find. induction l as [|m l IH]; simpl; [done|].
  case_bool_decide as Ha; simpl.
  - by rewrite (bool_decide_eq_false_2 (node_addr m = b)) by congruence.
  - by rewrite IH.
Qed.
End LinkedList.

(** ** The three registries *)

(** [amlObject_t]: [cppObj] is the [AMLObject*] (a heap block). *)
Record amlObject_t := { on_node : Z; on_cppObj : Z; on_needsDelete : bool }.
(** [amlData_t]: [cppObj] is the [AMLData*]. *)
Record amlData_t := { dn_node : Z; dn_cppObj : ptr; dn_needsDelete : bool }.
(** [amlRep_t]: a representation node always owns its object. *)
Record amlRep_t := { rn_node : Z; rn_cppObj : Z }.

Record World := mkWorld {
  w_heap : heap;
  g_amlObjectHead : list amlObject_t;
  g_amlDataHead : list amlData_t;
  g_amlRepHead : list amlRep_t
}.

Definition empty_world : World := mkWorld ∅ [] [] [].

Definition set_heap (w : World) (h : heap) : World :=
  mkWorld h (g_amlObjectHead w) (g_amlDataHead w) (g_amlRepHead w).
Definition set_objs (w : World) (l : list amlObject_t) : World :=
  mkWorld (w_heap w) l (g_amlDataHead w) (g_amlRepHead w).
Definition set_datas (w : World) (l : list amlData_t) : World :=
  mkWorld (w_heap w) (g_amlObjectHead w) l (g_amlRepHead w).
Definition set_reps (w : World) (l : list amlRep_t) : World :=
  mkWorld (w_heap w) (g_amlObjectHead w) (g_amlDataHead w) l.

(** Every address in use: heap blocks and registry nodes. *)
Definition node_addrs (w : World) : list Z :=
  map on_node (g_amlObjectHead w) ++ map dn_node (g_amlDataHead w) ++ map rn_node (g_amlRepHead w).

Definition live (w : World) : gset Z := dom (w_heap w) ∪ list_to_set (node_addrs w).

(** The registered entry of a data handle. *)
Definition data_entry (w : World) (h : cptr) : option amlData_t := ll_find dn_node h (g_amlDataHead w).
Definition obj_entry (w : World) (h : cptr) : option amlObject_t := ll_find on_node h (g_amlObjectHead w).
Definition rep_entry (w : World) (h : cptr) : option amlRep_t := ll_find rn_node h (g_amlRepHead w).

(** The first data node whose [cppObj] is [p]. *)
Definition data_node_of_ptr (p : ptr) (l : list amlData_t) : option amlData_t :=
  List.find (fun n => bool_decide (dn_cppObj n = p)) l.

(** ** Freeing engine objects ([delete]) *)

(** [delete] of an [AMLData*]: only a heap root made by [new AMLData]
    may be deleted; deleting it twice reads freed memory. *)
Definition delete_data (p : ptr) : st World unit := fun w =>
  match p with
  | Ptr (HeapAddr b) [] =>
      match w_heap w !! b with
      | Some (BData _) => Done (set_heap w (delete b (w_heap w))) tt
      | _ => Crashed UseAfterFree
      end
  | _ => Crashed InvalidDelete
  end.

Definition delete_obj (b : Z) : st World unit := fun w =>
  match w_heap w !! b with
  | Some (BObj _) => Done (set_heap w (delete b (w_heap w))) tt
  | _ => Crashed UseAfterFree
  end.

Definition delete_rep (b : Z) : st World unit := fun w =>
  match w_heap w !! b with
  | Some (BRep _) => Done (set_heap w (delete b (w_heap w))) tt
  | _ => Crashed UseAfterFree
  end.

Section Registry.
Context {A : Allocator}.

(** [amlObjectHandle_t AddAmlObjHandle(AMLObject* amlObj, bool needsDelete)] *)
Definition AddAmlObjHandle (amlObj : Z) (needsDelete : bool) : st World cptr := fun w =>
  match malloc (live w) sizeof_amlObject_t with
  | None => Done w NULL
  | Some node =>
      Done (set_objs w (g_amlObjectHead w ++ [Build_amlObject_t node amlObj needsDelete])) node
  end.

(** [void RemoveAmlObj(amlObjectHandle_t handle)]: the handle is read as
    a node; it must be a live one. *)
Definition RemoveAmlObj (handle : cptr) : st World unit := fun w =>
  match obj_entry w handle with
  | None => Crashed UseAfterFree
  | Some n =>
      let w1 := set_objs w (ll_delete on_node handle (g_amlObjectHead w)) in
      if on_needsDelete n then delete_obj (on_cppObj n) w1 else Done w1 tt
  end.

(** [AMLObject* FindAmlObj(amlObjectHandle_t handle)] *)
Definition FindAmlObj (handle : cptr) : st World (option Z) := fun w =>
  Done w (on_cppObj <$> obj_entry w handle).

(** [amlDataHandle_t AddAmlDataHandle(AMLData* amlData, bool needsDelete)] *)
Definition AddAmlDataHandle (amlData : ptr) (needsDelete : bool) : st World cptr := fun w =>
  match malloc (live w) sizeof_amlData_t with
  | None => Done w NULL
  | Some node =>
      Done (set_datas w (g_amlDataHead w ++ [Build_amlData_t node amlData needsDelete])) node
  end.

(** [void RemoveAmlData(amlDataHandle_t handle)] *)
Definition RemoveAmlData (handle : cptr) : st World unit := fun w =>
  match data_entry w handle with
  | None => Crashed UseAfterFree
  | Some n =>
      let w1 := set_datas w (ll_delete dn_node handle (g_amlDataHead w)) in
      if dn_needsDelete n then delete_data (dn_cppObj n) w1 else Done w1 tt
  end.

(** [void RemoveAmlData(AMLData* amlData)]: drop the first node whose
    [cppObj] is [amlData], deleting the object if the node owns it; no
    node, nothing to do. *)
Definition RemoveAmlData_ptr (amlData : ptr) : st World unit := fun w =>
  match data_node_of_ptr amlData (g_amlDataHead w) with
  | None => Done w tt
  | Some n =>
      let w1 := set_datas w (ll_delete dn_node (dn_node n) (g_amlDataHead w)) in
      if dn_needsDelete n then delete_data (dn_cppObj n) w1 else Done w1 tt
  end.

(** [AMLData* FindAmlData(amlDataHandle_t handle)] *)
Definition FindAmlData (handle : cptr) : st World (option ptr) := fun w =>
  Done w (dn_cppObj <$> data_entry w handle).

(** [amlDataHandle_t* FindAmlDataHandle(AMLData* amlData)]: [NULL] if
    no node has this [cppObj]. *)
Definition FindAmlDataHandle (amlData : ptr) : st World cptr := fun w =>
  Done w (default NULL (dn_node <$> data_node_of_ptr amlData (g_amlDataHead w))).

(** [representation_t AddRepresentationHandle(Representation* rep)] *)
Definition AddRepresentationHandle (rep : Z) : st World cptr := fun w =>
  match malloc (live w) sizeof_amlRep_t with
  | None => Done w NULL
  | Some node => Done (set_reps w (g_amlRepHead w ++ [Build_amlRep_t node rep])) node
  end.

(** [void RemoveRepresentation(representation_t handle)] *)
Definition RemoveRepresentation (handle : cptr) : st World unit := fun w =>
  match rep_entry w handle with
  | None => Crashed UseAfterFree
  | Some n => delete_rep (rn_cppObj n) (set_reps w (ll_delete rn_node handle (g_amlRepHead w)))
  end.

(** [Representation* FindRepresentation(representation_t handle)] *)
Definition FindRepresentation (handle : cptr) : st World (option Z) := fun w =>
  Done w (rn_cppObj <$> rep_entry w handle).

End Registry.

(** ** The teardown walker *)

(** [void RemoveOwnedAmlDataHandles(AMLData* amlData)] run in recursion
    frame [frame] on [AVData d] (the value [*amlData]).  For each key whose
    value is an [AMLData], the code copies it into the local
    [AMLData ownedAmlData] (at [StackAddr frame]), recurses on the address
    of the copy, then calls [RemoveAmlData(&ownedAmlData)].  The entries
    are visited in key order, which is what [getKeys] followed by
    [getValueType]/[getValueToAMLData] on each key does when keys are
    unique. *)
Fixpoint RemoveOwnedAmlDataHandles_rec (frame : nat) (v : AMLValue) : st World unit :=
  match v with
  | AVData d =>
      (fix go (d : AMLData) : st World unit :=
         match d with
         | [] => st_ret tt
         | (key, owned) :: rest =>
             match owned with
             | AVData _ =>
                 let* _ := RemoveOwnedAmlDataHandles_rec (S frame) owned in
                 let* _ := RemoveAmlData_ptr (Ptr (StackAddr frame) []) in
                 go rest
             | _ => go rest
             end
         end) d
  | _ => st_ret tt
  end.

(** The entry point, on an [AMLData*] of the heap. *)
Definition RemoveOwnedAmlDataHandles (amlData : ptr) : st World unit := fun w =>
  match heap_data_at (w_heap w) amlData with
  | Some d => RemoveOwnedAmlDataHandles_rec 0 (AVData d) w
  | None => Crashed UseAfterFree
  end.

(** [void RemoveOwnedAmlDataHandles(AMLObject* amlObj)]: the same on each
    named data of the object, the local copy at [StackAddr 0]. *)
Definition RemoveOwnedAmlDataHandles_obj (amlObj : Z) : st World unit := fun w =>
  match w_heap w !! amlObj with
  | Some (BObj o) =>
      foldr (fun nd k =>
               let* _ := RemoveOwnedAmlDataHandles_rec 1 (AVData (snd nd)) in
               let* _ := RemoveAmlData_ptr (Ptr (StackAddr 0) []) in
               k)
            (st_ret tt) (o_datas o) w
  | _ => Crashed UseAfterFree
  end.

(** ** Registry invariant *)

(** The heap block a pointer is based on, if it is a heap pointer. *)
Definition heap_base (p : ptr) : option Z :=
  match p_addr p with HeapAddr b => Some b | StackAddr _ => None end.

(** The [AMLData] made by [new AMLData] that [p] is the root of. *)
Definition data_root_block (h : heap) (p : ptr) : option AMLData :=
  match p with
  | Ptr (HeapAddr b) [] => match h !! b with Some (BData d) => Some d | _ => None end
  | _ => None
  end.

Definition obj_block (h : heap) (b : Z) : option AMLObject :=
  match h !! b with Some (BObj o) => Some o | _ => None end.

Definition rep_block (h : heap) (b : Z) : option string :=
  match h !! b with Some (BRep f) => Some f | _ => None end.

(** What the registries keep true between API calls: node addresses are
    distinct, non-[NULL] and not heap blocks; data pointers are heap
    pointers and are registered at most once (the spec's I2); an owning
    data node points to a live [new AMLData] root, a borrowing one into
    the inside of a block; object and representation nodes own live
    blocks of their kind, one node per block. *)
Record reg_wf (w : World) : Prop := {
  wf_nodes_nodup : NoDup (node_addrs w);
  wf_nodes_fresh : Forall (fun a => a ∉ dom (w_heap w) /\ a <> NULL) (node_addrs w);
  wf_data_heap : Forall (fun n => is_Some (heap_base (dn_cppObj n))) (g_amlDataHead w);
  wf_data_ptr_nodup : NoDup (map dn_cppObj (g_amlDataHead w));
  wf_data_owned : Forall (fun n => dn_needsDelete n = true ->
                                   is_Some (data_root_block (w_heap w) (dn_cppObj n)))
                    (g_amlDataHead w);
  wf_data_borrowed : Forall (fun n => dn_needsDelete n = false -> p_path (dn_cppObj n) <> [])
                       (g_amlDataHead w);
  wf_objs_owned : Forall (fun n => on_needsDelete n = true /\ is_Some (obj_block (w_heap w) (on_cppObj n)))
                    (g_amlObjectHead w);
  wf_objs_nodup : NoDup (map on_cppObj (g_amlObjectHead w));
  wf_reps_owned : Forall (fun n => is_Some (rep_block (w_heap w) (rn_cppObj n))) (g_amlRepHead w);
  wf_reps_nodup : NoDup (map rn_cppObj (g_amlRepHead w))
}.

(** The invariant, decided field by field. *)
Definition reg_wfb (w : World) : bool :=
  bool_decide (NoDup (node_addrs w)) &&
  bool_decide (Forall (fun a => a ∉ dom (w_heap w) /\ a <> NULL) (node_addrs w)) &&
  bool_decide (Forall (fun n => is_Some (heap_base (dn_cppObj n))) (g_amlDataHead w)) &&
  bool_decide (NoDup (map dn_cppObj (g_amlDataHead w))) &&
  bool_decide (Forall (fun n => dn_needsDelete n = true ->
                                is_Some (data_root_block (w_heap w) (dn_cppObj n))) (g_amlDataHead w)) &&
  bool_decide (Forall (fun n => dn_needsDelete n = false -> p_path (dn_cppObj n) <> [])
                 (g_amlDataHead w)) &&
  bool_decide (Forall (fun n => on_needsDelete n = true /\ is_Some (obj_block (w_heap w) (on_cppObj n)))
                 (g_amlObjectHead w)) &&
  bool_decide (NoDup (map on_cppObj (g_amlObjectHead w))) &&
  bool_decide (Forall (fun n => is_Some (rep_block (w_heap w) (rn_cppObj n))) (g_amlRepHead w)) &&
  bool_decide (NoDup (map rn_cppObj (g_amlRepHead w))).

(** ** Registry lemmas *)

Lemma reg_wfb_sound w : reg_wfb w = true -> reg_wf w.
Proof.
  unfold reg_wfb. rewrite !andb_true_iff, !bool_decide_eq_true. intros.
  destruct_and!. by split.
Qed.

Lemma data_node_of_ptr_Some p l n :
  data_node_of_ptr p l = Some n -> n ∈ l /\ dn_cppObj n = p.
Proof.
  unfold data_node_of_ptr. intros [Hin Hp]%find_some.
  apply bool_decide_eq_true in Hp. split; [by apply list_elem_of_In|done].
Qed.

Lemma data_node_of_ptr_None p l :
  data_node_of_ptr p l = None <-> p ∉ map dn_cppObj l.
Proof.
  unfold data_node_of_ptr. induction l as [|m l IH]; simpl.
  - split; [intros _; apply not_elem_of_nil|done].
  - rewrite elem_of_cons. case_bool_decide; [naive_solver|]. rewrite IH. naive_solver.
Qed.

Lemma data_node_of_ptr_app_new p l n :
  data_node_of_ptr p l = None -> dn_cppObj n = p -> data_node_of_ptr p (l ++ [n]) = Some n.
Proof.
  unfold data_node_of_ptr. intros Hl Hn. induction l as [|m l IH]; simpl in *.
  - by rewrite bool_decide_eq_true_2.
  - case_bool_decide; [discriminate|]. by apply IH.
Qed.

Lemma node_addrs_live w a : a ∈ node_addrs w -> a ∈ live w.
Proof. unfold live. intros H. apply elem_of_union_r. by apply elem_of_list_to_set. Qed.

Lemma data_node_live w a : a ∈ map dn_node (g_amlDataHead w) -> a ∈ live w.
Proof. intros H. apply node_addrs_live. unfold node_addrs. set_solver. Qed.

#[export] Hint Resolve node_addrs_live data_node_live : aml.

(** A stack address is never registered while all registered data
    pointers are heap pointers. *)
Lemma data_node_of_stack_None w frame path :
  Forall (fun n => is_Some (heap_base (dn_cppObj n))) (g_amlDataHead w) ->
  data_node_of_ptr (Ptr (StackAddr frame) path) (g_amlDataHead w) = None.
Proof.
  intros Hall. destruct (data_node_of_ptr _ _) as [n|] eqn:E; [|done].
  apply data_node_of_ptr_Some in E as [Hin Hp].
  rewrite Forall_forall in Hall. destruct (Hall n Hin) as [b Hb]. by rewrite Hp in Hb.
Qed.

Lemma RemoveAmlData_ptr_stack w frame :
  Forall (fun n => is_Some (heap_base (dn_cppObj n))) (g_amlDataHead w) ->
  RemoveAmlData_ptr (Ptr (StackAddr frame) []) w = Done w tt.
Proof. intros Hall. unfold RemoveAmlData_ptr. by rewrite data_node_of_stack_None. Qed.

Section RegistryTheorems.
Context `{AS : AllocatorSpec}.

Lemma AddAmlDataHandle_result p nd w w' h :
  AddAmlDataHandle p nd w = Done w' h ->
  (h = NULL /\ w' = w) \/
  (h ∉ live w /\ h <> NULL /\ w' = set_datas w (g_amlDataHead w ++ [Build_amlData_t h p nd])).
Proof.
  unfold AddAmlDataHandle. destruct (malloc (live w) _) as [a|] eqn:E; intros [= <- <-]; [|by left].
  right. destruct (malloc_fresh _ _ _ E). auto.
Qed.

(** The registry round trip: a data handle returned by
    [AddAmlDataHandle] resolves through [FindAmlData] to the pointer it
    was registered with, with the ownership flag it was given. *)
Theorem AddAmlDataHandle_FindAmlData p nd w w' h :
  AddAmlDataHandle p nd w = Done w' h -> h <> NULL ->
  FindAmlData h w' = Done w' (Some p) /\ data_entry w' h = Some (Build_amlData_t h p nd).
Proof.
  intros Hadd Hh. destruct (AddAmlDataHandle_result _ _ _ _ _ Hadd) as [[]|(Hfresh & _ & ->)]; [done|].
  assert (Hent : data_entry (set_datas w (g_amlDataHead w ++ [Build_amlData_t h p nd])) h
                 = Some (Build_amlData_t h p nd)).
  { unfold data_entry. simpl. apply (ll_find_app_new dn_node _ (Build_amlData_t h p nd)).
    simpl. intros Hin. apply Hfresh. auto with aml. }
  split; [|done]. unfold FindAmlData. by rewrite Hent.
Qed.

(** Registering leaves every other handle's entry as it was. *)
Lemma AddAmlDataHandle_other p nd w w' h h' :
  AddAmlDataHandle p nd w = Done w' h -> h' <> h -> data_entry w' h' = data_entry w h'.
Proof.
  intros Hadd Hne. destruct (AddAmlDataHandle_result _ _ _ _ _ Hadd) as [[_ ->]|(_ & _ & ->)]; [done|].
  unfold data_entry. simpl. by apply ll_find_app_ne.
Qed.
End RegistryTheorems.

(** Data nodes have distinct addresses. *)
Lemma wf_data_nodup w : reg_wf w -> NoDup (map dn_node (g_amlDataHead w)).
Proof.
  intros Hwf. pose proof (wf_nodes_nodup _ Hwf) as Hn. unfold node_addrs in Hn.
  apply NoDup_app in Hn as (_ & _ & Hn). by apply NoDup_app in Hn as [? _].
Qed.

(** [RemoveAmlData] takes the handle out of the data list. *)
Lemma RemoveAmlData_gone w w' h :
  reg_wf w -> RemoveAmlData h w = Done w' tt -> data_entry w' h = None.
Proof.
  intros Hwf. unfold RemoveAmlData. destruct (data_entry w h) as [n|] eqn:E; [|discriminate].
  pose proof (wf_data_nodup _ Hwf) as Hnd.
  assert (Hgone : data_entry (set_datas w (ll_delete dn_node h (g_amlDataHead w))) h = None).
  { unfold data_entry. simpl. apply ll_find_None. by apply ll_delete_not_in. }
  destruct (dn_needsDelete n).
  - unfold delete_data. destruct (dn_cppObj n) as [[b|] [|]]; try discriminate.
    destruct (_ !! b) as [[]|]; try discriminate. intros [= <-]. exact Hgone.
  - intros [= <-]. exact Hgone.
Qed.

(** The walker unregisters only stack addresses, which are never registered. *)
Lemma walker_rec_keeps_world frame v w :
  Forall (fun n => is_Some (heap_base (dn_cppObj n))) (g_amlDataHead w) ->
  RemoveOwnedAmlDataHandles_rec frame v w = Done w tt.
Proof.
  intros Hall. revert frame.
  induction v as [s|l|d IH] using AMLValue_ind'; intros frame; [done|done|].
  simpl. induction d as [|[key owned] rest IHd]; [done|].
  apply Forall_cons in IH as [Hown Hrest]. simpl in Hown.
  destruct owned; try by apply IHd.
  unfold st_bind at 1. rewrite Hown.
  unfold st_bind. rewrite RemoveAmlData_ptr_stack by done. by apply IHd.
Qed.

Lemma RemoveOwnedAmlDataHandles_noop p w d :
  Forall (fun n => is_Some (heap_base (dn_cppObj n))) (g_amlDataHead w) ->
  heap_data_at (w_heap w) p = Some d ->
  RemoveOwnedAmlDataHandles p w = Done w tt.
Proof.
  intros Hall Hd. unfold RemoveOwnedAmlDataHandles. rewrite Hd.
  by apply walker_rec_keeps_world.
Qed.

Lemma RemoveOwnedAmlDataHandles_obj_noop b o w :
  Forall (fun n => is_Some (heap_base (dn_cppObj n))) (g_amlDataHead w) ->
  w_heap w !! b = Some (BObj o) ->
  RemoveOwnedAmlDataHandles_obj b w = Done w tt.
Proof.
  intros Hall Hb. unfold RemoveOwnedAmlDataHandles_obj. rewrite Hb.
  induction (o_datas o) as [|[name d] rest IH]; [done|]. cbn [foldr snd].
  unfold st_bind at 1. rewrite walker_rec_keeps_world by done.
  unfold st_bind. by rewrite RemoveAmlData_ptr_stack.
Qed.

(** Once [RemoveAmlData(handle)] has run, the handle no longer
    resolves: [FindAmlData] returns [NULL] for it. *)
Theorem RemoveAmlData_FindAmlData w w' h :
  reg_wf w -> RemoveAmlData h w = Done w' tt -> data_entry w' h = None.
Proof. apply RemoveAmlData_gone. Qed.

(** C3: the teardown walker, as written, removes no registry entry: it
    copies each nested [AMLData] into a local and unregisters the address
    of that local, which is never a registered pointer.  Whatever the
    value walked, it leaves the world unchanged. *)
Theorem RemoveOwnedAmlDataHandles_rec_noop frame v w :
  Forall (fun n => is_Some (heap_base (dn_cppObj n))) (g_amlDataHead w) ->
  RemoveOwnedAmlDataHandles_rec frame v w = Done w tt.
Proof. apply walker_rec_keeps_world. Qed.

(** ** Witnesses *)

(** Registering [heap_root 5] in the empty world with the bump allocator
    yields node 1, which resolves back to it. *)
Lemma AddAmlDataHandle_FindAmlData_witness :
  FindAmlData 1%Z (mkWorld ∅ [] [Build_amlData_t 1%Z (heap_root 5%Z) true] [])
    = Done (mkWorld ∅ [] [Build_amlData_t 1%Z (heap_root 5%Z) true] []) (Some (heap_root 5%Z)) /\
  data_entry (mkWorld ∅ [] [Build_amlData_t 1%Z (heap_root 5%Z) true] []) 1
    = Some (Build_amlData_t 1%Z (heap_root 5%Z) true).
Proof.
  apply (AddAmlDataHandle_FindAmlData (A := bump_alloc) (heap_root 5%Z) true empty_world).
  - vm_compute. reflexivity.
  - discriminate.
Defined.

(** A world with one owning data node (node 1, block 2) and the world
    after [RemoveAmlData(1)]. *)
Lemma RemoveAmlData_FindAmlData_witness :
  reg_wf (mkWorld {[2%Z := BData []]} [] [Build_amlData_t 1%Z (heap_root 2%Z) true] []) /\
  RemoveAmlData 1%Z (mkWorld {[2%Z := BData []]} [] [Build_amlData_t 1%Z (heap_root 2%Z) true] [])
    = Done (mkWorld (delete 2%Z {[2%Z := BData []]}) [] [] []) tt /\
  data_entry (mkWorld (delete 2%Z {[2%Z := BData []]}) [] [] []) 1%Z = None.
Proof.
  assert (Hwf : reg_wf (mkWorld {[2%Z := BData []]} [] [Build_amlData_t 1%Z (heap_root 2%Z) true] [])).
  { apply reg_wfb_sound. vm_compute. reflexivity. }
  assert (Hrm : RemoveAmlData 1%Z (mkWorld {[2%Z := BData []]} [] [Build_amlData_t 1%Z (heap_root 2%Z) true] [])
                = Done (mkWorld (delete 2%Z {[2%Z := BData []]}) [] [] []) tt).
  { reflexivity. }
  split; [exact Hwf|]. split; [exact Hrm|].
  exact (RemoveAmlData_FindAmlData _ _ 1%Z Hwf Hrm).
Defined.

(** A borrowed handle (node 1) for the nested value at key ["k"] of
    block 2: walking that block's value leaves it registered. *)
Lemma RemoveOwnedAmlDataHandles_rec_noop_witness :
  RemoveOwnedAmlDataHandles_rec 0 (AVData [("k"%string, AVData [])])
    (mkWorld {[2%Z := BData [("k"%string, AVData [])]]} []
             [Build_amlData_t 1%Z (Ptr (HeapAddr 2%Z) ["k"%string]) false] [])
  = Done (mkWorld {[2%Z := BData [("k"%string, AVData [])]]} []
                  [Build_amlData_t 1%Z (Ptr (HeapAddr 2%Z) ["k"%string]) false] []) tt.
Proof.
  apply RemoveOwnedAmlDataHandles_rec_noop.
  repeat constructor. simpl. eexists. reflexivity.
Defined.
