(* ===== verification/CamlUtils.v ===== *)
(** * Helpers shared by the API functions (camlutils.cpp and the C++ runtime)

    The result of an API function is its [CAMLErrorCode] and what it wrote
    to its out-parameter ([None]: left unwritten).  [guard] is one
    [VERIFY_PARAM_NON_NULL]-style early return.  [new_data], [new_obj] and
    [new_rep] are [operator new] (a [std::bad_alloc] escapes the C
    boundary); [read_data] and [update_data] go through an [AMLData*]
    (reading a dangling one is a use after free).  The string marshaling of
    camlutils.cpp allocates buffers the caller frees: the model keeps what
    they contain and whether [malloc] failed, not their addresses. *)

From S2P Require Import Prelude ErrorCodes Engine Memory HandleManager.

(** [typedef enum { AMLVALTYPE_STRING = 0, AMLVALTYPE_STRINGARRAY,
    AMLVALTYPE_AMLDATA } CAMLValueType] *)
Inductive CAMLValueType := AMLVALTYPE_STRING | AMLVALTYPE_STRINGARRAY | AMLVALTYPE_AMLDATA.

#[export] Instance CAMLValueType_eq_dec : EqDecision CAMLValueType.
Proof. solve_decision. Defined.

(** A result code and the value written to the out-parameter. *)
Definition result (T : Type) : Type := (CAMLErrorCode * option T)%type.

Definition ret_err {T} (c : CAMLErrorCode) : st World (result T) := st_ret (c, None).
Definition ret_ok {T} (v : T) : st World (result T) := st_ret (CAML_OK, Some v).

(** An early return: the check's error code, if it has one. *)
Definition guard {T} (chk : option CAMLErrorCode) (k : st World (result T)) : st World (result T) :=
  match chk with
  | Some c => ret_err c
  | None => k
  end.

(** [catch (const AMLException& e) { return ExceptionCodeToErrorCode(e.code()); }] *)
Definition catch_aml {A T} (r : ResultCode + A) (k : A -> st World (result T)) : st World (result T) :=
  match r with
  | inl e => ret_err (ExceptionCodeToErrorCode e)
  | inr a => k a
  end.

Section Runtime.
Context {A : Allocator}.

(** [new] of an engine object: a fresh heap block. *)
Definition new_block_with (b : block) : st World Z := fun w =>
  match new_block (live w) with
  | None => Crashed BadAllocEscapes
  | Some a => Done (set_heap w (<[a := b]> (w_heap w))) a
  end.

(** [new T(args)]: the memory is allocated first ([std::bad_alloc]
    escapes), then the constructor runs; if it throws, the memory is
    released and the exception is returned. *)
Definition new_with (ctor : ResultCode + block) : st World (ResultCode + Z) := fun w =>
  match new_block (live w) with
  | None => Crashed BadAllocEscapes
  | Some a =>
      match ctor with
      | inl e => Done w (inl e)
      | inr b => Done (set_heap w (<[a := b]> (w_heap w))) (inr a)
      end
  end.

Definition new_data (d : AMLData) : st World Z := new_block_with (BData d).
Definition new_obj (o : AMLObject) : st World Z := new_block_with (BObj o).
Definition new_rep (filePath : string) : st World Z := new_block_with (BRep filePath).

(** [char* ConvertStringToCharStr(std::string str)] *)
Definition ConvertStringToCharStr (str : string) : st World (option string) := fun w =>
  match malloc (live w) (String.length str + 1) with
  | None => Done w None
  | Some _ => Done w (Some str)
  end.

(** The loop of [ConvertVectorToCharStrArr]: one string per element; a
    failure frees what was made and returns [nullptr]. *)
Fixpoint ConvertEach (l : list string) : st World (option (list string)) :=
  match l with
  | [] => st_ret (Some [])
  | s :: l' =>
      let* c := ConvertStringToCharStr s in
      match c with
      | None => st_ret None
      | Some s' =>
          let* r := ConvertEach l' in
          st_ret (cons s' <$> r)
      end
  end.

(** [char** ConvertVectorToCharStrArr(std::vector<std::string>& list)] *)
Definition ConvertVectorToCharStrArr (l : list string) : st World (option (list string)) := fun w =>
  match malloc (live w) (sizeof_ptr * length l) with
  | None => Done w None
  | Some _ => ConvertEach l w
  end.

(** The block [AMLData_GetValueAMLData] and [AMLObject_GetData] share:
    the handle already registered for the address [amlData], else a new
    borrowing ([needsDelete = false]) handle for it. *)
Definition find_or_add_alias (amlData : ptr) : st World (result cptr) :=
  let* valueHandle := FindAmlDataHandle amlData in
  if is_null valueHandle then
    let* valueHandle := AddAmlDataHandle amlData false in
    if is_null valueHandle then ret_err CAML_NO_MEMORY else ret_ok valueHandle
  else ret_ok valueHandle.

End Runtime.

(** [*amlData]: the value behind an [AMLData*]. *)
Definition read_data (p : ptr) : st World AMLData := fun w =>
  match heap_data_at (w_heap w) p with
  | Some d => Done w d
  | None => Crashed UseAfterFree
  end.

(** [*amlObj] *)
Definition read_obj (b : Z) : st World AMLObject := fun w =>
  match obj_block (w_heap w) b with
  | Some o => Done w o
  | None => Crashed UseAfterFree
  end.

(** Call an engine mutator on [*amlObj]. *)
Definition update_obj (b : Z) (f : AMLObject -> ResultCode + AMLObject) : st World (ResultCode + unit) :=
  fun w =>
    match obj_block (w_heap w) b with
    | Some o =>
        match f o with
        | inr o' => Done (set_heap w (<[b := BObj o']> (w_heap w))) (inr tt)
        | inl e => Done w (inl e)
        end
    | None => Crashed UseAfterFree
    end.

(** The filePath of a live [Representation*]. *)
Definition read_rep (b : Z) : st World string := fun w =>
  match rep_block (w_heap w) b with
  | Some f => Done w f
  | None => Crashed UseAfterFree
  end.

(** Call an engine mutator on [*amlData]; its exception is returned. *)
Definition update_data (p : ptr) (f : AMLData -> ResultCode + AMLData) : st World (ResultCode + unit) :=
  fun w =>
    match heap_data_update (w_heap w) p f with
    | Some (inr h') => Done (set_heap w h') (inr tt)
    | Some (inl e) => Done w (inl e)
    | None => Crashed UseAfterFree
    end.

(** [value[i]] for [i < valueSize], each through [strlen]. *)
Fixpoint read_cstr_array (value : list cstr) (valueSize : nat) : st World (list string) :=
  match valueSize with
  | O => st_ret []
  | S n =>
      match value with
      | [] => st_crash OutOfBoundsRead
      | None :: _ => st_crash NullDereference
      | Some s :: rest =>
          let* l := read_cstr_array rest n in
          st_ret (s :: l)
      end
  end.

(** The [switch] of [AMLData_GetValueType]. *)
Definition toCAMLValueType (t : AMLValueType) : CAMLValueType :=
  match t with
  | VT_String => AMLVALTYPE_STRING
  | VT_StringArray => AMLVALTYPE_STRINGARRAY
  | VT_AMLData => AMLVALTYPE_AMLDATA
  end.

(** ** Lemmas *)

Lemma ConvertStringToCharStr_spec `{Allocator} s w :
  ConvertStringToCharStr s w = Done w (Some s) \/ ConvertStringToCharStr s w = Done w None.
Proof. unfold ConvertStringToCharStr. destruct (malloc _ _); auto. Qed.

(** The marshaled array, when made, is the list itself, and the world is
    unchanged either way. *)
Lemma ConvertVectorToCharStrArr_spec `{Allocator} l w :
  ConvertVectorToCharStrArr l w = Done w (Some l) \/ ConvertVectorToCharStrArr l w = Done w None.
Proof.
  unfold ConvertVectorToCharStrArr. destruct (malloc _ _); [|by right].
  induction l as [|s l IH]; simpl; [by left|]. unfold st_bind.
  destruct (ConvertStringToCharStr_spec s w) as [E|E]; rewrite E; [|by right].
  destruct IH as [E'|E']; rewrite E'; [by left|by right].
Qed.

Lemma read_cstr_array_spec (l : list string) w :
  read_cstr_array (map Some l) (length l) w = Done w l.
Proof.
  induction l as [|s l IH]; [done|]. simpl. unfold st_bind. by rewrite IH.
Qed.
