(* ===== verification/RegistryFacts.v ===== *)
(** * How the registry invariant survives each primitive state change

    The API functions change the world only through a few primitives:
    [new] of a block, an in-place engine update of a block, appending a
    node, unlinking a node and deleting a block.  Each lemma here says
    when one of them keeps [reg_wf]; the per-function theorems of
    [CamlData] compose them.  [st_case] is the tactic that steps through a
    monadic run. *)

From S2P Require Import Prelude ErrorCodes Engine Memory HandleManager CamlUtils.

(** The kind of block at an address, the part of the heap the invariant
    depends on. *)
Inductive kind := KData | KObj | KRep.

Definition block_kind (ob : option block) : option kind :=
  match ob with
  | Some (BData _) => Some KData
  | Some (BObj _) => Some KObj
  | Some (BRep _) => Some KRep
  | None => None
  end.

Definition same_kinds (h h' : heap) : Prop := forall b, block_kind (h !! b) = block_kind (h' !! b).

(** Step through [let*]: case on the first computation a hypothesis runs,
    dropping its crash case. *)
Ltac st_case H :=
  unfold st_bind in H;
  match type of H with
  | context [match ?e with Done _ _ => _ | Crashed _ => _ end] =>
      let E := fresh "E" in destruct e eqn:E; [|discriminate H]
  end.

Tactic Notation "st_case" hyp(H) "as" ident(w) ident(x) :=
  unfold st_bind in H; lazy beta iota zeta in H;
  match type of H with
  | context [match ?e with Done _ _ => _ | Crashed _ => _ end] =>
      let E := fresh "E" in destruct e as [w x|?] eqn:E; [|discriminate H]
  end.

(** Finish a hypothesis [Done w a = Done w' a'] by substituting. *)
Ltac done_inv H := injection H as <- <-.

(** ** Heap changes *)

(** [h'] keeps the kind of every block of [h]. *)
Definition kinds_kept (h h' : heap) : Prop :=
  forall b, is_Some (h !! b) -> block_kind (h' !! b) = block_kind (h !! b).

Lemma kinds_kept_data_root h h' p :
  kinds_kept h h' -> is_Some (data_root_block h p) -> is_Some (data_root_block h' p).
Proof.
  intros Hk. destruct p as [[b|] [|]]; simpl; try by intros [].
  specialize (Hk b). destruct (h !! b) as [[]|]; simpl in *; intros [? Hx]; try discriminate.
  specialize (Hk ltac:(eauto)). destruct (h' !! b) as [[]|]; simpl in *; by try discriminate.
Qed.

Lemma kinds_kept_obj h h' b :
  kinds_kept h h' -> is_Some (obj_block h b) -> is_Some (obj_block h' b).
Proof.
  intros Hk. unfold obj_block. specialize (Hk b).
  destruct (h !! b) as [[]|]; simpl in *; intros [? Hx]; try discriminate.
  specialize (Hk ltac:(eauto)). destruct (h' !! b) as [[]|]; simpl in *; by try discriminate.
Qed.

Lemma kinds_kept_rep h h' b :
  kinds_kept h h' -> is_Some (rep_block h b) -> is_Some (rep_block h' b).
Proof.
  intros Hk. unfold rep_block. specialize (Hk b).
  destruct (h !! b) as [[]|]; simpl in *; intros [? Hx]; try discriminate.
  specialize (Hk ltac:(eauto)). destruct (h' !! b) as [[]|]; simpl in *; by try discriminate.
Qed.

(** A heap change that keeps the kind of every block and puts no block
    at a node's address keeps the invariant. *)
Lemma wf_heap_change w h' :
  reg_wf w -> kinds_kept (w_heap w) h' ->
  Forall (fun a => a ∉ dom h') (node_addrs w) ->
  reg_wf (set_heap w h').
Proof.
  intros Hwf Hk Hn. pose proof (wf_nodes_fresh _ Hwf) as Hf. destruct Hwf. split; simpl; auto.
  - rewrite Forall_forall in *. intros a Ha. split; [by apply Hn|]. exact (proj2 (Hf a Ha)).
  - eapply Forall_impl; [exact wf_data_owned|]. intros n Hd Ho. eapply kinds_kept_data_root; eauto.
  - eapply Forall_impl; [exact wf_objs_owned|]. intros n [? Ho]. split; [done|]. eapply kinds_kept_obj; eauto.
  - eapply Forall_impl; [exact wf_reps_owned|]. intros n Ho. eapply kinds_kept_rep; eauto.
Qed.

Lemma not_live_dom w a : a ∉ live w -> a ∉ dom (w_heap w).
Proof. unfold live. set_solver. Qed.

Lemma not_live_nodes w a : a ∉ live w -> a ∉ node_addrs w.
Proof. unfold live. intros Ha Hin. apply Ha, elem_of_union_r, elem_of_list_to_set, Hin. Qed.

(** A fresh block keeps the invariant. *)
Lemma wf_new_block w a blk :
  reg_wf w -> a ∉ live w -> reg_wf (set_heap w (<[a := blk]> (w_heap w))).
Proof.
  intros Hwf Ha. apply wf_heap_change; [done| |].
  - intros b Hb. rewrite lookup_insert_ne; [done|]. intros ->.
    apply (not_live_dom _ _ Ha). by apply elem_of_dom.
  - pose proof (wf_nodes_fresh _ Hwf) as Hf. rewrite Forall_forall in *. intros x Hx.
    rewrite dom_insert_L, not_elem_of_union, not_elem_of_singleton. split; [|by apply Hf].
    intros ->. by apply (not_live_nodes _ _ Ha).
Qed.

(** An in-place engine update rewrites one block with a block of the
    same kind. *)
Lemma heap_data_update_kinds h p f h' :
  heap_data_update h p f = Some (inr h') -> kinds_kept h h' /\ dom h' = dom h.
Proof.
  unfold heap_data_update. destruct (p_addr p) as [b|]; [|discriminate].
  intros Hu. destruct (h !! b) as [[d|o|r]|] eqn:Eb; [| | destruct (p_path p); discriminate|discriminate].
  - destruct (data_update_at d _ f) as [[e|d']|]; try discriminate. injection Hu as <-.
    split; [|rewrite dom_insert_L; apply set_eq; intros x; rewrite elem_of_union, elem_of_singleton;
             split; [intros [->|]; [apply elem_of_dom; eauto|]|]; auto].
    intros b' _. destruct (decide (b = b')) as [<-|Hne]; [by rewrite lookup_insert_eq, Eb|by rewrite lookup_insert_ne].
  - destruct (p_path p) as [|name path]; [discriminate|].
    destruct (assoc_lookup name (o_datas o)); [|discriminate].
    destruct (data_update_at _ _ f) as [[e|d']|]; try discriminate. injection Hu as <-.
    split; [|rewrite dom_insert_L; apply set_eq; intros x; rewrite elem_of_union, elem_of_singleton;
             split; [intros [->|]; [apply elem_of_dom; eauto|]|]; auto].
    intros b' _. destruct (decide (b = b')) as [<-|Hne]; [by rewrite lookup_insert_eq, Eb|by rewrite lookup_insert_ne].
Qed.

Lemma wf_update_data w p f w' r :
  reg_wf w -> update_data p f w = Done w' r -> reg_wf w'.
Proof.
  intros Hwf. unfold update_data.
  destruct (heap_data_update _ p f) as [[e|h']|] eqn:E; intros Hd; try discriminate; injection Hd as <- <-;
    [done|]. apply heap_data_update_kinds in E as [Hk Hdom].
  apply wf_heap_change; [done..|]. rewrite Hdom. eapply Forall_impl; [apply wf_nodes_fresh, Hwf|].
  by intros a [].
Qed.

(** ** Registry changes *)

Lemma node_addrs_app_data w n :
  node_addrs (set_datas w (g_amlDataHead w ++ [n])) ≡ₚ dn_node n :: node_addrs w.
Proof.
  unfold node_addrs. simpl. rewrite map_app. simpl.
  rewrite <- app_assoc. simpl. rewrite app_assoc.
  by rewrite <- Permutation_middle, <- app_assoc.
Qed.

Lemma data_entry_node w h n : data_entry w h = Some n -> h ∈ node_addrs w.
Proof.
  intros [Hin <-]%ll_find_Some. unfold node_addrs.
  apply elem_of_app. right. apply elem_of_app. left. by apply list_elem_of_fmap_2.
Qed.

Lemma data_entry_not_null w h n : reg_wf w -> data_entry w h = Some n -> h <> NULL.
Proof.
  intros Hwf Hn. apply data_entry_node in Hn.
  pose proof (wf_nodes_fresh _ Hwf) as Hf. rewrite Forall_forall in Hf. by apply Hf.
Qed.

Lemma data_entry_live w h n : data_entry w h = Some n -> h ∈ live w.
Proof. intros Hn. by eapply node_addrs_live, data_entry_node. Qed.

(** Appending a node for a pointer that is not registered, whose
    ownership matches its shape, keeps the invariant. *)
Lemma wf_AddAmlDataHandle `{AllocatorSpec} p nd w w' h :
  reg_wf w -> is_Some (heap_base p) -> p ∉ map dn_cppObj (g_amlDataHead w) ->
  (nd = true -> is_Some (data_root_block (w_heap w) p)) ->
  (nd = false -> p_path p <> []) ->
  AddAmlDataHandle p nd w = Done w' h -> reg_wf w'.
Proof.
  intros Hwf Hp Hnew Hown Hbor Hadd.
  destruct (AddAmlDataHandle_result _ _ _ _ _ Hadd) as [[_ ->]|(Hfresh & Hnn & ->)]; [done|].
  pose proof (node_addrs_app_data w (Build_amlData_t h p nd)) as Hperm. simpl in Hperm.
  destruct Hwf. split; simpl.
  - rewrite Hperm. constructor; [|done]. intros Hin. apply Hfresh. by apply node_addrs_live.
  - rewrite Hperm. constructor; [|done]. split; [|done]. by apply not_live_dom.
  - apply Forall_app. split; [done|]. by constructor.
  - rewrite map_app. apply NoDup_app. split; [done|]. split; [|apply NoDup_singleton].
    intros x Hx ->%list_elem_of_singleton. simpl in Hx. done.
  - apply Forall_app. split; [done|]. by constructor.
  - apply Forall_app. split; [done|]. by constructor.
  - done.
  - done.
  - done.
  - done.
Qed.

(** Unlinking a node keeps the invariant. *)
Lemma wf_ll_delete_data w a : reg_wf w -> reg_wf (set_datas w (ll_delete dn_node a (g_amlDataHead w))).
Proof.
  intros []. pose proof (ll_delete_sublist dn_node a (g_amlDataHead w)) as Hs.
  assert (Hn : sublist (node_addrs (set_datas w (ll_delete dn_node a (g_amlDataHead w)))) (node_addrs w)).
  { unfold node_addrs. simpl. apply sublist_app; [done|]. apply sublist_app; [|done].
    by apply map_sublist_of. }
  split; simpl; try done.
  - exact (sublist_NoDup _ _ wf_nodes_nodup Hn).
  - exact (Forall_sublist_of _ _ _ Hn wf_nodes_fresh).
  - exact (Forall_sublist_of _ _ _ Hs wf_data_heap).
  - exact (sublist_NoDup _ _ wf_data_ptr_nodup (map_sublist_of _ _ _ Hs)).
  - exact (Forall_sublist_of _ _ _ Hs wf_data_owned).
  - exact (Forall_sublist_of _ _ _ Hs wf_data_borrowed).
Qed.

(** Deleting a block no node owns keeps the invariant. *)
Lemma wf_delete_block w b :
  reg_wf w ->
  Forall (fun n => dn_needsDelete n = true -> dn_cppObj n <> heap_root b) (g_amlDataHead w) ->
  b ∉ map on_cppObj (g_amlObjectHead w) ->
  b ∉ map rn_cppObj (g_amlRepHead w) ->
  reg_wf (set_heap w (delete b (w_heap w))).
Proof.
  intros Hwf Hd Ho Hr. pose proof Hwf as [].
  split; simpl; try done.
  - eapply Forall_impl; [exact wf_nodes_fresh|]. intros a [Ha Hn]. split; [|done].
    rewrite dom_delete_L. set_solver.
  - apply Forall_forall. rewrite Forall_forall in wf_data_owned, Hd. intros n Hin Hown.
    specialize (wf_data_owned n Hin Hown). specialize (Hd n Hin Hown).
    destruct (dn_cppObj n) as [[b'|] [|]]; simpl in *; try by destruct wf_data_owned.
    rewrite lookup_delete_ne; [done|]. intros ->. by apply Hd.
  - apply Forall_forall. rewrite Forall_forall in wf_objs_owned. intros n Hin.
    destruct (wf_objs_owned n Hin) as [? Hb]. split; [done|]. unfold obj_block.
    rewrite lookup_delete_ne; [done|]. intros ->. apply Ho. by apply list_elem_of_fmap_2.
  - apply Forall_forall. rewrite Forall_forall in wf_reps_owned. intros n Hin.
    specialize (wf_reps_owned n Hin). unfold rep_block.
    rewrite lookup_delete_ne; [done|]. intros ->. apply Hr. by apply list_elem_of_fmap_2.
Qed.

(** ** Removing a data node *)

Lemma ll_delete_others {N T} (addr : N -> Z) (obj : N -> T) h l n :
  ll_find addr h l = Some n -> NoDup (map obj l) ->
  Forall (fun m => obj m <> obj n) (ll_delete addr h l).
Proof.
  unfold ll_find. induction l as [|m l IH]; simpl; [done|].
  intros Hf [Hm Hnd]%NoDup_cons. case_bool_decide.
  - injection Hf as <-. apply Forall_forall. intros x Hx Heq. apply Hm. rewrite <- Heq.
    by apply list_elem_of_fmap_2.
  - constructor; [|by apply IH]. intros Heq. apply Hm. rewrite Heq.
    apply find_some in Hf as [Hin _]. apply list_elem_of_fmap_2. by apply list_elem_of_In.
Qed.

Lemma data_block_not_obj w b d :
  reg_wf w -> w_heap w !! b = Some (BData d) -> b ∉ map on_cppObj (g_amlObjectHead w).
Proof.
  intros Hwf Hb (n & -> & Hin)%list_elem_of_fmap. pose proof (wf_objs_owned _ Hwf) as Ho.
  rewrite Forall_forall in Ho. destruct (Ho n Hin) as [_ [o Hn]]. unfold obj_block in Hn.
  by rewrite Hb in Hn.
Qed.

Lemma data_block_not_rep w b d :
  reg_wf w -> w_heap w !! b = Some (BData d) -> b ∉ map rn_cppObj (g_amlRepHead w).
Proof.
  intros Hwf Hb (n & -> & Hin)%list_elem_of_fmap. pose proof (wf_reps_owned _ Hwf) as Ho.
  rewrite Forall_forall in Ho. destruct (Ho n Hin) as [f Hn]. unfold rep_block in Hn.
  by rewrite Hb in Hn.
Qed.

(** [RemoveAmlData(handle)] keeps the invariant. *)
Lemma wf_RemoveAmlData w h w' : reg_wf w -> RemoveAmlData h w = Done w' tt -> reg_wf w'.
Proof.
  intros Hwf. unfold RemoveAmlData. destruct (data_entry w h) as [n|] eqn:En; [|discriminate].
  pose proof (wf_ll_delete_data w h Hwf) as Hwf1.
  destruct (dn_needsDelete n) eqn:Hnd; simpl; [|by intros [= <-]].
  unfold delete_data. cbn [w_heap set_datas]. destruct (dn_cppObj n) as [[b|] [|]] eqn:Ep; try discriminate.
  destruct (w_heap w !! b) as [[d| |]|] eqn:Eb; try discriminate. intros [= <-].
  apply (wf_delete_block _ b Hwf1); simpl.
  - eapply Forall_impl; [apply (ll_delete_others dn_node dn_cppObj h _ n); [done|apply Hwf]|].
    simpl. intros m Hm _. by rewrite Ep in Hm.
  - by eapply data_block_not_obj.
  - by eapply data_block_not_rep.
Qed.

(** What [RemoveAmlData] does to the three lists. *)
Lemma RemoveAmlData_lists h w w' :
  RemoveAmlData h w = Done w' tt ->
  g_amlDataHead w' = ll_delete dn_node h (g_amlDataHead w) /\
  g_amlObjectHead w' = g_amlObjectHead w /\ g_amlRepHead w' = g_amlRepHead w.
Proof.
  unfold RemoveAmlData. destruct (data_entry w h) as [n|]; [|discriminate].
  destruct (dn_needsDelete n); [|by intros [= <-]].
  unfold delete_data. cbn [w_heap set_datas].
  destruct (dn_cppObj n) as [[b|] [|]]; try discriminate.
  destruct (w_heap w !! b) as [[]|]; try discriminate. by intros [= <-].
Qed.

(** ** Runs that do not change the world *)

Lemma FindAmlData_pure h : st_pure (FindAmlData h).
Proof. by intros w w' a [= ->]. Qed.

Lemma FindAmlDataHandle_pure p : st_pure (FindAmlDataHandle p).
Proof. by intros w w' a [= ->]. Qed.

Lemma FindAmlObj_pure h : st_pure (FindAmlObj h).
Proof. by intros w w' a [= ->]. Qed.

Lemma FindRepresentation_pure h : st_pure (FindRepresentation h).
Proof. by intros w w' a [= ->]. Qed.

Lemma read_data_pure p : st_pure (read_data p).
Proof. intros w w' a. unfold read_data. by case_match; [intros [= ->]|]. Qed.

Lemma read_obj_pure b : st_pure (read_obj b).
Proof. intros w w' a. unfold read_obj. by case_match; [intros [= ->]|]. Qed.

Lemma ConvertStringToCharStr_pure `{Allocator} s : st_pure (ConvertStringToCharStr s).
Proof. intros w w' a. by destruct (ConvertStringToCharStr_spec s w) as [->| ->]; intros [= ->]. Qed.

Lemma ConvertVectorToCharStrArr_pure `{Allocator} l : st_pure (ConvertVectorToCharStrArr l).
Proof. intros w w' a. by destruct (ConvertVectorToCharStrArr_spec l w) as [->| ->]; intros [= ->]. Qed.

Lemma read_cstr_array_pure l n : st_pure (read_cstr_array l n).
Proof.
  revert l. induction n as [|n IH]; intros [|[s|] l]; simpl; solve_pure.
Qed.

Lemma guard_pure {T} chk (k : st World (result T)) : st_pure k -> st_pure (guard chk k).
Proof. intros Hk. unfold guard. case_match; [apply st_pure_ret|done]. Qed.

Lemma catch_aml_pure {A T} (r : ResultCode + A) (k : A -> st World (result T)) :
  (forall a, st_pure (k a)) -> st_pure (catch_aml r k).
Proof. intros Hk. unfold catch_aml. case_match; [apply st_pure_ret|done]. Qed.

Lemma ret_err_pure {T} c : st_pure (@ret_err T c).
Proof. apply st_pure_ret. Qed.

Lemma ret_ok_pure {T} (v : T) : st_pure (ret_ok v).
Proof. apply st_pure_ret. Qed.

#[export] Hint Resolve FindAmlData_pure FindAmlDataHandle_pure FindAmlObj_pure FindRepresentation_pure
  read_data_pure read_obj_pure ConvertStringToCharStr_pure ConvertVectorToCharStrArr_pure
  read_cstr_array_pure guard_pure catch_aml_pure ret_err_pure ret_ok_pure : aml.

(** Prove [st_pure] of an API function body. *)
Ltac solve_pure_api :=
  repeat (intros; first
    [ apply guard_pure | apply catch_aml_pure | apply st_pure_ret | apply st_pure_crash
    | apply st_pure_bind | progress case_match | eauto with aml ]).

(** ** Runs that keep the invariant *)

Lemma update_data_preserves p f : st_preserves reg_wf (update_data p f).
Proof. intros w w' r Hwf Hu. by eapply wf_update_data. Qed.

Lemma RemoveAmlData_preserves h : st_preserves reg_wf (RemoveAmlData h).
Proof. intros w w' [] Hwf Hr. by eapply wf_RemoveAmlData. Qed.

Lemma guard_preserves {T} chk (k : st World (result T)) :
  st_preserves reg_wf k -> st_preserves reg_wf (guard chk k).
Proof. intros Hk. unfold guard. case_match; [apply st_pure_preserves, st_pure_ret|done]. Qed.

Lemma catch_aml_preserves {A T} (r : ResultCode + A) (k : A -> st World (result T)) :
  (forall a, st_preserves reg_wf (k a)) -> st_preserves reg_wf (catch_aml r k).
Proof. intros Hk. unfold catch_aml. case_match; [apply st_pure_preserves, st_pure_ret|done]. Qed.

Ltac solve_preserves_api :=
  repeat (intros; first
    [ apply guard_preserves | apply catch_aml_preserves | apply st_preserves_bind
    | apply update_data_preserves | apply RemoveAmlData_preserves
    | progress case_match
    | apply st_pure_preserves; solve_pure_api ]).

(** ** Allocation *)

Lemma new_block_with_spec `{AllocatorSpec} blk w w' a :
  new_block_with blk w = Done w' a ->
  a ∉ live w /\ a <> NULL /\ w' = set_heap w (<[a := blk]> (w_heap w)).
Proof.
  unfold new_block_with. destruct (new_block (live w)) as [b|] eqn:E; [|discriminate].
  intros [= <- <-]. destruct (new_block_fresh _ _ E). auto.
Qed.

(** A fresh block's root is not registered. *)
Lemma fresh_root_unregistered w a :
  reg_wf w -> a ∉ live w -> heap_root a ∉ map dn_cppObj (g_amlDataHead w).
Proof.
  intros Hwf Ha (n & Hn & Hin)%list_elem_of_fmap.
  pose proof (wf_data_owned _ Hwf) as Ho. pose proof (wf_data_borrowed _ Hwf) as Hb.
  rewrite Forall_forall in Ho, Hb. destruct (dn_needsDelete n) eqn:Hnd.
  - destruct (Ho n Hin Hnd) as [d Hd]. rewrite <- Hn in Hd. simpl in Hd.
    apply (not_live_dom _ _ Ha). apply elem_of_dom. destruct (w_heap w !! a) as [[]|]; by try discriminate.
  - by apply (Hb n Hin Hnd); rewrite <- Hn.
Qed.

(** The tail of [CreateAMLData] and [CloneAMLData]: [new AMLData], an
    owning handle for it, and the cleanup when the handle cannot be made.
    It keeps the invariant, and on failure leaves the world as it was. *)
Lemma new_data_handle_wf `{AllocatorSpec} d w w' r :
  reg_wf w ->
  (let* amlData := new_data d in
   if is_null amlData then ret_err CAML_NO_MEMORY else
   let* handle := AddAmlDataHandle (heap_root amlData) true in
   if is_null handle then
     let* _ := delete_data (heap_root amlData) in
     ret_err CAML_NO_MEMORY
   else ret_ok handle) w = Done w' r ->
  reg_wf w' /\ (r.1 <> CAML_OK -> w' = w).
Proof.
  intros Hwf H1. st_case H1 as w1 a. apply new_block_with_spec in E as (Ha & Hnn & ->).
  unfold is_null at 1 in H1. rewrite bool_decide_eq_false_2 in H1 by done.
  st_case H1 as w2 hd. pose proof (wf_new_block _ _ (BData d) Hwf Ha) as Hwf1.
  destruct (is_null hd) eqn:Hh.
  - st_case H1 as w3 u. destruct (AddAmlDataHandle_result _ _ _ _ _ E) as [[_ ->]|(_ & Hn & _)];
      [|unfold is_null in Hh; apply bool_decide_eq_true in Hh; done].
    unfold delete_data in E0. simpl in E0. rewrite lookup_insert_eq in E0. injection E0 as <- _.
    injection H1 as <- <-. rewrite delete_insert_id by (by apply not_elem_of_dom, not_live_dom).
    by destruct w.
  - injection H1 as <- <-. split; [|done]. eapply wf_AddAmlDataHandle; [exact Hwf1| | | | |exact E].
    + by eexists.
    + exact (fresh_root_unregistered w a Hwf Ha).
    + intros _. simpl. rewrite lookup_insert_eq. by eexists.
    + discriminate.
Qed.

(** ** Inversion of the common steps *)

Lemma guard_inv {T} chk (k : st World (result T)) w w' r :
  guard chk k w = Done w' r ->
  (exists c, chk = Some c /\ w' = w /\ r = (c, None)) \/ (chk = None /\ k w = Done w' r).
Proof. unfold guard. destruct chk as [c|]; [intros [= <- <-]; left; eauto|by right]. Qed.

Lemma pure_step {A} (m : st World A) w w' a : st_pure m -> m w = Done w' a -> w' = w.
Proof. intros Hm. apply Hm. Qed.

Lemma FindAmlData_inv h w w' o : FindAmlData h w = Done w' o -> w' = w /\ o = dn_cppObj <$> data_entry w h.
Proof. by intros [= <- <-]. Qed.

Lemma RemoveOwnedAmlDataHandles_Done w p w' u :
  reg_wf w -> RemoveOwnedAmlDataHandles p w = Done w' u -> w' = w.
Proof.
  intros Hwf. unfold RemoveOwnedAmlDataHandles. destruct (heap_data_at _ p) as [d|]; [|discriminate].
  rewrite walker_rec_keeps_world by apply Hwf. by intros [= <-].
Qed.

Lemma FindAmlDataHandle_null w q w' :
  reg_wf w -> FindAmlDataHandle q w = Done w' NULL ->
  w' = w /\ q ∉ map dn_cppObj (g_amlDataHead w).
Proof.
  intros Hwf [= <- Hq]. split; [done|]. apply data_node_of_ptr_None.
  destruct (data_node_of_ptr q _) as [m|] eqn:E; [exfalso|done]. simpl in Hq.
  apply data_node_of_ptr_Some in E as [Hin _].
  pose proof (wf_nodes_fresh _ Hwf) as Hf. rewrite Forall_forall in Hf.
  apply (Hf (dn_node m)); [|done]. unfold node_addrs. apply elem_of_app. right.
  apply elem_of_app. left. by apply list_elem_of_fmap_2.
Qed.

Lemma data_entry_heap_base w h n : reg_wf w -> data_entry w h = Some n -> is_Some (heap_base (dn_cppObj n)).
Proof.
  intros Hwf [Hin _]%ll_find_Some. pose proof (wf_data_heap _ Hwf) as Hh.
  rewrite Forall_forall in Hh. by apply Hh.
Qed.

(** ** Failing runs change nothing *)

(** A run that reports an error leaves a well-formed world as it was. *)
Definition st_atomic {T} (m : st World (result T)) : Prop :=
  forall w w' r, reg_wf w -> m w = Done w' r -> r.1 <> CAML_OK -> w' = w.

(** A run that, when it returns, returns [CAML_OK]. *)
Definition st_always_ok {T} (m : st World (result T)) : Prop :=
  forall w w' r, m w = Done w' r -> r.1 = CAML_OK.

Lemma st_always_ok_atomic {T} (m : st World (result T)) : st_always_ok m -> st_atomic m.
Proof. intros Hm w w' r _ Hr Hne. by apply Hm in Hr. Qed.

Lemma st_always_ok_ret {T} (v : T) : st_always_ok (ret_ok v).
Proof. by intros w w' r [= <- <-]. Qed.

Lemma st_always_ok_bind {A T} (m : st World A) (f : A -> st World (result T)) :
  (forall a, st_always_ok (f a)) -> st_always_ok (st_bind m f).
Proof.
  intros Hf w w' r. unfold st_bind. destruct (m w) as [w1 a|]; [|done]. apply Hf.
Qed.

Lemma st_atomic_pure {T} (m : st World (result T)) : st_pure m -> st_atomic m.
Proof. intros Hm w w' r _ Hr _. by eapply Hm. Qed.

Lemma st_atomic_guard {T} chk (k : st World (result T)) : st_atomic k -> st_atomic (guard chk k).
Proof. intros Hk. unfold guard. case_match; [apply st_atomic_pure, st_pure_ret|done]. Qed.

Lemma st_atomic_catch {A T} (r : ResultCode + A) (k : A -> st World (result T)) :
  (forall a, st_atomic (k a)) -> st_atomic (catch_aml r k).
Proof. intros Hk. unfold catch_aml. case_match; [apply st_atomic_pure, st_pure_ret|done]. Qed.

Lemma st_atomic_pure_bind {A T} (m : st World A) (f : A -> st World (result T)) :
  st_pure m -> (forall a, st_atomic (f a)) -> st_atomic (st_bind m f).
Proof.
  intros Hm Hf w w' r Hwf. unfold st_bind. destruct (m w) as [w1 a|] eqn:E; [|done].
  apply Hm in E as ->. by apply Hf.
Qed.

Lemma update_data_inl p f w w' e : update_data p f w = Done w' (inl e) -> w' = w.
Proof.
  unfold update_data. destruct (heap_data_update _ _ _) as [[]|]; by intros [= <-].
Qed.

(** An engine update reports its exception without changing anything. *)
Lemma st_atomic_update {T} p f (k : unit -> st World (result T)) :
  (forall a, st_always_ok (k a)) -> st_atomic (let* r := update_data p f in catch_aml r k).
Proof.
  intros Hk w w' r Hwf. unfold st_bind. destruct (update_data p f w) as [w1 [e|u]|] eqn:E; [| |done].
  - apply update_data_inl in E as ->. by intros [= <- <-].
  - intros Hr Hne. exfalso. apply Hne. by eapply Hk.
Qed.

Ltac solve_atomic_api :=
  repeat (intros; first
    [ apply st_atomic_guard | apply st_atomic_catch
    | apply st_atomic_update; intros; apply st_always_ok_ret
    | apply st_atomic_pure_bind; [solve [eauto with aml]|]
    | progress case_match
    | apply st_atomic_pure; solve_pure_api ]).

(** ** Result codes *)

(** The result code of a call. *)
Definition code_of {T} (m : st World (result T)) : st World CAMLErrorCode :=
  let* r := m in st_ret r.1.

Section CodeOf.
Context `{AS : AllocatorSpec}.

Lemma code_of_preserves {T} (m : st World (result T)) :
  st_preserves reg_wf m -> st_preserves reg_wf (code_of m).
Proof.
  intros Hm. apply st_preserves_bind; [done|]. intros. apply st_pure_preserves, st_pure_ret.
Qed.

Lemma code_of_atomic {T} (m : st World (result T)) w w' c :
  st_atomic m -> reg_wf w -> code_of m w = Done w' c -> c <> CAML_OK -> w' = w.
Proof.
  intros Hm Hwf. unfold code_of, st_bind. destruct (m w) as [w1 r|] eqn:E; [|done].
  intros [= <- <-]. by apply (Hm _ _ _ Hwf E).
Qed.

End CodeOf.

(** ** The alias lookup-or-register block *)

(** What a successful [find_or_add_alias] did: returned the handle
    already registered for [q], or appended a fresh borrowing node. *)
Lemma find_or_add_alias_ok `{AllocatorSpec} q w w1 hv :
  reg_wf w -> find_or_add_alias q w = Done w1 (CAML_OK, Some hv) ->
  (w1 = w /\ FindAmlDataHandle q w = Done w hv /\ hv <> NULL) \/
  (q ∉ map dn_cppObj (g_amlDataHead w) /\ hv ∉ live w /\ hv <> NULL /\
   w1 = set_datas w (g_amlDataHead w ++ [Build_amlData_t hv q false])).
Proof.
  intros Hwf H1. unfold find_or_add_alias in H1.
  st_case H1 as w2 hq. destruct (is_null hq) eqn:Hq.
  - apply bool_decide_eq_true in Hq as ->. apply FindAmlDataHandle_null in E as [-> Hnew]; [|done].
    st_case H1 as w3 hv'. destruct (is_null hv') eqn:Hv; [discriminate|]. injection H1 as <- ->.
    apply bool_decide_eq_false in Hv.
    destruct (AddAmlDataHandle_result _ _ _ _ _ E) as [[? _]|(Hf & Hn & ->)]; [done|]. by right.
  - pose proof E as E'. apply (pure_step _ _ _ _ (FindAmlDataHandle_pure _)) in E as ->.
    injection H1 as <- ->. apply bool_decide_eq_false in Hq. by left.
Qed.

(** Running the block again, on the world it left, returns the same handle
    and changes nothing; the heap, the object registry and every handle
    live before are as they were. *)
Lemma find_or_add_alias_again `{AllocatorSpec} q w w1 hv :
  reg_wf w -> find_or_add_alias q w = Done w1 (CAML_OK, Some hv) ->
  find_or_add_alias q w1 = Done w1 (CAML_OK, Some hv) /\
  w_heap w1 = w_heap w /\ g_amlObjectHead w1 = g_amlObjectHead w /\
  (forall h, h ∈ live w -> data_entry w1 h = data_entry w h).
Proof.
  intros Hwf H1. pose proof H1 as Hrun.
  destruct (find_or_add_alias_ok _ _ _ _ Hwf H1) as [(-> & _ & _)|(Hnew & Hfresh & Hnn & ->)]; [done|].
  split; [|split; [done|split; [done|]]].
  - unfold find_or_add_alias, st_bind, FindAmlDataHandle. cbn [g_amlDataHead set_datas].
    rewrite (data_node_of_ptr_app_new _ _ (Build_amlData_t hv q false)
               (proj2 (data_node_of_ptr_None _ _) Hnew) eq_refl).
    cbn. unfold is_null. by rewrite bool_decide_eq_false_2.
  - intros h Hh. unfold data_entry. cbn [g_amlDataHead set_datas].
    apply ll_find_app_ne. cbn. by intros ->.
Qed.

Lemma find_or_add_alias_wf `{AllocatorSpec} q :
  is_Some (heap_base q) -> p_path q <> [] -> st_preserves reg_wf (find_or_add_alias q).
Proof.
  intros Hb Hp w w' r Hwf H1. unfold find_or_add_alias in H1.
  st_case H1 as w2 hq. destruct (is_null hq) eqn:Hq.
  - apply bool_decide_eq_true in Hq as ->. apply FindAmlDataHandle_null in E as [-> Hnew]; [|done].
    st_case H1 as w3 hv. destruct (is_null hv) eqn:Hv; injection H1 as <- _.
    { apply bool_decide_eq_true in Hv.
      by destruct (AddAmlDataHandle_result _ _ _ _ _ E) as [[_ ->]|(_ & Hn & _)]. }
    eapply (wf_AddAmlDataHandle q false); [exact Hwf|exact Hb|exact Hnew|intros [=]|intros _; exact Hp|exact E].
  - apply (pure_step _ _ _ _ (FindAmlDataHandle_pure _)) in E as ->. by injection H1 as <- _.
Qed.

Lemma find_or_add_alias_atomic `{AllocatorSpec} q : st_atomic (find_or_add_alias q).
Proof.
  intros w w' r Hwf. unfold find_or_add_alias, st_bind.
  destruct (FindAmlDataHandle q w) as [w1 hq|] eqn:E; [|done].
  apply (pure_step _ _ _ _ (FindAmlDataHandle_pure _)) in E as ->.
  destruct (is_null hq); [|by intros [= <- <-]].
  destruct (AddAmlDataHandle q false w) as [w1 vh|] eqn:E; [|done].
  destruct (is_null vh) eqn:Hv; intros [= <- <-]; [|done]. intros _.
  destruct (AddAmlDataHandle_result _ _ _ _ _ E) as [[_ ->]|(_ & Hn & _)]; [done|].
  by apply bool_decide_eq_true in Hv.
Qed.
