(* ===== verification/RegistryObjects.v ===== *)
(** * How the object and representation registries keep the invariant

    The counterpart of [RegistryFacts] for the two other domains of
    camlhandlemanager.cpp: appending a node ([AddAmlObjHandle],
    [AddRepresentationHandle]), unlinking one and deleting its engine
    object ([RemoveAmlObj], [RemoveRepresentation]), and the heap steps
    of the object and representation API ([new_with], [update_obj],
    [delete_obj], [delete_rep]), each shown to keep [reg_wf]. *)

From S2P Require Import Prelude ErrorCodes Engine Memory HandleManager CamlUtils RegistryFacts.

(** ** Appending a node *)

Lemma node_addrs_app_obj w n :
  node_addrs (set_objs w (g_amlObjectHead w ++ [n])) ≡ₚ on_node n :: node_addrs w.
Proof. unfold node_addrs. simpl. rewrite map_app. simpl. solve_Permutation. Qed.

Lemma node_addrs_app_rep w n :
  node_addrs (set_reps w (g_amlRepHead w ++ [n])) ≡ₚ rn_node n :: node_addrs w.
Proof. unfold node_addrs. simpl. rewrite map_app. simpl. solve_Permutation. Qed.

(** The node list changes by one fresh address in front: the two node
    fields of the invariant are kept. *)
Lemma wf_nodes_cons w w' a :
  reg_wf w -> a ∉ live w -> a <> NULL -> node_addrs w' ≡ₚ a :: node_addrs w -> dom (w_heap w') = dom (w_heap w) ->
  NoDup (node_addrs w') /\ Forall (fun x => x ∉ dom (w_heap w') /\ x <> NULL) (node_addrs w').
Proof.
  intros Hwf Ha Hn Hp Hd. rewrite Hp, Hd. split.
  - constructor; [|apply Hwf]. intros Hin. by apply Ha, node_addrs_live.
  - constructor; [split; [by apply not_live_dom|done]|apply Hwf].
Qed.

Section Append.
Context `{AS : AllocatorSpec}.

(** An owning object handle for an object block no node points to. *)
Lemma wf_AddAmlObjHandle b w w' h :
  reg_wf w -> is_Some (obj_block (w_heap w) b) -> b ∉ map on_cppObj (g_amlObjectHead w) ->
  AddAmlObjHandle b true w = Done w' h -> reg_wf w'.
Proof.
  intros Hwf Hb Hnew. unfold AddAmlObjHandle. destruct (malloc (live w) _) as [a|] eqn:E;
    intros [= <- <-]; [|done].
  destruct (malloc_fresh _ _ _ E) as [Ha Hn].
  destruct (wf_nodes_cons w _ a Hwf Ha Hn (node_addrs_app_obj w (Build_amlObject_t a b true)) eq_refl)
    as [Hnd Hf].
  destruct Hwf. split; simpl; try done.
  - apply Forall_app. split; [done|]. by constructor.
  - rewrite map_app. apply NoDup_app. split; [done|]. split; [|apply NoDup_singleton].
    intros x Hx ->%list_elem_of_singleton. done.
Qed.

(** A representation handle for a representation block no node points to. *)
Lemma wf_AddRepresentationHandle b w w' h :
  reg_wf w -> is_Some (rep_block (w_heap w) b) -> b ∉ map rn_cppObj (g_amlRepHead w) ->
  AddRepresentationHandle b w = Done w' h -> reg_wf w'.
Proof.
  intros Hwf Hb Hnew. unfold AddRepresentationHandle. destruct (malloc (live w) _) as [a|] eqn:E;
    intros [= <- <-]; [|done].
  destruct (malloc_fresh _ _ _ E) as [Ha Hn].
  destruct (wf_nodes_cons w _ a Hwf Ha Hn (node_addrs_app_rep w (Build_amlRep_t a b)) eq_refl)
    as [Hnd Hf].
  destruct Hwf. split; simpl; try done.
  - apply Forall_app. split; [done|]. by constructor.
  - rewrite map_app. apply NoDup_app. split; [done|]. split; [|apply NoDup_singleton].
    intros x Hx ->%list_elem_of_singleton. done.
Qed.

Lemma AddAmlObjHandle_result b nd w w' h :
  AddAmlObjHandle b nd w = Done w' h ->
  (h = NULL /\ w' = w) \/
  (h ∉ live w /\ h <> NULL /\ w' = set_objs w (g_amlObjectHead w ++ [Build_amlObject_t h b nd])).
Proof.
  unfold AddAmlObjHandle. destruct (malloc (live w) _) as [a|] eqn:E; intros [= <- <-]; [|by left].
  right. destruct (malloc_fresh _ _ _ E). auto.
Qed.

Lemma AddRepresentationHandle_result b w w' h :
  AddRepresentationHandle b w = Done w' h ->
  (h = NULL /\ w' = w) \/
  (h ∉ live w /\ h <> NULL /\ w' = set_reps w (g_amlRepHead w ++ [Build_amlRep_t h b])).
Proof.
  unfold AddRepresentationHandle. destruct (malloc (live w) _) as [a|] eqn:E; intros [= <- <-]; [|by left].
  right. destruct (malloc_fresh _ _ _ E). auto.
Qed.

End Append.

(** ** Unlinking a node *)

Lemma wf_ll_delete_obj w a : reg_wf w -> reg_wf (set_objs w (ll_delete on_node a (g_amlObjectHead w))).
Proof.
  intros []. pose proof (ll_delete_sublist on_node a (g_amlObjectHead w)) as Hs.
  assert (Hn : sublist (node_addrs (set_objs w (ll_delete on_node a (g_amlObjectHead w)))) (node_addrs w)).
  { unfold node_addrs. simpl. apply sublist_app; [by apply map_sublist_of|done]. }
  split; simpl; try done.
  - exact (sublist_NoDup _ _ wf_nodes_nodup Hn).
  - exact (Forall_sublist_of _ _ _ Hn wf_nodes_fresh).
  - exact (Forall_sublist_of _ _ _ Hs wf_objs_owned).
  - exact (sublist_NoDup _ _ wf_objs_nodup (map_sublist_of _ _ _ Hs)).
Qed.

Lemma wf_ll_delete_rep w a : reg_wf w -> reg_wf (set_reps w (ll_delete rn_node a (g_amlRepHead w))).
Proof.
  intros []. pose proof (ll_delete_sublist rn_node a (g_amlRepHead w)) as Hs.
  assert (Hn : sublist (node_addrs (set_reps w (ll_delete rn_node a (g_amlRepHead w)))) (node_addrs w)).
  { unfold node_addrs. simpl. apply sublist_app; [done|]. apply sublist_app; [done|].
    by apply map_sublist_of. }
  split; simpl; try done.
  - exact (sublist_NoDup _ _ wf_nodes_nodup Hn).
  - exact (Forall_sublist_of _ _ _ Hn wf_nodes_fresh).
  - exact (Forall_sublist_of _ _ _ Hs wf_reps_owned).
  - exact (sublist_NoDup _ _ wf_reps_nodup (map_sublist_of _ _ _ Hs)).
Qed.

(** ** A block of one kind is not registered in another domain *)

Lemma nondata_block_not_owned w b :
  reg_wf w -> (forall d, w_heap w !! b <> Some (BData d)) ->
  Forall (fun n => dn_needsDelete n = true -> dn_cppObj n <> heap_root b) (g_amlDataHead w).
Proof.
  intros Hwf Hb. eapply Forall_impl; [apply (wf_data_owned _ Hwf)|]. intros n Ho Hnd Heq.
  specialize (Ho Hnd). rewrite Heq in Ho. simpl in Ho.
  destruct (w_heap w !! b) as [[d| |]|] eqn:E; try by destruct Ho. by apply (Hb d).
Qed.

Lemma nonobj_block_not_obj w b :
  reg_wf w -> (forall o, w_heap w !! b <> Some (BObj o)) -> b ∉ map on_cppObj (g_amlObjectHead w).
Proof.
  intros Hwf Hb (n & -> & Hin)%list_elem_of_fmap. pose proof (wf_objs_owned _ Hwf) as Ho.
  rewrite Forall_forall in Ho. destruct (Ho n Hin) as [_ [o Hn]]. unfold obj_block in Hn.
  destruct (w_heap w !! on_cppObj n) as [[|o'|]|] eqn:E; try discriminate. by apply (Hb o').
Qed.

Lemma nonrep_block_not_rep w b :
  reg_wf w -> (forall f, w_heap w !! b <> Some (BRep f)) -> b ∉ map rn_cppObj (g_amlRepHead w).
Proof.
  intros Hwf Hb (n & -> & Hin)%list_elem_of_fmap. pose proof (wf_reps_owned _ Hwf) as Ho.
  rewrite Forall_forall in Ho. destruct (Ho n Hin) as [f Hn]. unfold rep_block in Hn.
  destruct (w_heap w !! rn_cppObj n) as [[| |f']|] eqn:E; try discriminate. by apply (Hb f').
Qed.

(** After unlinking the node [n] of a list without duplicate objects, no
    node left points to [n]'s object. *)
Lemma unlinked_not_in {N T} (addr : N -> Z) (obj : N -> T) h l n :
  ll_find addr h l = Some n -> NoDup (map obj l) -> obj n ∉ map obj (ll_delete addr h l).
Proof.
  intros Hf Hnd (m & Hm & Hin)%list_elem_of_fmap.
  pose proof (ll_delete_others addr obj h l n Hf Hnd) as Ho. rewrite Forall_forall in Ho.
  by apply (Ho m Hin).
Qed.

(** ** Removing an object or a representation *)

Lemma wf_RemoveAmlObj w h w' u : reg_wf w -> RemoveAmlObj h w = Done w' u -> reg_wf w'.
Proof.
  intros Hwf. unfold RemoveAmlObj. destruct (obj_entry w h) as [n|] eqn:En; [|discriminate].
  pose proof (wf_ll_delete_obj w h Hwf) as Hwf1.
  destruct (on_needsDelete n); [|by intros [= <- _]].
  unfold delete_obj. cbn [w_heap set_objs].
  destruct (w_heap w !! on_cppObj n) as [[|o|]|] eqn:Eb; try discriminate. intros [= <- _].
  apply (wf_delete_block _ (on_cppObj n) Hwf1); simpl.
  - apply nondata_block_not_owned; [done|]. simpl. by rewrite Eb.
  - apply unlinked_not_in; [done|apply Hwf].
  - apply nonrep_block_not_rep; [done|]. simpl. by rewrite Eb.
Qed.

Lemma wf_RemoveRepresentation w h w' u : reg_wf w -> RemoveRepresentation h w = Done w' u -> reg_wf w'.
Proof.
  intros Hwf. unfold RemoveRepresentation. destruct (rep_entry w h) as [n|] eqn:En; [|discriminate].
  pose proof (wf_ll_delete_rep w h Hwf) as Hwf1.
  unfold delete_rep. cbn [w_heap set_reps].
  destruct (w_heap w !! rn_cppObj n) as [[| |f]|] eqn:Eb; try discriminate. intros [= <- _].
  apply (wf_delete_block _ (rn_cppObj n) Hwf1); simpl.
  - apply nondata_block_not_owned; [done|]. simpl. by rewrite Eb.
  - apply nonobj_block_not_obj; [done|]. simpl. by rewrite Eb.
  - apply unlinked_not_in; [done|apply Hwf].
Qed.

(** ** Heap steps of the object and representation API *)

(** [amlObj->addData(...)] rewrites the object in place. *)
Lemma wf_update_obj w b f w' r : reg_wf w -> update_obj b f w = Done w' r -> reg_wf w'.
Proof.
  intros Hwf. unfold update_obj, obj_block.
  destruct (w_heap w !! b) as [[|o|]|] eqn:Eb; try discriminate.
  destruct (f o) as [e|o']; intros [= <- _]; [done|].
  apply wf_heap_change; [done| |].
  - intros b' _. destruct (decide (b = b')) as [<-|Hne]; [by rewrite lookup_insert_eq, Eb|by rewrite lookup_insert_ne].
  - rewrite dom_insert_lookup_L by (rewrite Eb; eauto). eapply Forall_impl; [apply (wf_nodes_fresh _ Hwf)|].
    by intros a [].
Qed.

(** [new T(...)]: nothing changes when the constructor throws; otherwise
    a fresh block holds the object. *)
Lemma new_with_spec `{AllocatorSpec} c w w' r :
  new_with c w = Done w' r ->
  match r with
  | inl e => w' = w /\ c = inl e
  | inr a => a ∉ live w /\ a <> NULL /\ exists blk, c = inr blk /\ w' = set_heap w (<[a := blk]> (w_heap w))
  end.
Proof.
  unfold new_with. destruct (new_block (live w)) as [a|] eqn:E; [|discriminate].
  destruct (new_block_fresh _ _ E). destruct c as [e|blk]; intros [= <- <-]; eauto 6.
Qed.

(** A block freshly made and deleted again leaves the world as it was. *)
Lemma delete_fresh_world w a blk :
  a ∉ live w -> set_heap (set_heap w (<[a := blk]> (w_heap w))) (delete a (<[a := blk]> (w_heap w))) = w.
Proof.
  intros Ha. rewrite delete_insert_id by (by apply not_elem_of_dom, not_live_dom). by destruct w.
Qed.

(** A block registered in the object or representation domain is a heap
    block, so a fresh address is registered in neither. *)
Lemma fresh_not_obj w a : reg_wf w -> a ∉ live w -> a ∉ map on_cppObj (g_amlObjectHead w).
Proof.
  intros Hwf Ha (n & -> & Hin)%list_elem_of_fmap. pose proof (wf_objs_owned _ Hwf) as Ho.
  rewrite Forall_forall in Ho. destruct (Ho n Hin) as [_ [o Hb]]. unfold obj_block in Hb.
  apply (not_live_dom _ _ Ha), elem_of_dom. destruct (w_heap w !! on_cppObj n); by try discriminate.
Qed.

Lemma fresh_not_rep w a : reg_wf w -> a ∉ live w -> a ∉ map rn_cppObj (g_amlRepHead w).
Proof.
  intros Hwf Ha (n & -> & Hin)%list_elem_of_fmap. pose proof (wf_reps_owned _ Hwf) as Ho.
  rewrite Forall_forall in Ho. destruct (Ho n Hin) as [f Hb]. unfold rep_block in Hb.
  apply (not_live_dom _ _ Ha), elem_of_dom. destruct (w_heap w !! rn_cppObj n); by try discriminate.
Qed.

(** ** Runs that keep the invariant *)

Lemma update_obj_preserves b f : st_preserves reg_wf (update_obj b f).
Proof. intros w w' r Hwf Hu. by eapply wf_update_obj. Qed.

Lemma RemoveAmlObj_preserves h : st_preserves reg_wf (RemoveAmlObj h).
Proof. intros w w' u Hwf Hr. by eapply wf_RemoveAmlObj. Qed.

Lemma RemoveRepresentation_preserves h : st_preserves reg_wf (RemoveRepresentation h).
Proof. intros w w' u Hwf Hr. by eapply wf_RemoveRepresentation. Qed.

(** The object walker changes nothing in a well-formed world. *)
Lemma RemoveOwnedAmlDataHandles_obj_preserves b : st_preserves reg_wf (RemoveOwnedAmlDataHandles_obj b).
Proof.
  intros w w' u Hwf. destruct (w_heap w !! b) as [[|o|]|] eqn:Eb;
    try (unfold RemoveOwnedAmlDataHandles_obj; rewrite Eb; discriminate).
  rewrite (RemoveOwnedAmlDataHandles_obj_noop b o w); [by intros [= <- _]|apply Hwf|done].
Qed.

Lemma update_obj_inl b f w w' e : update_obj b f w = Done w' (inl e) -> w' = w.
Proof. unfold update_obj. destruct (obj_block _ b); [destruct (f _)|]; by intros [= <-]. Qed.

(** An engine update of an object reports its exception without changing
    anything. *)
Lemma st_atomic_update_obj {T} b f (k : unit -> st World (result T)) :
  (forall a, st_always_ok (k a)) -> st_atomic (let* r := update_obj b f in catch_aml r k).
Proof.
  intros Hk w w' r Hwf. unfold st_bind. destruct (update_obj b f w) as [w1 [e|u]|] eqn:E; [| |done].
  - apply update_obj_inl in E as ->. by intros [= <- <-].
  - intros Hr Hne. exfalso. apply Hne. by eapply Hk.
Qed.

(** A sequence of effects ending in [ret_ok]. *)
Ltac solve_always_ok :=
  repeat (intros; first [apply st_always_ok_bind | apply st_always_ok_ret]).

(** [st_preserves reg_wf] and [st_atomic] of an API function body over
    the object and representation registries; [tac] is tried first at
    every step, for the allocation tails of the calling file. *)
Ltac solve_preserves_objs_with tac :=
  repeat (intros; first
    [ tac
    | apply guard_preserves | apply catch_aml_preserves | apply st_preserves_bind
    | apply update_data_preserves | apply RemoveAmlData_preserves
    | apply update_obj_preserves | apply RemoveAmlObj_preserves
    | apply RemoveRepresentation_preserves | apply RemoveOwnedAmlDataHandles_obj_preserves
    | progress case_match
    | apply st_pure_preserves; solve_pure_api ]).

Ltac solve_atomic_objs_with tac :=
  repeat (intros; first
    [ tac
    | apply st_atomic_guard | apply st_atomic_catch
    | apply st_atomic_update_obj; solve_always_ok
    | apply st_atomic_pure_bind; [solve [eauto with aml]|]
    | solve [apply st_always_ok_atomic; solve_always_ok]
    | progress case_match
    | apply st_atomic_pure; solve_pure_api ]).
