(* ===== verification/HandleManagerSpec.v ===== *)
(** * The contract of [include/internal/camlhandlemanager.h]

    The header is the interface the three API files use: register an
    engine object and get a handle, find the object of a handle,
    unregister a handle.  This file states what the data part of it
    promises, over an abstract view of the registry as a finite map from
    handles to (pointer, [needsDelete]) pairs:
    - the class [DataRegistry] gives the four data operations of the
      header, and [DataRegistryLaws] their laws against a view and an
      invariant;
    - the lookup-or-register block of the getters is written once against
      the class ([alias_lookup]), and its idempotence is proved from the
      laws alone;
    - the linked-list registry of [camlhandlemanager.cpp] (HandleManager.v)
      is an instance, with [data_view] as the view and [reg_wf] as the
      invariant, and [find_or_add_alias] is [alias_lookup] at it;
    - the object and representation parts of the header meet the same
      kind of contract, the record [TableLaws] over [obj_view] and
      [rep_view] ([registries_refine]). *)

From stdpp Require Import base gmap list.
From S2P Require Import Prelude ErrorCodes Engine Memory HandleManager CamlUtils RegistryFacts RegistryObjects.

(** ** The view of a linked list as a map *)

Section ListView.
Context {N V : Type} (addr : N -> Z) (val : N -> V).

(** The map from node address to payload; the first node of an address
    wins, as in [ll_find]. *)
Definition ll_view (l : list N) : gmap Z V := list_to_map ((fun n => (addr n, val n)) <$> l).

End ListView.

(** The data registry as the header's callers see it. *)
Definition data_view (w : World) : gmap cptr (ptr * bool) :=
  ll_view dn_node (fun n => (dn_cppObj n, dn_needsDelete n)) (g_amlDataHead w).

(** No handle of the view holds the object [p]. *)
Definition unregistered {P V} (v : gmap cptr (P * V)) (p : P) : Prop :=
  forall k x, v !! k = Some x -> x.1 <> p.

(** What a caller must make sure of before registering [p] with the
    ownership flag [nd] (the conditions of [AMLData_GetValueAMLData],
    [CreateAMLData] and [CloneAMLData]): [p] points into the heap, an
    owning handle holds an object made by [new AMLData], a borrowing one
    a value inside another. *)
Definition data_admissible (p : ptr) (nd : bool) (w : World) : Prop :=
  is_Some (heap_base p) /\ (nd = true -> is_Some (data_root_block (w_heap w) p)) /\
  (nd = false -> p_path p <> []).

(** ** The interface *)

(** The four data operations of the header, on a state [W]. *)
Class DataRegistry (W : Type) := {
  AddAmlDataHandle_op : ptr -> bool -> st W cptr;
  RemoveAmlData_op : cptr -> st W unit;
  FindAmlData_op : cptr -> st W (option ptr);
  FindAmlDataHandle_op : ptr -> st W cptr
}.

(** Their laws against a [view] of the registry and an invariant [inv]
    kept between calls: [NULL] is never a handle and no pointer is held
    by two handles; [FindAmlData] reads the view; [FindAmlDataHandle]
    finds the handle of a pointer or returns [NULL] when there is none;
    [AddAmlDataHandle] returns [NULL] and changes nothing, or a new
    handle for the pointer; [RemoveAmlData] crashes on an unknown handle
    and otherwise takes it out of the view. *)
Class DataRegistryLaws (W : Type) `{DataRegistry W} (view : W -> gmap cptr (ptr * bool))
    (inv : W -> Prop) (admissible : ptr -> bool -> W -> Prop) : Prop := {
  law_null w : inv w -> view w !! NULL = None;
  law_inj w k1 k2 x1 x2 :
    inv w -> view w !! k1 = Some x1 -> view w !! k2 = Some x2 -> x1.1 = x2.1 -> k1 = k2;
  law_find h w : FindAmlData_op h w = Done w (fst <$> view w !! h);
  law_find_handle p w : inv w -> exists h, FindAmlDataHandle_op p w = Done w h /\
    ((h = NULL /\ unregistered (view w) p) \/ (h <> NULL /\ fst <$> view w !! h = Some p));
  law_add p nd w : exists w' h, AddAmlDataHandle_op p nd w = Done w' h /\
    ((h = NULL /\ w' = w) \/ (h <> NULL /\ view w !! h = None /\ view w' = <[h := (p, nd)]> (view w)));
  law_add_inv p nd w w' h : inv w -> unregistered (view w) p -> admissible p nd w ->
    AddAmlDataHandle_op p nd w = Done w' h -> inv w';
  law_remove_unknown h w : view w !! h = None -> RemoveAmlData_op h w = Crashed UseAfterFree;
  law_remove h w : inv w -> is_Some (view w !! h) ->
    exists w', RemoveAmlData_op h w = Done w' tt /\ view w' = delete h (view w) /\ inv w'
}.

(** ** A client of the interface *)

Section Client.
Context {W : Type} {DR : DataRegistry W}.

(** The lookup-or-register block of [AMLData_GetValueAMLData] and
    [AMLObject_GetData], written against the interface. *)
Definition alias_lookup (amlData : ptr) : st W (result cptr) :=
  let* valueHandle := FindAmlDataHandle_op amlData in
  if is_null valueHandle then
    let* valueHandle := AddAmlDataHandle_op amlData false in
    if is_null valueHandle then st_ret (CAML_NO_MEMORY, None) else st_ret (CAML_OK, Some valueHandle)
  else st_ret (CAML_OK, Some valueHandle).

End Client.

(** ** The linked-list registry as an instance *)

#[export] Instance model_registry {A : Allocator} : DataRegistry World := {|
  AddAmlDataHandle_op := AddAmlDataHandle;
  RemoveAmlData_op := RemoveAmlData;
  FindAmlData_op := FindAmlData;
  FindAmlDataHandle_op := FindAmlDataHandle
|}.

(** ** The object and representation domains *)

(** The contract of one registry domain of the header: [add] registers a
    payload, [find] resolves a handle to the payload's object, [remove]
    unregisters, against a [view] of the registry. *)
Record TableLaws {W P V} (add : P -> st W cptr) (remove : cptr -> st W unit)
    (find : cptr -> st W (option V)) (proj : P -> V) (view : W -> gmap cptr P)
    (inv : W -> Prop) (adm : P -> W -> Prop) : Prop := {
  tl_null w : inv w -> view w !! NULL = None;
  tl_find h w : find h w = Done w (proj <$> view w !! h);
  tl_add x w : exists w' h, add x w = Done w' h /\
    ((h = NULL /\ w' = w) \/ (h <> NULL /\ view w !! h = None /\ view w' = <[h := x]> (view w)));
  tl_add_inv x w w' h : inv w -> adm x w -> add x w = Done w' h -> inv w';
  tl_remove_unknown h w : view w !! h = None -> remove h w = Crashed UseAfterFree;
  tl_remove h w : inv w -> is_Some (view w !! h) ->
    exists w', remove h w = Done w' tt /\ view w' = delete h (view w) /\ inv w'
}.

Definition obj_view (w : World) : gmap cptr (Z * bool) :=
  ll_view on_node (fun n => (on_cppObj n, on_needsDelete n)) (g_amlObjectHead w).

Definition rep_view (w : World) : gmap cptr Z := ll_view rn_node rn_cppObj (g_amlRepHead w).

(** Registering an engine object: the code passes [needsDelete = true]
    for every object, and a block is registered once. *)
Definition obj_admissible (x : Z * bool) (w : World) : Prop :=
  x.2 = true /\ is_Some (obj_block (w_heap w) x.1) /\ unregistered (obj_view w) x.1.

Definition rep_admissible (b : Z) (w : World) : Prop :=
  is_Some (rep_block (w_heap w) b) /\ forall k b', rep_view w !! k = Some b' -> b' <> b.

(** The block of CamlUtils.v is the client at the model. *)
Lemma find_or_add_alias_client {A : Allocator} q : find_or_add_alias q = alias_lookup q.
Proof. reflexivity. Qed.

(** ** Lemmas on the list view *)

Section ListViewLemmas.
Context {N V : Type} (addr : N -> Z) (val : N -> V).

Lemma ll_view_lookup l a : ll_view addr val l !! a = val <$> ll_find addr a l.
Proof.
  unfold ll_view, ll_find. induction l as [|n l IH]; [done|]. cbn.
  case_bool_decide as Ha.
  - subst. by rewrite lookup_insert_eq.
  - rewrite lookup_insert_ne by done. exact IH.
Qed.

Lemma ll_view_app_fresh l n :
  addr n ∉ map addr l -> ll_view addr val (l ++ [n]) = <[addr n := val n]> (ll_view addr val l).
Proof.
  intros Hn. apply map_eq. intros a. rewrite !ll_view_lookup.
  destruct (decide (a = addr n)) as [->|Hne].
  - rewrite lookup_insert_eq. by rewrite (ll_find_app_new addr l n Hn).
  - rewrite lookup_insert_ne, ll_view_lookup by done. by rewrite (ll_find_app_ne addr l n a (not_eq_sym Hne)).
Qed.

Lemma ll_view_delete l a :
  NoDup (map addr l) -> ll_view addr val (ll_delete addr a l) = delete a (ll_view addr val l).
Proof.
  intros Hnd. apply map_eq. intros b. rewrite ll_view_lookup.
  destruct (decide (b = a)) as [->|Hne].
  - rewrite lookup_delete_eq. apply fmap_None, ll_find_None. by apply ll_delete_not_in.
  - rewrite lookup_delete_ne, ll_view_lookup by done. by rewrite ll_find_delete_ne.
Qed.

Lemma ll_find_elem l n : NoDup (map addr l) -> n ∈ l -> ll_find addr (addr n) l = Some n.
Proof.
  unfold ll_find. induction l as [|m l IH]; [by intros _ ?%not_elem_of_nil|].
  cbn. intros [Hm Hnd]%NoDup_cons [->|Hin]%elem_of_cons.
  - by rewrite bool_decide_eq_true_2.
  - rewrite bool_decide_eq_false_2; [by apply IH|].
    intros Heq. apply Hm. rewrite Heq. by apply list_elem_of_fmap_2.
Qed.

End ListViewLemmas.

(** Two elements of a list with the same image under an injective-on-[l]
    projection are equal. *)
Lemma NoDup_map_eq {T U} (f : T -> U) (l : list T) x y :
  NoDup (map f l) -> x ∈ l -> y ∈ l -> f x = f y -> x = y.
Proof.
  induction l as [|z l IH]; [by intros _ ?%not_elem_of_nil|].
  cbn. intros [Hz Hnd]%NoDup_cons [->|Hx]%elem_of_cons [->|Hy]%elem_of_cons Hf; try done.
  - exfalso. apply Hz. rewrite Hf. by apply list_elem_of_fmap_2.
  - exfalso. apply Hz. rewrite <- Hf. by apply list_elem_of_fmap_2.
  - by apply IH.
Qed.

(** ** The linked-list registry meets the contract *)

Section ModelLaws.
Context `{AS : AllocatorSpec}.

Lemma data_view_lookup w h :
  data_view w !! h = (fun n => (dn_cppObj n, dn_needsDelete n)) <$> data_entry w h.
Proof. apply ll_view_lookup. Qed.

(** A registered node is the entry of its own address. *)
Lemma data_entry_elem w n : reg_wf w -> n ∈ g_amlDataHead w -> data_entry w (dn_node n) = Some n.
Proof. intros Hwf Hn. apply ll_find_elem; [by apply wf_data_nodup|done]. Qed.

Lemma data_view_Some w h x :
  data_view w !! h = Some x -> exists n, data_entry w h = Some n /\ n ∈ g_amlDataHead w /\
                                          x = (dn_cppObj n, dn_needsDelete n).
Proof.
  rewrite data_view_lookup. intros (n & Hn & ->)%fmap_Some.
  exists n. split_and!; [done| |done]. by apply ll_find_Some in Hn as [? _].
Qed.

Lemma model_null w : reg_wf w -> data_view w !! NULL = None.
Proof.
  intros Hwf. rewrite data_view_lookup. destruct (data_entry w NULL) eqn:E; [|done].
  by apply data_entry_not_null in E.
Qed.

Lemma model_inj w k1 k2 x1 x2 :
  reg_wf w -> data_view w !! k1 = Some x1 -> data_view w !! k2 = Some x2 -> x1.1 = x2.1 -> k1 = k2.
Proof.
  intros Hwf (n1 & E1 & Hin1 & ->)%data_view_Some (n2 & E2 & Hin2 & ->)%data_view_Some Heq.
  apply ll_find_Some in E1 as [_ <-], E2 as [_ <-]. f_equal.
  exact (NoDup_map_eq _ _ _ _ (wf_data_ptr_nodup _ Hwf) Hin1 Hin2 Heq).
Qed.

Lemma model_find h w : FindAmlData h w = Done w (fst <$> data_view w !! h).
Proof. unfold FindAmlData. rewrite data_view_lookup. by destruct (data_entry w h). Qed.

Lemma model_find_handle p w : reg_wf w -> exists h, FindAmlDataHandle p w = Done w h /\
  ((h = NULL /\ unregistered (data_view w) p) \/ (h <> NULL /\ fst <$> data_view w !! h = Some p)).
Proof.
  intros Hwf. unfold FindAmlDataHandle. eexists. split; [reflexivity|].
  destruct (data_node_of_ptr p (g_amlDataHead w)) as [m|] eqn:E; cbn.
  - apply data_node_of_ptr_Some in E as [Hin <-]. right.
    pose proof (data_entry_elem _ _ Hwf Hin) as Hm. split; [by eapply data_entry_not_null|].
    by rewrite data_view_lookup, Hm.
  - left. split; [done|]. intros k x (n & _ & Hin & ->)%data_view_Some Heq.
    apply data_node_of_ptr_None in E. apply E. cbn in Heq. rewrite <- Heq. by apply list_elem_of_fmap_2.
Qed.

Lemma model_add p nd w : exists w' h, AddAmlDataHandle p nd w = Done w' h /\
  ((h = NULL /\ w' = w) \/
   (h <> NULL /\ data_view w !! h = None /\ data_view w' = <[h := (p, nd)]> (data_view w))).
Proof.
  destruct (AddAmlDataHandle p nd w) as [w' h|c] eqn:E;
    [|by unfold AddAmlDataHandle in E; destruct (malloc _ _)].
  exists w', h. split; [done|].
  destruct (AddAmlDataHandle_result _ _ _ _ _ E) as [?|(Hf & Hn & ->)]; [by left|right].
  assert (Hnot : h ∉ map dn_node (g_amlDataHead w)) by (intros ?%data_node_live; done).
  split_and!; [done| |].
  - rewrite data_view_lookup. unfold data_entry. by rewrite (proj2 (ll_find_None _ _ _) Hnot).
  - exact (ll_view_app_fresh dn_node _ _ (Build_amlData_t h p nd) Hnot).
Qed.

Lemma model_add_inv p nd w w' h :
  reg_wf w -> unregistered (data_view w) p -> data_admissible p nd w ->
  AddAmlDataHandle p nd w = Done w' h -> reg_wf w'.
Proof.
  intros Hwf Hun (Hb & Hown & Hbor). apply (wf_AddAmlDataHandle p nd w w' h Hwf Hb); [|done|done].
  intros (n & Hp & Hin)%list_elem_of_fmap.
  apply (Hun (dn_node n) (dn_cppObj n, dn_needsDelete n)); [|done].
  by rewrite data_view_lookup, data_entry_elem.
Qed.

Lemma model_remove_unknown h w : data_view w !! h = None -> RemoveAmlData h w = Crashed UseAfterFree.
Proof. rewrite data_view_lookup. unfold RemoveAmlData. by intros ->%fmap_None. Qed.

(** On a registered handle, [RemoveAmlData] returns: an owning entry
    holds a live [new AMLData] root, which [delete] frees. *)
Lemma RemoveAmlData_total w h n :
  reg_wf w -> data_entry w h = Some n -> exists w', RemoveAmlData h w = Done w' tt.
Proof.
  intros Hwf Hn. unfold RemoveAmlData. rewrite Hn.
  destruct (dn_needsDelete n) eqn:Hnd; [|by eexists].
  pose proof (wf_data_owned _ Hwf) as Hown. rewrite Forall_forall in Hown.
  apply ll_find_Some in Hn as [Hin _]. specialize (Hown n Hin Hnd).
  unfold delete_data, data_root_block in *. cbn [w_heap set_datas].
  destruct (dn_cppObj n) as [[b|] [|]]; try by destruct Hown.
  destruct (w_heap w !! b) as [[]|]; try by destruct Hown. by eexists.
Qed.

Lemma model_remove h w : reg_wf w -> is_Some (data_view w !! h) ->
  exists w', RemoveAmlData h w = Done w' tt /\ data_view w' = delete h (data_view w) /\ reg_wf w'.
Proof.
  intros Hwf [x (n & Hn & _)%data_view_Some].
  destruct (RemoveAmlData_total _ _ _ Hwf Hn) as [w' E]. exists w'. split_and!; [done| |].
  - apply RemoveAmlData_lists in E as (Hl & _). unfold data_view. rewrite Hl.
    apply ll_view_delete. by apply wf_data_nodup.
  - by eapply wf_RemoveAmlData.
Qed.

End ModelLaws.

#[export] Instance model_registry_laws `{AllocatorSpec} :
  DataRegistryLaws World data_view reg_wf data_admissible.
Proof.
  split; [exact model_null | exact model_inj | exact model_find | exact model_find_handle
         | exact model_add | exact model_add_inv | exact model_remove_unknown | exact model_remove].
Qed.

(** ** The lookup-or-register block always returns *)

Section Alias.
Context `{AS : AllocatorSpec}.

(** On a well-formed world [find_or_add_alias q] returns, without
    touching the heap: a handle that resolves to [q], or, only when the
    [malloc] of a new node fails, [CAML_NO_MEMORY] with nothing changed;
    every handle registered before keeps its entry. *)
Lemma find_or_add_alias_total q w :
  reg_wf w -> exists w' r, find_or_add_alias q w = Done w' r /\ w_heap w' = w_heap w /\
    (forall h' n', data_entry w h' = Some n' -> data_entry w' h' = Some n') /\
    ((r = (CAML_NO_MEMORY, None) /\ w' = w /\ malloc (live w) sizeof_amlData_t = None) \/
     exists hv, r = (CAML_OK, Some hv) /\ FindAmlData hv w' = Done w' (Some q)).
Proof.
  intros Hwf. unfold find_or_add_alias, st_bind at 1.
  destruct (model_find_handle q w Hwf) as (h & -> & [[-> _]|[Hh Hv]]); unfold is_null.
  - rewrite bool_decide_eq_true_2 by done.
    destruct (model_add q false w) as (w1 & h1 & Ea & Hcase). unfold st_bind. rewrite Ea.
    assert (Hheap : w_heap w1 = w_heap w)
      by (by destruct (AddAmlDataHandle_result _ _ _ _ _ Ea) as [[_ ->]|(_ & _ & ->)]).
    assert (Hkeep : forall h' n', data_entry w h' = Some n' -> data_entry w1 h' = Some n').
    { intros h' n' Hn'. rewrite (AddAmlDataHandle_other _ _ _ _ _ h' Ea); [done|].
      destruct (AddAmlDataHandle_result _ _ _ _ _ Ea) as [[-> _]|(Hf & _ & _)].
      - by apply (data_entry_not_null _ _ _ Hwf Hn').
      - intros ->. by apply Hf, (data_entry_live _ _ n'). }
    destruct Hcase as [[-> ->]|(Hn & _ & Hv)].
    + rewrite bool_decide_eq_true_2 by done. eexists _, _. split; [reflexivity|]. split_and!; [done|exact Hkeep|left].
      split_and!; [done|done|]. unfold AddAmlDataHandle in Ea.
      destruct (malloc _ _) as [a|] eqn:M; [|done]. injection Ea as _ Ha.
      destruct (malloc_fresh _ _ _ M) as [_ Hz]. by rewrite Ha in Hz.
    + rewrite bool_decide_eq_false_2 by done. eexists _, _. split; [reflexivity|].
      split_and!; [done|exact Hkeep|]. right. eexists. split; [reflexivity|].
      by rewrite model_find, Hv, lookup_insert_eq.
  - rewrite bool_decide_eq_false_2 by done. eexists _, _. split; [reflexivity|].
    split_and!; [done|by intros|]. right. eexists. split; [reflexivity|]. by rewrite model_find, Hv.
Qed.

End Alias.

(** ** The object and representation registries meet the contract *)

Lemma wf_obj_nodup w : reg_wf w -> NoDup (map on_node (g_amlObjectHead w)).
Proof. intros Hwf. pose proof (wf_nodes_nodup _ Hwf) as Hn. unfold node_addrs in Hn. by apply NoDup_app in Hn as [? _]. Qed.

Lemma wf_rep_nodup w : reg_wf w -> NoDup (map rn_node (g_amlRepHead w)).
Proof.
  intros Hwf. pose proof (wf_nodes_nodup _ Hwf) as Hn. unfold node_addrs in Hn.
  apply NoDup_app in Hn as (_ & _ & Hn). by apply NoDup_app in Hn as (_ & _ & ?).
Qed.

Lemma node_not_null w a : reg_wf w -> a ∈ node_addrs w -> a <> NULL.
Proof. intros Hwf Ha. pose proof (wf_nodes_fresh _ Hwf) as Hf. rewrite Forall_forall in Hf. by apply Hf. Qed.

Section ObjLaws.
Context `{AS : AllocatorSpec}.

Lemma obj_view_lookup w h : obj_view w !! h = (fun n => (on_cppObj n, on_needsDelete n)) <$> obj_entry w h.
Proof. apply ll_view_lookup. Qed.

Lemma obj_node_addr w n : n ∈ g_amlObjectHead w -> on_node n ∈ node_addrs w.
Proof. intros Hn. unfold node_addrs. apply elem_of_app. left. by apply list_elem_of_fmap_2. Qed.

Lemma obj_table_laws :
  TableLaws (fun x => AddAmlObjHandle x.1 x.2) RemoveAmlObj FindAmlObj fst obj_view reg_wf obj_admissible.
Proof.
  split.
  - intros w Hwf. rewrite obj_view_lookup. destruct (obj_entry w NULL) as [n|] eqn:E; [|done].
    apply ll_find_Some in E as [Hin Ha]. exfalso. apply (node_not_null w NULL Hwf); [|done].
    rewrite <- Ha. by apply obj_node_addr.
  - intros h w. unfold FindAmlObj. rewrite obj_view_lookup. by destruct (obj_entry w h).
  - intros [b nd] w. cbn. destruct (AddAmlObjHandle b nd w) as [w' h|c] eqn:E;
      [|by unfold AddAmlObjHandle in E; destruct (malloc _ _)].
    exists w', h. split; [done|].
    destruct (AddAmlObjHandle_result _ _ _ _ _ E) as [?|(Hf & Hn & ->)]; [by left|right].
    assert (Hnot : h ∉ map on_node (g_amlObjectHead w)).
    { intros (n & -> & Hin)%list_elem_of_fmap. by apply Hf, node_addrs_live, obj_node_addr. }
    split_and!; [done| |].
    + rewrite obj_view_lookup. unfold obj_entry. by rewrite (proj2 (ll_find_None _ _ _) Hnot).
    + exact (ll_view_app_fresh on_node _ _ (Build_amlObject_t h b nd) Hnot).
  - intros [b nd] w w' h Hwf (Hnd & Hb & Hun). cbn in *. subst nd.
    apply (wf_AddAmlObjHandle b w w' h Hwf Hb).
    intros (n & Hp & Hin)%list_elem_of_fmap.
    apply (Hun (on_node n) (on_cppObj n, on_needsDelete n)); [|done].
    rewrite obj_view_lookup. unfold obj_entry. by rewrite ll_find_elem by (done || by apply wf_obj_nodup).
  - intros h w. rewrite obj_view_lookup. unfold RemoveAmlObj. by intros ->%fmap_None.
  - intros h w Hwf [x Hx]. rewrite obj_view_lookup in Hx. apply fmap_Some in Hx as (n & Hn & _).
    pose proof (wf_objs_owned _ Hwf) as Ho. rewrite Forall_forall in Ho.
    pose proof Hn as [Hin _]%ll_find_Some. destruct (Ho n Hin) as [Hnd [o Hob]].
    unfold RemoveAmlObj. rewrite Hn, Hnd. unfold delete_obj, obj_block in *. cbn [w_heap set_objs].
    destruct (w_heap w !! on_cppObj n) as [[|o'|]|] eqn:Eb; try discriminate.
    eexists. split_and!; [reflexivity| |].
    + unfold obj_view. cbn. apply ll_view_delete. by apply wf_obj_nodup.
    + eapply wf_RemoveAmlObj; [exact Hwf|]. unfold RemoveAmlObj. rewrite Hn, Hnd.
      unfold delete_obj. cbn. by rewrite Eb.
Qed.

End ObjLaws.

Section RepLaws.
Context `{AS : AllocatorSpec}.

Lemma rep_view_lookup w h : rep_view w !! h = rn_cppObj <$> rep_entry w h.
Proof. apply ll_view_lookup. Qed.

Lemma rep_node_addr w n : n ∈ g_amlRepHead w -> rn_node n ∈ node_addrs w.
Proof. intros Hn. unfold node_addrs. rewrite !elem_of_app. right. right. by apply list_elem_of_fmap_2. Qed.

Lemma rep_table_laws :
  TableLaws AddRepresentationHandle RemoveRepresentation FindRepresentation id rep_view reg_wf rep_admissible.
Proof.
  split.
  - intros w Hwf. rewrite rep_view_lookup. destruct (rep_entry w NULL) as [n|] eqn:E; [|done].
    apply ll_find_Some in E as [Hin Ha]. exfalso. apply (node_not_null w NULL Hwf); [|done].
    rewrite <- Ha. by apply rep_node_addr.
  - intros h w. unfold FindRepresentation. rewrite rep_view_lookup. by destruct (rep_entry w h).
  - intros b w. destruct (AddRepresentationHandle b w) as [w' h|c] eqn:E;
      [|by unfold AddRepresentationHandle in E; destruct (malloc _ _)].
    exists w', h. split; [done|].
    destruct (AddRepresentationHandle_result _ _ _ _ E) as [?|(Hf & Hn & ->)]; [by left|right].
    assert (Hnot : h ∉ map rn_node (g_amlRepHead w)).
    { intros (n & -> & Hin)%list_elem_of_fmap. by apply Hf, node_addrs_live, rep_node_addr. }
    split_and!; [done| |].
    + rewrite rep_view_lookup. unfold rep_entry. by rewrite (proj2 (ll_find_None _ _ _) Hnot).
    + exact (ll_view_app_fresh rn_node _ _ (Build_amlRep_t h b) Hnot).
  - intros b w w' h Hwf (Hb & Hun). apply (wf_AddRepresentationHandle b w w' h Hwf Hb).
    intros (n & Hp & Hin)%list_elem_of_fmap.
    apply (Hun (rn_node n) (rn_cppObj n)); [|done].
    rewrite rep_view_lookup. unfold rep_entry. by rewrite ll_find_elem by (done || by apply wf_rep_nodup).
  - intros h w. rewrite rep_view_lookup. unfold RemoveRepresentation. by intros ->%fmap_None.
  - intros h w Hwf [x Hx]. rewrite rep_view_lookup in Hx. apply fmap_Some in Hx as (n & Hn & _).
    pose proof (wf_reps_owned _ Hwf) as Ho. rewrite Forall_forall in Ho.
    pose proof Hn as [Hin _]%ll_find_Some. destruct (Ho n Hin) as [f Hf].
    unfold RemoveRepresentation. rewrite Hn. unfold delete_rep, rep_block in *. cbn [w_heap set_reps].
    destruct (w_heap w !! rn_cppObj n) as [[| |f']|] eqn:Eb; try discriminate.
    eexists. split_and!; [reflexivity| |].
    + unfold rep_view. cbn. apply ll_view_delete. by apply wf_rep_nodup.
    + eapply wf_RemoveRepresentation; [exact Hwf|]. unfold RemoveRepresentation. rewrite Hn.
      unfold delete_rep. cbn. by rewrite Eb.
Qed.

End RepLaws.

(** ** The client, from the laws alone *)

Section ClientLaws.
Context {W : Type} `{DR : DataRegistry W} {view : W -> gmap cptr (ptr * bool)}
  {inv : W -> Prop} {adm : ptr -> bool -> W -> Prop} `{!DataRegistryLaws W view inv adm}.

Lemma alias_lookup_found q w h :
  FindAmlDataHandle_op q w = Done w h -> h <> NULL -> alias_lookup q w = Done w (CAML_OK, Some h).
Proof.
  intros Ef Hh. unfold alias_lookup, st_bind. rewrite Ef. unfold is_null.
  by rewrite bool_decide_eq_false_2.
Qed.

(** C10: the lookup-or-register block, run twice on a pointer the caller
    may register, returns the same handle the second time and changes
    nothing more: the first run leaves the invariant, a view in which the
    handle holds the pointer, and every other handle as it was.  Proved
    from the laws of [DataRegistryLaws] only. *)
Theorem alias_lookup_again q w w1 hv :
  inv w -> adm q false w -> alias_lookup q w = Done w1 (CAML_OK, Some hv) ->
  inv w1 /\ alias_lookup q w1 = Done w1 (CAML_OK, Some hv) /\
  fst <$> view w1 !! hv = Some q /\ (forall k, k <> hv -> view w1 !! k = view w !! k).
Proof.
  intros Hinv Hadm Hrun.
  destruct (law_find_handle q w Hinv) as (h0 & Ef & [[-> Hun]|[Hn0 Hv0]]).
  2:{ rewrite (alias_lookup_found _ _ _ Ef Hn0) in Hrun. injection Hrun as <- <-.
      split_and!; [done|by apply alias_lookup_found|done|done]. }
  unfold alias_lookup, st_bind in Hrun. rewrite Ef in Hrun. unfold is_null in Hrun.
  rewrite bool_decide_eq_true_2 in Hrun by done.
  destruct (law_add q false w) as (w' & h & Ea & [[-> ->]|(Hh & _ & Hview)]); rewrite Ea in Hrun.
  { by rewrite bool_decide_eq_true_2 in Hrun. }
  rewrite bool_decide_eq_false_2 in Hrun by done. injection Hrun as <- <-.
  pose proof (law_add_inv _ _ _ _ _ Hinv Hun Hadm Ea) as Hinv1.
  assert (Hq : view w' !! h = Some (q, false)) by (rewrite Hview; apply lookup_insert_eq).
  split_and!; [done| | by rewrite Hq |].
  - destruct (law_find_handle q w' Hinv1) as (h' & Ef' & [[-> Hun']|[Hn' Hv']]).
    + by destruct (Hun' h (q, false) Hq).
    + apply fmap_Some in Hv' as ([q' b] & Hx & ->).
      rewrite (law_inj _ _ _ _ _ Hinv1 Hx Hq eq_refl) in Ef'. by apply alias_lookup_found.
  - intros k Hk. rewrite Hview. by apply lookup_insert_ne.
Qed.

End ClientLaws.

(** C9: the registry of [camlhandlemanager.cpp] implements the contract of
    its header: with the view [data_view] and the invariant [reg_wf],
    the four data operations satisfy every law of [DataRegistryLaws]. *)
Theorem handle_manager_refines `{AllocatorSpec} :
  DataRegistryLaws World data_view reg_wf data_admissible.
Proof.
  split; [exact model_null | exact model_inj | exact model_find | exact model_find_handle
         | exact model_add | exact model_add_inv | exact model_remove_unknown | exact model_remove].
Qed.

(** C11: the object and representation registries of
    [camlhandlemanager.cpp] implement their part of the header: seen as
    maps from handle to engine object, [FindAmlObj] and
    [FindRepresentation] read the map, [AddAmlObjHandle] and
    [AddRepresentationHandle] return [NULL] with no change or insert a
    fresh handle, and [RemoveAmlObj] and [RemoveRepresentation] crash on
    an unknown handle and otherwise free the object and delete the
    handle, all while keeping [reg_wf]. *)
Theorem registries_refine `{AllocatorSpec} :
  TableLaws (fun x => AddAmlObjHandle x.1 x.2) RemoveAmlObj FindAmlObj fst obj_view reg_wf obj_admissible /\
  TableLaws AddRepresentationHandle RemoveRepresentation FindRepresentation id rep_view reg_wf rep_admissible.
Proof. split; [exact obj_table_laws | exact rep_table_laws]. Qed.

(** ** Witnesses *)

Lemma registries_refine_witness :
  TableLaws (fun x => AddAmlObjHandle (A := first_fit_alloc) x.1 x.2) RemoveAmlObj FindAmlObj fst
    obj_view reg_wf obj_admissible /\
  TableLaws (AddRepresentationHandle (A := first_fit_alloc)) RemoveRepresentation FindRepresentation id
    rep_view reg_wf rep_admissible.
Proof. exact (registries_refine (A := first_fit_alloc)). Defined.

(** The first-fit allocator of Memory.v meets [AllocatorSpec], so the
    registry over it implements the contract. *)
Lemma handle_manager_refines_witness :
  @DataRegistryLaws World (model_registry (A := first_fit_alloc)) data_view reg_wf data_admissible.
Proof. exact (handle_manager_refines (A := first_fit_alloc)). Defined.

Definition alias_world : World :=
  mkWorld {[2%Z := BData [("k"%string, AVData [])]]} [] [Build_amlData_t 1 (heap_root 2) true] [].

Definition alias_world' : World :=
  mkWorld {[2%Z := BData [("k"%string, AVData [])]]} []
    [Build_amlData_t 1 (heap_root 2) true; Build_amlData_t 3 (Ptr (HeapAddr 2) ["k"%string]) false] [].

Lemma alias_lookup_again_witness :
  alias_lookup (W := World) (DR := model_registry (A := bump_alloc)) (Ptr (HeapAddr 2) ["k"%string]) alias_world
    = Done alias_world' (CAML_OK, Some 3%Z) /\
  reg_wf alias_world' /\
  alias_lookup (W := World) (DR := model_registry (A := bump_alloc)) (Ptr (HeapAddr 2) ["k"%string]) alias_world'
    = Done alias_world' (CAML_OK, Some 3%Z) /\
  fst <$> data_view alias_world' !! 3%Z = Some (Ptr (HeapAddr 2) ["k"%string]) /\
  (forall k, k <> 3%Z -> data_view alias_world' !! k = data_view alias_world !! k).
Proof.
  assert (Hwf : reg_wf alias_world) by (apply reg_wfb_sound; vm_compute; reflexivity).
  assert (Hadm : data_admissible (Ptr (HeapAddr 2) ["k"%string]) false alias_world).
  { split_and!; [by eexists|discriminate|discriminate]. }
  assert (Hrun : alias_lookup (W := World) (DR := model_registry (A := bump_alloc))
                   (Ptr (HeapAddr 2) ["k"%string]) alias_world = Done alias_world' (CAML_OK, Some 3%Z))
    by (vm_compute; reflexivity).
  split; [exact Hrun|].
  exact (alias_lookup_again (W := World) (view := data_view) (inv := reg_wf) (adm := data_admissible)
           _ _ _ _ Hwf Hadm Hrun).
Defined.
