(* ===== verification/CamlData.v ===== *)
(** * The AMLData API (camldata.cpp)

    One definition per exported function, in the order of the source.
    Each checks its pointer arguments ([VERIFY_PARAM_NON_NULL]), resolves
    its handles with [FindAmlData] ([CAML_INVALID_HANDLE] if that fails),
    calls the engine through the resolved [AMLData*] and translates an
    engine exception with [ExceptionCodeToErrorCode].  A getter that
    returns a nested [AMLData] by reference looks its address up with
    [FindAmlDataHandle] and registers a borrowing handle only when there is
    none. *)

From S2P Require Import Prelude ErrorCodes Engine Memory HandleManager CamlUtils RegistryFacts.

Section CamlData.
Context {A : Allocator}.

(** [CAMLErrorCode CreateAMLData(amlDataHandle_t* amlDataHandle)] *)
Definition CreateAMLData (amlDataHandle : cptr) : st World (result cptr) :=
  guard (VERIFY_PARAM_NON_NULL amlDataHandle) (
  let* amlData := new_data AMLDataOps.empty in
  if is_null amlData then ret_err CAML_NO_MEMORY else
  let* handle := AddAmlDataHandle (heap_root amlData) true in
  if is_null handle then
    let* _ := delete_data (heap_root amlData) in
    ret_err CAML_NO_MEMORY
  else ret_ok handle).

(** [CAMLErrorCode DestroyAMLData(amlDataHandle_t amlDataHandle)] *)
Definition DestroyAMLData (amlDataHandle : cptr) : st World (result unit) :=
  guard (VERIFY_PARAM_NON_NULL amlDataHandle) (
  let* amlData := FindAmlData amlDataHandle in
  match amlData with
  | None => ret_err CAML_INVALID_HANDLE
  | Some p =>
      let* _ := RemoveOwnedAmlDataHandles p in
      let* _ := RemoveAmlData amlDataHandle in
      ret_ok tt
  end).

(** [CAMLErrorCode CloneAMLData(amlDataHandle_t origin, amlDataHandle_t* clone)] *)
Definition CloneAMLData (origin clone : cptr) : st World (result cptr) :=
  guard (VERIFY_PARAM_NON_NULL origin) (
  guard (VERIFY_PARAM_NON_NULL clone) (
  let* originAmlData := FindAmlData origin in
  match originAmlData with
  | None => ret_err CAML_INVALID_HANDLE
  | Some p =>
      let* d := read_data p in
      let* cloneAmlData := new_data d in
      if is_null cloneAmlData then ret_err CAML_NO_MEMORY else
      let* cloneHandle := AddAmlDataHandle (heap_root cloneAmlData) true in
      if is_null cloneHandle then
        let* _ := delete_data (heap_root cloneAmlData) in
        ret_err CAML_NO_MEMORY
      else ret_ok cloneHandle
  end)).

(** The three setters share their shape: resolve, then [setValue]. *)
Definition set_value_through (amlDataHandle : cptr) (key : string) (v : AMLValue)
    : st World (result unit) :=
  let* amlData := FindAmlData amlDataHandle in
  match amlData with
  | None => ret_err CAML_INVALID_HANDLE
  | Some p =>
      let* r := update_data p (fun d => AMLDataOps.setValue d key v) in
      catch_aml r (fun _ => ret_ok tt)
  end.

(** [CAMLErrorCode AMLData_SetValueStr(amlDataHandle, const char* key, const char* value)] *)
Definition AMLData_SetValueStr (amlDataHandle : cptr) (key value : cstr) : st World (result unit) :=
  guard (VERIFY_PARAM_NON_NULL amlDataHandle) (
  guard (VERIFY_STR_NON_NULL key) (
  guard (VERIFY_STR_NON_NULL value) (
  match key, value with
  | Some keyStr, Some valueStr => set_value_through amlDataHandle keyStr (AVString valueStr)
  | _, _ => ret_err CAML_INVALID_PARAM
  end))).

(** [CAMLErrorCode AMLData_SetValueStrArr(amlDataHandle, key, const char** value,
    const size_t valueSize)]: the strings are read before the handle's
    data is changed. *)
Definition AMLData_SetValueStrArr (amlDataHandle : cptr) (key : cstr) (value : option (list cstr))
    (valueSize : nat) : st World (result unit) :=
  guard (VERIFY_PARAM_NON_NULL amlDataHandle) (
  guard (VERIFY_STR_NON_NULL key) (
  match key, value with
  | Some keyStr, Some arr =>
      let* amlData := FindAmlData amlDataHandle in
      match amlData with
      | None => ret_err CAML_INVALID_HANDLE
      | Some p =>
          let* valueStrArr := read_cstr_array arr valueSize in
          let* r := update_data p (fun d => AMLDataOps.setValue d keyStr (AVStringArray valueStrArr)) in
          catch_aml r (fun _ => ret_ok tt)
      end
  | _, _ => ret_err CAML_INVALID_PARAM
  end)).

(** [CAMLErrorCode AMLData_SetValueAMLData(amlDataHandle, key, const amlDataHandle_t value)]:
    [setValue(keyStr, *valueData)] copies the value in. *)
Definition AMLData_SetValueAMLData (amlDataHandle : cptr) (key : cstr) (value : cptr)
    : st World (result unit) :=
  guard (VERIFY_PARAM_NON_NULL amlDataHandle) (
  guard (VERIFY_STR_NON_NULL key) (
  guard (VERIFY_PARAM_NON_NULL value) (
  match key with
  | None => ret_err CAML_INVALID_PARAM
  | Some keyStr =>
      let* amlData := FindAmlData amlDataHandle in
      let* valueData := FindAmlData value in
      match amlData, valueData with
      | Some p, Some q =>
          let* v := read_data q in
          let* r := update_data p (fun d => AMLDataOps.setValue d keyStr (AVData v)) in
          catch_aml r (fun _ => ret_ok tt)
      | _, _ => ret_err CAML_INVALID_HANDLE
      end
  end))).

(** [CAMLErrorCode AMLData_GetValueStr(amlDataHandle, key, char** value)] *)
Definition AMLData_GetValueStr (amlDataHandle : cptr) (key : cstr) (value : cptr)
    : st World (result string) :=
  guard (VERIFY_PARAM_NON_NULL amlDataHandle) (
  guard (VERIFY_STR_NON_NULL key) (
  guard (VERIFY_PARAM_NON_NULL value) (
  match key with
  | None => ret_err CAML_INVALID_PARAM
  | Some keyStr =>
      let* amlData := FindAmlData amlDataHandle in
      match amlData with
      | None => ret_err CAML_INVALID_HANDLE
      | Some p =>
          let* d := read_data p in
          catch_aml (AMLDataOps.getValueToStr d keyStr) (fun valueStr =>
          let* valueArr := ConvertStringToCharStr valueStr in
          match valueArr with
          | None => ret_err CAML_NO_MEMORY
          | Some s => ret_ok s
          end)
      end
  end))).

(** [CAMLErrorCode AMLData_GetValueStrArr(amlDataHandle, key, char*** value, size_t* valueSize)]:
    the out-parameters are the array and its size, written together. *)
Definition AMLData_GetValueStrArr (amlDataHandle : cptr) (key : cstr) (value valueSize : cptr)
    : st World (result (list string)) :=
  guard (VERIFY_PARAM_NON_NULL amlDataHandle) (
  guard (VERIFY_STR_NON_NULL key) (
  guard (VERIFY_PARAM_NON_NULL value) (
  guard (VERIFY_PARAM_NON_NULL valueSize) (
  match key with
  | None => ret_err CAML_INVALID_PARAM
  | Some keyStr =>
      let* amlData := FindAmlData amlDataHandle in
      match amlData with
      | None => ret_err CAML_INVALID_HANDLE
      | Some p =>
          let* d := read_data p in
          catch_aml (AMLDataOps.getValueToStrArr d keyStr) (fun valueStrArr =>
          let* strarr := ConvertVectorToCharStrArr valueStrArr in
          match strarr with
          | None => ret_err CAML_NO_MEMORY
          | Some l => ret_ok l
          end)
      end
  end)))).

(** [CAMLErrorCode AMLData_GetValueAMLData(amlDataHandle, key, amlDataHandle_t* value)]:
    the nested value's address is the parent's address followed by
    [key]; its handle is the registered one if there is one, else a new
    borrowing handle. *)
Definition AMLData_GetValueAMLData (amlDataHandle : cptr) (key : cstr) (value : cptr)
    : st World (result cptr) :=
  guard (VERIFY_PARAM_NON_NULL amlDataHandle) (
  guard (VERIFY_STR_NON_NULL key) (
  guard (VERIFY_PARAM_NON_NULL value) (
  match key with
  | None => ret_err CAML_INVALID_PARAM
  | Some keyStr =>
      let* amlData := FindAmlData amlDataHandle in
      match amlData with
      | None => ret_err CAML_INVALID_HANDLE
      | Some p =>
          let* d := read_data p in
          catch_aml (AMLDataOps.getValueToAMLData d keyStr) (fun _ =>
          find_or_add_alias (Ptr (p_addr p) (p_path p ++ [keyStr])))
      end
  end))).

(** [CAMLErrorCode AMLData_GetKeys(amlDataHandle, char*** keys, size_t* keysSize)] *)
Definition AMLData_GetKeys (amlDataHandle : cptr) (keys keysSize : cptr)
    : st World (result (list string)) :=
  guard (VERIFY_PARAM_NON_NULL amlDataHandle) (
  guard (VERIFY_PARAM_NON_NULL keys) (
  guard (VERIFY_PARAM_NON_NULL keysSize) (
  let* amlData := FindAmlData amlDataHandle in
  match amlData with
  | None => ret_err CAML_INVALID_HANDLE
  | Some p =>
      let* d := read_data p in
      let* strarr := ConvertVectorToCharStrArr (AMLDataOps.getKeys d) in
      match strarr with
      | None => ret_err CAML_NO_MEMORY
      | Some l => ret_ok l
      end
  end))).

(** [CAMLErrorCode AMLData_GetValueType(amlDataHandle, key, CAMLValueType* type)] *)
Definition AMLData_GetValueType (amlDataHandle : cptr) (key : cstr) (type : cptr)
    : st World (result CAMLValueType) :=
  guard (VERIFY_PARAM_NON_NULL amlDataHandle) (
  guard (VERIFY_STR_NON_NULL key) (
  guard (VERIFY_PARAM_NON_NULL type) (
  match key with
  | None => ret_err CAML_INVALID_PARAM
  | Some keyStr =>
      let* amlData := FindAmlData amlDataHandle in
      match amlData with
      | None => ret_err CAML_INVALID_HANDLE
      | Some p =>
          let* d := read_data p in
          catch_aml (AMLDataOps.getValueType d keyStr) (fun cpptype =>
          ret_ok (toCAMLValueType cpptype))
      end
  end))).

End CamlData.

(** ** The getters do not change the world *)

Section Frames.
Context {A : Allocator}.

Lemma AMLData_GetValueStr_pure h k v : st_pure (AMLData_GetValueStr h k v).
Proof. unfold AMLData_GetValueStr. solve_pure_api. Qed.

Lemma AMLData_GetValueStrArr_pure h k v n : st_pure (AMLData_GetValueStrArr h k v n).
Proof. unfold AMLData_GetValueStrArr. solve_pure_api. Qed.

Lemma AMLData_GetKeys_pure h k n : st_pure (AMLData_GetKeys h k n).
Proof. unfold AMLData_GetKeys. solve_pure_api. Qed.

Lemma AMLData_GetValueType_pure h k t : st_pure (AMLData_GetValueType h k t).
Proof. unfold AMLData_GetValueType. solve_pure_api. Qed.

(** ** The setters keep the invariant *)

Lemma AMLData_SetValueStr_wf h k v : st_preserves reg_wf (AMLData_SetValueStr h k v).
Proof. unfold AMLData_SetValueStr, set_value_through. solve_preserves_api. Qed.

Lemma AMLData_SetValueStrArr_wf h k v n : st_preserves reg_wf (AMLData_SetValueStrArr h k v n).
Proof. unfold AMLData_SetValueStrArr. solve_preserves_api. Qed.

Lemma AMLData_SetValueAMLData_wf h k v : st_preserves reg_wf (AMLData_SetValueAMLData h k v).
Proof. unfold AMLData_SetValueAMLData. solve_preserves_api. Qed.

End Frames.

(** ** Every function keeps the invariant *)

Section Invariant.
Context `{AS : AllocatorSpec}.

Lemma CreateAMLData_wf out : st_preserves reg_wf (CreateAMLData out).
Proof.
  intros w w' r Hwf H1. unfold CreateAMLData in H1.
  destruct (guard_inv _ _ _ _ _ H1) as [(c & _ & -> & _)|(_ & H2)]; [done|].
  exact (proj1 (new_data_handle_wf _ _ _ _ Hwf H2)).
Qed.

Lemma CloneAMLData_wf o c : st_preserves reg_wf (CloneAMLData o c).
Proof.
  intros w w' r Hwf H1. unfold CloneAMLData in H1.
  destruct (guard_inv _ _ _ _ _ H1) as [(? & _ & -> & _)|(_ & H2)]; [done|].
  destruct (guard_inv _ _ _ _ _ H2) as [(? & _ & -> & _)|(_ & H3)]; [done|].
  st_case H3 as w1 op. apply FindAmlData_inv in E as [-> _].
  destruct op as [p|]; [|by injection H3 as <- _].
  st_case H3 as w2 d. apply (pure_step _ _ _ _ (read_data_pure p)) in E as ->.
  exact (proj1 (new_data_handle_wf _ _ _ _ Hwf H3)).
Qed.

Lemma DestroyAMLData_wf h : st_preserves reg_wf (DestroyAMLData h).
Proof.
  intros w w' r Hwf H1. unfold DestroyAMLData in H1.
  destruct (guard_inv _ _ _ _ _ H1) as [(? & _ & -> & _)|(_ & H2)]; [done|].
  st_case H2 as w1 op. apply FindAmlData_inv in E as [-> _].
  destruct op as [p|]; [|by injection H2 as <- _].
  st_case H2 as w2 u. apply RemoveOwnedAmlDataHandles_Done in E as ->; [|done].
  st_case H2 as w3 u'. injection H2 as <- _. destruct u'. by eapply wf_RemoveAmlData.
Qed.

Lemma AMLData_GetValueAMLData_wf h k v : st_preserves reg_wf (AMLData_GetValueAMLData h k v).
Proof.
  intros w w' r Hwf H1. unfold AMLData_GetValueAMLData in H1.
  destruct (guard_inv _ _ _ _ _ H1) as [(? & _ & -> & _)|(_ & H2)]; [done|].
  destruct (guard_inv _ _ _ _ _ H2) as [(? & _ & -> & _)|(_ & H3)]; [done|].
  destruct (guard_inv _ _ _ _ _ H3) as [(? & _ & -> & _)|(_ & H4)]; [done|].
  destruct k as [key|]; [|by injection H4 as <- _].
  st_case H4 as w1 op. apply FindAmlData_inv in E as [-> Hop].
  destruct op as [p|]; [|by injection H4 as <- _].
  destruct (data_entry w h) as [n|] eqn:En; [|discriminate]. injection Hop as ->.
  st_case H4 as w2 d. apply (pure_step _ _ _ _ (read_data_pure _)) in E as ->.
  unfold catch_aml in H4. destruct (AMLDataOps.getValueToAMLData d key); [by injection H4 as <- _|].
  refine (find_or_add_alias_wf _ _ _ _ _ _ Hwf H4).
  - exact (data_entry_heap_base _ _ _ Hwf En).
  - by destruct (p_path _).
Qed.

End Invariant.

(** ** Behaviour *)

Section Behaviour.
Context `{AS : AllocatorSpec}.

(** Destroying a handle that owns its value: the call succeeds, drops the
    handle's node and frees the value's block. *)
Lemma DestroyAMLData_owner w h n :
  reg_wf w -> data_entry w h = Some n -> dn_needsDelete n = true ->
  exists b w', dn_cppObj n = heap_root b /\ DestroyAMLData h w = Done w' (CAML_OK, Some tt) /\
    w_heap w' = delete b (w_heap w) /\ g_amlDataHead w' = ll_delete dn_node h (g_amlDataHead w).
Proof.
  intros Hwf Hn Hown.
  pose proof Hn as [Hin _]%ll_find_Some.
  pose proof (wf_data_owned _ Hwf) as Ho. rewrite Forall_forall in Ho. destruct (Ho n Hin Hown) as [d Hd].
  unfold data_root_block in Hd. destruct (dn_cppObj n) as [[b|] [|]] eqn:Ep; try discriminate.
  destruct (w_heap w !! b) as [[d'| |]|] eqn:Eb; try discriminate. injection Hd as ->.
  eexists _, _. split; [done|]. split.
  { unfold DestroyAMLData, guard. rewrite VERIFY_PARAM_NON_NULL_None by (eapply data_entry_not_null; eauto).
  unfold st_bind at 1, FindAmlData. rewrite Hn. cbn [fmap option_fmap option_map]. rewrite Ep.
  unfold st_bind at 1. rewrite (RemoveOwnedAmlDataHandles_noop _ _ d (wf_data_heap _ Hwf)) by
    (unfold heap_data_at; cbn; by rewrite Eb).
  unfold st_bind, RemoveAmlData. rewrite Hn, Hown. unfold delete_data. cbn [w_heap set_datas]. rewrite Ep, Eb.
  reflexivity. }
  split; reflexivity.
Qed.

(** C24: destroying the same handle twice: once the first
    [DestroyAMLData] has succeeded, the second reports
    [CAML_INVALID_HANDLE] and changes nothing. *)
Theorem DestroyAMLData_twice h w w1 x :
  reg_wf w -> DestroyAMLData h w = Done w1 (CAML_OK, x) ->
  DestroyAMLData h w1 = Done w1 (CAML_INVALID_HANDLE, None).
Proof.
  intros Hwf H1. unfold DestroyAMLData in H1 |- *.
  destruct (guard_inv _ _ _ _ _ H1) as [(c & Hc & _ & [= <- _])|(Hc & H2)].
  { by apply VERIFY_PARAM_NON_NULL_ok in Hc. }
  unfold guard. rewrite Hc.
  st_case H2 as w' op. apply FindAmlData_inv in E as [-> ->].
  destruct (data_entry w h) as [n|] eqn:En; [|discriminate]. simpl in H2.
  st_case H2 as w2 u. apply RemoveOwnedAmlDataHandles_Done in E as ->; [|done].
  st_case H2 as w3 u'. destruct u'. injection H2 as <- _.
  unfold st_bind, FindAmlData. by rewrite (RemoveAmlData_gone _ _ _ Hwf E).
Qed.

(** C7: alias de-duplication: once [AMLData_GetValueAMLData] has
    returned handle [hv] for a nested value, asking again for the same key
    of the same handle returns [hv] again and registers nothing. *)
Theorem AMLData_GetValueAMLData_same_handle h k out w w1 hv :
  reg_wf w ->
  AMLData_GetValueAMLData h k out w = Done w1 (CAML_OK, Some hv) ->
  AMLData_GetValueAMLData h k out w1 = Done w1 (CAML_OK, Some hv).
Proof.
  intros Hwf H1. unfold AMLData_GetValueAMLData in H1 |- *.
  destruct (guard_inv _ _ _ _ _ H1) as [(c & _ & _ & ?)|(Hc1 & H2)]; [congruence|].
  destruct (guard_inv _ _ _ _ _ H2) as [(c & _ & _ & ?)|(Hc2 & H3)]; [congruence|].
  destruct (guard_inv _ _ _ _ _ H3) as [(c & _ & _ & ?)|(Hc3 & H4)]; [congruence|].
  unfold guard. rewrite Hc1, Hc2, Hc3.
  destruct k as [key|]; [|discriminate].
  st_case H4 as w' op. apply FindAmlData_inv in E as [-> Hop].
  destruct op as [p|]; [|discriminate].
  destruct (data_entry w h) as [n|] eqn:En; [|discriminate]. injection Hop as ->.
  st_case H4 as w2 d. pose proof E as Eread. apply (pure_step _ _ _ _ (read_data_pure _)) in E as ->.
  unfold catch_aml in H4. destruct (AMLDataOps.getValueToAMLData d key) eqn:Eg; [discriminate|].
  destruct (find_or_add_alias_again _ _ _ _ Hwf H4) as (Hagain & Hheap & _ & Hent).
  assert (F1 : FindAmlData h w1 = Done w1 (Some (dn_cppObj n))).
  { unfold FindAmlData. rewrite Hent; [by rewrite En|]. by eapply data_entry_live. }
  assert (F2 : read_data (dn_cppObj n) w1 = Done w1 d).
  { unfold read_data in Eread |- *. rewrite Hheap.
    destruct (heap_data_at _ _); [|discriminate]. by injection Eread as ->. }
  rewrite (st_bind_Done _ _ _ _ _ F1). lazy beta iota.
  rewrite (st_bind_Done _ _ _ _ _ F2). rewrite Eg. exact Hagain.
Qed.

(** C1: [DestroyAMLData(h)] unregisters [h] and nothing else: every
    other data handle keeps its entry, in particular a borrowed handle of
    a value nested in [h]'s value, which is left pointing into the freed
    block (the spec's I4 asks for it to be removed). *)
Theorem DestroyAMLData_keeps_other_handles h w w1 x h' :
  reg_wf w -> DestroyAMLData h w = Done w1 (CAML_OK, x) -> h' <> h ->
  data_entry w1 h' = data_entry w h'.
Proof.
  intros Hwf H1 Hne. unfold DestroyAMLData in H1.
  destruct (guard_inv _ _ _ _ _ H1) as [(c & Hc & _ & Hr)|(_ & H2)].
  { apply VERIFY_PARAM_NON_NULL_ok in Hc. subst. discriminate. }
  st_case H2 as w' op. apply FindAmlData_inv in E as [-> _].
  destruct op as [p|]; [|discriminate].
  st_case H2 as w2 u. apply RemoveOwnedAmlDataHandles_Done in E as ->; [|done].
  st_case H2 as w3 u'. destruct u'. injection H2 as <- _.
  apply RemoveAmlData_lists in E as (Hl & _ & _).
  unfold data_entry. rewrite Hl. by apply ll_find_delete_ne.
Qed.

(** C23: [AMLData_GetKeys] of an empty value asks [malloc] for
    zero pointers' worth of bytes: where [malloc(0)] returns [NULL] the call
    reports [CAML_NO_MEMORY], though nothing was short; where it returns a
    pointer the call gives the empty key list. *)
Theorem AMLData_GetKeys_empty h keys keysSize w n :
  h <> NULL -> keys <> NULL -> keysSize <> NULL ->
  data_entry w h = Some n -> heap_data_at (w_heap w) (dn_cppObj n) = Some [] ->
  AMLData_GetKeys h keys keysSize w =
    Done w (match malloc (live w) 0 with
            | Some _ => (CAML_OK, Some [])
            | None => (CAML_NO_MEMORY, None)
            end).
Proof.
  intros Hh Hk Hs En Hd. unfold AMLData_GetKeys, guard.
  rewrite !VERIFY_PARAM_NON_NULL_None by done.
  unfold st_bind, FindAmlData. rewrite En. cbn [fmap option_fmap option_map].
  unfold read_data. rewrite Hd. unfold ConvertVectorToCharStrArr. cbn [AMLDataOps.getKeys map length].
  rewrite Nat.mul_0_r. by destruct (malloc (live w) 0).
Qed.

End Behaviour.

(** ** Witnesses *)

(** Block 2 is an empty [AMLData] owned by handle 1. *)
Lemma DestroyAMLData_twice_witness :
  reg_wf (mkWorld {[2%Z := BData []]} [] [Build_amlData_t 1 (heap_root 2) true] []) /\
  DestroyAMLData 1 (mkWorld {[2%Z := BData []]} [] [Build_amlData_t 1 (heap_root 2) true] [])
    = Done (mkWorld ∅ [] [] []) (CAML_OK, Some tt) /\
  DestroyAMLData 1 (mkWorld ∅ [] [] []) = Done (mkWorld ∅ [] [] []) (CAML_INVALID_HANDLE, None).
Proof.
  assert (Hwf : reg_wf (mkWorld {[2%Z := BData []]} [] [Build_amlData_t 1 (heap_root 2) true] [])).
  { apply reg_wfb_sound. vm_compute. reflexivity. }
  assert (H1 : DestroyAMLData 1 (mkWorld {[2%Z := BData []]} [] [Build_amlData_t 1 (heap_root 2) true] [])
               = Done (mkWorld ∅ [] [] []) (CAML_OK, Some tt)).
  { vm_compute. reflexivity. }
  split; [exact Hwf|]. split; [exact H1|].
  exact (DestroyAMLData_twice _ _ _ _ Hwf H1).
Defined.

(** Block 2 holds key ["k"] bound to an empty [AMLData]; handle 1 owns it.
    The first fetch registers node 3 for the nested value; the second
    returns node 3 again. *)
Lemma AMLData_GetValueAMLData_same_handle_witness :
  reg_wf (mkWorld {[2%Z := BData [("k"%string, AVData [])]]} [] [Build_amlData_t 1 (heap_root 2) true] []) /\
  AMLData_GetValueAMLData (A := bump_alloc) 1 (Some "k"%string) 9
    (mkWorld {[2%Z := BData [("k"%string, AVData [])]]} [] [Build_amlData_t 1 (heap_root 2) true] [])
  = Done (mkWorld {[2%Z := BData [("k"%string, AVData [])]]} []
            [Build_amlData_t 1 (heap_root 2) true; Build_amlData_t 3 (Ptr (HeapAddr 2) ["k"%string]) false] [])
         (CAML_OK, Some 3%Z) /\
  AMLData_GetValueAMLData (A := bump_alloc) 1 (Some "k"%string) 9
    (mkWorld {[2%Z := BData [("k"%string, AVData [])]]} []
            [Build_amlData_t 1 (heap_root 2) true; Build_amlData_t 3 (Ptr (HeapAddr 2) ["k"%string]) false] [])
  = Done (mkWorld {[2%Z := BData [("k"%string, AVData [])]]} []
            [Build_amlData_t 1 (heap_root 2) true; Build_amlData_t 3 (Ptr (HeapAddr 2) ["k"%string]) false] [])
         (CAML_OK, Some 3%Z).
Proof.
  assert (Hwf : reg_wf (mkWorld {[2%Z := BData [("k"%string, AVData [])]]} []
                                [Build_amlData_t 1 (heap_root 2) true] [])).
  { apply reg_wfb_sound. vm_compute. reflexivity. }
  assert (H1 : AMLData_GetValueAMLData (A := bump_alloc) 1 (Some "k"%string) 9
    (mkWorld {[2%Z := BData [("k"%string, AVData [])]]} [] [Build_amlData_t 1 (heap_root 2) true] [])
  = Done (mkWorld {[2%Z := BData [("k"%string, AVData [])]]} []
            [Build_amlData_t 1 (heap_root 2) true; Build_amlData_t 3 (Ptr (HeapAddr 2) ["k"%string]) false] [])
         (CAML_OK, Some 3%Z)).
  { vm_compute. reflexivity. }
  split; [exact Hwf|]. split; [exact H1|].
  exact (AMLData_GetValueAMLData_same_handle _ _ _ _ _ _ Hwf H1).
Defined.

(** Handle 1 owns block 2, whose key ["k"] holds a nested value that
    handle 3 borrows; destroying handle 1 leaves handle 3 registered. *)
Lemma DestroyAMLData_keeps_other_handles_witness :
  reg_wf (mkWorld {[2%Z := BData [("k"%string, AVData [])]]} []
            [Build_amlData_t 1 (heap_root 2) true; Build_amlData_t 3 (Ptr (HeapAddr 2) ["k"%string]) false] []) /\
  DestroyAMLData 1 (mkWorld {[2%Z := BData [("k"%string, AVData [])]]} []
            [Build_amlData_t 1 (heap_root 2) true; Build_amlData_t 3 (Ptr (HeapAddr 2) ["k"%string]) false] [])
    = Done (mkWorld ∅ [] [Build_amlData_t 3 (Ptr (HeapAddr 2) ["k"%string]) false] []) (CAML_OK, Some tt) /\
  data_entry (mkWorld ∅ [] [Build_amlData_t 3 (Ptr (HeapAddr 2) ["k"%string]) false] []) 3
    = data_entry (mkWorld {[2%Z := BData [("k"%string, AVData [])]]} []
            [Build_amlData_t 1 (heap_root 2) true; Build_amlData_t 3 (Ptr (HeapAddr 2) ["k"%string]) false] []) 3.
Proof.
  assert (Hwf : reg_wf (mkWorld {[2%Z := BData [("k"%string, AVData [])]]} []
            [Build_amlData_t 1 (heap_root 2) true; Build_amlData_t 3 (Ptr (HeapAddr 2) ["k"%string]) false] [])).
  { apply reg_wfb_sound. vm_compute. reflexivity. }
  assert (H1 : DestroyAMLData 1 (mkWorld {[2%Z := BData [("k"%string, AVData [])]]} []
            [Build_amlData_t 1 (heap_root 2) true; Build_amlData_t 3 (Ptr (HeapAddr 2) ["k"%string]) false] [])
    = Done (mkWorld ∅ [] [Build_amlData_t 3 (Ptr (HeapAddr 2) ["k"%string]) false] []) (CAML_OK, Some tt)).
  { vm_compute. reflexivity. }
  split; [exact Hwf|]. split; [exact H1|].
  apply (DestroyAMLData_keeps_other_handles _ _ _ _ _ Hwf H1). discriminate.
Defined.

(** ** The AMLData API as a whole *)

(** One call of the AMLData API, with its arguments. *)
Inductive data_call :=
  | DC_CreateAMLData (out : cptr)
  | DC_DestroyAMLData (h : cptr)
  | DC_CloneAMLData (origin out : cptr)
  | DC_SetValueStr (h : cptr) (key value : cstr)
  | DC_SetValueStrArr (h : cptr) (key : cstr) (value : option (list cstr)) (valueSize : nat)
  | DC_SetValueAMLData (h : cptr) (key : cstr) (value : cptr)
  | DC_GetValueStr (h : cptr) (key : cstr) (out : cptr)
  | DC_GetValueStrArr (h : cptr) (key : cstr) (out outSize : cptr)
  | DC_GetValueAMLData (h : cptr) (key : cstr) (out : cptr)
  | DC_GetKeys (h : cptr) (out outSize : cptr)
  | DC_GetValueType (h : cptr) (key : cstr) (out : cptr).

Definition run_data_call {A : Allocator} (c : data_call) : st World CAMLErrorCode :=
  match c with
  | DC_CreateAMLData out => code_of (CreateAMLData out)
  | DC_DestroyAMLData h => code_of (DestroyAMLData h)
  | DC_CloneAMLData o out => code_of (CloneAMLData o out)
  | DC_SetValueStr h k v => code_of (AMLData_SetValueStr h k v)
  | DC_SetValueStrArr h k v n => code_of (AMLData_SetValueStrArr h k v n)
  | DC_SetValueAMLData h k v => code_of (AMLData_SetValueAMLData h k v)
  | DC_GetValueStr h k out => code_of (AMLData_GetValueStr h k out)
  | DC_GetValueStrArr h k out n => code_of (AMLData_GetValueStrArr h k out n)
  | DC_GetValueAMLData h k out => code_of (AMLData_GetValueAMLData h k out)
  | DC_GetKeys h out n => code_of (AMLData_GetKeys h out n)
  | DC_GetValueType h k out => code_of (AMLData_GetValueType h k out)
  end.

Section Api.
Context `{AS : AllocatorSpec}.

Lemma st_atomic_new_data d :
  st_atomic (let* amlData := new_data d in
             if is_null amlData then ret_err CAML_NO_MEMORY else
             let* handle := AddAmlDataHandle (heap_root amlData) true in
             if is_null handle then
               let* _ := delete_data (heap_root amlData) in
               ret_err CAML_NO_MEMORY
             else ret_ok handle).
Proof. intros w w' r Hwf Hr. exact (proj2 (new_data_handle_wf _ _ _ _ Hwf Hr)). Qed.

Lemma run_data_call_atomic_each c :
  match c with
  | DC_CreateAMLData out => st_atomic (CreateAMLData out)
  | DC_DestroyAMLData h => st_atomic (DestroyAMLData h)
  | DC_CloneAMLData o out => st_atomic (CloneAMLData o out)
  | DC_SetValueStr h k v => st_atomic (AMLData_SetValueStr h k v)
  | DC_SetValueStrArr h k v n => st_atomic (AMLData_SetValueStrArr h k v n)
  | DC_SetValueAMLData h k v => st_atomic (AMLData_SetValueAMLData h k v)
  | DC_GetValueStr h k out => st_atomic (AMLData_GetValueStr h k out)
  | DC_GetValueStrArr h k out n => st_atomic (AMLData_GetValueStrArr h k out n)
  | DC_GetValueAMLData h k out => st_atomic (AMLData_GetValueAMLData h k out)
  | DC_GetKeys h out n => st_atomic (AMLData_GetKeys h out n)
  | DC_GetValueType h k out => st_atomic (AMLData_GetValueType h k out)
  end.
Proof.
  destruct c.
  - unfold CreateAMLData. apply st_atomic_guard, st_atomic_new_data.
  - unfold DestroyAMLData. apply st_atomic_guard, st_atomic_pure_bind; [apply FindAmlData_pure|].
    intros [p|]; [|apply st_atomic_pure, ret_err_pure].
    apply st_always_ok_atomic, st_always_ok_bind. intros. apply st_always_ok_bind.
    intros. apply st_always_ok_ret.
  - unfold CloneAMLData. apply st_atomic_guard, st_atomic_guard, st_atomic_pure_bind; [apply FindAmlData_pure|].
    intros [p|]; [|apply st_atomic_pure, ret_err_pure].
    apply st_atomic_pure_bind; [apply read_data_pure|]. intros. apply st_atomic_new_data.
  - unfold AMLData_SetValueStr, set_value_through. solve_atomic_api.
  - unfold AMLData_SetValueStrArr. solve_atomic_api.
  - unfold AMLData_SetValueAMLData. solve_atomic_api.
  - apply st_atomic_pure, AMLData_GetValueStr_pure.
  - apply st_atomic_pure, AMLData_GetValueStrArr_pure.
  - unfold AMLData_GetValueAMLData. apply st_atomic_guard, st_atomic_guard, st_atomic_guard.
    destruct key as [key|]; [|apply st_atomic_pure, ret_err_pure].
    apply st_atomic_pure_bind; [apply FindAmlData_pure|].
    intros [p|]; [|apply st_atomic_pure, ret_err_pure].
    apply st_atomic_pure_bind; [apply read_data_pure|]. intros d.
    apply st_atomic_catch. intros _. apply find_or_add_alias_atomic.
  - apply st_atomic_pure, AMLData_GetKeys_pure.
  - apply st_atomic_pure, AMLData_GetValueType_pure.
Qed.

Lemma run_data_call_wf c : st_preserves reg_wf (run_data_call c).
Proof.
  destruct c; simpl; apply code_of_preserves.
  - apply CreateAMLData_wf.
  - apply DestroyAMLData_wf.
  - apply CloneAMLData_wf.
  - apply AMLData_SetValueStr_wf.
  - apply AMLData_SetValueStrArr_wf.
  - apply AMLData_SetValueAMLData_wf.
  - apply st_pure_preserves, AMLData_GetValueStr_pure.
  - apply st_pure_preserves, AMLData_GetValueStrArr_pure.
  - apply AMLData_GetValueAMLData_wf.
  - apply st_pure_preserves, AMLData_GetKeys_pure.
  - apply st_pure_preserves, AMLData_GetValueType_pure.
Qed.

Lemma run_data_call_atomic c w w' code :
  reg_wf w -> run_data_call c w = Done w' code -> code <> CAML_OK -> w' = w.
Proof.
  pose proof (run_data_call_atomic_each c) as Hc.
  destruct c; simpl; intros; eapply code_of_atomic; eauto.
Qed.

End Api.

(** With a [malloc] that returns [NULL] for zero bytes, the keys of the
    empty value of handle 1 are refused for lack of memory; with
    [bump_alloc] they are the empty list. *)
Lemma AMLData_GetKeys_empty_witness :
  AMLData_GetKeys (A := zero_null_alloc) 1 9 9 (mkWorld {[2%Z := BData []]} [] [Build_amlData_t 1 (heap_root 2) true] [])
    = Done (mkWorld {[2%Z := BData []]} [] [Build_amlData_t 1 (heap_root 2) true] []) (CAML_NO_MEMORY, None) /\
  AMLData_GetKeys (A := bump_alloc) 1 9 9 (mkWorld {[2%Z := BData []]} [] [Build_amlData_t 1 (heap_root 2) true] [])
    = Done (mkWorld {[2%Z := BData []]} [] [Build_amlData_t 1 (heap_root 2) true] []) (CAML_OK, Some []).
Proof.
  split.
  - exact (AMLData_GetKeys_empty (A := zero_null_alloc) 1 9 9
               (mkWorld {[2%Z := BData []]} [] [Build_amlData_t 1 (heap_root 2) true] [])
               (Build_amlData_t 1 (heap_root 2) true)
             ltac:(discriminate) ltac:(discriminate) ltac:(discriminate) eq_refl eq_refl).
  - exact (AMLData_GetKeys_empty (A := bump_alloc) 1 9 9
               (mkWorld {[2%Z := BData []]} [] [Build_amlData_t 1 (heap_root 2) true] [])
               (Build_amlData_t 1 (heap_root 2) true)
             ltac:(discriminate) ltac:(discriminate) ltac:(discriminate) eq_refl eq_refl).
Defined.
