(* ===== verification/ValueTypes.v ===== *)
(** * Values, value types and the typed accessors of [camldata.cpp]

    [AMLData_GetValueType] reports the kind of the value under a key;
    [AMLData_GetValueStr], [AMLData_GetValueStrArr] and
    [AMLData_GetValueAMLData] each read one kind and fail with
    [CAML_WRONG_GETTER_TYPE] on the others.  This file shows the two
    agree: on a key whose type is reported, exactly the getter of that
    type gets past the type check, and where no type is reported every
    getter returns the same code as [AMLData_GetValueType].  And the
    setters against the getters: a string set through
    [AMLData_SetValueStr] is what [AMLData_GetValueStr] returns, and a
    key once set cannot be set again. *)

From stdpp Require Import base list strings.
From S2P Require Import Prelude ErrorCodes Engine Memory HandleManager CamlUtils RegistryFacts CamlData.

(** The result code a call returns on [w], if it returns. *)
Definition code_at {T} (m : st World (result T)) (w : World) : option CAMLErrorCode :=
  match m w with Done _ r => Some r.1 | Crashed _ => None end.

(** The code the getter of type [ty] returns on [w]. *)
Definition typed_getter_code {A : Allocator} (ty : CAMLValueType) (h : cptr) (key : cstr)
    (value valueSize : cptr) (w : World) : option CAMLErrorCode :=
  match ty with
  | AMLVALTYPE_STRING => code_at (AMLData_GetValueStr h key value) w
  | AMLVALTYPE_STRINGARRAY => code_at (AMLData_GetValueStrArr h key value valueSize) w
  | AMLVALTYPE_AMLDATA => code_at (AMLData_GetValueAMLData h key value) w
  end.

(** ** What follows a successful typed read *)

(** The handle lookup every getter starts with, and the read of
    [*amlData] after it. *)
Lemma open_find {T} h (k : ptr -> st World (result T)) w :
  (let* p := FindAmlData h in match p with None => ret_err CAML_INVALID_HANDLE | Some p => k p end) w =
  match data_entry w h with None => Done w (CAML_INVALID_HANDLE, None) | Some n => k (dn_cppObj n) w end.
Proof. unfold st_bind, FindAmlData. by destruct (data_entry w h). Qed.

Lemma open_read {T} p (k : AMLData -> st World T) w :
  (let* d := read_data p in k d) w =
  match heap_data_at (w_heap w) p with None => Crashed UseAfterFree | Some d => k d w end.
Proof. unfold st_bind, read_data. by destruct (heap_data_at (w_heap w) p). Qed.

(** A call that never returns [CAML_WRONG_GETTER_TYPE]. *)
Definition not_type_error {T} (m : st World (result T)) : Prop :=
  forall w w' c r, m w = Done w' (c, r) -> c <> CAML_WRONG_GETTER_TYPE.

Lemma no_type_error_match {T} (m : st World (result T)) w :
  not_type_error m -> match m w with Done _ r => Some r.1 | Crashed _ => None end <> Some CAML_WRONG_GETTER_TYPE.
Proof. intros Hm. destruct (m w) as [w' [c r]|] eqn:E; [|done]. intros [= ->]. by eapply Hm. Qed.

Lemma not_type_error_bind {X T} (m : st World X) (k : X -> st World (result T)) :
  (forall x, not_type_error (k x)) -> not_type_error (st_bind m k).
Proof.
  intros Hk w w' c r. unfold st_bind. destruct (m w) as [w1 x|]; [|done]. apply Hk.
Qed.

Lemma not_type_error_ret {T} c (r : option T) :
  c <> CAML_WRONG_GETTER_TYPE -> not_type_error (st_ret (c, r)).
Proof. intros Hc w w' c' r' [= _ <- _]. exact Hc. Qed.

(** The steps after a successful engine read: marshaling, lookups and
    registration, ending in [CAML_OK] or [CAML_NO_MEMORY]. *)
Ltac solve_no_type_error :=
  repeat first
    [ apply not_type_error_bind; intros
    | progress unfold ret_ok, ret_err, find_or_add_alias
    | apply not_type_error_ret; discriminate
    | case_match ].

Ltac open_getters :=
  unfold AMLData_GetValueType, AMLData_GetValueStr, AMLData_GetValueStrArr, AMLData_GetValueAMLData, guard;
  rewrite ?VERIFY_PARAM_NON_NULL_None by done; cbn [VERIFY_STR_NON_NULL];
  rewrite ?open_find.

(** ** Reading after an update *)

Lemma data_update_at_read d path f d2 :
  data_update_at d path f = Some (inr d2) ->
  exists x y, data_at d path = Some x /\ f x = inr y /\ data_at d2 path = Some y.
Proof.
  revert d d2. induction path as [|k rest IH]; intros d d2; cbn.
  - intros [= E]. by exists d, d2.
  - destruct (assoc_lookup k d) as [[| |sub]|] eqn:Ek; try discriminate.
    destruct (data_update_at sub rest f) as [[e|sub']|] eqn:Es; intros [=<-]; [].
    destruct (IH _ _ Es) as (x & y & Hx & Hf & Hy). exists x, y. split_and!; [done|done|].
    by rewrite assoc_lookup_set_eq by (rewrite Ek; by eexists).
Qed.

Lemma data_update_at_err d path f x e :
  data_at d path = Some x -> f x = inl e -> data_update_at d path f = Some (inl e).
Proof.
  revert d. induction path as [|k rest IH]; intros d; cbn.
  - intros [= <-] ->. done.
  - destruct (assoc_lookup k d) as [[| |sub]|]; try discriminate. intros Hx Hf. by rewrite (IH _ Hx Hf).
Qed.

Lemma heap_data_update_read h p f h' :
  heap_data_update h p f = Some (inr h') ->
  exists x y, heap_data_at h p = Some x /\ f x = inr y /\ heap_data_at h' p = Some y.
Proof.
  unfold heap_data_update, heap_data_at. destruct (p_addr p) as [b|]; [|discriminate].
  destruct (h !! b) as [[d|o|]|] eqn:Eb; try discriminate.
  - destruct (data_update_at d (p_path p) f) as [[e|d']|] eqn:E; intros [= <-].
    destruct (data_update_at_read _ _ _ _ E) as (x & y & ? & ? & ?). exists x, y.
    by rewrite lookup_insert_eq.
  - destruct (p_path p) as [|name path]; [discriminate|].
    destruct (assoc_lookup name (o_datas o)) as [d|] eqn:En; [|discriminate].
    destruct (data_update_at d path f) as [[e|d']|] eqn:E; intros [= <-].
    destruct (data_update_at_read _ _ _ _ E) as (x & y & ? & ? & ?). exists x, y.
    rewrite lookup_insert_eq. cbn. by rewrite assoc_lookup_set_eq by (rewrite En; by eexists).
Qed.

Lemma heap_data_update_err h p f x e :
  heap_data_at h p = Some x -> f x = inl e -> heap_data_update h p f = Some (inl e).
Proof.
  unfold heap_data_update, heap_data_at. destruct (p_addr p) as [b|]; [|discriminate].
  destruct (h !! b) as [[d|o|]|]; try discriminate.
  - intros Hx Hf. by rewrite (data_update_at_err _ _ _ _ _ Hx Hf).
  - destruct (p_path p) as [|name path]; [discriminate|].
    destruct (assoc_lookup name (o_datas o)); [|discriminate].
    intros Hx Hf. by rewrite (data_update_at_err _ _ _ _ _ Hx Hf).
Qed.

Lemma data_update_at_err_inv d path f e :
  data_update_at d path f = Some (inl e) -> exists x, f x = inl e.
Proof.
  revert d. induction path as [|k rest IH]; intros d; cbn; [intros [= H]; by exists d|].
  destruct (assoc_lookup k d) as [[| |sub]|]; try discriminate.
  destruct (data_update_at sub rest f) as [[e'|]|] eqn:E; intros [= He]; subst e'. exact (IH _ E).
Qed.

Lemma heap_data_update_err_inv h p f e :
  heap_data_update h p f = Some (inl e) -> exists x, f x = inl e.
Proof.
  unfold heap_data_update. destruct (p_addr p) as [b|]; [|discriminate].
  destruct (h !! b) as [[d|o|]|]; try discriminate.
  - destruct (data_update_at d _ f) as [[]|] eqn:E; intros [=]; subst. by eapply data_update_at_err_inv.
  - destruct (p_path p) as [|name path]; [discriminate|].
    destruct (assoc_lookup name (o_datas o)); [|discriminate].
    destruct (data_update_at _ path f) as [[]|] eqn:E; intros [=]; subst. by eapply data_update_at_err_inv.
Qed.

Section Setters.
Context {A : Allocator}.

Lemma setValue_ok d key v d' :
  AMLDataOps.setValue d key v = inr d' -> assoc_lookup key d = None /\ d' = d ++ [(key, v)].
Proof. unfold AMLDataOps.setValue. by destruct (assoc_lookup key d); intros [= <-]. Qed.

(** What a successful [set_value_through] did. *)
Lemma set_value_through_ok h key v w w' r :
  set_value_through h key v w = Done w' (CAML_OK, r) ->
  exists n x, data_entry w h = Some n /\ g_amlDataHead w' = g_amlDataHead w /\
    assoc_lookup key x = None /\ heap_data_at (w_heap w') (dn_cppObj n) = Some (x ++ [(key, v)]).
Proof.
  unfold set_value_through. rewrite open_find.
  destruct (data_entry w h) as [n|] eqn:En; [|by intros [= _ ? _]].
  unfold st_bind, update_data.
  destruct (heap_data_update (w_heap w) (dn_cppObj n) _) as [[e|h']|] eqn:E; try discriminate.
  - cbn. intros [= _ He _]. apply ExceptionCodeToErrorCode_ok in He as ->.
    apply heap_data_update_err_inv in E as [x Hx]. unfold AMLDataOps.setValue in Hx.
    by destruct (assoc_lookup key x).
  - cbn. intros [= <- _]. destruct (heap_data_update_read _ _ _ _ E) as (x & y & Hx & Hf & Hy).
    apply setValue_ok in Hf as [Hk ->]. exists n, x. by split_and!.
Qed.

End Setters.

(** ** The reported type decides the getter *)

Section Typing.
Context {A : Allocator}.

(** C12: with every pointer argument non-null, if [AMLData_GetValueType]
    reports the type [ty'] of [key], the getter of a type [ty] fails with
    [CAML_WRONG_GETTER_TYPE] exactly when [ty <> ty']; if it reports no
    type, every getter returns the same code it did (an unknown handle,
    a missing key).  The getter of the reported type can still fail, but
    only for memory. *)
Theorem AMLData_GetValueType_getters h key t value valueSize w w' c r :
  h <> NULL -> t <> NULL -> value <> NULL -> valueSize <> NULL ->
  AMLData_GetValueType h (Some key) t w = Done w' (c, r) ->
  forall ty, match r with
   | Some ty' => typed_getter_code ty h (Some key) value valueSize w = Some CAML_WRONG_GETTER_TYPE <-> ty <> ty'
   | None => typed_getter_code ty h (Some key) value valueSize w = Some c
   end.
Proof.
  intros Hh Ht Hv Hs Hty ty. unfold typed_getter_code, code_at.
  revert Hty. destruct ty; open_getters; destruct (data_entry w h) as [n|]; try (intros [= _ <- <-]; done);
  rewrite !open_read; destruct (heap_data_at (w_heap w) (dn_cppObj n)) as [d|]; try discriminate.
  all: unfold AMLDataOps.getValueType, AMLDataOps.getValueToStr, AMLDataOps.getValueToStrArr,
         AMLDataOps.getValueToAMLData.
  all: destruct (AMLDataOps.lookupValue d key) as [e|[]];
    cbn -[find_or_add_alias ConvertStringToCharStr ConvertVectorToCharStrArr];
    intros [= _ <- <-]; try done.
  all: split; [intros H; exfalso; revert H; apply no_type_error_match | done].
  all: solve_no_type_error.
Qed.

End Typing.

(** ** Setting and getting back *)

Section RoundTrip.
Context {A : Allocator}.

(** C13: the insert/lookup round trip of the string setter: once
    [AMLData_SetValueStr] has stored [s] under [key], [AMLData_GetValueStr]
    returns [s] (or [CAML_NO_MEMORY] if its copy cannot be allocated),
    and setting [key] again returns [CAML_KEY_ALREADY_EXIST] and changes
    nothing: a value is never overwritten. *)
Theorem AMLData_SetValueStr_roundtrip h key s v w w' r :
  v <> NULL ->
  AMLData_SetValueStr h (Some key) (Some s) w = Done w' (CAML_OK, r) ->
  AMLData_GetValueStr h (Some key) v w' =
    match malloc (live w') (String.length s + 1)%nat with
    | Some _ => Done w' (CAML_OK, Some s)
    | None => Done w' (CAML_NO_MEMORY, None)
    end /\
  forall s', AMLData_SetValueStr h (Some key) (Some s') w' = Done w' (CAML_KEY_ALREADY_EXIST, None).
Proof.
  intros Hv Hset. unfold AMLData_SetValueStr, guard in Hset |- *.
  destruct (VERIFY_PARAM_NON_NULL h) eqn:Hh; [by apply VERIFY_PARAM_NON_NULL_ok in Hh as ->|].
  cbn [VERIFY_STR_NON_NULL] in Hset |- *.
  destruct (set_value_through_ok _ _ _ _ _ _ Hset) as (n & x & Hn & Hl & Hk & Hx).
  assert (Hn' : data_entry w' h = Some n) by (unfold data_entry; by rewrite Hl).
  split.
  - unfold AMLData_GetValueStr, guard. rewrite Hh, VERIFY_PARAM_NON_NULL_None by done. cbn [VERIFY_STR_NON_NULL].
    rewrite open_find, Hn', open_read, Hx.
    unfold AMLDataOps.getValueToStr, AMLDataOps.lookupValue. rewrite assoc_lookup_app_new by done.
    cbn. unfold st_bind, ConvertStringToCharStr. by destruct (malloc _ _).
  - intros s'. unfold set_value_through. rewrite open_find, Hn'. unfold st_bind, update_data.
    rewrite (heap_data_update_err _ _ _ _ KEY_ALREADY_EXIST Hx); [done|].
    unfold AMLDataOps.setValue. by rewrite assoc_lookup_app_new.
Qed.
End RoundTrip.

(** ** Witnesses *)

Definition typed_world : World :=
  mkWorld {[2%Z := BData [("k"%string, AVString "v"%string)]]} [] [Build_amlData_t 1 (heap_root 2) true] [].

Lemma AMLData_GetValueType_getters_witness :
  AMLData_GetValueType 1 (Some "k"%string) 9 typed_world
    = Done typed_world (CAML_OK, Some AMLVALTYPE_STRING) /\
  (typed_getter_code (A := bump_alloc) AMLVALTYPE_STRINGARRAY 1 (Some "k"%string) 9 9 typed_world
     = Some CAML_WRONG_GETTER_TYPE <-> AMLVALTYPE_STRINGARRAY <> AMLVALTYPE_STRING).
Proof.
  assert (H : AMLData_GetValueType 1 (Some "k"%string) 9 typed_world
              = Done typed_world (CAML_OK, Some AMLVALTYPE_STRING)) by (vm_compute; reflexivity).
  split; [exact H|].
  refine (AMLData_GetValueType_getters (A := bump_alloc) 1 "k" 9 9 9 typed_world typed_world
            CAML_OK (Some AMLVALTYPE_STRING) _ _ _ _ H AMLVALTYPE_STRINGARRAY);
    unfold NULL; lia.
Defined.

Definition empty_data_world : World :=
  mkWorld {[2%Z := BData []]} [] [Build_amlData_t 1 (heap_root 2) true] [].

Lemma AMLData_SetValueStr_roundtrip_witness :
  AMLData_SetValueStr 1 (Some "k"%string) (Some "v"%string) empty_data_world
    = Done typed_world (CAML_OK, Some tt) /\
  AMLData_GetValueStr (A := bump_alloc) 1 (Some "k"%string) 9 typed_world
    = Done typed_world (CAML_OK, Some "v"%string) /\
  AMLData_SetValueStr 1 (Some "k"%string) (Some "w"%string) typed_world
    = Done typed_world (CAML_KEY_ALREADY_EXIST, None).
Proof.
  assert (Hset : AMLData_SetValueStr 1 (Some "k"%string) (Some "v"%string) empty_data_world
                 = Done typed_world (CAML_OK, Some tt)) by (vm_compute; reflexivity).
  destruct (AMLData_SetValueStr_roundtrip (A := bump_alloc) 1 "k" "v" 9 empty_data_world typed_world
              (Some tt) ltac:(discriminate) Hset) as [Hget Hagain].
  split; [exact Hset|]. split; [|exact (Hagain "w"%string)].
  rewrite Hget. reflexivity.
Defined.
