(* ===== verification/CamlObject.v ===== *)
(** * The AMLObject API (camlobject.cpp)

    One definition per exported function, in the order of the source.  An
    [AMLObject] is a heap block [BObj]; its named data are reached through
    the pointer [Ptr (HeapAddr b) [name]], which is what
    [amlObj->getData(name)] returns by reference.  The three string
    getters write the result of [ConvertStringToCharStr] to their
    out-parameter before they test it, so on [CAML_NO_MEMORY] the
    out-parameter holds [NULL]: their result type is [result cstr], with
    [Some None] for a written [NULL]. *)

From S2P Require Import Prelude ErrorCodes Engine Memory HandleManager CamlUtils RegistryFacts RegistryObjects.

Section CamlObject.
Context {A : Allocator}.

(** [new AMLObject(...)]'s constructor result, as a heap block. *)
Definition obj_ctor (r : ResultCode + AMLObject) : ResultCode + block :=
  match r with inl e => inl e | inr o => inr (BObj o) end.

(** The tail shared by the three constructors: [new] has run ([r] is its
    block or the constructor's exception); register an owning handle,
    deleting the object when that fails. *)
Definition register_new_obj (r : ResultCode + Z) : st World (result cptr) :=
  match r with
  | inl e => ret_err (ExceptionCodeToErrorCode e)
  | inr amlObj =>
      let* handle := AddAmlObjHandle amlObj true in
      if is_null handle then
        let* _ := delete_obj amlObj in
        ret_err CAML_NO_MEMORY
      else ret_ok handle
  end.

(** [CAMLErrorCode CreateAMLObject(const char* deviceId, const char* timeStamp,
    amlObjectHandle_t* amlObjHandle)] *)
Definition CreateAMLObject (deviceId timeStamp : cstr) (amlObjHandle : cptr) : st World (result cptr) :=
  guard (VERIFY_STR_NON_NULL deviceId) (
  guard (VERIFY_STR_NON_NULL timeStamp) (
  guard (VERIFY_PARAM_NON_NULL amlObjHandle) (
  match deviceId, timeStamp with
  | Some d, Some t =>
      let* amlObj := new_with (obj_ctor (AMLObjectOps.create d t)) in
      register_new_obj amlObj
  | _, _ => ret_err CAML_INVALID_PARAM
  end))).

(** [CAMLErrorCode CreateAMLObjectWithID(deviceId, timeStamp, const char* id, amlObjHandle)] *)
Definition CreateAMLObjectWithID (deviceId timeStamp id : cstr) (amlObjHandle : cptr)
    : st World (result cptr) :=
  guard (VERIFY_STR_NON_NULL deviceId) (
  guard (VERIFY_STR_NON_NULL timeStamp) (
  guard (VERIFY_STR_NON_NULL id) (
  guard (VERIFY_PARAM_NON_NULL amlObjHandle) (
  match deviceId, timeStamp, id with
  | Some d, Some t, Some i =>
      let* amlObj := new_with (obj_ctor (AMLObjectOps.createWithId d t i)) in
      register_new_obj amlObj
  | _, _, _ => ret_err CAML_INVALID_PARAM
  end)))).

(** [CAMLErrorCode DestroyAMLObject(amlObjectHandle_t amlObjHandle)] *)
Definition DestroyAMLObject (amlObjHandle : cptr) : st World (result unit) :=
  guard (VERIFY_PARAM_NON_NULL amlObjHandle) (
  let* amlObj := FindAmlObj amlObjHandle in
  match amlObj with
  | None => ret_err CAML_INVALID_HANDLE
  | Some b =>
      let* _ := RemoveOwnedAmlDataHandles_obj b in
      let* _ := RemoveAmlObj amlObjHandle in
      ret_ok tt
  end).

(** [CAMLErrorCode CloneAMLObject(amlObjectHandle_t origin, amlObjectHandle_t* clone)]:
    the copy constructor does not throw. *)
Definition CloneAMLObject (origin clone : cptr) : st World (result cptr) :=
  guard (VERIFY_PARAM_NON_NULL origin) (
  guard (VERIFY_PARAM_NON_NULL clone) (
  let* originObj := FindAmlObj origin in
  match originObj with
  | None => ret_err CAML_INVALID_HANDLE
  | Some b =>
      let* o := read_obj b in
      let* cloneObj := new_with (inr (BObj o)) in
      register_new_obj cloneObj
  end)).

(** [CAMLErrorCode AMLObject_AddData(amlObjHandle, const char* name,
    const amlDataHandle_t amlDataHandle)]: [addData(name, *amlData)]
    copies the data in. *)
Definition AMLObject_AddData (amlObjHandle : cptr) (name : cstr) (amlDataHandle : cptr)
    : st World (result unit) :=
  guard (VERIFY_PARAM_NON_NULL amlObjHandle) (
  guard (VERIFY_STR_NON_NULL name) (
  guard (VERIFY_PARAM_NON_NULL amlDataHandle) (
  match name with
  | None => ret_err CAML_INVALID_PARAM
  | Some nameStr =>
      let* amlObj := FindAmlObj amlObjHandle in
      let* amlData := FindAmlData amlDataHandle in
      match amlObj, amlData with
      | Some b, Some q =>
          let* d := read_data q in
          let* r := update_obj b (fun o => AMLObjectOps.addData o nameStr d) in
          catch_aml r (fun _ => ret_ok tt)
      | _, _ => ret_err CAML_INVALID_HANDLE
      end
  end))).

(** The address of [amlObj->getData(name)]. *)
Definition obj_data_ptr (amlObj : Z) (name : string) : ptr := Ptr (HeapAddr amlObj) [name].

(** [CAMLErrorCode AMLObject_GetData(amlObjHandle, const char* name,
    amlDataHandle_t* amlDataHandle)]: the registered handle of the named
    data if there is one, else a new borrowing handle. *)
Definition AMLObject_GetData (amlObjHandle : cptr) (name : cstr) (amlDataHandle : cptr)
    : st World (result cptr) :=
  guard (VERIFY_PARAM_NON_NULL amlObjHandle) (
  guard (VERIFY_STR_NON_NULL name) (
  guard (VERIFY_PARAM_NON_NULL amlDataHandle) (
  match name with
  | None => ret_err CAML_INVALID_PARAM
  | Some nameStr =>
      let* amlObj := FindAmlObj amlObjHandle in
      match amlObj with
      | None => ret_err CAML_INVALID_HANDLE
      | Some b =>
          let* o := read_obj b in
          catch_aml (AMLObjectOps.getData o nameStr) (fun _ =>
          find_or_add_alias (obj_data_ptr b nameStr))
      end
  end))).

(** [CAMLErrorCode AMLObject_GetDataNames(amlObjHandle, char*** names, size_t* namesSize)] *)
Definition AMLObject_GetDataNames (amlObjHandle names namesSize : cptr)
    : st World (result (list string)) :=
  guard (VERIFY_PARAM_NON_NULL amlObjHandle) (
  guard (VERIFY_PARAM_NON_NULL names) (
  guard (VERIFY_PARAM_NON_NULL namesSize) (
  let* amlObj := FindAmlObj amlObjHandle in
  match amlObj with
  | None => ret_err CAML_INVALID_HANDLE
  | Some b =>
      let* o := read_obj b in
      let* strarr := ConvertVectorToCharStrArr (AMLObjectOps.getDataNames o) in
      match strarr with
      | None => ret_err CAML_NO_MEMORY
      | Some l => ret_ok l
      end
  end))).

(** The three string getters: [*out = ConvertStringToCharStr(str)], then
    [if (nullptr == *out) return CAML_NO_MEMORY]. *)
Definition get_string_field (amlObjHandle out : cptr) (field : AMLObject -> string)
    : st World (result cstr) :=
  guard (VERIFY_PARAM_NON_NULL amlObjHandle) (
  guard (VERIFY_PARAM_NON_NULL out) (
  let* amlObj := FindAmlObj amlObjHandle in
  match amlObj with
  | None => ret_err CAML_INVALID_HANDLE
  | Some b =>
      let* o := read_obj b in
      let* s := ConvertStringToCharStr (field o) in
      match s with
      | None => st_ret (CAML_NO_MEMORY, Some None)
      | Some _ => ret_ok s
      end
  end)).

(** [CAMLErrorCode AMLObject_GetDeviceId(amlObjHandle, char** deviceId)] *)
Definition AMLObject_GetDeviceId (amlObjHandle deviceId : cptr) : st World (result cstr) :=
  get_string_field amlObjHandle deviceId o_deviceId.

(** [CAMLErrorCode AMLObject_GetTimeStamp(amlObjHandle, char** timeStamp)] *)
Definition AMLObject_GetTimeStamp (amlObjHandle timeStamp : cptr) : st World (result cstr) :=
  get_string_field amlObjHandle timeStamp o_timeStamp.

(** [CAMLErrorCode AMLObject_GetId(amlObjHandle, char** id)] *)
Definition AMLObject_GetId (amlObjHandle id : cptr) : st World (result cstr) :=
  get_string_field amlObjHandle id o_id.

End CamlObject.

(** The object a handle resolves to. *)
Definition obj_of (w : World) (h : cptr) : option AMLObject :=
  obj_entry w h ≫= fun n => obj_block (w_heap w) (on_cppObj n).

(** A world for the witnesses: block 2 is an object with one named data
    ["d"], owned by handle 1, beside the data handles [datas]. *)
Definition obj_world (datas : list amlData_t) : World :=
  mkWorld {[2%Z := BObj (mkAMLObject "device01" "ts" "device01_ts" [("d"%string, [])])]}
    [Build_amlObject_t 1 2 true] datas [].

(** ** Lemmas *)


Lemma FindAmlObj_inv h w w' o : FindAmlObj h w = Done w' o -> w' = w /\ o = on_cppObj <$> obj_entry w h.
Proof. by intros [= <- <-]. Qed.

Lemma obj_entry_block w h n :
  reg_wf w -> obj_entry w h = Some n -> exists o, w_heap w !! on_cppObj n = Some (BObj o).
Proof.
  intros Hwf [Hin _]%ll_find_Some. pose proof (wf_objs_owned _ Hwf) as Ho.
  rewrite Forall_forall in Ho. destruct (Ho n Hin) as [_ [o Hb]].
  unfold obj_block in Hb. destruct (_ !! _) as [[]|]; try discriminate. injection Hb as ->. eauto.
Qed.

Lemma RemoveAmlObj_datas h w w' u : RemoveAmlObj h w = Done w' u -> g_amlDataHead w' = g_amlDataHead w.
Proof.
  unfold RemoveAmlObj. destruct (obj_entry w h) as [n|]; [|discriminate].
  destruct (on_needsDelete n); [|by intros [= <- _]].
  unfold delete_obj. cbn [w_heap set_objs].
  destruct (w_heap w !! on_cppObj n) as [[]|]; try discriminate. by intros [= <- _].
Qed.

(** [new] of an object followed by [register_new_obj]: the [bad_alloc]
    escapes, or [CAML_NO_MEMORY] with the world as it was (the object is
    deleted again), or a new handle that resolves to the object. *)
Lemma new_register_obj `{AllocatorSpec} o w :
  (let* amlObj := new_with (inr (BObj o)) in register_new_obj amlObj) w = Crashed BadAllocEscapes \/
  (let* amlObj := new_with (inr (BObj o)) in register_new_obj amlObj) w = Done w (CAML_NO_MEMORY, None) \/
  exists w2 h2, (let* amlObj := new_with (inr (BObj o)) in register_new_obj amlObj) w
                  = Done w2 (CAML_OK, Some h2) /\ obj_of w2 h2 = Some o.
Proof.
  unfold st_bind, new_with. destruct (new_block (live w)) as [a|] eqn:Ea; [|by left].
  destruct (new_block_fresh _ _ Ea) as [Ha _]. apply not_live_dom, not_elem_of_dom in Ha.
  right. cbn [register_new_obj]. unfold st_bind, AddAmlObjHandle.
  set (w1 := set_heap w (<[a:=BObj o]> (w_heap w))).
  destruct (malloc (live w1) sizeof_amlObject_t) as [node|] eqn:Em.
  - right. destruct (malloc_fresh _ _ _ Em) as [Hfresh Hnn].
    unfold is_null. rewrite bool_decide_eq_false_2 by done. do 2 eexists. split; [reflexivity|].
    unfold obj_of, obj_entry. cbn [g_amlObjectHead set_objs w_heap].
    rewrite (ll_find_app_new on_node _ (Build_amlObject_t node a true)); cbn [mbind option_bind].
    + unfold obj_block, w1. cbn [w_heap set_heap on_cppObj]. by rewrite lookup_insert_eq.
    + intros Hin. apply (not_live_nodes _ _ Hfresh). unfold node_addrs. apply elem_of_app. by left.
  - left. unfold is_null. rewrite bool_decide_eq_true_2 by done.
    unfold delete_obj, w1. cbn [w_heap set_heap]. rewrite lookup_insert_eq. cbn.
    destruct w as [h os ds rs]. unfold set_heap. cbn in *. by rewrite delete_insert_id.
Qed.

(** ** Every function keeps the invariant, and fails without effect *)

Section Invariant.
Context `{AS : AllocatorSpec}.

(** The tail of the three constructors and of [CloneAMLObject]: [new]
    of an object and an owning handle for it. *)
Lemma new_register_obj_wf r0 w w' r :
  reg_wf w ->
  (let* amlObj := new_with (obj_ctor r0) in register_new_obj amlObj) w = Done w' r ->
  reg_wf w' /\ (r.1 <> CAML_OK -> w' = w).
Proof.
  intros Hwf H1. st_case H1 as w1 x. apply new_with_spec in E. destruct x as [e|a].
  { destruct E as [-> _]. by injection H1 as <- <-. }
  destruct E as (Ha & _ & blk & Hc & ->). destruct r0 as [e|o]; cbn [obj_ctor] in Hc; [discriminate|injection Hc as <-].
  cbn [register_new_obj] in H1. st_case H1 as w2 hd. pose proof E as Eadd.
  destruct (AddAmlObjHandle_result _ _ _ _ _ E) as [[-> ->]|(_ & Hn & ->)].
  - unfold is_null in H1. rewrite bool_decide_eq_true_2 in H1 by done.
    st_case H1 as w3 u. unfold delete_obj in E0. cbn [w_heap set_heap] in E0.
    rewrite lookup_insert_eq in E0. injection E0 as <- _. injection H1 as <- <-.
    by rewrite delete_fresh_world.
  - unfold is_null in H1. rewrite bool_decide_eq_false_2 in H1 by done. injection H1 as <- <-.
    split; [|done]. eapply wf_AddAmlObjHandle; [exact (wf_new_block _ _ (BObj o) Hwf Ha)| | |exact Eadd].
    + unfold obj_block. cbn [w_heap set_heap]. rewrite lookup_insert_eq. by eexists.
    + exact (fresh_not_obj _ _ Hwf Ha).
Qed.

Lemma new_register_obj_preserves r0 :
  st_preserves reg_wf (let* amlObj := new_with (obj_ctor r0) in register_new_obj amlObj).
Proof. intros w w' r Hwf H1. exact (proj1 (new_register_obj_wf _ _ _ _ Hwf H1)). Qed.

Lemma new_register_obj_atomic r0 :
  st_atomic (let* amlObj := new_with (obj_ctor r0) in register_new_obj amlObj).
Proof. intros w w' r Hwf H1. exact (proj2 (new_register_obj_wf _ _ _ _ Hwf H1)). Qed.

Lemma AMLObject_GetData_alias b nameStr : st_preserves reg_wf (find_or_add_alias (obj_data_ptr b nameStr)).
Proof. apply find_or_add_alias_wf; [by eexists|done]. Qed.

Ltac obj_tails :=
  first [ apply new_register_obj_preserves | apply (new_register_obj_preserves (inr _))
        | apply new_register_obj_atomic | apply (new_register_obj_atomic (inr _))
        | apply AMLObject_GetData_alias | apply find_or_add_alias_atomic ].

Lemma CreateAMLObject_wf d t out : st_preserves reg_wf (CreateAMLObject d t out).
Proof. unfold CreateAMLObject. solve_preserves_objs_with obj_tails. Qed.

Lemma CreateAMLObjectWithID_wf d t i out : st_preserves reg_wf (CreateAMLObjectWithID d t i out).
Proof. unfold CreateAMLObjectWithID. solve_preserves_objs_with obj_tails. Qed.

Lemma DestroyAMLObject_wf h : st_preserves reg_wf (DestroyAMLObject h).
Proof. unfold DestroyAMLObject. solve_preserves_objs_with fail. Qed.

Lemma CloneAMLObject_wf o c : st_preserves reg_wf (CloneAMLObject o c).
Proof. unfold CloneAMLObject. solve_preserves_objs_with obj_tails. Qed.

Lemma AMLObject_AddData_wf h n d : st_preserves reg_wf (AMLObject_AddData h n d).
Proof. unfold AMLObject_AddData. solve_preserves_objs_with fail. Qed.

Lemma AMLObject_GetData_wf h n out : st_preserves reg_wf (AMLObject_GetData h n out).
Proof. unfold AMLObject_GetData. solve_preserves_objs_with obj_tails. Qed.

Lemma CreateAMLObject_atomic d t out : st_atomic (CreateAMLObject d t out).
Proof. unfold CreateAMLObject. solve_atomic_objs_with obj_tails. Qed.

Lemma CreateAMLObjectWithID_atomic d t i out : st_atomic (CreateAMLObjectWithID d t i out).
Proof. unfold CreateAMLObjectWithID. solve_atomic_objs_with obj_tails. Qed.

Lemma DestroyAMLObject_atomic h : st_atomic (DestroyAMLObject h).
Proof. unfold DestroyAMLObject. solve_atomic_objs_with fail. Qed.

Lemma CloneAMLObject_atomic o c : st_atomic (CloneAMLObject o c).
Proof. unfold CloneAMLObject. solve_atomic_objs_with obj_tails. Qed.

Lemma AMLObject_AddData_atomic h n d : st_atomic (AMLObject_AddData h n d).
Proof. unfold AMLObject_AddData. solve_atomic_objs_with fail. Qed.

Lemma AMLObject_GetData_atomic h n out : st_atomic (AMLObject_GetData h n out).
Proof. unfold AMLObject_GetData. solve_atomic_objs_with obj_tails. Qed.

Lemma AMLObject_GetDataNames_pure h n sz : st_pure (AMLObject_GetDataNames h n sz).
Proof. unfold AMLObject_GetDataNames. solve_pure_api. Qed.

Lemma get_string_field_pure h out f : st_pure (get_string_field h out f).
Proof. unfold get_string_field. solve_pure_api. Qed.

End Invariant.

(** ** Behaviour *)

Section Behaviour.
Context `{AS : AllocatorSpec}.

(** C4: [DestroyAMLObject(h)] leaves the data registry exactly as it
    was: the walker over the object's named data unregisters only the
    addresses of stack copies, so every handle [AMLObject_GetData] gave
    out for one of the object's data stays registered, pointing into the
    freed object (the spec's I4 asks for them to be removed). *)
Theorem DestroyAMLObject_keeps_data_handles h w w1 x :
  reg_wf w -> DestroyAMLObject h w = Done w1 (CAML_OK, x) ->
  g_amlDataHead w1 = g_amlDataHead w.
Proof.
  intros Hwf H1. unfold DestroyAMLObject in H1.
  destruct (guard_inv _ _ _ _ _ H1) as [(c & Hc & _ & Hr)|(_ & H2)].
  { apply VERIFY_PARAM_NON_NULL_ok in Hc. subst. discriminate. }
  st_case H2 as w' ob. apply FindAmlObj_inv in E as [-> Hob].
  destruct (obj_entry w h) as [n|] eqn:En; simpl in Hob; subst ob; [|discriminate].
  destruct (obj_entry_block _ _ _ Hwf En) as [o Ho].
  st_case H2 as w2 u. rewrite (RemoveOwnedAmlDataHandles_obj_noop _ o) in E; [|apply Hwf|done].
  injection E as <- _.
  st_case H2 as w3 u'. injection H2 as <- _. by apply RemoveAmlObj_datas in E.
Qed.

(** C8: alias de-duplication through an object: once
    [AMLObject_GetData] has returned handle [hv] for a named data, asking
    again for the same name returns [hv] again and registers nothing. *)
Theorem AMLObject_GetData_same_handle h k out w w1 hv :
  reg_wf w ->
  AMLObject_GetData h k out w = Done w1 (CAML_OK, Some hv) ->
  AMLObject_GetData h k out w1 = Done w1 (CAML_OK, Some hv).
Proof.
  intros Hwf H1. unfold AMLObject_GetData in H1 |- *.
  destruct (guard_inv _ _ _ _ _ H1) as [(c & _ & _ & ?)|(Hc1 & H2)]; [congruence|].
  destruct (guard_inv _ _ _ _ _ H2) as [(c & _ & _ & ?)|(Hc2 & H3)]; [congruence|].
  destruct (guard_inv _ _ _ _ _ H3) as [(c & _ & _ & ?)|(Hc3 & H4)]; [congruence|].
  unfold guard. rewrite Hc1, Hc2, Hc3.
  destruct k as [name|]; [|discriminate].
  st_case H4 as w' ob. apply FindAmlObj_inv in E as [-> Hob].
  destruct ob as [b|]; [|discriminate].
  st_case H4 as w2 o. pose proof E as Eread. apply (pure_step _ _ _ _ (read_obj_pure _)) in E as ->.
  unfold catch_aml in H4. destruct (AMLObjectOps.getData o name) eqn:Eg; [discriminate|].
  destruct (find_or_add_alias_again _ _ _ _ Hwf H4) as (Hagain & Hheap & Hobjs & _).
  assert (F1 : FindAmlObj h w1 = Done w1 (Some b)).
  { unfold FindAmlObj, obj_entry. rewrite Hobjs. unfold obj_entry in Hob. by rewrite <- Hob. }
  assert (F2 : read_obj b w1 = Done w1 o).
  { unfold read_obj in Eread |- *. rewrite Hheap.
    destruct (obj_block _ _); [|discriminate]. by injection Eread as ->. }
  rewrite (st_bind_Done _ _ _ _ _ F1). lazy beta iota.
  rewrite (st_bind_Done _ _ _ _ _ F2). rewrite Eg. exact Hagain.
Qed.

(** C25: when [malloc] fails for the copy of the string,
    [AMLObject_GetDeviceId], [AMLObject_GetTimeStamp] and
    [AMLObject_GetId] return [CAML_NO_MEMORY] having written [NULL] to the
    out-parameter, and change nothing else (the spec says an out-parameter
    is left unwritten on failure). *)
Theorem get_string_field_writes_null h out field w n o :
  h <> NULL -> out <> NULL -> obj_entry w h = Some n ->
  obj_block (w_heap w) (on_cppObj n) = Some o ->
  malloc (live w) (String.length (field o) + 1) = None ->
  get_string_field h out field w = Done w (CAML_NO_MEMORY, Some None).
Proof.
  intros Hh Hout En Ho Hm. unfold get_string_field, guard.
  rewrite !VERIFY_PARAM_NON_NULL_None by done.
  unfold st_bind, FindAmlObj. rewrite En. cbn.
  unfold read_obj. rewrite Ho. unfold ConvertStringToCharStr. by rewrite Hm.
Qed.

End Behaviour.

(** ** Witnesses *)

(** Handle 3 borrows the object's data ["d"]; destroying the object leaves
    it registered. *)
Lemma DestroyAMLObject_keeps_data_handles_witness :
  reg_wf (obj_world [Build_amlData_t 3 (obj_data_ptr 2 "d") false]) /\
  DestroyAMLObject 1 (obj_world [Build_amlData_t 3 (obj_data_ptr 2 "d") false])
    = Done (mkWorld ∅ [] [Build_amlData_t 3 (obj_data_ptr 2 "d") false] []) (CAML_OK, Some tt) /\
  g_amlDataHead (mkWorld ∅ [] [Build_amlData_t 3 (obj_data_ptr 2 "d") false] [])
    = g_amlDataHead (obj_world [Build_amlData_t 3 (obj_data_ptr 2 "d") false]).
Proof.
  assert (Hwf : reg_wf (obj_world [Build_amlData_t 3 (obj_data_ptr 2 "d") false])).
  { apply reg_wfb_sound. vm_compute. reflexivity. }
  assert (H1 : DestroyAMLObject 1 (obj_world [Build_amlData_t 3 (obj_data_ptr 2 "d") false])
    = Done (mkWorld ∅ [] [Build_amlData_t 3 (obj_data_ptr 2 "d") false] []) (CAML_OK, Some tt)).
  { vm_compute. reflexivity. }
  split; [exact Hwf|]. split; [exact H1|].
  exact (DestroyAMLObject_keeps_data_handles _ _ _ _ Hwf H1).
Defined.

(** The first [AMLObject_GetData] registers node 3 for ["d"]; the second
    returns it again. *)
Lemma AMLObject_GetData_same_handle_witness :
  reg_wf (obj_world []) /\
  AMLObject_GetData (A := bump_alloc) 1 (Some "d"%string) 9 (obj_world [])
    = Done (obj_world [Build_amlData_t 3 (obj_data_ptr 2 "d") false]) (CAML_OK, Some 3%Z) /\
  AMLObject_GetData (A := bump_alloc) 1 (Some "d"%string) 9
      (obj_world [Build_amlData_t 3 (obj_data_ptr 2 "d") false])
    = Done (obj_world [Build_amlData_t 3 (obj_data_ptr 2 "d") false]) (CAML_OK, Some 3%Z).
Proof.
  assert (Hwf : reg_wf (obj_world [])). { apply reg_wfb_sound. vm_compute. reflexivity. }
  assert (H1 : AMLObject_GetData (A := bump_alloc) 1 (Some "d"%string) 9 (obj_world [])
    = Done (obj_world [Build_amlData_t 3 (obj_data_ptr 2 "d") false]) (CAML_OK, Some 3%Z)).
  { vm_compute. reflexivity. }
  split; [exact Hwf|]. split; [exact H1|].
  exact (AMLObject_GetData_same_handle _ _ _ _ _ _ Hwf H1).
Defined.

(** With a [malloc] that refuses more than 8 bytes, the 9 bytes of
    ["device01"] are not allocated: [NULL] is written. *)
Lemma get_string_field_writes_null_witness :
  AMLObject_GetDeviceId (A := capped_alloc 8) 1 9 (obj_world [])
    = Done (obj_world []) (CAML_NO_MEMORY, Some None).
Proof.
  apply (get_string_field_writes_null (A := capped_alloc 8) 1 9 o_deviceId (obj_world [])
           (Build_amlObject_t 1 2 true) (mkAMLObject "device01" "ts" "device01_ts" [("d"%string, [])])).
  - discriminate.
  - discriminate.
  - reflexivity.
  - reflexivity.
  - vm_compute. reflexivity.
Defined.

(** ** The AMLObject API as a whole *)

(** One call of the AMLObject API, with its arguments. *)
Inductive obj_call :=
  | OC_CreateAMLObject (deviceId timeStamp : cstr) (out : cptr)
  | OC_CreateAMLObjectWithID (deviceId timeStamp id : cstr) (out : cptr)
  | OC_DestroyAMLObject (h : cptr)
  | OC_CloneAMLObject (origin out : cptr)
  | OC_AddData (h : cptr) (name : cstr) (data : cptr)
  | OC_GetData (h : cptr) (name : cstr) (out : cptr)
  | OC_GetDataNames (h out outSize : cptr)
  | OC_GetDeviceId (h out : cptr)
  | OC_GetTimeStamp (h out : cptr)
  | OC_GetId (h out : cptr).

Definition run_obj_call {A : Allocator} (c : obj_call) : st World CAMLErrorCode :=
  match c with
  | OC_CreateAMLObject d t out => code_of (CreateAMLObject d t out)
  | OC_CreateAMLObjectWithID d t i out => code_of (CreateAMLObjectWithID d t i out)
  | OC_DestroyAMLObject h => code_of (DestroyAMLObject h)
  | OC_CloneAMLObject o out => code_of (CloneAMLObject o out)
  | OC_AddData h n d => code_of (AMLObject_AddData h n d)
  | OC_GetData h n out => code_of (AMLObject_GetData h n out)
  | OC_GetDataNames h out n => code_of (AMLObject_GetDataNames h out n)
  | OC_GetDeviceId h out => code_of (AMLObject_GetDeviceId h out)
  | OC_GetTimeStamp h out => code_of (AMLObject_GetTimeStamp h out)
  | OC_GetId h out => code_of (AMLObject_GetId h out)
  end.

Section Api.
Context `{AS : AllocatorSpec}.

Lemma run_obj_call_wf c : st_preserves reg_wf (run_obj_call c).
Proof.
  destruct c; simpl; apply code_of_preserves;
    first [ apply CreateAMLObject_wf | apply CreateAMLObjectWithID_wf | apply DestroyAMLObject_wf
          | apply CloneAMLObject_wf | apply AMLObject_AddData_wf | apply AMLObject_GetData_wf
          | apply st_pure_preserves, AMLObject_GetDataNames_pure
          | apply st_pure_preserves, get_string_field_pure ].
Qed.

Lemma run_obj_call_atomic c w w' code :
  reg_wf w -> run_obj_call c w = Done w' code -> code <> CAML_OK -> w' = w.
Proof.
  destruct c; simpl; apply code_of_atomic;
    first [ apply CreateAMLObject_atomic | apply CreateAMLObjectWithID_atomic | apply DestroyAMLObject_atomic
          | apply CloneAMLObject_atomic | apply AMLObject_AddData_atomic | apply AMLObject_GetData_atomic
          | apply st_atomic_pure, AMLObject_GetDataNames_pure
          | apply st_atomic_pure, get_string_field_pure ].
Qed.

End Api.
