(* ===== verification/CamlRepresentation.v ===== *)
(** * The Representation API (camlrepresentation.cpp)

    A [Representation] binds an AML schema file and converts an
    [AMLObject] to and from its XML text ([DataToAml] / [AmlToData]) and
    its protobuf bytes ([DataToByte] / [ByteToData]).  That conversion is
    the engine's, outside the binding: it is the interface
    [RepresentationEngine], a class of operations on the schema's file
    path (the heap block [BRep filePath] is the engine object), with the
    round-trip promise [RepresentationLaws].  The binding's functions are
    defined and proved against that interface; [fixture_engine] is one
    instance, with the binary API compiled out, for the witnesses.  A byte
    buffer is a string of 8-bit characters. *)

From S2P Require Import Prelude ErrorCodes Engine Memory HandleManager CamlUtils RegistryFacts RegistryObjects CamlObject.

(** What the binding calls on an [AML::Representation]; the [string]
    argument is the schema file path the object was built from. *)
Class RepresentationEngine := {
  (** [Representation(filePath)]: parses the schema file, may throw. *)
  rep_load : string -> ResultCode + unit;
  rep_getRepresentationId : string -> string;
  (** [getConfigInfo()]: a new [AMLObject] built from the schema. *)
  rep_getConfigInfo : string -> ResultCode + AMLObject;
  rep_DataToAml : string -> AMLObject -> ResultCode + string;
  rep_AmlToData : string -> string -> ResultCode + AMLObject;
  rep_DataToByte : string -> AMLObject -> ResultCode + string;
  rep_ByteToData : string -> string -> ResultCode + AMLObject
}.

(** The engine's promise: what it serializes it parses back. *)
Class RepresentationLaws (E : RepresentationEngine) := {
  aml_roundtrip : forall f o s, rep_DataToAml f o = inr s -> rep_AmlToData f s = inr o;
  byte_roundtrip : forall f o s, rep_DataToByte f o = inr s -> rep_ByteToData f s = inr o
}.

Section CamlRepresentation.
Context {A : Allocator} {E : RepresentationEngine}.

(** [new Representation(filePath)]'s constructor result, as a heap block. *)
Definition rep_ctor (filePath : string) : ResultCode + block :=
  match rep_load filePath with inl e => inl e | inr _ => inr (BRep filePath) end.

(** [CAMLErrorCode CreateRepresentation(const char* filePath, representation_t* repHandle)] *)
Definition CreateRepresentation (filePath : cstr) (repHandle : cptr) : st World (result cptr) :=
  guard (VERIFY_STR_NON_NULL filePath) (
  guard (VERIFY_PARAM_NON_NULL repHandle) (
  match filePath with
  | None => ret_err CAML_INVALID_PARAM
  | Some f =>
      let* rep := new_with (rep_ctor f) in
      match rep with
      | inl e => ret_err (ExceptionCodeToErrorCode e)
      | inr b =>
          let* handle := AddRepresentationHandle b in
          if is_null handle then
            let* _ := delete_rep b in
            ret_err CAML_NO_MEMORY
          else ret_ok handle
      end
  end)).

(** [CAMLErrorCode DestroyRepresentation(representation_t repHandle)] *)
Definition DestroyRepresentation (repHandle : cptr) : st World (result unit) :=
  guard (VERIFY_PARAM_NON_NULL repHandle) (
  let* rep := FindRepresentation repHandle in
  match rep with
  | None => ret_err CAML_INVALID_HANDLE
  | Some _ =>
      let* _ := RemoveRepresentation repHandle in
      ret_ok tt
  end).

(** [CAMLErrorCode Representation_GetRepId(repHandle, char** repId)]: as
    the object's string getters, [NULL] is written on [CAML_NO_MEMORY]. *)
Definition Representation_GetRepId (repHandle repId : cptr) : st World (result cstr) :=
  guard (VERIFY_PARAM_NON_NULL repHandle) (
  guard (VERIFY_PARAM_NON_NULL repId) (
  let* rep := FindRepresentation repHandle in
  match rep with
  | None => ret_err CAML_INVALID_HANDLE
  | Some b =>
      let* f := read_rep b in
      let* s := ConvertStringToCharStr (rep_getRepresentationId f) in
      match s with
      | None => st_ret (CAML_NO_MEMORY, Some None)
      | Some _ => ret_ok s
      end
  end)).

(** [CAMLErrorCode Representation_GetConfigInfo(repHandle, amlObjectHandle_t* amlObjHandle)]:
    the engine's object is [new]ed, then registered as an owner. *)
Definition Representation_GetConfigInfo (repHandle amlObjHandle : cptr) : st World (result cptr) :=
  guard (VERIFY_PARAM_NON_NULL repHandle) (
  guard (VERIFY_PARAM_NON_NULL amlObjHandle) (
  let* rep := FindRepresentation repHandle in
  match rep with
  | None => ret_err CAML_INVALID_HANDLE
  | Some b =>
      let* f := read_rep b in
      let* amlObj := new_with (obj_ctor (rep_getConfigInfo f)) in
      register_new_obj amlObj
  end)).

(** [CAMLErrorCode Representation_DataToAml(repHandle, amlObjHandle, char** amlStr)] *)
Definition Representation_DataToAml (repHandle amlObjHandle amlStr : cptr) : st World (result string) :=
  guard (VERIFY_PARAM_NON_NULL repHandle) (
  guard (VERIFY_PARAM_NON_NULL amlObjHandle) (
  guard (VERIFY_PARAM_NON_NULL amlStr) (
  let* rep := FindRepresentation repHandle in
  let* amlObj := FindAmlObj amlObjHandle in
  match rep, amlObj with
  | Some b, Some ob =>
      let* f := read_rep b in
      let* o := read_obj ob in
      catch_aml (rep_DataToAml f o) (fun amlString =>
      let* amlChar := ConvertStringToCharStr amlString in
      match amlChar with
      | None => ret_err CAML_NO_MEMORY
      | Some s => ret_ok s
      end)
  | _, _ => ret_err CAML_INVALID_HANDLE
  end))).

(** [CAMLErrorCode Representation_AmlToData(repHandle, const char* amlStr,
    amlObjectHandle_t* amlObjHandle)] *)
Definition Representation_AmlToData (repHandle : cptr) (amlStr : cstr) (amlObjHandle : cptr)
    : st World (result cptr) :=
  guard (VERIFY_PARAM_NON_NULL repHandle) (
  guard (VERIFY_STR_NON_NULL amlStr) (
  guard (VERIFY_PARAM_NON_NULL amlObjHandle) (
  match amlStr with
  | None => ret_err CAML_INVALID_PARAM
  | Some amlString =>
      let* rep := FindRepresentation repHandle in
      match rep with
      | None => ret_err CAML_INVALID_HANDLE
      | Some b =>
          let* f := read_rep b in
          let* amlObj := new_with (obj_ctor (rep_AmlToData f amlString)) in
          register_new_obj amlObj
      end
  end))).

(** [CAMLErrorCode Representation_DataToByte(repHandle, amlObjHandle, uint8_t** byte, size_t* size)]:
    the out-parameters are the bytes and their count. *)
Definition Representation_DataToByte (repHandle amlObjHandle byte size : cptr)
    : st World (result (string * nat)) :=
  guard (VERIFY_PARAM_NON_NULL repHandle) (
  guard (VERIFY_PARAM_NON_NULL amlObjHandle) (
  guard (VERIFY_PARAM_NON_NULL byte) (
  guard (VERIFY_PARAM_NON_NULL size) (
  let* rep := FindRepresentation repHandle in
  let* amlObj := FindAmlObj amlObjHandle in
  match rep, amlObj with
  | Some b, Some ob =>
      let* f := read_rep b in
      let* o := read_obj ob in
      catch_aml (rep_DataToByte f o) (fun amlString =>
      let* temp := ConvertStringToCharStr amlString in
      match temp with
      | None => ret_err CAML_NO_MEMORY
      | Some t => ret_ok (t, String.length amlString)
      end)
  | _, _ => ret_err CAML_INVALID_HANDLE
  end)))).

(** [string byteString(byte, size)], [byte] cast to a char pointer: the first [size] bytes of the
    buffer; reading past its end is out of bounds. *)
Definition read_bytes (buf : string) (size : nat) : st World string :=
  if decide (size <= String.length buf)%nat then st_ret (String.substring 0 size buf)
  else st_crash OutOfBoundsRead.

(** [CAMLErrorCode Representation_ByteToData(repHandle, const uint8_t* byte,
    const size_t size, amlObjectHandle_t* amlObjHandle)]: the size is
    checked with [VERIFY_PARAM_NON_NULL], so a size of 0 is refused. *)
Definition Representation_ByteToData (repHandle : cptr) (byte : cstr) (size : nat) (amlObjHandle : cptr)
    : st World (result cptr) :=
  guard (VERIFY_PARAM_NON_NULL repHandle) (
  guard (VERIFY_STR_NON_NULL byte) (
  guard (VERIFY_PARAM_NON_NULL (Z.of_nat size)) (
  guard (VERIFY_PARAM_NON_NULL amlObjHandle) (
  match byte with
  | None => ret_err CAML_INVALID_PARAM
  | Some buf =>
      let* rep := FindRepresentation repHandle in
      match rep with
      | None => ret_err CAML_INVALID_HANDLE
      | Some b =>
          let* byteString := read_bytes buf size in
          let* f := read_rep b in
          let* amlObj := new_with (obj_ctor (rep_ByteToData f byteString)) in
          register_new_obj amlObj
      end
  end)))).

End CamlRepresentation.

(** A fixture engine: any non-empty path loads; the text form of an
    object with no data and the time stamp ["ts"] is its device id; the
    binary API is compiled out (every call throws [API_NOT_ENABLED]). *)
Definition fixture_object (deviceId : string) : AMLObject :=
  mkAMLObject deviceId "ts" (deviceId +:+ "_ts") [].

Definition fixture_engine : RepresentationEngine := {|
  rep_load := fun f => if bool_decide (f = "")%string then inl INVALID_FILE_PATH else inr tt;
  rep_getRepresentationId := fun f => f;
  rep_getConfigInfo := fun _ => inr (fixture_object "config");
  rep_DataToAml := fun _ o =>
    match o with
    | mkAMLObject d t i [] =>
        if bool_decide (t = "ts" /\ i = d +:+ "_ts")%string then inr d else inl SERIALIZE_FAIL
    | _ => inl SERIALIZE_FAIL
    end;
  rep_AmlToData := fun _ s => inr (fixture_object s);
  rep_DataToByte := fun _ _ => inl API_NOT_ENABLED;
  rep_ByteToData := fun _ _ => inl API_NOT_ENABLED
|}.

(** ** Lemmas *)

Lemma FindRepresentation_inv h w w' o :
  FindRepresentation h w = Done w' o -> w' = w /\ o = rn_cppObj <$> rep_entry w h.
Proof. by intros [= <- <-]. Qed.

Lemma read_rep_inv b w w' f : read_rep b w = Done w' f -> w' = w /\ rep_block (w_heap w) b = Some f.
Proof. unfold read_rep. destruct (rep_block _ _); [by intros [= <- <-]|discriminate]. Qed.

Lemma read_obj_inv b w w' o : read_obj b w = Done w' o -> w' = w /\ obj_block (w_heap w) b = Some o.
Proof. unfold read_obj. destruct (obj_block _ _); [by intros [= <- <-]|discriminate]. Qed.

Lemma ConvertStringToCharStr_inv `{Allocator} s w w' c :
  ConvertStringToCharStr s w = Done w' c -> w' = w /\ (c = Some s \/ c = None).
Proof. destruct (ConvertStringToCharStr_spec s w) as [E|E]; rewrite E; intros [= <- <-]; auto. Qed.

Lemma read_rep_pure b : st_pure (read_rep b).
Proof. intros w w' f. unfold read_rep. destruct (rep_block _ _); by intros [= <-]. Qed.

Lemma read_bytes_pure buf n : st_pure (read_bytes buf n).
Proof. unfold read_bytes. case_decide; [apply st_pure_ret|apply st_pure_crash]. Qed.

#[export] Hint Resolve read_rep_pure read_bytes_pure : aml.

(** ** Every function keeps the invariant, and fails without effect *)

Section Invariant.
Context `{AS : AllocatorSpec} {E : RepresentationEngine}.

Lemma CreateRepresentation_wf_atomic f out w w' r :
  reg_wf w -> CreateRepresentation f out w = Done w' r ->
  reg_wf w' /\ (r.1 <> CAML_OK -> w' = w).
Proof.
  intros Hwf H1. unfold CreateRepresentation in H1.
  destruct (guard_inv _ _ _ _ _ H1) as [(? & _ & -> & ->)|(_ & H2)]; [done|].
  destruct (guard_inv _ _ _ _ _ H2) as [(? & _ & -> & ->)|(_ & H3)]; [done|].
  destruct f as [f|]; [|by injection H3 as <- <-].
  st_case H3 as w1 x. rename E0 into Enew. apply new_with_spec in Enew. destruct x as [e|a].
  { destruct Enew as [-> _]. by injection H3 as <- <-. }
  destruct Enew as (Ha & _ & blk & Hc & ->). unfold rep_ctor in Hc.
  destruct (rep_load f); [discriminate|]. injection Hc as <-.
  st_case H3 as w2 hd. rename E0 into Eadd.
  destruct (AddRepresentationHandle_result _ _ _ _ Eadd) as [[-> ->]|(_ & Hn & ->)].
  - unfold is_null in H3. rewrite bool_decide_eq_true_2 in H3 by done.
    st_case H3 as w3 uu. unfold delete_rep in E0. cbn [w_heap set_heap] in E0.
    rewrite lookup_insert_eq in E0. injection E0 as <- _. injection H3 as <- <-.
    by rewrite delete_fresh_world.
  - unfold is_null in H3. rewrite bool_decide_eq_false_2 in H3 by done. injection H3 as <- <-.
    split; [|done]. eapply wf_AddRepresentationHandle; [exact (wf_new_block _ _ (BRep f) Hwf Ha)| | |exact Eadd].
    + unfold rep_block. cbn [w_heap set_heap]. rewrite lookup_insert_eq. by eexists.
    + exact (fresh_not_rep _ _ Hwf Ha).
Qed.

Ltac rep_tails :=
  first [ apply new_register_obj_preserves | apply new_register_obj_atomic ].

Lemma DestroyRepresentation_wf h : st_preserves reg_wf (DestroyRepresentation h).
Proof. unfold DestroyRepresentation. solve_preserves_objs_with fail. Qed.

Lemma Representation_GetConfigInfo_wf h out : st_preserves reg_wf (Representation_GetConfigInfo h out).
Proof. unfold Representation_GetConfigInfo. solve_preserves_objs_with rep_tails. Qed.

Lemma Representation_AmlToData_wf h s out : st_preserves reg_wf (Representation_AmlToData h s out).
Proof. unfold Representation_AmlToData. solve_preserves_objs_with rep_tails. Qed.

Lemma Representation_ByteToData_wf h b n out : st_preserves reg_wf (Representation_ByteToData h b n out).
Proof. unfold Representation_ByteToData. solve_preserves_objs_with rep_tails. Qed.

Lemma DestroyRepresentation_atomic h : st_atomic (DestroyRepresentation h).
Proof. unfold DestroyRepresentation. solve_atomic_objs_with fail. Qed.

Lemma Representation_GetConfigInfo_atomic h out : st_atomic (Representation_GetConfigInfo h out).
Proof. unfold Representation_GetConfigInfo. solve_atomic_objs_with rep_tails. Qed.

Lemma Representation_AmlToData_atomic h s out : st_atomic (Representation_AmlToData h s out).
Proof. unfold Representation_AmlToData. solve_atomic_objs_with rep_tails. Qed.

Lemma Representation_ByteToData_atomic h b n out : st_atomic (Representation_ByteToData h b n out).
Proof. unfold Representation_ByteToData. solve_atomic_objs_with rep_tails. Qed.

Lemma Representation_GetRepId_pure h out : st_pure (Representation_GetRepId h out).
Proof. unfold Representation_GetRepId. solve_pure_api. Qed.

Lemma Representation_DataToAml_pure h o out : st_pure (Representation_DataToAml h o out).
Proof. unfold Representation_DataToAml. solve_pure_api. Qed.

Lemma Representation_DataToByte_pure h o b n : st_pure (Representation_DataToByte h o b n).
Proof. unfold Representation_DataToByte. solve_pure_api. Qed.

End Invariant.

(** ** Behaviour *)

Section Behaviour.
Context `{AS : AllocatorSpec} {E : RepresentationEngine}.

(** C26: [Representation_ByteToData] with a size of 0 returns
    [CAML_INVALID_PARAM], whatever the other arguments: the [size_t] is
    checked as if it were a pointer, so an empty byte string is refused
    before the engine (or its "not enabled" report) is reached. *)
Theorem Representation_ByteToData_size_zero r byte out w :
  Representation_ByteToData r byte 0 out w = Done w (CAML_INVALID_PARAM, None).
Proof.
  unfold Representation_ByteToData, guard.
  destruct (VERIFY_PARAM_NON_NULL r) eqn:Hr; [by apply VERIFY_PARAM_NON_NULL_ok in Hr as ->|].
  by destruct byte.
Qed.

(** C22: text round trip through the binding, against the engine's
    promise [aml_roundtrip]: when [Representation_DataToAml] gives the
    text [s] for object handle [oh] (changing nothing), parsing [s] back
    with [Representation_AmlToData] either fails on memory (a
    [bad_alloc], or [CAML_NO_MEMORY] with nothing changed) or returns a
    new handle that resolves to an object equal to [oh]'s. *)
Theorem Representation_roundtrip `{!RepresentationLaws E} r oh out s out2 w w1 :
  out2 <> NULL ->
  Representation_DataToAml r oh out w = Done w1 (CAML_OK, Some s) ->
  w1 = w /\
  (Representation_AmlToData r (Some s) out2 w = Crashed BadAllocEscapes \/
   Representation_AmlToData r (Some s) out2 w = Done w (CAML_NO_MEMORY, None) \/
   exists w2 h2, Representation_AmlToData r (Some s) out2 w = Done w2 (CAML_OK, Some h2) /\
                 obj_of w2 h2 = obj_of w oh).
Proof.
  intros Hout H1. unfold Representation_DataToAml in H1.
  destruct (guard_inv _ _ _ _ _ H1) as [(c & _ & _ & ?)|(Hc1 & H2)]; [congruence|].
  destruct (guard_inv _ _ _ _ _ H2) as [(c & _ & _ & ?)|(_ & H3)]; [congruence|].
  destruct (guard_inv _ _ _ _ _ H3) as [(c & _ & _ & ?)|(_ & H4)]; [congruence|].
  st_case H4 as w2 rep. pose proof E0 as Erep. apply FindRepresentation_inv in E0 as [-> _].
  st_case H4 as w3 ob. apply FindAmlObj_inv in E0 as [-> Hob].
  destruct rep as [b|], ob as [ob|]; try discriminate.
  st_case H4 as w4 f. apply read_rep_inv in E0 as [-> Hf].
  st_case H4 as w5 o. apply read_obj_inv in E0 as [-> Ho].
  unfold catch_aml in H4. destruct (rep_DataToAml f o) as [|str] eqn:Ed; [discriminate|].
  st_case H4 as w6 c. apply ConvertStringToCharStr_inv in E0 as [-> [->| ->]]; [|discriminate].
  injection H4 as <- <-. split; [done|].
  assert (Hobj : obj_of w oh = Some o).
  { unfold obj_of. destruct (obj_entry w oh) as [n|]; cbn in Hob |- *; [|discriminate].
    injection Hob as ->. exact Ho. }
  assert (Hrun : Representation_AmlToData r (Some str) out2 w
                 = (let* amlObj := new_with (inr (BObj o)) in register_new_obj amlObj) w).
  { unfold Representation_AmlToData, guard. rewrite Hc1, VERIFY_PARAM_NON_NULL_None by done.
    cbn [VERIFY_STR_NON_NULL]. rewrite (st_bind_Done _ _ _ _ _ Erep). lazy beta iota.
    unfold st_bind at 1, read_rep. rewrite Hf. by rewrite (aml_roundtrip _ _ _ Ed). }
  rewrite Hobj, Hrun. apply new_register_obj.
Qed.

End Behaviour.

#[export] Instance fixture_engine_laws : RepresentationLaws fixture_engine.
Proof.
  split; intros f o s; cbn; [|discriminate].
  destruct o as [d t i [|]]; [|discriminate].
  case_bool_decide as Hd; [|discriminate]. destruct Hd as [-> ->]. by intros [= <-].
Qed.

(** ** Witnesses *)

(** Block 2 is the object [fixture_object "dev"], owned by handle 1;
    block 5 is a representation of ["schema.aml"], registered as 4. *)
Lemma Representation_roundtrip_witness :
  let w := mkWorld {[2%Z := BObj (fixture_object "dev"); 5%Z := BRep "schema.aml"]}
             [Build_amlObject_t 1 2 true] [] [Build_amlRep_t 4 5] in
  Representation_DataToAml (A := bump_alloc) (E := fixture_engine) 4 1 9 w
    = Done w (CAML_OK, Some "dev"%string) /\
  Representation_AmlToData (A := bump_alloc) (E := fixture_engine) 4 (Some "dev"%string) 9 w
    = Done (mkWorld {[2%Z := BObj (fixture_object "dev"); 5%Z := BRep "schema.aml";
                      6%Z := BObj (fixture_object "dev")]}
              [Build_amlObject_t 1 2 true; Build_amlObject_t 7 6 true] [] [Build_amlRep_t 4 5])
           (CAML_OK, Some 7%Z) /\
  (Representation_AmlToData (A := bump_alloc) (E := fixture_engine) 4 (Some "dev"%string) 9 w
     = Crashed BadAllocEscapes \/
   Representation_AmlToData (A := bump_alloc) (E := fixture_engine) 4 (Some "dev"%string) 9 w
     = Done w (CAML_NO_MEMORY, None) \/
   exists w2 h2, Representation_AmlToData (A := bump_alloc) (E := fixture_engine) 4 (Some "dev"%string) 9 w
                   = Done w2 (CAML_OK, Some h2) /\ obj_of w2 h2 = obj_of w 1).
Proof.
  intros w.
  assert (H1 : Representation_DataToAml (A := bump_alloc) (E := fixture_engine) 4 1 9 w
               = Done w (CAML_OK, Some "dev"%string)).
  { vm_compute. reflexivity. }
  split; [exact H1|]. split; [vm_compute; reflexivity|].
  exact (proj2 (Representation_roundtrip (A := bump_alloc) (E := fixture_engine) 4 1 9 "dev" 9 w w
                  ltac:(discriminate) H1)).
Defined.

(** ** The Representation API as a whole *)

(** One call of the Representation API, with its arguments. *)
Inductive rep_call :=
  | RC_CreateRepresentation (filePath : cstr) (out : cptr)
  | RC_DestroyRepresentation (h : cptr)
  | RC_GetRepId (h out : cptr)
  | RC_GetConfigInfo (h out : cptr)
  | RC_DataToAml (h obj out : cptr)
  | RC_AmlToData (h : cptr) (amlStr : cstr) (out : cptr)
  | RC_DataToByte (h obj out outSize : cptr)
  | RC_ByteToData (h : cptr) (byte : cstr) (size : nat) (out : cptr).

Definition run_rep_call {A : Allocator} {E : RepresentationEngine} (c : rep_call) : st World CAMLErrorCode :=
  match c with
  | RC_CreateRepresentation f out => code_of (CreateRepresentation f out)
  | RC_DestroyRepresentation h => code_of (DestroyRepresentation h)
  | RC_GetRepId h out => code_of (Representation_GetRepId h out)
  | RC_GetConfigInfo h out => code_of (Representation_GetConfigInfo h out)
  | RC_DataToAml h o out => code_of (Representation_DataToAml h o out)
  | RC_AmlToData h s out => code_of (Representation_AmlToData h s out)
  | RC_DataToByte h o out n => code_of (Representation_DataToByte h o out n)
  | RC_ByteToData h b n out => code_of (Representation_ByteToData h b n out)
  end.

Section Api.
Context `{AS : AllocatorSpec} {E : RepresentationEngine}.

Lemma run_rep_call_wf c : st_preserves reg_wf (run_rep_call c).
Proof.
  destruct c; simpl; apply code_of_preserves;
    first [ intros w w' r Hwf H; exact (proj1 (CreateRepresentation_wf_atomic _ _ _ _ _ Hwf H))
          | apply DestroyRepresentation_wf | apply Representation_GetConfigInfo_wf
          | apply Representation_AmlToData_wf | apply Representation_ByteToData_wf
          | apply st_pure_preserves, Representation_GetRepId_pure
          | apply st_pure_preserves, Representation_DataToAml_pure
          | apply st_pure_preserves, Representation_DataToByte_pure ].
Qed.

Lemma run_rep_call_atomic c w w' code :
  reg_wf w -> run_rep_call c w = Done w' code -> code <> CAML_OK -> w' = w.
Proof.
  destruct c; simpl; apply code_of_atomic;
    first [ intros w0 w0' r Hwf H; exact (proj2 (CreateRepresentation_wf_atomic _ _ _ _ _ Hwf H))
          | apply DestroyRepresentation_atomic | apply Representation_GetConfigInfo_atomic
          | apply Representation_AmlToData_atomic | apply Representation_ByteToData_atomic
          | apply st_atomic_pure, Representation_GetRepId_pure
          | apply st_atomic_pure, Representation_DataToAml_pure
          | apply st_atomic_pure, Representation_DataToByte_pure ].
Qed.

End Api.
