(* ===== verification/Scenarios.v ===== *)
(** * A nested handle outlives its owner

    The scenario of section 8 of the spec, for every well-formed world
    and every allocator meeting its contract: a client fetches, with
    [AMLData_GetValueAMLData], the value nested under a key of a data
    handle [h] that owns its value, then destroys [h].  The spec asks
    that the fetched handle stop resolving (its I4).  In the code,
    [DestroyAMLData] frees [h]'s block, but the teardown walker does not
    unregister the fetched handle (HandleManager.v, camlhandlemanager.cpp
    [RemoveOwnedAmlDataHandle]): it keeps resolving, into the freed
    block, and the next call through it reads freed memory.

    [scenario_reuse] runs a client's calls from the empty world with an
    allocator that reuses freed addresses, as [malloc] may: a destroyed
    handle value comes back. *)

From S2P Require Import Prelude ErrorCodes Engine Memory HandleManager CamlUtils RegistryFacts HandleManagerSpec CamlData ValueTypes.

Section Reuse.
Context {A : Allocator}.

(** Create [D1] and [D2], store [D2] under ["k"] in [D1], fetch the nested
    value, destroy [D1]; then create [D3], store [D2] under ["k"] in it and
    fetch that nested value.  Return [D1], [D3] and the two fetched
    handles.  The out-parameter addresses are an arbitrary non-[NULL]
    1000. *)
Definition scenario_reuse : st World (option (cptr * cptr * option cptr * option cptr)) :=
  let* r1 := CreateAMLData 1000 in
  let* r2 := CreateAMLData 1000 in
  match snd r1, snd r2 with
  | Some d1, Some d2 =>
      let* _ := AMLData_SetValueAMLData d1 (Some "k"%string) d2 in
      let* g1 := AMLData_GetValueAMLData d1 (Some "k"%string) 1000 in
      let* _ := DestroyAMLData d1 in
      let* r3 := CreateAMLData 1000 in
      match snd r3 with
      | Some d3 =>
          let* _ := AMLData_SetValueAMLData d3 (Some "k"%string) d2 in
          let* g3 := AMLData_GetValueAMLData d3 (Some "k"%string) 1000 in
          st_ret (Some (d1, d3, snd g1, snd g3))
      | None => st_ret None
      end
  | _, _ => st_ret None
  end.

End Reuse.

Section Dangling.
Context `{AS : AllocatorSpec}.

(** What a successful [AMLData_GetValueAMLData] did: it read the value
    of [h], found a nested value under [k], and ran the lookup-or-register
    block on the address of that value. *)
Lemma GetValueAMLData_ok_inv h k v w w1 hb :
  AMLData_GetValueAMLData h (Some k) v w = Done w1 (CAML_OK, Some hb) ->
  exists n d sub, data_entry w h = Some n /\ heap_data_at (w_heap w) (dn_cppObj n) = Some d /\
    AMLDataOps.getValueToAMLData d k = inr sub /\
    find_or_add_alias (Ptr (p_addr (dn_cppObj n)) (p_path (dn_cppObj n) ++ [k])) w = Done w1 (CAML_OK, Some hb).
Proof.
  unfold AMLData_GetValueAMLData, guard.
  destruct (VERIFY_PARAM_NON_NULL h) eqn:E1; [by apply VERIFY_PARAM_NON_NULL_ok in E1 as ->|].
  cbn [VERIFY_STR_NON_NULL].
  destruct (VERIFY_PARAM_NON_NULL v) eqn:E2; [by apply VERIFY_PARAM_NON_NULL_ok in E2 as ->|].
  rewrite open_find. destruct (data_entry w h) as [n|] eqn:Hn; [|discriminate].
  rewrite open_read. destruct (heap_data_at (w_heap w) (dn_cppObj n)) as [d|] eqn:Hd; [|discriminate].
  destruct (AMLDataOps.getValueToAMLData d k) as [e|sub] eqn:Es; cbn [catch_aml]; [by unfold ret_err, st_ret|].
  intros Ha. by exists n, d, sub; split_and!.
Qed.

(** C2: a handle fetched for a nested value outlives its owner: on every
    well-formed world, once [AMLData_GetValueAMLData(h, k)] has returned
    [hb] for an [h] that owns its value, [DestroyAMLData(h)] succeeds, [hb]
    still resolves, to the address of the key [k] in [h]'s freed block,
    and [AMLData_GetValueStr] through [hb], for any key, reads freed
    memory; the spec (section 8, I4) expects [CAML_INVALID_HANDLE]. *)
Theorem nested_handle_dangles h k v hb w w1 n :
  reg_wf w -> data_entry w h = Some n -> dn_needsDelete n = true ->
  AMLData_GetValueAMLData h (Some k) v w = Done w1 (CAML_OK, Some hb) ->
  exists w2, DestroyAMLData h w1 = Done w2 (CAML_OK, Some tt) /\
    FindAmlData hb w2 = Done w2 (Some (Ptr (p_addr (dn_cppObj n)) [k])) /\
    forall k' v', v' <> NULL -> AMLData_GetValueStr hb (Some k') v' w2 = Crashed UseAfterFree.
Proof.
  intros Hwf Hn Hown Hget. pose proof (AMLData_GetValueAMLData_wf _ _ _ _ _ _ Hwf Hget) as Hwf1.
  destruct (GetValueAMLData_ok_inv _ _ _ _ _ _ Hget) as (n0 & d & sub & Hn0 & _ & _ & Ha).
  rewrite Hn in Hn0. injection Hn0 as <-.
  destruct (find_or_add_alias_total (Ptr (p_addr (dn_cppObj n)) (p_path (dn_cppObj n) ++ [k])) w Hwf)
    as (w1' & r & Ha' & _ & Hkeep & Hr).
  rewrite Ha in Ha'. injection Ha' as <- <-. destruct Hr as [([=] & _)|(hv & [= <-] & Hf)].
  destruct (DestroyAMLData_owner w1 h n Hwf1 (Hkeep _ _ Hn) Hown) as (b & w2 & Hb & Hdes & Hheap & Hl).
  exists w2. split; [done|]. rewrite Hb in Hf |- *. cbn in Hf |- *.
  unfold FindAmlData in Hf. destruct (data_entry w1 hb) as [m|] eqn:Hm; [|discriminate].
  injection Hf as Hq.
  assert (Hne : h <> hb).
  { intros <-. rewrite (Hkeep _ _ Hn) in Hm. injection Hm as ->. rewrite Hb in Hq. discriminate. }
  assert (Hm2 : data_entry w2 hb = Some m) by (unfold data_entry; rewrite Hl; by rewrite ll_find_delete_ne).
  split; [unfold FindAmlData; rewrite Hm2; cbn; by rewrite Hq|].
  intros k' v' Hv'. unfold AMLData_GetValueStr, guard.
  rewrite !VERIFY_PARAM_NON_NULL_None by (done || by apply (data_entry_not_null _ _ _ Hwf1 Hm)).
  cbn [VERIFY_STR_NON_NULL]. rewrite open_find, Hm2, open_read, Hq.
  unfold heap_data_at. cbn. by rewrite Hheap, lookup_delete_eq.
Qed.

End Dangling.

(** ** A run with an allocator that reuses addresses *)

(** The calls of [scenario_reuse] from the empty world: with an allocator
    that reuses freed addresses (first fit), [D3] is given the handle
    value [D1] had (2), and fetching [D3]'s nested value returns handle 5,
    the handle a client was given for [D1]'s nested value; with a
    never-reusing allocator the same calls give fresh handles. *)
Lemma scenario_reuse_resurrects :
  st_eval (scenario_reuse (A := first_fit_alloc)) empty_world = Some (Some (2%Z, 2%Z, Some 5%Z, Some 5%Z)) /\
  st_eval (scenario_reuse (A := bump_alloc)) empty_world = Some (Some (2%Z, 7%Z, Some 5%Z, Some 8%Z)).
Proof. split; vm_compute; reflexivity. Qed.

(** ** Witness *)

(** Handle 1 owns block 2, which holds [{k: {}}]. *)
Definition owner_world : World :=
  mkWorld {[2%Z := BData [("k"%string, AVData [])]]} [] [Build_amlData_t 1 (heap_root 2) true] [].

Lemma nested_handle_dangles_witness :
  reg_wf owner_world /\
  AMLData_GetValueAMLData (A := bump_alloc) 1 (Some "k"%string) 9 owner_world
    = Done (mkWorld {[2%Z := BData [("k"%string, AVData [])]]} []
              [Build_amlData_t 1 (heap_root 2) true; Build_amlData_t 3 (Ptr (HeapAddr 2) ["k"%string]) false] [])
           (CAML_OK, Some 3%Z) /\
  exists w2, DestroyAMLData 1
               (mkWorld {[2%Z := BData [("k"%string, AVData [])]]} []
                  [Build_amlData_t 1 (heap_root 2) true; Build_amlData_t 3 (Ptr (HeapAddr 2) ["k"%string]) false] [])
             = Done w2 (CAML_OK, Some tt) /\
    FindAmlData 3 w2 = Done w2 (Some (Ptr (HeapAddr 2) ["k"%string])) /\
    forall k' v', v' <> NULL -> AMLData_GetValueStr (A := bump_alloc) 3 (Some k') v' w2 = Crashed UseAfterFree.
Proof.
  assert (Hwf : reg_wf owner_world) by (apply reg_wfb_sound; vm_compute; reflexivity).
  assert (Hget : AMLData_GetValueAMLData (A := bump_alloc) 1 (Some "k"%string) 9 owner_world
    = Done (mkWorld {[2%Z := BData [("k"%string, AVData [])]]} []
              [Build_amlData_t 1 (heap_root 2) true; Build_amlData_t 3 (Ptr (HeapAddr 2) ["k"%string]) false] [])
           (CAML_OK, Some 3%Z)) by (vm_compute; reflexivity).
  split; [exact Hwf|]. split; [exact Hget|].
  exact (nested_handle_dangles (A := bump_alloc) 1 "k" 9 3 owner_world _ (Build_amlData_t 1 (heap_root 2) true)
           Hwf eq_refl eq_refl Hget).
Defined.
