(* ===== verification/RoundTrips.v ===== *)
(** * Setter/getter round trips of the C binding

    What a getter of camldata.cpp or camlobject.cpp returns after the
    matching setter succeeded: [AMLData_SetValueStrArr] then
    [AMLData_GetValueStrArr] give back the strings read from the caller's
    array; [AMLData_SetValueAMLData] then [AMLData_GetValueAMLData], and
    [AMLObject_AddData] then [AMLObject_GetData], give a handle that
    resolves (through [find_or_add_alias], the lookup-or-register block the
    two getters share) to a value equal to the one stored, held at an
    address of its own: the setter copied the value in.  The string round
    trip of [AMLData_SetValueStr] is in ValueTypes.v. *)

From stdpp Require Import base list strings gmap.
From S2P Require Import Prelude ErrorCodes Engine Memory HandleManager CamlUtils RegistryFacts RegistryObjects HandleManagerSpec CamlData ValueTypes CamlObject.

(** ** Reading one key further down *)

Lemma data_at_snoc d path k x :
  data_at d path = Some x ->
  data_at d (path ++ [k]) = match assoc_lookup k x with Some (AVData s) => Some s | _ => None end.
Proof.
  revert d. induction path as [|k' rest IH]; intros d; cbn; [by intros [= ->]|].
  destruct (assoc_lookup k' d) as [[| |sub]|]; try discriminate. apply IH.
Qed.

Lemma heap_data_at_snoc h p k x :
  heap_data_at h p = Some x ->
  heap_data_at h (Ptr (p_addr p) (p_path p ++ [k])) =
    match assoc_lookup k x with Some (AVData s) => Some s | _ => None end.
Proof.
  unfold heap_data_at. cbn. destruct (p_addr p) as [b|]; [|discriminate].
  destruct (h !! b) as [[d|o|]|]; try discriminate.
  - apply data_at_snoc.
  - destruct (p_path p) as [|name path]; [discriminate|]. cbn.
    destruct (assoc_lookup name (o_datas o)); [apply data_at_snoc|discriminate].
Qed.

(** ** A setter's update *)

Section Update.
Context {A : Allocator}.

(** What a successful [setValue] through [update_data] did. *)
Lemma update_set_ok p key v w w' r :
  (let* r := update_data p (fun d => AMLDataOps.setValue d key v) in catch_aml r (fun _ => ret_ok tt)) w
    = Done w' (CAML_OK, r) ->
  g_amlDataHead w' = g_amlDataHead w /\ g_amlObjectHead w' = g_amlObjectHead w /\
  exists x, heap_data_at (w_heap w) p = Some x /\ assoc_lookup key x = None /\
            heap_data_at (w_heap w') p = Some (x ++ [(key, v)]).
Proof.
  unfold st_bind, update_data.
  destruct (heap_data_update (w_heap w) p _) as [[e|h']|] eqn:E; try discriminate.
  - cbn. intros [= _ He _]. apply ExceptionCodeToErrorCode_ok in He as ->.
    apply heap_data_update_err_inv in E as [x Hx]. unfold AMLDataOps.setValue in Hx.
    by destruct (assoc_lookup key x).
  - cbn. intros [= <- _]. destruct (heap_data_update_read _ _ _ _ E) as (x & y & Hx & Hf & Hy).
    apply setValue_ok in Hf as [Hk ->]. split_and!; [done|done|]. by exists x.
Qed.

(** Setting a key that is present fails and changes nothing. *)
Lemma update_set_again p key v w x :
  heap_data_at (w_heap w) p = Some x -> is_Some (assoc_lookup key x) ->
  (let* r := update_data p (fun d => AMLDataOps.setValue d key v) in catch_aml r (fun _ => ret_ok tt)) w
    = Done w (CAML_KEY_ALREADY_EXIST, None).
Proof.
  intros Hx [y Hy]. unfold st_bind, update_data.
  rewrite (heap_data_update_err _ _ _ _ KEY_ALREADY_EXIST Hx); [done|].
  unfold AMLDataOps.setValue. by rewrite Hy.
Qed.

(** The named data of the object in block [b]. *)
Lemma obj_data_at h b o name :
  obj_block h b = Some o -> heap_data_at h (obj_data_ptr b name) = assoc_lookup name (o_datas o).
Proof.
  unfold obj_block, heap_data_at, obj_data_ptr. cbn.
  destruct (h !! b) as [[| |]|]; intros; simplify_eq. by destruct (assoc_lookup name (o_datas o)).
Qed.

(** What a successful [addData] through [update_obj] did. *)
Lemma update_add_ok b name d w w' r :
  (let* r := update_obj b (fun o => AMLObjectOps.addData o name d) in catch_aml r (fun _ => ret_ok tt)) w
    = Done w' (CAML_OK, r) ->
  g_amlDataHead w' = g_amlDataHead w /\ g_amlObjectHead w' = g_amlObjectHead w /\
  exists o o', obj_block (w_heap w) b = Some o /\ assoc_lookup name (o_datas o) = None /\
               obj_block (w_heap w') b = Some o' /\ o_datas o' = o_datas o ++ [(name, d)].
Proof.
  unfold st_bind, update_obj. destruct (obj_block (w_heap w) b) as [o|] eqn:Ho; [|discriminate].
  unfold AMLObjectOps.addData. destruct (assoc_lookup name (o_datas o)) eqn:Hk.
  - cbn. by intros [=].
  - cbn. intros [= <- _]. split_and!; [done|done|]. eexists _, _. split_and!; [done|done| |].
    + unfold obj_block. cbn. by rewrite lookup_insert_eq.
    + done.
Qed.

End Update.

(** ** Round trips *)

Section RoundTrip.
Context {A : Allocator}.

(** C14: the string-array round trip: after [AMLData_SetValueStrArr]
    stores the [valueSize] strings of [value] under a new key,
    [AMLData_GetValueStrArr] on that key returns exactly those strings,
    or [CAML_NO_MEMORY] when the marshaled copy cannot be allocated; a
    second set of the key, whatever the array, returns
    [CAML_KEY_ALREADY_EXIST] and changes nothing. *)
Theorem AMLData_SetValueStrArr_roundtrip h key l v vs w w' r :
  v <> NULL -> vs <> NULL ->
  AMLData_SetValueStrArr h (Some key) (Some (map Some l)) (length l) w = Done w' (CAML_OK, r) ->
  AMLData_GetValueStrArr h (Some key) v vs w' =
    match ConvertVectorToCharStrArr l w' with
    | Done _ (Some _) => Done w' (CAML_OK, Some l)
    | _ => Done w' (CAML_NO_MEMORY, None)
    end /\
  forall l', AMLData_SetValueStrArr h (Some key) (Some (map Some l')) (length l') w'
               = Done w' (CAML_KEY_ALREADY_EXIST, None).
Proof.
  intros Hv Hvs Hset. unfold AMLData_SetValueStrArr, guard in Hset |- *.
  destruct (VERIFY_PARAM_NON_NULL h) eqn:Hh; [by apply VERIFY_PARAM_NON_NULL_ok in Hh as ->|].
  cbn [VERIFY_STR_NON_NULL] in Hset |- *. rewrite open_find in Hset.
  destruct (data_entry w h) as [n|] eqn:Hn; [|discriminate].
  erewrite st_bind_Done in Hset by apply read_cstr_array_spec.
  destruct (update_set_ok _ _ _ _ _ _ Hset) as (Hl & _ & x & _ & Hk & Hx).
  assert (Hn' : data_entry w' h = Some n) by (unfold data_entry; by rewrite Hl).
  split.
  - unfold AMLData_GetValueStrArr, guard. rewrite Hh, !VERIFY_PARAM_NON_NULL_None by done.
    cbn [VERIFY_STR_NON_NULL]. rewrite open_find, Hn', open_read, Hx.
    unfold AMLDataOps.getValueToStrArr, AMLDataOps.lookupValue. rewrite assoc_lookup_app_new by done.
    cbn. unfold st_bind. by destruct (ConvertVectorToCharStrArr_spec l w') as [->| ->].
  - intros l'. rewrite open_find, Hn'. erewrite st_bind_Done by apply read_cstr_array_spec.
    eapply update_set_again; [exact Hx|]. rewrite assoc_lookup_app_new by done. by eexists.
Qed.

End RoundTrip.

Section AliasRoundTrip.
Context `{AS : AllocatorSpec}.

(** C15: the nested-value round trip: after [AMLData_SetValueAMLData]
    stores the value [vd] of handle [hv] under a new key of handle [h],
    [AMLData_GetValueAMLData] on that key returns, on every well-formed
    world, either [CAML_NO_MEMORY], only when the [malloc] of a new
    registry node fails and with nothing changed, or a handle that
    resolves to data equal
    to [vd]; that data is a copy: its address is not the one [hv]
    resolves to. *)
Theorem AMLData_SetValueAMLData_roundtrip h key hv v w w' r m vd :
  reg_wf w -> v <> NULL -> data_entry w hv = Some m -> heap_data_at (w_heap w) (dn_cppObj m) = Some vd ->
  AMLData_SetValueAMLData h (Some key) hv w = Done w' (CAML_OK, r) ->
  exists w'' r', AMLData_GetValueAMLData h (Some key) v w' = Done w'' r' /\
    ((r' = (CAML_NO_MEMORY, None) /\ w'' = w' /\ malloc (live w') sizeof_amlData_t = None) \/
     exists hv' q, r' = (CAML_OK, Some hv') /\ FindAmlData hv' w'' = Done w'' (Some q) /\
                   heap_data_at (w_heap w'') q = Some vd /\ q <> dn_cppObj m).
Proof.
  intros Hwf Hv Hm Hvd Hset. pose proof (AMLData_SetValueAMLData_wf _ _ _ _ _ _ Hwf Hset) as Hwf'.
  unfold AMLData_SetValueAMLData, guard in Hset.
  destruct (VERIFY_PARAM_NON_NULL h) eqn:Hh; [apply VERIFY_PARAM_NON_NULL_ok in Hh as ->; discriminate Hset|].
  rewrite (VERIFY_PARAM_NON_NULL_None _ (data_entry_not_null _ _ _ Hwf Hm)) in Hset.
  cbn [VERIFY_STR_NON_NULL] in Hset. unfold st_bind at 1, FindAmlData at 1 in Hset.
  destruct (data_entry w h) as [n|] eqn:Hn; [|discriminate].
  erewrite st_bind_Done in Hset by (unfold FindAmlData; rewrite Hm; reflexivity).
  cbn [fmap option_fmap option_map] in Hset.
  erewrite st_bind_Done in Hset by (unfold read_data; rewrite Hvd; reflexivity).
  destruct (update_set_ok _ _ _ _ _ _ Hset) as (Hl & _ & x & Hx0 & Hk & Hx).
  assert (Hn' : data_entry w' h = Some n) by (unfold data_entry; by rewrite Hl).
  unfold AMLData_GetValueAMLData, guard. rewrite Hh, VERIFY_PARAM_NON_NULL_None by done.
  cbn [VERIFY_STR_NON_NULL]. rewrite open_find, Hn', open_read, Hx.
  unfold AMLDataOps.getValueToAMLData, AMLDataOps.lookupValue. rewrite assoc_lookup_app_new by done. cbn [catch_aml].
  destruct (find_or_add_alias_total (Ptr (p_addr (dn_cppObj n)) (p_path (dn_cppObj n) ++ [key])) w' Hwf')
    as (w'' & r' & -> & Hheap & _ & Hr).
  exists w'', r'. split; [done|]. destruct Hr as [(-> & -> & Hm')|(hv' & -> & Hf)]; [by left|right].
  eexists _, _. split_and!; [done|exact Hf| |].
  - rewrite Hheap. erewrite heap_data_at_snoc by exact Hx. by rewrite assoc_lookup_app_new.
  - intros Heq. rewrite <- Heq, (heap_data_at_snoc _ _ _ _ Hx0), Hk in Hvd. discriminate.
Qed.

(** C16: the object round trip: after [AMLObject_AddData] adds the value
    [vd] of handle [hd] to an object under a new name,
    [AMLObject_GetData] for that name returns, on every well-formed world,
    either [CAML_NO_MEMORY], only when the [malloc] of a new registry
    node fails and with nothing changed, or a handle that resolves to
    data equal to
    [vd], held by the object at an address other than the one [hd]
    resolves to. *)
Theorem AMLObject_AddData_roundtrip ho name hd v w w' r m vd :
  reg_wf w -> v <> NULL -> data_entry w hd = Some m -> heap_data_at (w_heap w) (dn_cppObj m) = Some vd ->
  AMLObject_AddData ho (Some name) hd w = Done w' (CAML_OK, r) ->
  exists w'' r', AMLObject_GetData ho (Some name) v w' = Done w'' r' /\
    ((r' = (CAML_NO_MEMORY, None) /\ w'' = w' /\ malloc (live w') sizeof_amlData_t = None) \/
     exists hv q, r' = (CAML_OK, Some hv) /\ FindAmlData hv w'' = Done w'' (Some q) /\
                  heap_data_at (w_heap w'') q = Some vd /\ q <> dn_cppObj m).
Proof.
  intros Hwf Hv Hm Hvd Hset. pose proof (AMLObject_AddData_wf _ _ _ _ _ _ Hwf Hset) as Hwf'.
  unfold AMLObject_AddData, guard in Hset.
  destruct (VERIFY_PARAM_NON_NULL ho) eqn:Hh; [apply VERIFY_PARAM_NON_NULL_ok in Hh as ->; discriminate Hset|].
  rewrite (VERIFY_PARAM_NON_NULL_None _ (data_entry_not_null _ _ _ Hwf Hm)) in Hset.
  cbn [VERIFY_STR_NON_NULL] in Hset. unfold st_bind at 1, FindAmlObj at 1 in Hset.
  destruct (obj_entry w ho) as [on|] eqn:Ho; [|discriminate].
  erewrite st_bind_Done in Hset by (unfold FindAmlData; rewrite Hm; reflexivity).
  cbn [fmap option_fmap option_map] in Hset.
  erewrite st_bind_Done in Hset by (unfold read_data; rewrite Hvd; reflexivity).
  destruct (update_add_ok _ _ _ _ _ _ Hset) as (_ & Hl & o & o' & Ho0 & Hk & Ho' & Hd).
  assert (Ho'' : obj_entry w' ho = Some on) by (unfold obj_entry; by rewrite Hl).
  unfold AMLObject_GetData, guard. rewrite Hh, VERIFY_PARAM_NON_NULL_None by done.
  cbn [VERIFY_STR_NON_NULL]. unfold st_bind at 1, FindAmlObj at 1. rewrite Ho''. cbn.
  unfold st_bind at 1, read_obj. rewrite Ho'.
  unfold AMLObjectOps.getData. rewrite Hd, assoc_lookup_app_new by done. cbn [catch_aml].
  destruct (find_or_add_alias_total (obj_data_ptr (on_cppObj on) name) w' Hwf')
    as (w'' & r' & -> & Hheap & _ & Hr).
  exists w'', r'. split; [done|]. destruct Hr as [(-> & -> & Hm')|(hv & -> & Hf)]; [by left|right].
  eexists _, _. split_and!; [done|exact Hf| |].
  - rewrite Hheap, (obj_data_at _ _ _ _ Ho'), Hd. by rewrite assoc_lookup_app_new.
  - intros Heq. rewrite <- Heq, (obj_data_at _ _ _ _ Ho0), Hk in Hvd. discriminate.
Qed.

End AliasRoundTrip.

(** ** Witnesses *)

Definition strarr_world : World :=
  mkWorld {[2%Z := BData [("k"%string, AVStringArray ["a"%string; "b"%string])]]} []
    [Build_amlData_t 1 (heap_root 2) true] [].

Lemma AMLData_SetValueStrArr_roundtrip_witness :
  AMLData_SetValueStrArr 1 (Some "k"%string) (Some (map Some ["a"%string; "b"%string])) 2 empty_data_world
    = Done strarr_world (CAML_OK, Some tt) /\
  AMLData_GetValueStrArr (A := bump_alloc) 1 (Some "k"%string) 9 9 strarr_world
    = Done strarr_world (CAML_OK, Some ["a"%string; "b"%string]) /\
  AMLData_SetValueStrArr 1 (Some "k"%string) (Some (map Some ["c"%string])) 1 strarr_world
    = Done strarr_world (CAML_KEY_ALREADY_EXIST, None).
Proof.
  assert (Hset : AMLData_SetValueStrArr 1 (Some "k"%string) (Some (map Some ["a"%string; "b"%string])) 2
                   empty_data_world = Done strarr_world (CAML_OK, Some tt)) by (vm_compute; reflexivity).
  destruct (AMLData_SetValueStrArr_roundtrip (A := bump_alloc) 1 "k" ["a"%string; "b"%string] 9 9
              empty_data_world strarr_world (Some tt) ltac:(discriminate) ltac:(discriminate) Hset)
    as [Hget Hagain].
  split; [exact Hset|]. split; [|exact (Hagain ["c"%string])].
  rewrite Hget. reflexivity.
Defined.

(** Handle 1 owns an empty value at block 2, handle 3 owns [{x: "y"}] at block 4. *)
Definition nested_world : World :=
  mkWorld {[2%Z := BData []; 4%Z := BData [("x"%string, AVString "y"%string)]]} []
    [Build_amlData_t 1 (heap_root 2) true; Build_amlData_t 3 (heap_root 4) true] [].

Definition nested_world' : World :=
  mkWorld {[2%Z := BData [("k"%string, AVData [("x"%string, AVString "y"%string)])];
            4%Z := BData [("x"%string, AVString "y"%string)]]} []
    [Build_amlData_t 1 (heap_root 2) true; Build_amlData_t 3 (heap_root 4) true] [].

Lemma AMLData_SetValueAMLData_roundtrip_witness :
  reg_wf nested_world /\
  AMLData_SetValueAMLData 1 (Some "k"%string) 3 nested_world = Done nested_world' (CAML_OK, Some tt) /\
  (exists w'' hv, AMLData_GetValueAMLData (A := bump_alloc) 1 (Some "k"%string) 9 nested_world' = Done w'' (CAML_OK, Some hv)) /\
  AMLData_GetValueAMLData (A := capped_alloc 0) 1 (Some "k"%string) 9 nested_world' = Done nested_world' (CAML_NO_MEMORY, None) /\
  exists w'' r', AMLData_GetValueAMLData (A := bump_alloc) 1 (Some "k"%string) 9 nested_world' = Done w'' r' /\
    ((r' = (CAML_NO_MEMORY, None) /\ w'' = nested_world' /\ malloc (Allocator := bump_alloc) (live nested_world') sizeof_amlData_t = None) \/
     exists hv' q, r' = (CAML_OK, Some hv') /\ FindAmlData hv' w'' = Done w'' (Some q) /\
                   heap_data_at (w_heap w'') q = Some [("x"%string, AVString "y"%string)] /\
                   q <> heap_root 4).
Proof.
  assert (Hwf : reg_wf nested_world) by (apply reg_wfb_sound; vm_compute; reflexivity).
  assert (Hset : AMLData_SetValueAMLData 1 (Some "k"%string) 3 nested_world
                 = Done nested_world' (CAML_OK, Some tt)) by (vm_compute; reflexivity).
  refine (conj Hwf (conj Hset (conj _ (conj _ _)))); [do 2 eexists; vm_compute; reflexivity|vm_compute; reflexivity|].
  refine (AMLData_SetValueAMLData_roundtrip (A := bump_alloc) 1 "k" 3 9 nested_world nested_world' (Some tt)
            (Build_amlData_t 3 (heap_root 4) true) _ Hwf _ eq_refl eq_refl Hset).
  unfold NULL; lia.
Defined.

(** Object handle 1 owns an object without data at block 2; data handle 3
    owns [{x: "y"}] at block 4. *)
Definition obj_add_world : World :=
  mkWorld {[2%Z := BObj (mkAMLObject "dev" "ts" "id" []); 4%Z := BData [("x"%string, AVString "y"%string)]]}
    [Build_amlObject_t 1 2 true] [Build_amlData_t 3 (heap_root 4) true] [].

Definition obj_add_world' : World :=
  mkWorld {[2%Z := BObj (mkAMLObject "dev" "ts" "id" [("d"%string, [("x"%string, AVString "y"%string)])]);
            4%Z := BData [("x"%string, AVString "y"%string)]]}
    [Build_amlObject_t 1 2 true] [Build_amlData_t 3 (heap_root 4) true] [].

Lemma AMLObject_AddData_roundtrip_witness :
  reg_wf obj_add_world /\
  AMLObject_AddData 1 (Some "d"%string) 3 obj_add_world = Done obj_add_world' (CAML_OK, Some tt) /\
  (exists w'' hv, AMLObject_GetData (A := bump_alloc) 1 (Some "d"%string) 9 obj_add_world' = Done w'' (CAML_OK, Some hv)) /\
  AMLObject_GetData (A := capped_alloc 0) 1 (Some "d"%string) 9 obj_add_world' = Done obj_add_world' (CAML_NO_MEMORY, None) /\
  exists w'' r', AMLObject_GetData (A := bump_alloc) 1 (Some "d"%string) 9 obj_add_world' = Done w'' r' /\
    ((r' = (CAML_NO_MEMORY, None) /\ w'' = obj_add_world' /\ malloc (Allocator := bump_alloc) (live obj_add_world') sizeof_amlData_t = None) \/
     exists hv q, r' = (CAML_OK, Some hv) /\ FindAmlData hv w'' = Done w'' (Some q) /\
                  heap_data_at (w_heap w'') q = Some [("x"%string, AVString "y"%string)] /\
                  q <> heap_root 4).
Proof.
  assert (Hwf : reg_wf obj_add_world) by (apply reg_wfb_sound; vm_compute; reflexivity).
  assert (Hset : AMLObject_AddData 1 (Some "d"%string) 3 obj_add_world
                 = Done obj_add_world' (CAML_OK, Some tt)) by (vm_compute; reflexivity).
  refine (conj Hwf (conj Hset (conj _ (conj _ _)))); [do 2 eexists; vm_compute; reflexivity|vm_compute; reflexivity|].
  refine (AMLObject_AddData_roundtrip (A := bump_alloc) 1 "d" 3 9 obj_add_world obj_add_world' (Some tt)
            (Build_amlData_t 3 (heap_root 4) true) _ Hwf _ eq_refl eq_refl Hset).
  unfold NULL; lia.
Defined.
