(* ===== verification/UnitTests.v ===== *)
(** * The gtest suite of the binding (unittests/camlinterfacetest.cpp)

    Each [TEST] is a client program over the model, run from the empty
    world: its calls in order, each [EXPECT_EQ] / [EXPECT_TRUE] an entry of
    the list of booleans it returns (gtest goes on after a failed
    expectation, so does the model).  A local that a failed call left
    unwritten is read with [out_val], which crashes with
    [UninitializedRead]; a [char*] local initialised to [NULL] and read by
    [strlen] crashes with [NullDereference].  The addresses of the locals
    passed as out-parameters are all [LOCAL]: the functions only test them
    against [NULL].  The helpers [isEqual], [isEqualArr], [isPresent] and
    [isEqualAMLData] are the file's own. *)

From S2P Require Import Prelude ErrorCodes Engine Memory HandleManager CamlUtils RegistryFacts CamlData CamlObject.

(** The address of a test's local variable. *)
Definition LOCAL : cptr := 1000.

(** A local written by an out-parameter, read afterwards. *)
Definition out_val {T} (r : result T) : st World T :=
  match snd r with Some v => st_ret v | None => st_crash UninitializedRead end.

(** A [char*] local initialised to [NULL], read by [strlen] afterwards. *)
Definition out_str (r : result string) : st World string :=
  match snd r with Some v => st_ret v | None => st_crash NullDereference end.

Definition EXPECT_EQ {T} (r : result T) (c : CAMLErrorCode) : bool := bool_decide (fst r = c).

(** [bool isEqual(const char* str1, const char* str2)]: same length, then
    [strncmp] over it. *)
Definition isEqual (str1 str2 : string) : bool :=
  bool_decide (String.length str1 = String.length str2) && bool_decide (str1 = str2).

(** [bool isEqualArr(strArr1, size1, strArr2, size2)] *)
Definition isEqualArr (strArr1 strArr2 : list string) : bool :=
  bool_decide (length strArr1 = length strArr2) &&
  forallb (fun p => isEqual p.1 p.2) (zip strArr1 strArr2).

(** [bool isPresent(const char* str, char** strArr, size_t size)] *)
Definition isPresent (str : string) (strArr : list string) : bool := existsb (isEqual str) strArr.

Section UnitTests.
Context {A : Allocator}.

(** [bool isEqualAMLData(amlDataHandle_t data1, amlDataHandle_t data2)]:
    same keys, and per key the same type and an equal value, nested values
    compared recursively ([fuel] bounds the nesting depth). *)
Fixpoint isEqualAMLData (fuel : nat) (data1 data2 : cptr) : st World bool :=
  match fuel with
  | O => st_crash FuelExhausted
  | S fuel' =>
      let* r1 := AMLData_GetKeys data1 LOCAL LOCAL in
      let* r2 := AMLData_GetKeys data2 LOCAL LOCAL in
      let* keys1 := out_val r1 in
      let* keys2 := out_val r2 in
      if negb (isEqualArr keys1 keys2) then st_ret false else
      (fix each (keys : list string) : st World bool :=
         match keys with
         | [] => st_ret true
         | key :: rest =>
             let* t1 := AMLData_GetValueType data1 (Some key) LOCAL in
             let* t2 := AMLData_GetValueType data2 (Some key) LOCAL in
             let* type1 := out_val t1 in
             let* type2 := out_val t2 in
             if negb (bool_decide (type1 = type2)) then st_ret false else
             let* same :=
               match type1 with
               | AMLVALTYPE_STRING =>
                   let* g1 := AMLData_GetValueStr data1 (Some key) LOCAL in
                   let* g2 := AMLData_GetValueStr data2 (Some key) LOCAL in
                   let* ret1 := out_str g1 in
                   let* ret2 := out_str g2 in
                   st_ret (isEqual ret1 ret2)
               | AMLVALTYPE_STRINGARRAY =>
                   let* g1 := AMLData_GetValueStrArr data1 (Some key) LOCAL LOCAL in
                   let* g2 := AMLData_GetValueStrArr data2 (Some key) LOCAL LOCAL in
                   let* ret1 := out_val g1 in
                   let* ret2 := out_val g2 in
                   st_ret (isEqualArr ret1 ret2)
               | AMLVALTYPE_AMLDATA =>
                   let* g1 := AMLData_GetValueAMLData data1 (Some key) LOCAL in
                   let* g2 := AMLData_GetValueAMLData data2 (Some key) LOCAL in
                   let* ret1 := out_val g1 in
                   let* ret2 := out_val g2 in
                   isEqualAMLData fuel' ret1 ret2
               end in
             if same then each rest else st_ret false
         end) keys1
  end.

(** [amlDataHandle_t h; CreateAMLData(&h);] *)
Definition new_data_local : st World cptr :=
  let* r := CreateAMLData LOCAL in out_val r.

(** [CreateAMLData(&h); DestroyAMLData(h);]: a handle that was valid. *)
Definition destroyed_data_local : st World cptr :=
  let* h := new_data_local in
  let* _ := DestroyAMLData h in
  st_ret h.

Definition str_pair : option (list cstr) := Some [Some "value1"%string; Some "value2"%string].

Definition test_AMLData_CreateTest_Valid : st World (list bool) :=
  let* r := CreateAMLData LOCAL in
  let* amlData := out_val r in
  let* _ := DestroyAMLData amlData in
  st_ret [EXPECT_EQ r CAML_OK].

Definition test_AMLData_DestroyTest_Valid : st World (list bool) :=
  let* amlData := new_data_local in
  let* d := DestroyAMLData amlData in
  st_ret [EXPECT_EQ d CAML_OK].

Definition test_AMLData_DestroyTest_Invalid_handle : st World (list bool) :=
  let* amlData := new_data_local in
  let* d1 := DestroyAMLData amlData in
  let* d2 := DestroyAMLData amlData in
  st_ret [EXPECT_EQ d1 CAML_OK; EXPECT_EQ d2 CAML_INVALID_HANDLE].

Definition test_AMLData_CloneAMLData_Valid : st World (list bool) :=
  let* amlData := new_data_local in
  let* _ := AMLData_SetValueStr amlData (Some "key1"%string) (Some "value1"%string) in
  let* value2 := new_data_local in
  let* _ := AMLData_SetValueAMLData amlData (Some "key2"%string) value2 in
  let* c := CloneAMLData amlData LOCAL in
  let* cloneData := out_val c in
  let* same := isEqualAMLData 8 amlData cloneData in
  let* _ := DestroyAMLData value2 in
  let* d1 := DestroyAMLData cloneData in
  let* d2 := DestroyAMLData amlData in
  st_ret [EXPECT_EQ c CAML_OK; same; EXPECT_EQ d1 CAML_OK; EXPECT_EQ d2 CAML_OK].

Definition test_AMLData_CloneAMLData_Invalid_handle : st World (list bool) :=
  let* amlData := destroyed_data_local in
  let* c := CloneAMLData amlData LOCAL in
  st_ret [EXPECT_EQ c CAML_INVALID_HANDLE].

Definition test_AMLData_SetValueStrTest_Valid : st World (list bool) :=
  let* amlData := new_data_local in
  let* s := AMLData_SetValueStr amlData (Some "key"%string) (Some "value"%string) in
  let* _ := DestroyAMLData amlData in
  st_ret [EXPECT_EQ s CAML_OK].

Definition test_AMLData_SetValueStrTest_Invalid_handle : st World (list bool) :=
  let* amlData := destroyed_data_local in
  let* s := AMLData_SetValueStr amlData (Some "key"%string) (Some "value"%string) in
  st_ret [EXPECT_EQ s CAML_INVALID_HANDLE].

Definition test_AMLData_SetValueStrTest_Invalid_DuplicatedKey : st World (list bool) :=
  let* amlData := new_data_local in
  let* s1 := AMLData_SetValueStr amlData (Some "key"%string) (Some "value"%string) in
  let* s2 := AMLData_SetValueStr amlData (Some "key"%string) (Some "value"%string) in
  let* _ := DestroyAMLData amlData in
  st_ret [EXPECT_EQ s1 CAML_OK; EXPECT_EQ s2 CAML_KEY_ALREADY_EXIST].

Definition test_AMLData_SetValueStrArrTest_Valid : st World (list bool) :=
  let* amlData := new_data_local in
  let* s := AMLData_SetValueStrArr amlData (Some "key"%string) str_pair 2 in
  let* _ := DestroyAMLData amlData in
  st_ret [EXPECT_EQ s CAML_OK].

Definition test_AMLData_SetValueStrArrTest_Invalid_handle : st World (list bool) :=
  let* amlData := destroyed_data_local in
  let* s := AMLData_SetValueStrArr amlData (Some "key"%string) str_pair 2 in
  st_ret [EXPECT_EQ s CAML_INVALID_HANDLE].

Definition test_AMLData_SetValueStrArrTest_Invalid_DuplicatedKey : st World (list bool) :=
  let* amlData := new_data_local in
  let* s1 := AMLData_SetValueStrArr amlData (Some "key"%string) str_pair 2 in
  let* s2 := AMLData_SetValueStrArr amlData (Some "key"%string) str_pair 2 in
  let* _ := DestroyAMLData amlData in
  st_ret [EXPECT_EQ s1 CAML_OK; EXPECT_EQ s2 CAML_KEY_ALREADY_EXIST].

Definition test_AMLData_SetValueAMLDataTest_Valid : st World (list bool) :=
  let* amlData := new_data_local in
  let* value := new_data_local in
  let* s := AMLData_SetValueAMLData amlData (Some "key"%string) value in
  let* _ := DestroyAMLData amlData in
  let* _ := DestroyAMLData value in
  st_ret [EXPECT_EQ s CAML_OK].

(** The test creates and destroys [dummy] around [value] so that
    [value] is not given [amlData]'s freed handle. *)
Definition test_AMLData_SetValueAMLDataTest_Invalid_handle : st World (list bool) :=
  let* amlData := destroyed_data_local in
  let* dummy := new_data_local in
  let* value := new_data_local in
  let* _ := DestroyAMLData dummy in
  let* s := AMLData_SetValueAMLData amlData (Some "key"%string) value in
  st_ret [EXPECT_EQ s CAML_INVALID_HANDLE].

Definition test_AMLData_SetValueAMLDataTest_Invalid_DuplicatedKey : st World (list bool) :=
  let* amlData := new_data_local in
  let* value := new_data_local in
  let* s1 := AMLData_SetValueAMLData amlData (Some "key"%string) value in
  let* s2 := AMLData_SetValueAMLData amlData (Some "key"%string) value in
  let* _ := DestroyAMLData amlData in
  let* _ := DestroyAMLData value in
  st_ret [EXPECT_EQ s1 CAML_OK; EXPECT_EQ s2 CAML_KEY_ALREADY_EXIST].

Definition test_AMLData_GetValueStrTest_Valid : st World (list bool) :=
  let* amlData := new_data_local in
  let* s := AMLData_SetValueStr amlData (Some "key"%string) (Some "value"%string) in
  let* g := AMLData_GetValueStr amlData (Some "key"%string) LOCAL in
  let* ret := out_val g in
  let* _ := DestroyAMLData amlData in
  st_ret [EXPECT_EQ s CAML_OK; EXPECT_EQ g CAML_OK; isEqual "value" ret].

Definition test_AMLData_GetValueStrTest_InvalidHandle : st World (list bool) :=
  let* amlData := destroyed_data_local in
  let* g := AMLData_GetValueStr amlData (Some "key"%string) LOCAL in
  st_ret [EXPECT_EQ g CAML_INVALID_HANDLE].

Definition test_AMLData_GetValueStrTest_InvalidGetterType : st World (list bool) :=
  let* amlData := new_data_local in
  let* s := AMLData_SetValueStrArr amlData (Some "key"%string) str_pair 2 in
  let* g := AMLData_GetValueStr amlData (Some "key"%string) LOCAL in
  let* _ := DestroyAMLData amlData in
  st_ret [EXPECT_EQ s CAML_OK; EXPECT_EQ g CAML_WRONG_GETTER_TYPE].

Definition test_AMLData_GetValueStrArrTest_Valid : st World (list bool) :=
  let* amlData := new_data_local in
  let* s := AMLData_SetValueStrArr amlData (Some "key"%string) str_pair 2 in
  let* g := AMLData_GetValueStrArr amlData (Some "key"%string) LOCAL LOCAL in
  let* ret := out_val g in
  let* _ := DestroyAMLData amlData in
  st_ret [EXPECT_EQ s CAML_OK; EXPECT_EQ g CAML_OK; isEqualArr ["value1"; "value2"]%string ret].

Definition test_AMLData_GetValueStrArrTest_InvalidHandle : st World (list bool) :=
  let* amlData := destroyed_data_local in
  let* g := AMLData_GetValueStrArr amlData (Some "key"%string) LOCAL LOCAL in
  st_ret [EXPECT_EQ g CAML_INVALID_HANDLE].

Definition test_AMLData_GetValueStrArrTest_InvalidGetterType : st World (list bool) :=
  let* amlData := new_data_local in
  let* s := AMLData_SetValueStr amlData (Some "key"%string) (Some "value"%string) in
  let* g := AMLData_GetValueStrArr amlData (Some "key"%string) LOCAL LOCAL in
  let* _ := DestroyAMLData amlData in
  st_ret [EXPECT_EQ s CAML_OK; EXPECT_EQ g CAML_WRONG_GETTER_TYPE].

Definition test_AMLData_GetValueAMLDataTest_Valid : st World (list bool) :=
  let* amlData := new_data_local in
  let* value := new_data_local in
  let* s := AMLData_SetValueAMLData amlData (Some "key"%string) value in
  let* g := AMLData_GetValueAMLData amlData (Some "key"%string) LOCAL in
  let* ret := out_val g in
  let* same := isEqualAMLData 8 value ret in
  let* _ := DestroyAMLData amlData in
  let* _ := DestroyAMLData value in
  st_ret [EXPECT_EQ s CAML_OK; EXPECT_EQ g CAML_OK; same].

Definition test_AMLData_GetValueAMLDataTest_InvalidHandle : st World (list bool) :=
  let* amlData := destroyed_data_local in
  let* g := AMLData_GetValueAMLData amlData (Some "key"%string) LOCAL in
  st_ret [EXPECT_EQ g CAML_INVALID_HANDLE].

Definition test_AMLData_GetValueAMLDataTest_InvalidGetterType : st World (list bool) :=
  let* amlData := new_data_local in
  let* s := AMLData_SetValueStr amlData (Some "key"%string) (Some "value"%string) in
  let* g := AMLData_GetValueAMLData amlData (Some "key"%string) LOCAL in
  let* _ := DestroyAMLData amlData in
  st_ret [EXPECT_EQ s CAML_OK; EXPECT_EQ g CAML_WRONG_GETTER_TYPE].

(** The three-key container of the [GetKeys] and [GetValueType] tests:
    ["key1"] a string, ["key2"] a one-string array, ["key3"] the data
    [value3]; the handles and the three [SetValue] results. *)
Definition three_keys : st World (cptr * cptr * list bool) :=
  let* amlData := new_data_local in
  let* value3 := new_data_local in
  let* s1 := AMLData_SetValueStr amlData (Some "key1"%string) (Some "value1"%string) in
  let* s2 := AMLData_SetValueStrArr amlData (Some "key2"%string) (Some [Some "value2"%string]) 1 in
  let* s3 := AMLData_SetValueAMLData amlData (Some "key3"%string) value3 in
  st_ret (amlData, value3, [EXPECT_EQ s1 CAML_OK; EXPECT_EQ s2 CAML_OK; EXPECT_EQ s3 CAML_OK]).

Definition test_AMLData_GetKeysTest_Valid : st World (list bool) :=
  let* t := three_keys in
  let '(amlData, value3, sets) := t in
  let* g := AMLData_GetKeys amlData LOCAL LOCAL in
  let* keys := out_val g in
  let* _ := DestroyAMLData amlData in
  let* _ := DestroyAMLData value3 in
  st_ret (sets ++ [EXPECT_EQ g CAML_OK; isPresent "key1" keys; isPresent "key2" keys;
                   isPresent "key3" keys; negb (isPresent "key4" keys)]).

Definition test_AMLData_GetKeysTest_InvalidHandle : st World (list bool) :=
  let* amlData := destroyed_data_local in
  let* g := AMLData_GetKeys amlData LOCAL LOCAL in
  st_ret [EXPECT_EQ g CAML_INVALID_HANDLE].

Definition test_AMLData_GetValueTypeTest_Valid : st World (list bool) :=
  let* t := three_keys in
  let '(amlData, value3, sets) := t in
  let* g1 := AMLData_GetValueType amlData (Some "key1"%string) LOCAL in
  let* g2 := AMLData_GetValueType amlData (Some "key2"%string) LOCAL in
  let* g3 := AMLData_GetValueType amlData (Some "key3"%string) LOCAL in
  let* type1 := out_val g1 in
  let* type2 := out_val g2 in
  let* type3 := out_val g3 in
  let* _ := DestroyAMLData amlData in
  let* _ := DestroyAMLData value3 in
  st_ret (sets ++ [EXPECT_EQ g1 CAML_OK; EXPECT_EQ g2 CAML_OK; EXPECT_EQ g3 CAML_OK;
                   bool_decide (type1 = AMLVALTYPE_STRING); bool_decide (type2 = AMLVALTYPE_STRINGARRAY);
                   bool_decide (type3 = AMLVALTYPE_AMLDATA)]).

Definition test_AMLData_GetValueTypeTest_InvalidHandle : st World (list bool) :=
  let* amlData := destroyed_data_local in
  let* g := AMLData_GetValueType amlData (Some "key"%string) LOCAL in
  st_ret [EXPECT_EQ g CAML_INVALID_HANDLE].

Definition test_AMLData_GetValueTypeTest_InvalidKey : st World (list bool) :=
  let* t := three_keys in
  let '(amlData, value3, sets) := t in
  let* g := AMLData_GetValueType amlData (Some "key4"%string) LOCAL in
  let* _ := DestroyAMLData amlData in
  let* _ := DestroyAMLData value3 in
  st_ret (sets ++ [EXPECT_EQ g CAML_KEY_NOT_EXIST]).

(** A [char*] local after a string getter: what the call wrote, else
    what the local held ([prev]). *)
Definition cstr_local (prev : cstr) (r : result cstr) : cstr := default prev (snd r).

(** [strlen] of a [char*] local. *)
Definition strlen_arg (s : cstr) : st World string :=
  match s with Some v => st_ret v | None => st_crash NullDereference end.

(** [isEqual] on two [char*] locals. *)
Definition isEqual_cstr (str1 str2 : cstr) : st World bool :=
  let* a := strlen_arg str1 in
  let* b := strlen_arg str2 in
  st_ret (isEqual a b).

(** [bool isEqualAMLObject(amlObjectHandle_t obj1, amlObjectHandle_t obj2)]:
    [str1]/[str2] start [NULL] and are reused by the three getters; the
    locals [data1]/[data2] of the loop keep their last value. *)
Definition isEqualAMLObject (fuel : nat) (obj1 obj2 : cptr) : st World bool :=
  let* a1 := AMLObject_GetDeviceId obj1 LOCAL in
  let* a2 := AMLObject_GetDeviceId obj2 LOCAL in
  let str1 := cstr_local None a1 in
  let str2 := cstr_local None a2 in
  let* e1 := isEqual_cstr str1 str2 in
  if negb e1 then st_ret false else
  let* b1 := AMLObject_GetTimeStamp obj1 LOCAL in
  let* b2 := AMLObject_GetTimeStamp obj2 LOCAL in
  let str1 := cstr_local str1 b1 in
  let str2 := cstr_local str2 b2 in
  let* e2 := isEqual_cstr str1 str2 in
  if negb e2 then st_ret false else
  let* c1 := AMLObject_GetId obj1 LOCAL in
  let* c2 := AMLObject_GetId obj2 LOCAL in
  let str1 := cstr_local str1 c1 in
  let str2 := cstr_local str2 c2 in
  let* e3 := isEqual_cstr str1 str2 in
  if negb e3 then st_ret false else
  let* n1 := AMLObject_GetDataNames obj1 LOCAL LOCAL in
  let* n2 := AMLObject_GetDataNames obj2 LOCAL LOCAL in
  let* dataNames1 := out_val n1 in
  let* dataNames2 := out_val n2 in
  if negb (isEqualArr dataNames1 dataNames2) then st_ret false else
  (fix each (names : list string) (data1 data2 : option cptr) : st World bool :=
     match names with
     | [] => st_ret true
     | name :: rest =>
         let* g1 := AMLObject_GetData obj1 (Some name) LOCAL in
         let* g2 := AMLObject_GetData obj2 (Some name) LOCAL in
         let data1 := match snd g1 with Some h => Some h | None => data1 end in
         let data2 := match snd g2 with Some h => Some h | None => data2 end in
         match data1, data2 with
         | Some d1, Some d2 =>
             let* same := isEqualAMLData fuel d1 d2 in
             if same then each rest data1 data2 else st_ret false
         | _, _ => st_crash UninitializedRead
         end
     end) dataNames1 None None.

(** [amlObjectHandle_t o; CreateAMLObject("deviceId", "timeStamp", &o);] *)
Definition new_obj_local : st World cptr :=
  let* r := CreateAMLObject (Some "deviceId"%string) (Some "timeStamp"%string) LOCAL in out_val r.

Definition destroyed_obj_local : st World cptr :=
  let* o := new_obj_local in
  let* _ := DestroyAMLObject o in
  st_ret o.

(** [CreateAMLData(&d); AMLData_SetValueStr(d, key, value)]: the handle
    and the [EXPECT_EQ] on the setter. *)
Definition data_with_str (key value : string) : st World (cptr * bool) :=
  let* amlData := new_data_local in
  let* s := AMLData_SetValueStr amlData (Some key) (Some value) in
  st_ret (amlData, EXPECT_EQ s CAML_OK).

Definition test_AMLObject_CreateTest_Valid : st World (list bool) :=
  let* r := CreateAMLObjectWithID (Some "deviceId"%string) (Some "timeStamp"%string) (Some "id"%string) LOCAL in
  let* amlObj := out_val r in
  let* _ := DestroyAMLObject amlObj in
  st_ret [EXPECT_EQ r CAML_OK].

Definition test_AMLObject_CreateTest_Invalid_Parameter1 : st World (list bool) :=
  let* r := CreateAMLObject (Some ""%string) (Some "timeStamp"%string) LOCAL in
  st_ret [EXPECT_EQ r CAML_INVALID_PARAM].

Definition test_AMLObject_CreateTest_Invalid_Parameter2 : st World (list bool) :=
  let* r := CreateAMLObject (Some "deviceId"%string) (Some ""%string) LOCAL in
  st_ret [EXPECT_EQ r CAML_INVALID_PARAM].

Definition test_AMLObjectTest_CreateWithoutIdTest_Valid : st World (list bool) :=
  let* r := CreateAMLObject (Some "deviceId"%string) (Some "timeStamp"%string) LOCAL in
  let* amlObj := out_val r in
  let* _ := DestroyAMLObject amlObj in
  st_ret [EXPECT_EQ r CAML_OK].

Definition test_AMLObject_CreateWithoutIdTest_Invalid_Parameter : st World (list bool) :=
  let* r := CreateAMLObjectWithID (Some "deviceId"%string) (Some "timeStamp"%string) (Some ""%string) LOCAL in
  st_ret [EXPECT_EQ r CAML_INVALID_PARAM].

Definition test_AMLObject_DestroyTest_DestroyObject : st World (list bool) :=
  let* amlObj := new_obj_local in
  let* d := DestroyAMLObject amlObj in
  st_ret [EXPECT_EQ d CAML_OK].

Definition test_AMLObject_DestroyTest_DestroyObject_InvalidHandle : st World (list bool) :=
  let* amlObj := new_obj_local in
  let* d1 := DestroyAMLObject amlObj in
  let* d2 := DestroyAMLObject amlObj in
  st_ret [EXPECT_EQ d1 CAML_OK; EXPECT_EQ d2 CAML_INVALID_HANDLE].

Definition test_AMLObject_CloneAMLObject_Valid : st World (list bool) :=
  let* amlData := new_data_local in
  let* _ := AMLData_SetValueStr amlData (Some "key1"%string) (Some "value1"%string) in
  let* value2 := new_data_local in
  let* _ := AMLData_SetValueAMLData amlData (Some "key2"%string) value2 in
  let* amlObj := new_obj_local in
  let* _ := AMLObject_AddData amlObj (Some "dataName"%string) amlData in
  let* c := CloneAMLObject amlObj LOCAL in
  let* cloneObj := out_val c in
  let* same := isEqualAMLObject 8 amlObj cloneObj in
  let* _ := DestroyAMLData amlData in
  let* _ := DestroyAMLData value2 in
  let* d1 := DestroyAMLObject amlObj in
  let* d2 := DestroyAMLObject cloneObj in
  st_ret [EXPECT_EQ c CAML_OK; same; EXPECT_EQ d1 CAML_OK; EXPECT_EQ d2 CAML_OK].

Definition test_AMLObject_CloneAMLObject_InvalidHandle : st World (list bool) :=
  let* amlObj := destroyed_obj_local in
  let* c := CloneAMLObject amlObj LOCAL in
  st_ret [EXPECT_EQ c CAML_INVALID_HANDLE].

Definition test_AMLObject_AddDataTest_Valid : st World (list bool) :=
  let* t := data_with_str "key" "value" in
  let '(amlData, e1) := t in
  let* amlObj := new_obj_local in
  let* a := AMLObject_AddData amlObj (Some "dataName"%string) amlData in
  let* _ := DestroyAMLData amlData in
  let* _ := DestroyAMLObject amlObj in
  st_ret [e1; EXPECT_EQ a CAML_OK].

Definition test_AMLObject_AddDataTest_InvalidHandle : st World (list bool) :=
  let* t := data_with_str "key" "value" in
  let '(amlData, e1) := t in
  let* amlObj := destroyed_obj_local in
  let* a := AMLObject_AddData amlObj (Some "dataName"%string) amlData in
  let* _ := DestroyAMLData amlData in
  st_ret [e1; EXPECT_EQ a CAML_INVALID_HANDLE].

Definition test_AMLObject_AddDataTest_Invalid_DuplicatedKey : st World (list bool) :=
  let* t1 := data_with_str "key1" "value1" in
  let '(amlData1, e1) := t1 in
  let* t2 := data_with_str "key2" "value2" in
  let '(amlData2, e2) := t2 in
  let* amlObj := new_obj_local in
  let* a1 := AMLObject_AddData amlObj (Some "dataName"%string) amlData1 in
  let* a2 := AMLObject_AddData amlObj (Some "dataName"%string) amlData2 in
  let* _ := DestroyAMLData amlData1 in
  let* _ := DestroyAMLData amlData2 in
  let* _ := DestroyAMLObject amlObj in
  st_ret [e1; e2; EXPECT_EQ a1 CAML_OK; EXPECT_EQ a2 CAML_KEY_ALREADY_EXIST].

Definition test_AMLObject_GetDataTest_Valid : st World (list bool) :=
  let* t := data_with_str "key" "value" in
  let '(amlData, e1) := t in
  let* amlObj := new_obj_local in
  let* a := AMLObject_AddData amlObj (Some "dataName"%string) amlData in
  let* g := AMLObject_GetData amlObj (Some "dataName"%string) LOCAL in
  let* res := out_val g in
  let* same := isEqualAMLData 8 amlData res in
  let* _ := DestroyAMLData amlData in
  let* _ := DestroyAMLObject amlObj in
  st_ret [e1; EXPECT_EQ a CAML_OK; EXPECT_EQ g CAML_OK; same].

Definition test_AMLObject_GetDataTest_InvalidHandle : st World (list bool) :=
  let* amlObj := destroyed_obj_local in
  let* g := AMLObject_GetData amlObj (Some "dataName"%string) LOCAL in
  st_ret [EXPECT_EQ g CAML_INVALID_HANDLE].

Definition test_AMLObject_GetDataTest_InvalidKey : st World (list bool) :=
  let* t := data_with_str "key" "value" in
  let '(amlData, e1) := t in
  let* amlObj := new_obj_local in
  let* a := AMLObject_AddData amlObj (Some "dataName"%string) amlData in
  let* g := AMLObject_GetData amlObj (Some "DataName"%string) LOCAL in
  let* _ := DestroyAMLData amlData in
  let* _ := DestroyAMLObject amlObj in
  st_ret [e1; EXPECT_EQ a CAML_OK; EXPECT_EQ g CAML_KEY_NOT_EXIST].

Definition test_AMLObject_GetDataNamesTest_Valid : st World (list bool) :=
  let* amlData1 := new_data_local in
  let* amlData2 := new_data_local in
  let* amlObj := new_obj_local in
  let* a1 := AMLObject_AddData amlObj (Some "dataName1"%string) amlData1 in
  let* a2 := AMLObject_AddData amlObj (Some "dataName2"%string) amlData2 in
  let* n := AMLObject_GetDataNames amlObj LOCAL LOCAL in
  let* dataNames := out_val n in
  let* _ := DestroyAMLData amlData1 in
  let* _ := DestroyAMLData amlData2 in
  let* _ := DestroyAMLObject amlObj in
  st_ret [EXPECT_EQ a1 CAML_OK; EXPECT_EQ a2 CAML_OK; EXPECT_EQ n CAML_OK;
          isPresent "dataName1" dataNames; isPresent "dataName2" dataNames;
          negb (isPresent "dataName3" dataNames)].

Definition test_AMLObject_GetDataNamesTest_InvalidHandle : st World (list bool) :=
  let* amlObj := destroyed_obj_local in
  let* n := AMLObject_GetDataNames amlObj LOCAL LOCAL in
  st_ret [EXPECT_EQ n CAML_INVALID_HANDLE].

(** The suite, in the order of the source, each test with its gtest name. *)
Definition suite : list (string * st World (list bool)) :=
  [("AMLData_CreateTest_Valid"%string, test_AMLData_CreateTest_Valid);
   ("AMLData_DestroyTest_Valid"%string, test_AMLData_DestroyTest_Valid);
   ("AMLData_DestroyTest_Invalid_handle"%string, test_AMLData_DestroyTest_Invalid_handle);
   ("AMLData_CloneAMLData_Valid"%string, test_AMLData_CloneAMLData_Valid);
   ("AMLData_CloneAMLData_Invalid_handle"%string, test_AMLData_CloneAMLData_Invalid_handle);
   ("AMLData_SetValueStrTest_Valid"%string, test_AMLData_SetValueStrTest_Valid);
   ("AMLData_SetValueStrTest_Invalid_handle"%string, test_AMLData_SetValueStrTest_Invalid_handle);
   ("AMLData_SetValueStrTest_Invalid_DuplicatedKey"%string, test_AMLData_SetValueStrTest_Invalid_DuplicatedKey);
   ("AMLData_SetValueStrArrTest_Valid"%string, test_AMLData_SetValueStrArrTest_Valid);
   ("AMLData_SetValueStrArrTest_Invalid_handle"%string, test_AMLData_SetValueStrArrTest_Invalid_handle);
   ("AMLData_SetValueStrArrTest_Invalid_DuplicatedKey"%string, test_AMLData_SetValueStrArrTest_Invalid_DuplicatedKey);
   ("AMLData_SetValueAMLDataTest_Valid"%string, test_AMLData_SetValueAMLDataTest_Valid);
   ("AMLData_SetValueAMLDataTest_Invalid_handle"%string, test_AMLData_SetValueAMLDataTest_Invalid_handle);
   ("AMLData_SetValueAMLDataTest_Invalid_DuplicatedKey"%string, test_AMLData_SetValueAMLDataTest_Invalid_DuplicatedKey);
   ("AMLData_GetValueStrTest_Valid"%string, test_AMLData_GetValueStrTest_Valid);
   ("AMLData_GetValueStrTest_InvalidHandle"%string, test_AMLData_GetValueStrTest_InvalidHandle);
   ("AMLData_GetValueStrTest_InvalidGetterType"%string, test_AMLData_GetValueStrTest_InvalidGetterType);
   ("AMLData_GetValueStrArrTest_Valid"%string, test_AMLData_GetValueStrArrTest_Valid);
   ("AMLData_GetValueStrArrTest_InvalidHandle"%string, test_AMLData_GetValueStrArrTest_InvalidHandle);
   ("AMLData_GetValueStrArrTest_InvalidGetterType"%string, test_AMLData_GetValueStrArrTest_InvalidGetterType);
   ("AMLData_GetValueAMLDataTest_Valid"%string, test_AMLData_GetValueAMLDataTest_Valid);
   ("AMLData_GetValueAMLDataTest_InvalidHandle"%string, test_AMLData_GetValueAMLDataTest_InvalidHandle);
   ("AMLData_GetValueAMLDataTest_InvalidGetterType"%string, test_AMLData_GetValueAMLDataTest_InvalidGetterType);
   ("AMLData_GetKeysTest_Valid"%string, test_AMLData_GetKeysTest_Valid);
   ("AMLData_GetKeysTest_InvalidHandle"%string, test_AMLData_GetKeysTest_InvalidHandle);
   ("AMLData_GetValueTypeTest_Valid"%string, test_AMLData_GetValueTypeTest_Valid);
   ("AMLData_GetValueTypeTest_InvalidHandle"%string, test_AMLData_GetValueTypeTest_InvalidHandle);
   ("AMLData_GetValueTypeTest_InvalidKey"%string, test_AMLData_GetValueTypeTest_InvalidKey);
   ("AMLObject_CreateTest_Valid"%string, test_AMLObject_CreateTest_Valid);
   ("AMLObject_CreateTest_Invalid_Parameter1"%string, test_AMLObject_CreateTest_Invalid_Parameter1);
   ("AMLObject_CreateTest_Invalid_Parameter2"%string, test_AMLObject_CreateTest_Invalid_Parameter2);
   ("AMLObjectTest_CreateWithoutIdTest_Valid"%string, test_AMLObjectTest_CreateWithoutIdTest_Valid);
   ("AMLObject_CreateWithoutIdTest_Invalid_Parameter"%string, test_AMLObject_CreateWithoutIdTest_Invalid_Parameter);
   ("AMLObject_DestroyTest_DestroyObject"%string, test_AMLObject_DestroyTest_DestroyObject);
   ("AMLObject_DestroyTest_DestroyObject_InvalidHandle"%string, test_AMLObject_DestroyTest_DestroyObject_InvalidHandle);
   ("AMLObject_CloneAMLObject_Valid"%string, test_AMLObject_CloneAMLObject_Valid);
   ("AMLObject_CloneAMLObject_InvalidHandle"%string, test_AMLObject_CloneAMLObject_InvalidHandle);
   ("AMLObject_AddDataTest_Valid"%string, test_AMLObject_AddDataTest_Valid);
   ("AMLObject_AddDataTest_InvalidHandle"%string, test_AMLObject_AddDataTest_InvalidHandle);
   ("AMLObject_AddDataTest_Invalid_DuplicatedKey"%string, test_AMLObject_AddDataTest_Invalid_DuplicatedKey);
   ("AMLObject_GetDataTest_Valid"%string, test_AMLObject_GetDataTest_Valid);
   ("AMLObject_GetDataTest_InvalidHandle"%string, test_AMLObject_GetDataTest_InvalidHandle);
   ("AMLObject_GetDataTest_InvalidKey"%string, test_AMLObject_GetDataTest_InvalidKey);
   ("AMLObject_GetDataNamesTest_Valid"%string, test_AMLObject_GetDataNamesTest_Valid);
   ("AMLObject_GetDataNamesTest_InvalidHandle"%string, test_AMLObject_GetDataNamesTest_InvalidHandle)].

(** Every test of the suite runs to its end from the empty world and all
    its expectations hold. *)
Definition suite_passes : bool :=
  forallb (fun t => match st_eval t.2 empty_world with Some l => forallb id l | None => false end) suite.

End UnitTests.

(** The binding's gtest suite passes in the model: each of its 45
    tests, run from the empty world, reaches its end without undefined
    behaviour and every [EXPECT] holds, both with an allocator that never
    reuses an address and with one that reuses freed addresses first. *)
Theorem unit_tests_pass :
  suite_passes (A := bump_alloc) = true /\ suite_passes (A := first_fit_alloc) = true.
Proof. split; vm_compute; reflexivity. Qed.
