(* ===== verification/Concurrency.v ===== *)
(** * Concurrent calls of [AMLData_GetValueAMLData]

    The registry functions of camlhandlemanager.cpp each take the domain's
    lock for their own list operation only.  [AMLData_GetValueAMLData]
    (camldata.cpp) calls [FindAmlDataHandle] and then, when it found
    nothing, [AddAmlDataHandle]: two critical sections, between which
    another thread may run.  The function is split at that point into
    [GetValueAMLData_lookup] (everything up to and including
    [FindAmlDataHandle]: it only reads) and [GetValueAMLData_register]
    (the [AddAmlDataHandle] and what follows), and
    [GetValueAMLData_split] proves that running the two in sequence is
    the function.  The threads of a configuration each run one such call;
    [cstep] lets any thread take its next atomic step.  Since the threads
    only read the heap, the reads before [FindAmlDataHandle] commute with
    every other step and are grouped into the first one.

    Proved here: the race registers one nested value twice
    ([GetValueAMLData_race]), against the spec's I2, where the same two
    calls run one after the other return one handle. *)

From S2P Require Import Prelude ErrorCodes Engine Memory HandleManager CamlUtils RegistryFacts CamlData.

Section Split.
Context {A : Allocator}.

(** An early return of the first phase. *)
Definition guard_l {T B} (chk : option CAMLErrorCode) (k : st World (result T + B))
    : st World (result T + B) :=
  match chk with
  | Some c => st_ret (inl (c, None))
  | None => k
  end.

(** The first phase: the guards, [FindAmlData], the engine's
    [getValueToAMLData] and [FindAmlDataHandle]; [inr q] when the nested
    value at [q] has no handle yet. *)
Definition GetValueAMLData_lookup (amlDataHandle : cptr) (key : cstr) (value : cptr)
    : st World (result cptr + ptr) :=
  guard_l (VERIFY_PARAM_NON_NULL amlDataHandle) (
  guard_l (VERIFY_STR_NON_NULL key) (
  guard_l (VERIFY_PARAM_NON_NULL value) (
  match key with
  | None => st_ret (inl (CAML_INVALID_PARAM, None))
  | Some keyStr =>
      let* amlData := FindAmlData amlDataHandle in
      match amlData with
      | None => st_ret (inl (CAML_INVALID_HANDLE, None))
      | Some p =>
          let* d := read_data p in
          match AMLDataOps.getValueToAMLData d keyStr with
          | inl e => st_ret (inl (ExceptionCodeToErrorCode e, None))
          | inr _ =>
              let* valueHandle := FindAmlDataHandle (Ptr (p_addr p) (p_path p ++ [keyStr])) in
              if is_null valueHandle then st_ret (inr (Ptr (p_addr p) (p_path p ++ [keyStr])))
              else st_ret (inl (CAML_OK, Some valueHandle))
          end
      end
  end))).

(** The second phase: [AddAmlDataHandle(&valueData, false)] and its
    [NULL] test. *)
Definition GetValueAMLData_register (valueData : ptr) : st World (result cptr) :=
  let* valueHandle := AddAmlDataHandle valueData false in
  if is_null valueHandle then ret_err CAML_NO_MEMORY else ret_ok valueHandle.

(** The two phases, in sequence. *)
Definition GetValueAMLData_two_phase (amlDataHandle : cptr) (key : cstr) (value : cptr)
    : st World (result cptr) :=
  let* r := GetValueAMLData_lookup amlDataHandle key value in
  match r with
  | inl res => st_ret res
  | inr q => GetValueAMLData_register q
  end.

End Split.

(** ** Threads and configurations *)

(** A thread running [AMLData_GetValueAMLData(amlDataHandle, key, &out)]:
    before its first step, between its two critical sections (the
    nested value [valueData] was found unregistered), or returned. *)
Inductive thread :=
  | TCall (amlDataHandle : cptr) (key : cstr)
  | TRegister (valueData : ptr)
  | TDone (r : result cptr).

Record config := mkConfig { c_world : World; c_threads : list thread }.

(** The address of each thread's out-parameter. *)
Definition OUT : cptr := 1000.

Definition after_lookup (r : result cptr + ptr) : thread :=
  match r with inl res => TDone res | inr q => TRegister q end.

Section Steps.
Context {A : Allocator}.

(** One atomic step of one thread, any thread. *)
Inductive cstep : config -> config -> Prop :=
  | cstep_lookup i h k w w' r ts :
      ts !! i = Some (TCall h k) ->
      GetValueAMLData_lookup h k OUT w = Done w' r ->
      cstep (mkConfig w ts) (mkConfig w' (<[i := after_lookup r]> ts))
  | cstep_register i q w w' r ts :
      ts !! i = Some (TRegister q) ->
      GetValueAMLData_register q w = Done w' r ->
      cstep (mkConfig w ts) (mkConfig w' (<[i := TDone r]> ts)).

End Steps.

(** Handle 1 owns block 2, whose key ["k"] holds an empty container; two
    threads both fetch it. *)
Definition race_world : World :=
  mkWorld {[2%Z := BData [("k"%string, AVData [])]]} [] [Build_amlData_t 1 (heap_root 2) true] [].

Definition race_start : config := mkConfig race_world [TCall 1 (Some "k"%string); TCall 1 (Some "k"%string)].

(** The nested value both threads fetch. *)
Definition race_q : ptr := Ptr (HeapAddr 2) ["k"%string].

(** The registry after both threads looked up before either registered. *)
Definition race_interleaved_world : World :=
  mkWorld (w_heap race_world) []
    [Build_amlData_t 1 (heap_root 2) true; Build_amlData_t 3 race_q false; Build_amlData_t 4 race_q false] [].

(** The registry after the two calls ran one after the other. *)
Definition race_serial_world : World :=
  mkWorld (w_heap race_world) [] [Build_amlData_t 1 (heap_root 2) true; Build_amlData_t 3 race_q false] [].

(** The split is faithful: the lookup phase followed by the
    register phase computes exactly [AMLData_GetValueAMLData], on every
    world, errors and crashes included. *)
Theorem GetValueAMLData_split `{Allocator} h k v w :
  AMLData_GetValueAMLData h k v w = GetValueAMLData_two_phase h k v w.
Proof.
  unfold AMLData_GetValueAMLData, GetValueAMLData_two_phase, GetValueAMLData_lookup, guard, guard_l.
  destruct (VERIFY_PARAM_NON_NULL h), (VERIFY_STR_NON_NULL k), (VERIFY_PARAM_NON_NULL v); try done.
  destruct k as [key|]; [|done].
  cbv [st_bind FindAmlData read_data catch_aml find_or_add_alias FindAmlDataHandle st_ret ret_ok ret_err
       GetValueAMLData_register].
  repeat case_match; first [reflexivity | congruence].
Qed.


(** ** Theorems *)

(** The two runs of the race scenario, step by step. *)
Lemma race_run_interleaved :
  rtc (cstep (A := bump_alloc)) race_start
      (mkConfig race_interleaved_world [TDone (CAML_OK, Some 3%Z); TDone (CAML_OK, Some 4%Z)]).
Proof.
  eapply rtc_l; [eapply (cstep_lookup 0 1 (Some "k"%string) _ _ (inr race_q)); reflexivity|].
    eapply rtc_l; [eapply (cstep_lookup 1 1 (Some "k"%string) _ _ (inr race_q)); reflexivity|].
    eapply rtc_l; [eapply (cstep_register 0 race_q _ _ (CAML_OK, Some 3%Z)); reflexivity|].
    eapply rtc_l; [eapply (cstep_register 1 race_q _ _ (CAML_OK, Some 4%Z)); reflexivity|].
    apply rtc_refl.
Qed.

Lemma race_run_serial :
  rtc (cstep (A := bump_alloc)) race_start
      (mkConfig race_serial_world [TDone (CAML_OK, Some 3%Z); TDone (CAML_OK, Some 3%Z)]).
Proof.
  eapply rtc_l; [eapply (cstep_lookup 0 1 (Some "k"%string) _ _ (inr race_q)); reflexivity|].
    eapply rtc_l; [eapply (cstep_register 0 race_q _ _ (CAML_OK, Some 3%Z)); reflexivity|].
    eapply rtc_l; [eapply (cstep_lookup 1 1 (Some "k"%string) _ _ (inl (CAML_OK, Some 3%Z))); reflexivity|].
    apply rtc_refl.
Qed.

(** C5: the race.  From a well-formed world where handle 1 owns a
    container with a nested value under ["k"], two threads calling
    [AMLData_GetValueAMLData(1, "k", &out)] can both run
    [FindAmlDataHandle] before either registers: each then registers its
    own borrowing handle (3 and 4) for the same nested value, and the
    registry breaks the spec's I2 (one handle per pointer), so [reg_wf]
    fails.  Run one after the other, the same two calls return the same
    handle 3. *)
Theorem GetValueAMLData_race :
  reg_wf race_world /\
  rtc (cstep (A := bump_alloc)) race_start
      (mkConfig race_interleaved_world [TDone (CAML_OK, Some 3%Z); TDone (CAML_OK, Some 4%Z)]) /\
  ~ reg_wf race_interleaved_world /\
  rtc (cstep (A := bump_alloc)) race_start
      (mkConfig race_serial_world [TDone (CAML_OK, Some 3%Z); TDone (CAML_OK, Some 3%Z)]).
Proof.
  split; [apply reg_wfb_sound; vm_compute; reflexivity|].
  split; [|split].
  - exact race_run_interleaved.
  - intros Hwf. pose proof (wf_data_ptr_nodup _ Hwf) as Hnd. cbn in Hnd.
    apply NoDup_cons in Hnd as [_ Hnd]. apply NoDup_cons in Hnd as [Hn _]. apply Hn. left.
  - exact race_run_serial.
Qed.
