(* ===== verification/ConcurrentDestroy.v ===== *)
(** * Concurrent calls of [DestroyAMLData]

    [DestroyAMLData] (camldata.cpp) resolves its handle with
    [FindAmlData], one critical section of [g_amlDataMtx], then walks the
    value ([RemoveOwnedAmlDataHandles]) and unregisters the handle
    ([RemoveAmlData], whose [LL_DELETE] is a second critical section,
    followed by [delete cppObj] and [free] outside the lock).  The function
    is split after the lookup into [DestroyAMLData_lookup] and
    [DestroyAMLData_remove]; [DestroyAMLData_split] proves the two in
    sequence are the function.  A thread of [dstep] runs one call and
    takes the second phase as one step: every schedule of [dstep] is a
    schedule of the code (the steps of a phase can run back to back), so
    a crash reached here is reached by the code.

    Run one after the other, two destroys of one handle are harmless: the
    second returns [CAML_INVALID_HANDLE] (CamlData.DestroyAMLData_twice).
    [destroy_race_crashes] shows the per-call locks do not make that
    true of two threads: when both look the handle up before either
    removes it, the second removal reads freed memory. *)

From stdpp Require Import base list relations.
From S2P Require Import Prelude ErrorCodes Engine Memory HandleManager CamlUtils RegistryFacts HandleManagerSpec CamlData.

Section Split.
Context {A : Allocator}.

(** The first phase: the guard and [FindAmlData]; [inr p] when the handle
    resolved to [p]. *)
Definition DestroyAMLData_lookup (amlDataHandle : cptr) : st World (result unit + ptr) :=
  match VERIFY_PARAM_NON_NULL amlDataHandle with
  | Some c => st_ret (inl (c, None))
  | None =>
      let* amlData := FindAmlData amlDataHandle in
      match amlData with
      | None => st_ret (inl (CAML_INVALID_HANDLE, None))
      | Some p => st_ret (inr p)
      end
  end.

(** The second phase: [RemoveOwnedAmlDataHandles(amlData)], then
    [RemoveAmlData(amlDataHandle)]. *)
Definition DestroyAMLData_remove (amlDataHandle : cptr) (amlData : ptr) : st World (result unit) :=
  let* _ := RemoveOwnedAmlDataHandles amlData in
  let* _ := RemoveAmlData amlDataHandle in
  ret_ok tt.

Definition DestroyAMLData_two_phase (amlDataHandle : cptr) : st World (result unit) :=
  let* r := DestroyAMLData_lookup amlDataHandle in
  match r with
  | inl res => st_ret res
  | inr p => DestroyAMLData_remove amlDataHandle p
  end.

End Split.

(** ** Threads and configurations *)

(** A thread running [DestroyAMLData(amlDataHandle)]: before its first
    step, after the lookup resolved the handle to [amlData], or
    returned. *)
Inductive dthread :=
  | DCall (amlDataHandle : cptr)
  | DRemove (amlDataHandle : cptr) (amlData : ptr)
  | DDone (r : result unit).

Record dconfig := mkDConfig { d_world : World; d_threads : list dthread }.

Definition after_destroy_lookup (h : cptr) (r : result unit + ptr) : dthread :=
  match r with inl res => DDone res | inr p => DRemove h p end.

Section Steps.
Context {A : Allocator}.

(** One atomic step of one thread, any thread. *)
Inductive dstep : dconfig -> dconfig -> Prop :=
  | dstep_lookup i h w w' r ts :
      ts !! i = Some (DCall h) ->
      DestroyAMLData_lookup h w = Done w' r ->
      dstep (mkDConfig w ts) (mkDConfig w' (<[i := after_destroy_lookup h r]> ts))
  | dstep_remove i h p w w' r ts :
      ts !! i = Some (DRemove h p) ->
      DestroyAMLData_remove h p w = Done w' r ->
      dstep (mkDConfig w ts) (mkDConfig w' (<[i := DDone r]> ts)).

(** The next step of thread [t] crashes with [e]. *)
Definition dnext_crashes (w : World) (t : dthread) (e : crash) : Prop :=
  match t with
  | DCall h => DestroyAMLData_lookup h w = Crashed e
  | DRemove h p => DestroyAMLData_remove h p w = Crashed e
  | DDone _ => False
  end.

End Steps.

(** Handle 1 owns block 2, an empty [AMLData]; two threads destroy it. *)
Definition destroy_world : World :=
  mkWorld {[2%Z := BData []]} [] [Build_amlData_t 1 (heap_root 2) true] [].

(** ** Lemmas *)

Section Facts.
Context `{AS : AllocatorSpec}.

(** The lookup of a registered handle reads only. *)
Lemma DestroyAMLData_lookup_found w h n :
  reg_wf w -> data_entry w h = Some n -> DestroyAMLData_lookup h w = Done w (inr (dn_cppObj n)).
Proof.
  intros Hwf Hn. unfold DestroyAMLData_lookup.
  rewrite VERIFY_PARAM_NON_NULL_None by (eapply data_entry_not_null; eauto).
  unfold st_bind, FindAmlData. by rewrite Hn.
Qed.

(** The second phase on a registered handle whose value is readable
    returns [CAML_OK] and leaves the handle unregistered. *)
Lemma DestroyAMLData_remove_first w h n d :
  reg_wf w -> data_entry w h = Some n -> heap_data_at (w_heap w) (dn_cppObj n) = Some d ->
  exists w', DestroyAMLData_remove h (dn_cppObj n) w = Done w' (CAML_OK, Some tt) /\
             reg_wf w' /\ data_entry w' h = None.
Proof.
  intros Hwf Hn Hd. destruct (RemoveAmlData_total _ _ _ Hwf Hn) as [w' E].
  exists w'. split_and!.
  - unfold DestroyAMLData_remove, st_bind.
    rewrite (RemoveOwnedAmlDataHandles_noop _ _ _ (wf_data_heap _ Hwf) Hd). by rewrite E.
  - by eapply wf_RemoveAmlData.
  - by eapply RemoveAmlData_gone.
Qed.

(** Once the handle is gone, a second phase for it crashes: the walker
    reads the freed value, or [RemoveAmlData] reads a freed node. *)
Lemma DestroyAMLData_remove_again w h p :
  reg_wf w -> data_entry w h = None -> DestroyAMLData_remove h p w = Crashed UseAfterFree.
Proof.
  intros Hwf Hn. unfold DestroyAMLData_remove, st_bind.
  destruct (heap_data_at (w_heap w) p) as [d|] eqn:Hd.
  - rewrite (RemoveOwnedAmlDataHandles_noop _ _ _ (wf_data_heap _ Hwf) Hd).
    unfold RemoveAmlData. by rewrite Hn.
  - unfold RemoveOwnedAmlDataHandles. by rewrite Hd.
Qed.

End Facts.

(** The split is faithful: the lookup phase followed by the removal
    phase computes exactly [DestroyAMLData], on every world, errors and
    crashes included. *)
Theorem DestroyAMLData_split `{Allocator} h w :
  DestroyAMLData h w = DestroyAMLData_two_phase h w.
Proof.
  unfold DestroyAMLData, DestroyAMLData_two_phase, DestroyAMLData_lookup, DestroyAMLData_remove, guard.
  destruct (VERIFY_PARAM_NON_NULL h); [done|].
  unfold st_bind, FindAmlData, ret_err, st_ret. by destruct (data_entry w h).
Qed.

(** C6: two threads destroying one registered handle whose value is
    readable, from any well-formed world: if both resolve the handle
    before either removes it, the first returns [CAML_OK] and the second,
    scheduled next, crashes with a use after free, where run one after
    the other the second call would return [CAML_INVALID_HANDLE]. *)
Theorem destroy_race_crashes `{AllocatorSpec} w h n d :
  reg_wf w -> data_entry w h = Some n -> heap_data_at (w_heap w) (dn_cppObj n) = Some d ->
  exists w', rtc dstep (mkDConfig w [DCall h; DCall h])
                       (mkDConfig w' [DDone (CAML_OK, Some tt); DRemove h (dn_cppObj n)]) /\
             dnext_crashes w' (DRemove h (dn_cppObj n)) UseAfterFree.
Proof.
  intros Hwf Hn Hd. pose proof (DestroyAMLData_lookup_found _ _ _ Hwf Hn) as Hl.
  destruct (DestroyAMLData_remove_first _ _ _ _ Hwf Hn Hd) as (w' & Hr & Hwf' & Hgone).
  exists w'. split; [|by apply DestroyAMLData_remove_again].
  eapply rtc_l; [by eapply (dstep_lookup 0)|]. cbn.
  eapply rtc_l; [by eapply (dstep_lookup 1)|]. cbn.
  eapply rtc_l; [by eapply (dstep_remove 0)|]. cbn. apply rtc_refl.
Qed.

(** ** Witness *)

Lemma destroy_race_crashes_witness :
  reg_wf destroy_world /\ data_entry destroy_world 1 = Some (Build_amlData_t 1 (heap_root 2) true) /\
  exists w', rtc dstep (mkDConfig destroy_world [DCall 1; DCall 1])
                       (mkDConfig w' [DDone (CAML_OK, Some tt); DRemove 1 (heap_root 2)]) /\
             dnext_crashes w' (DRemove 1 (heap_root 2)) UseAfterFree.
Proof.
  assert (Hwf : reg_wf destroy_world) by (apply reg_wfb_sound; vm_compute; reflexivity).
  split; [exact Hwf|]. split; [reflexivity|].
  exact (destroy_race_crashes (A := bump_alloc) destroy_world 1 (Build_amlData_t 1 (heap_root 2) true) []
           Hwf eq_refl eq_refl).
Defined.
