(* ===== verification/Api.v ===== *)
(** * The whole C API: a client's calls in sequence

    The three exported families share one registry world: an object
    handle from [CreateAMLObject] or [Representation_GetConfigInfo] is
    used by [AMLObject_AddData], a data handle from [AMLObject_GetData] by
    every [AMLData_*] function.  [api_call] is a call of any of them;
    [run_api_calls] runs a client program, a list of calls, recording each
    result code; [api_step] is one call, so [rtc api_step empty_world] are
    the worlds a single-threaded client can reach from program start.  The
    per-family facts ([run_data_call_wf], [run_obj_call_wf],
    [run_rep_call_wf] and their [_atomic] companions) compose here. *)

From S2P Require Import Prelude ErrorCodes Engine Memory HandleManager CamlUtils RegistryFacts RegistryObjects CamlData CamlObject CamlRepresentation.

(** A call of the C API. *)
Inductive api_call :=
  | API_Data (c : data_call)
  | API_Obj (c : obj_call)
  | API_Rep (c : rep_call).

Section Run.
Context {A : Allocator} {E : RepresentationEngine}.

Definition run_api_call (c : api_call) : st World CAMLErrorCode :=
  match c with
  | API_Data c => run_data_call c
  | API_Obj c => run_obj_call c
  | API_Rep c => run_rep_call c
  end.

(** A client program: the calls one after the other, each result code
    recorded; a crash of one call ends the program. *)
Fixpoint run_api_calls (cs : list api_call) : st World (list CAMLErrorCode) :=
  match cs with
  | [] => st_ret []
  | c :: cs' =>
      let* code := run_api_call c in
      let* codes := run_api_calls cs' in
      st_ret (code :: codes)
  end.

(** One call that returns. *)
Definition api_step (w w' : World) : Prop := exists c code, run_api_call c w = Done w' code.

End Run.

(** A client of all three families, for the witnesses: a data value, an
    object that gets a copy of it, a representation and its serialization
    of the object. *)
Definition client_program : list api_call :=
  [ API_Data (DC_CreateAMLData 1000);
    API_Data (DC_SetValueStr 2 (Some "k"%string) (Some "v"%string));
    API_Obj (OC_CreateAMLObject (Some "dev"%string) (Some "ts"%string) 1000);
    API_Obj (OC_AddData 4 (Some "d"%string) 2);
    API_Obj (OC_GetData 4 (Some "d"%string) 1000);
    API_Rep (RC_CreateRepresentation (Some "schema.aml"%string) 1000);
    API_Rep (RC_DataToAml 7 4 1000);
    API_Data (DC_DestroyAMLData 2) ].

(** ** Every call, and every program, keeps the invariant *)

Section Laws.
Context `{AS : AllocatorSpec} {E : RepresentationEngine}.

Lemma run_api_call_wf c : st_preserves reg_wf (run_api_call c).
Proof. destruct c; [apply run_data_call_wf|apply run_obj_call_wf|apply run_rep_call_wf]. Qed.

Lemma run_api_call_atomic c w w' code :
  reg_wf w -> run_api_call c w = Done w' code -> code <> CAML_OK -> w' = w.
Proof.
  destruct c; cbn [run_api_call];
    [apply run_data_call_atomic|apply run_obj_call_atomic|apply run_rep_call_atomic].
Qed.

Lemma run_api_calls_cons c cs w w' codes :
  run_api_calls (c :: cs) w = Done w' codes ->
  exists w1 code codes', run_api_call c w = Done w1 code /\
    run_api_calls cs w1 = Done w' codes' /\ codes = code :: codes'.
Proof.
  cbn [run_api_calls]. intros H. st_case H as w1 code. st_case H as w2 codes'.
  injection H as <- <-. eauto 6.
Qed.

(** A program that returns is a sequence of API steps. *)
Lemma run_api_calls_rtc cs w w' codes :
  run_api_calls cs w = Done w' codes -> rtc api_step w w'.
Proof.
  revert w codes. induction cs as [|c cs IH]; intros w codes.
  - by intros [= <- _].
  - intros (w1 & code & codes' & H1 & H2 & _)%run_api_calls_cons.
    eapply rtc_l; [by exists c, code|exact (IH _ _ H2)].
Qed.

Lemma api_step_rtc_wf w w' : rtc api_step w w' -> reg_wf w -> reg_wf w'.
Proof.
  induction 1 as [|w1 w2 w3 (c & code & Hc) _ IH]; [done|].
  intros Hwf. exact (IH (run_api_call_wf c _ _ _ Hwf Hc)).
Qed.

(** C17: a client program, any sequence of calls of the three API
    families, run from a well-formed world keeps the registry invariant
    [reg_wf] (distinct non-[NULL] handles, each data pointer registered
    at most once, the spec's I2, owning handles on live blocks of their
    kind) and records one result code per call. *)
Theorem run_api_calls_wf cs w w' codes :
  reg_wf w -> run_api_calls cs w = Done w' codes ->
  reg_wf w' /\ length codes = length cs.
Proof.
  revert w codes. induction cs as [|c cs IH]; intros w codes Hwf.
  - by intros [= <- <-].
  - intros (w1 & code & codes' & H1 & H2 & ->)%run_api_calls_cons.
    destruct (IH _ _ (run_api_call_wf c _ _ _ Hwf H1) H2) as [Hwf' Hlen].
    split; [done|]. cbn. by rewrite Hlen.
Qed.

(** C18: no partial side effects, at program scale: a sequence of calls
    that all return an error code leaves the world exactly as it was (no
    handle registered, no block allocated, changed or freed). *)
Theorem run_api_calls_atomic cs w w' codes :
  reg_wf w -> run_api_calls cs w = Done w' codes ->
  Forall (fun code => code <> CAML_OK) codes -> w' = w.
Proof.
  revert w codes. induction cs as [|c cs IH]; intros w codes Hwf.
  - by intros [= <- _].
  - intros (w1 & code & codes' & H1 & H2 & ->)%run_api_calls_cons (Hc & Hcs)%Forall_cons.
    pose proof (run_api_call_atomic c _ _ _ Hwf H1 Hc) as ->. exact (IH _ _ Hwf H2 Hcs).
Qed.

End Laws.

(** ** Witnesses *)

(** The world after [client_program]: the object (block 3) holds the
    copy of the data, whose borrowed handle 5 is all that remains of the
    data registry once data handle 2 is destroyed; the fixture engine
    does not serialize an object with data, so [DataToAml] reports
    [CAML_SERIALIZE_FAIL] in the middle of the run. *)
Definition client_world : World :=
  mkWorld {[3%Z := BObj (mkAMLObject "dev" "ts" "dev_ts" [("d"%string, [("k"%string, AVString "v")])]);
            6%Z := BRep "schema.aml"]}
    [Build_amlObject_t 4 3 true] [Build_amlData_t 5 (obj_data_ptr 3 "d") false] [Build_amlRep_t 7 6].

Lemma run_api_calls_wf_witness :
  reg_wf empty_world /\
  run_api_calls (A := bump_alloc) (E := fixture_engine) client_program empty_world
    = Done client_world [CAML_OK; CAML_OK; CAML_OK; CAML_OK; CAML_OK; CAML_OK; CAML_SERIALIZE_FAIL; CAML_OK] /\
  reg_wf client_world /\ length [CAML_OK; CAML_OK; CAML_OK; CAML_OK; CAML_OK; CAML_OK; CAML_SERIALIZE_FAIL; CAML_OK]
                         = length client_program.
Proof.
  assert (Hwf : reg_wf empty_world) by (apply reg_wfb_sound; vm_compute; reflexivity).
  assert (H1 : run_api_calls (A := bump_alloc) (E := fixture_engine) client_program empty_world
    = Done client_world [CAML_OK; CAML_OK; CAML_OK; CAML_OK; CAML_OK; CAML_OK; CAML_SERIALIZE_FAIL; CAML_OK])
    by (vm_compute; reflexivity).
  split; [exact Hwf|]. split; [exact H1|]. exact (run_api_calls_wf _ _ _ _ Hwf H1).
Defined.

(** Four failing calls on an object world: an unregistered data handle,
    an unregistered object handle, an empty schema path, an object handle
    given where a data handle is expected. *)
Lemma run_api_calls_atomic_witness :
  reg_wf (obj_world []) /\
  run_api_calls (A := bump_alloc) (E := fixture_engine)
    [API_Obj (OC_AddData 1 (Some "x"%string) 9); API_Obj (OC_CloneAMLObject 7 9);
     API_Rep (RC_CreateRepresentation (Some ""%string) 9); API_Data (DC_GetKeys 1 9 9)] (obj_world [])
    = Done (obj_world []) [CAML_INVALID_HANDLE; CAML_INVALID_HANDLE; CAML_INVALID_FILE_PATH; CAML_INVALID_HANDLE] /\
  Forall (fun code => code <> CAML_OK)
    [CAML_INVALID_HANDLE; CAML_INVALID_HANDLE; CAML_INVALID_FILE_PATH; CAML_INVALID_HANDLE] /\
  obj_world [] = obj_world [].
Proof.
  assert (Hwf : reg_wf (obj_world [])) by (apply reg_wfb_sound; vm_compute; reflexivity).
  assert (H1 : run_api_calls (A := bump_alloc) (E := fixture_engine)
    [API_Obj (OC_AddData 1 (Some "x"%string) 9); API_Obj (OC_CloneAMLObject 7 9);
     API_Rep (RC_CreateRepresentation (Some ""%string) 9); API_Data (DC_GetKeys 1 9 9)] (obj_world [])
    = Done (obj_world []) [CAML_INVALID_HANDLE; CAML_INVALID_HANDLE; CAML_INVALID_FILE_PATH; CAML_INVALID_HANDLE])
    by (vm_compute; reflexivity).
  assert (Hc : Forall (fun code => code <> CAML_OK)
    [CAML_INVALID_HANDLE; CAML_INVALID_HANDLE; CAML_INVALID_FILE_PATH; CAML_INVALID_HANDLE])
    by (repeat constructor; discriminate).
  split; [exact Hwf|]. split; [exact H1|]. split; [exact Hc|].
  exact (run_api_calls_atomic _ _ _ _ Hwf H1 Hc).
Defined.

