(* ===== verification/RepresentationTests.v ===== *)
(** * The gtest suite of the Representation API (unittests/camlrepresentationtest.cpp)

    As in [UnitTests], each [TEST] is a client program returning its list
    of expectations.  The bytes the tests read from disk are not part of
    the model: the contents of [./TEST_Data.aml] and [./TEST_DataBinary]
    are the section variables [aml_data_text] and [data_binary], and the
    build flag [_DISABLE_PROTOBUF_] is the variable [DISABLE_PROTOBUF].
    The helpers that hand them to the tests are modelled: [TestAML]
    returns the text as the C string its [new char[]] buffer holds (cut at
    a NUL byte, [cstr_prefix]), [TestBinary] the bytes with their count.  The
    engine is the interface [RepresentationEngine]: a test whose outcome is
    decided by the binding is proved for every engine that loads the
    model file, a test of the engine's own behaviour is stated against the
    hypotheses on the engine it needs.  The helper [TestAMLObjectHandle]
    builds, through the public API, the object the test files describe;
    [isEqualAMLObject] and [isEqualAMLData] are copies of the helpers of
    [camlinterfacetest.cpp] (the model of [UnitTests] is reused). *)

From S2P Require Import Prelude ErrorCodes Engine Memory HandleManager CamlUtils RegistryFacts CamlData CamlObject CamlRepresentation UnitTests.

Definition amlModelFile : string := "./TEST_DataModel.aml".
Definition amlModelFile_invalid_NoCAEX : string := "./TEST_DataModel_Invalid_NoCAEX.aml".
Definition amlModelFile_invalid_NoSUCL : string := "./TEST_DataModel_Invalid_NoSUCL.aml".
Definition amlModelId : string := "SAMPLE_Robot_0.0.1".

(** [char* repId; Representation_GetRepId(rep, &repId);] then [strlen(repId)]:
    unwritten on an invalid handle, [NULL] on [CAML_NO_MEMORY]. *)
Definition out_cstr (r : result cstr) : st World string :=
  match snd r with
  | Some (Some s) => st_ret s
  | Some None => st_crash NullDereference
  | None => st_crash UninitializedRead
  end.

(** The two upper-case hex digits [snprintf("%02X")] writes for a byte. *)
Definition hex_digit (n : nat) : Ascii.ascii :=
  if decide (n < 10)%nat then Ascii.ascii_of_nat (48 + n) else Ascii.ascii_of_nat (55 + n).

Definition hex_byte (c : Ascii.ascii) : string :=
  String (hex_digit (Ascii.nat_of_ascii c / 16)) (String (hex_digit (Ascii.nat_of_ascii c mod 16)) EmptyString).

Fixpoint hex (s : string) : string :=
  match s with EmptyString => EmptyString | String c s' => hex_byte c +:+ hex s' end.

(** [bool isEqualBinary(uint8_t* binary1, size_t size1, uint8_t* binary2, size_t size2)]:
    the sizes, then the hex dumps of the first [size] bytes, compared
    with [strncmp]. *)
Definition isEqualBinary (binary1 : string) (size1 : nat) (binary2 : string) (size2 : nat) : bool :=
  if negb (Nat.eqb size1 size2) then false else
  bool_decide (hex (String.substring 0 size1 binary1) = hex (String.substring 0 size2 binary2)).

(** The C string a [char] buffer holds: its bytes up to the first NUL. *)
Fixpoint cstr_prefix (s : string) : string :=
  match s with
  | EmptyString => EmptyString
  | String c s' => if Ascii.eqb c Ascii.zero then EmptyString else String c (cstr_prefix s')
  end.

Section RepresentationTests.
Context {A : Allocator} {E : RepresentationEngine}.
Variables (aml_data_text data_binary : string) (DISABLE_PROTOBUF : bool).

(** [amlObjectHandle_t TestAMLObjectHandle()]: the object ["SAMPLE001"]
    with the data ["Model"] ([a], [b]) and ["Sample"] ([info] holding [id]
    and [axis] ([x], [y], [z]), and the array [appendix]), the four data
    handles destroyed once copied in. *)
Definition TestAMLObjectHandle : st World cptr :=
  let* model := new_data_local in
  let* _ := AMLData_SetValueStr model (Some "a"%string) (Some "Model_107.113.97.248"%string) in
  let* _ := AMLData_SetValueStr model (Some "b"%string) (Some "SR-P7-970"%string) in
  let* axis := new_data_local in
  let* _ := AMLData_SetValueStr axis (Some "x"%string) (Some "20"%string) in
  let* _ := AMLData_SetValueStr axis (Some "y"%string) (Some "110"%string) in
  let* _ := AMLData_SetValueStr axis (Some "z"%string) (Some "80"%string) in
  let* info := new_data_local in
  let* _ := AMLData_SetValueStr info (Some "id"%string) (Some "f437da3b"%string) in
  let* _ := AMLData_SetValueAMLData info (Some "axis"%string) axis in
  let* sample := new_data_local in
  let* _ := AMLData_SetValueAMLData sample (Some "info"%string) info in
  let* _ := AMLData_SetValueStrArr sample (Some "appendix"%string)
              (Some [Some "52303"%string; Some "935"%string; Some "1442"%string]) 3 in
  let* r := CreateAMLObject (Some "SAMPLE001"%string) (Some "123456789"%string) LOCAL in
  let* object := out_val r in
  let* _ := AMLObject_AddData object (Some "Model"%string) model in
  let* _ := AMLObject_AddData object (Some "Sample"%string) sample in
  let* _ := DestroyAMLData model in
  let* _ := DestroyAMLData axis in
  let* _ := DestroyAMLData info in
  let* _ := DestroyAMLData sample in
  st_ret object.

(** [char* TestAML()]: the bytes of [./TEST_Data.aml] copied into a
    [new char[size + 1]] and terminated; a failing [new] throws out of
    the test.  The caller reads the buffer as a C string. *)
Definition TestAML : st World string := fun w =>
  match new_block (live w) with
  | None => Crashed BadAllocEscapes
  | Some _ => Done w (cstr_prefix aml_data_text)
  end.

(** [void TestBinary(uint8_t** amlByte, size_t* byteSize)]: the bytes of
    [./TEST_DataBinary] in a [new char[size + 1]], and their number. *)
Definition TestBinary : st World (string * nat) := fun w =>
  match new_block (live w) with
  | None => Crashed BadAllocEscapes
  | Some _ => Done w (data_binary, String.length data_binary)
  end.

(** [representation_t rep; CreateRepresentation(amlModelFile, &rep);] *)
Definition new_rep_local : st World cptr :=
  let* r := CreateRepresentation (Some amlModelFile) LOCAL in out_val r.

(** [CreateRepresentation(amlModelFile, &rep); DestroyRepresentation(rep);] *)
Definition destroyed_rep_local : st World cptr :=
  let* rep := new_rep_local in
  let* _ := DestroyRepresentation rep in
  st_ret rep.

Definition test_ConstructRepresentationTest_ValidAML : st World (list bool) :=
  let* c := CreateRepresentation (Some amlModelFile) LOCAL in
  let* rep := out_val c in
  let* _ := DestroyRepresentation rep in
  st_ret [EXPECT_EQ c CAML_OK].

Definition test_ConstructRepresentationTest_InvalidFilePath : st World (list bool) :=
  let* c := CreateRepresentation (Some "NoExist.aml"%string) LOCAL in
  st_ret [EXPECT_EQ c CAML_INVALID_FILE_PATH].

Definition test_ConstructRepresentationTest_AMLWithoutCAEX : st World (list bool) :=
  let* c := CreateRepresentation (Some amlModelFile_invalid_NoCAEX) LOCAL in
  st_ret [EXPECT_EQ c CAML_INVALID_AML_SCHEMA].

Definition test_ConstructRepresentationTest_AMLWithoutSUCL : st World (list bool) :=
  let* c := CreateRepresentation (Some amlModelFile_invalid_NoSUCL) LOCAL in
  st_ret [EXPECT_EQ c CAML_INVALID_AML_SCHEMA].

Definition test_DestroyRepresentationTest_Valid : st World (list bool) :=
  let* rep := new_rep_local in
  let* d := DestroyRepresentation rep in
  st_ret [EXPECT_EQ d CAML_OK].

Definition test_DestroyRepresentationTest_InvalidHandle : st World (list bool) :=
  let* rep := new_rep_local in
  let* d1 := DestroyRepresentation rep in
  let* d2 := DestroyRepresentation rep in
  st_ret [EXPECT_EQ d1 CAML_OK; EXPECT_EQ d2 CAML_INVALID_HANDLE].

Definition test_Representation_AmlToDataTest_ConvertValid : st World (list bool) :=
  let* rep := new_rep_local in
  let* amlStr := TestAML in
  let* a := Representation_AmlToData rep (Some amlStr) LOCAL in
  let* amlObj := out_val a in
  let* varify := TestAMLObjectHandle in
  let* same := isEqualAMLObject 8 amlObj varify in
  let* _ := DestroyAMLObject amlObj in
  let* _ := DestroyAMLObject varify in
  let* _ := DestroyRepresentation rep in
  st_ret [EXPECT_EQ a CAML_OK; same].

Definition test_Representation_AmlToDataTest_InvalidHandle : st World (list bool) :=
  let* rep := destroyed_rep_local in
  let* amlStr := TestAML in
  let* a := Representation_AmlToData rep (Some amlStr) LOCAL in
  st_ret [EXPECT_EQ a CAML_INVALID_HANDLE].

(** After the expected failure, [DestroyAMLObject(amlObj)] reads the
    local [amlObj], which nothing wrote. *)
Definition test_Representation_AmlToDataTest_InvalidAml : st World (list bool) :=
  let* rep := new_rep_local in
  let* a := Representation_AmlToData rep (Some "<invalid />"%string) LOCAL in
  let* amlObj := out_val a in
  let* _ := DestroyAMLObject amlObj in
  let* _ := DestroyRepresentation rep in
  st_ret [EXPECT_EQ a CAML_INVALID_AML_SCHEMA].

Definition test_Representation_DataToAmlTest_ConvertValid : st World (list bool) :=
  let* rep := new_rep_local in
  let* amlObj := TestAMLObjectHandle in
  let* s := Representation_DataToAml rep amlObj LOCAL in
  let* amlStr := out_val s in
  let* varify := TestAML in
  let* _ := DestroyRepresentation rep in
  st_ret [EXPECT_EQ s CAML_OK; isEqual amlStr varify].

Definition test_Representation_DataToAmlTest_InvalidHandle : st World (list bool) :=
  let* rep := destroyed_rep_local in
  let* amlObj := TestAMLObjectHandle in
  let* s := Representation_DataToAml rep amlObj LOCAL in
  st_ret [EXPECT_EQ s CAML_INVALID_HANDLE].

Definition test_Representation_DataToAmlTest_InvalidDataToModel : st World (list bool) :=
  let* rep := new_rep_local in
  let* r := CreateAMLObject (Some "deviceId"%string) (Some "0"%string) LOCAL in
  let* amlObj := out_val r in
  let* amlData := new_data_local in
  let* _ := AMLData_SetValueStr amlData (Some "invalidKey"%string) (Some "invalidValue"%string) in
  let* _ := AMLObject_AddData amlObj (Some "invalidData"%string) amlData in
  let* s := Representation_DataToAml rep amlObj LOCAL in
  let* _ := DestroyAMLData amlData in
  let* _ := DestroyAMLObject amlObj in
  let* _ := DestroyRepresentation rep in
  st_ret [EXPECT_EQ s CAML_NOT_MATCH_TO_AML_MODEL].

Definition test_Representation_DataToAmlTest_IgnoreDataNotInModel : st World (list bool) :=
  let* rep := new_rep_local in
  let* amlObj := TestAMLObjectHandle in
  let* g := AMLObject_GetData amlObj (Some "Sample"%string) LOCAL in
  let* amlData := out_val g in
  let* _ := AMLData_SetValueStr amlData (Some "additionalKey"%string) (Some "additionalValue"%string) in
  let* s := Representation_DataToAml rep amlObj LOCAL in
  let* amlStr := out_val s in
  let* r := Representation_AmlToData rep (Some amlStr) LOCAL in
  let* resultObj := out_val r in
  let* g2 := AMLObject_GetData resultObj (Some "Sample"%string) LOCAL in
  let* sampleResult := out_val g2 in
  let* v := AMLData_GetValueStr sampleResult (Some "additionalKey"%string) LOCAL in
  let* _ := DestroyAMLObject resultObj in
  let* _ := DestroyAMLObject amlObj in
  let* _ := DestroyRepresentation rep in
  st_ret [EXPECT_EQ s CAML_OK; EXPECT_EQ r CAML_OK; EXPECT_EQ g2 CAML_OK; EXPECT_EQ v CAML_KEY_NOT_EXIST].

Definition test_Representation_ByteToDataTest_ConvertValid : st World (list bool) :=
  let* rep := new_rep_local in
  let* bs := TestBinary in
  let '(binary, size) := bs in
  let* checks :=
    if negb DISABLE_PROTOBUF then
      let* b := Representation_ByteToData rep (Some binary) size LOCAL in
      let* amlObj := out_val b in
      let* varify := TestAMLObjectHandle in
      let* same := isEqualAMLObject 8 amlObj varify in
      let* _ := DestroyAMLObject amlObj in
      let* _ := DestroyAMLObject varify in
      st_ret [EXPECT_EQ b CAML_OK; same]
    else
      let* b := Representation_ByteToData rep (Some binary) size LOCAL in
      st_ret [EXPECT_EQ b CAML_API_NOT_ENABLED] in
  let* _ := DestroyRepresentation rep in
  st_ret checks.

Definition test_Representation_ByteToDataTest_InvalidHandle : st World (list bool) :=
  let* rep := destroyed_rep_local in
  let* bs := TestBinary in
  let '(binary, size) := bs in
  let* b := Representation_ByteToData rep (Some binary) size LOCAL in
  st_ret [EXPECT_EQ b CAML_INVALID_HANDLE].

Definition test_Representation_ByteToDataTest_InvalidByte : st World (list bool) :=
  let* rep := new_rep_local in
  let invalidBinary := "invalidBinary"%string in
  let* b := Representation_ByteToData rep (Some invalidBinary) (String.length invalidBinary) LOCAL in
  let* _ := DestroyRepresentation rep in
  st_ret [EXPECT_EQ b (if negb DISABLE_PROTOBUF then CAML_INVALID_BYTE_STR else CAML_API_NOT_ENABLED)].

Definition test_Representation_DataToByteTest_ConvertValid : st World (list bool) :=
  let* rep := new_rep_local in
  let* amlObj := TestAMLObjectHandle in
  let* checks :=
    if negb DISABLE_PROTOBUF then
      let* b := Representation_DataToByte rep amlObj LOCAL LOCAL in
      let* bs := out_val b in
      let '(amlBinary, size) := bs in
      let* vs := TestBinary in
      let '(varify, varify_size) := vs in
      let same := isEqualBinary amlBinary size varify varify_size in
      let* _ := DestroyAMLObject amlObj in
      st_ret [EXPECT_EQ b CAML_OK; same]
    else
      let* b := Representation_DataToByte rep amlObj LOCAL LOCAL in
      st_ret [EXPECT_EQ b CAML_API_NOT_ENABLED] in
  let* _ := DestroyRepresentation rep in
  st_ret checks.

Definition test_Representation_DataToByteTest_InvalidHandle : st World (list bool) :=
  let* rep := destroyed_rep_local in
  let* amlObj := TestAMLObjectHandle in
  let* b := Representation_DataToByte rep amlObj LOCAL LOCAL in
  st_ret [EXPECT_EQ b CAML_INVALID_HANDLE].

Definition test_GetRepresentationIdTest_GetValid : st World (list bool) :=
  let* rep := new_rep_local in
  let* g := Representation_GetRepId rep LOCAL in
  let* repId := out_cstr g in
  let* _ := DestroyRepresentation rep in
  st_ret [isEqual amlModelId repId].

Definition test_GetRepresentationIdTest_InvalidHandle : st World (list bool) :=
  let* rep := destroyed_rep_local in
  let* g := Representation_GetRepId rep LOCAL in
  st_ret [EXPECT_EQ g CAML_INVALID_HANDLE].

Definition test_GetConfigInfoTest_Valid : st World (list bool) :=
  let* rep := new_rep_local in
  let* g := Representation_GetConfigInfo rep LOCAL in
  let* config := out_val g in
  let* _ := DestroyAMLObject config in
  let* _ := DestroyRepresentation rep in
  st_ret [EXPECT_EQ g CAML_OK].

Definition test_GetConfigInfoTest_InvalidHandle : st World (list bool) :=
  let* rep := destroyed_rep_local in
  let* g := Representation_GetConfigInfo rep LOCAL in
  st_ret [EXPECT_EQ g CAML_INVALID_HANDLE].

(** A test passes when it runs to its end from the empty world and all
    its expectations hold. *)
Definition test_passes (t : st World (list bool)) : bool :=
  match st_eval t empty_world with Some l => forallb id l | None => false end.

(** The tests whose outcome the binding decides, once the model file
    loads: creation and destruction, and every call through a destroyed
    representation handle. *)
Definition binding_suite : list (string * st World (list bool)) :=
  [("ConstructRepresentationTest_ValidAML"%string, test_ConstructRepresentationTest_ValidAML);
   ("DestroyRepresentationTest_Valid"%string, test_DestroyRepresentationTest_Valid);
   ("DestroyRepresentationTest_InvalidHandle"%string, test_DestroyRepresentationTest_InvalidHandle);
   ("Representation_AmlToDataTest_InvalidHandle"%string, test_Representation_AmlToDataTest_InvalidHandle);
   ("Representation_DataToAmlTest_InvalidHandle"%string, test_Representation_DataToAmlTest_InvalidHandle);
   ("Representation_ByteToDataTest_InvalidHandle"%string, test_Representation_ByteToDataTest_InvalidHandle);
   ("Representation_DataToByteTest_InvalidHandle"%string, test_Representation_DataToByteTest_InvalidHandle);
   ("GetRepresentationIdTest_InvalidHandle"%string, test_GetRepresentationIdTest_InvalidHandle);
   ("GetConfigInfoTest_InvalidHandle"%string, test_GetConfigInfoTest_InvalidHandle)].

(** The tests whose outcome depends on what the engine makes of the
    test files, in the order of the source. *)
Definition engine_suite : list (string * st World (list bool)) :=
  [("ConstructRepresentationTest_InvalidFilePath"%string, test_ConstructRepresentationTest_InvalidFilePath);
   ("ConstructRepresentationTest_AMLWithoutCAEX"%string, test_ConstructRepresentationTest_AMLWithoutCAEX);
   ("ConstructRepresentationTest_AMLWithoutSUCL"%string, test_ConstructRepresentationTest_AMLWithoutSUCL);
   ("Representation_AmlToDataTest_ConvertValid"%string, test_Representation_AmlToDataTest_ConvertValid);
   ("Representation_DataToAmlTest_ConvertValid"%string, test_Representation_DataToAmlTest_ConvertValid);
   ("Representation_DataToAmlTest_InvalidDataToModel"%string, test_Representation_DataToAmlTest_InvalidDataToModel);
   ("Representation_DataToAmlTest_IgnoreDataNotInModel"%string, test_Representation_DataToAmlTest_IgnoreDataNotInModel);
   ("Representation_ByteToDataTest_ConvertValid"%string, test_Representation_ByteToDataTest_ConvertValid);
   ("Representation_ByteToDataTest_InvalidByte"%string, test_Representation_ByteToDataTest_InvalidByte);
   ("Representation_DataToByteTest_ConvertValid"%string, test_Representation_DataToByteTest_ConvertValid);
   ("GetRepresentationIdTest_GetValid"%string, test_GetRepresentationIdTest_GetValid);
   ("GetConfigInfoTest_Valid"%string, test_GetConfigInfoTest_Valid)].

End RepresentationTests.

(** The world once [rep] is created from program start: block 1 is the
    [Representation] of the model file, node 2 its handle. *)
Definition rep_world : World := mkWorld {[1%Z := BRep amlModelFile]} [] [] [Build_amlRep_t 2 1].

(** The object [TestAMLObjectHandle] builds: what [./TEST_Data.aml]
    describes. *)
Definition test_object : AMLObject :=
  mkAMLObject "SAMPLE001" "123456789" "SAMPLE001_123456789"
    [("Model"%string, [("a"%string, AVString "Model_107.113.97.248"); ("b"%string, AVString "SR-P7-970")]);
     ("Sample"%string,
      [("info"%string, AVData [("id"%string, AVString "f437da3b");
                               ("axis"%string, AVData [("x"%string, AVString "20"); ("y"%string, AVString "110");
                                                       ("z"%string, AVString "80")])]);
       ("appendix"%string, AVStringArray ["52303"; "935"; "1442"])])].

(** The object of [InvalidDataToModel]: one data the model does not
    have. *)
Definition invalid_object : AMLObject :=
  mkAMLObject "deviceId" "0" "deviceId_0" [("invalidData"%string, [("invalidKey"%string, AVString "invalidValue")])].

(** [test_object] with a key the model does not have added to its
    ["Sample"] data, as [IgnoreDataNotInModel] makes it. *)
Definition test_object_extra : AMLObject :=
  mkAMLObject "SAMPLE001" "123456789" "SAMPLE001_123456789"
    [("Model"%string, [("a"%string, AVString "Model_107.113.97.248"); ("b"%string, AVString "SR-P7-970")]);
     ("Sample"%string,
      [("info"%string, AVData [("id"%string, AVString "f437da3b");
                               ("axis"%string, AVData [("x"%string, AVString "20"); ("y"%string, AVString "110");
                                                       ("z"%string, AVString "80")])]);
       ("appendix"%string, AVStringArray ["52303"; "935"; "1442"]);
       ("additionalKey"%string, AVString "additionalValue")])].

(** What the tests assume of the engine and the files they read: the
    model file loads, the two broken ones are refused as schemas, a
    missing one as a path; the text file, which holds no NUL byte, is the serialization of
    [test_object], and serialization drops what the model does not have
    and refuses data it cannot place; the binary API is compiled out, or
    the binary file is the protobuf form of [test_object]. *)
Record TestFiles (E : RepresentationEngine) (aml_data_text data_binary : string) (DISABLE_PROTOBUF : bool) : Prop := {
  tf_load : rep_load amlModelFile = inr tt;
  tf_missing : rep_load "NoExist.aml" = inl INVALID_FILE_PATH;
  tf_noCAEX : rep_load amlModelFile_invalid_NoCAEX = inl INVALID_AML_SCHEMA;
  tf_noSUCL : rep_load amlModelFile_invalid_NoSUCL = inl INVALID_AML_SCHEMA;
  tf_repId : rep_getRepresentationId amlModelFile = amlModelId;
  tf_config : exists o, rep_getConfigInfo amlModelFile = inr o;
  tf_parse : rep_AmlToData amlModelFile aml_data_text = inr test_object;
  tf_print : rep_DataToAml amlModelFile test_object = inr aml_data_text;
  tf_not_match : rep_DataToAml amlModelFile invalid_object = inl NOT_MATCH_TO_AML_MODEL;
  tf_ignore : rep_DataToAml amlModelFile test_object_extra = inr aml_data_text;
  tf_text : cstr_prefix aml_data_text = aml_data_text;
  tf_binary : data_binary <> EmptyString;
  tf_bytes :
    if DISABLE_PROTOBUF then
      (forall s, rep_ByteToData amlModelFile s = inl API_NOT_ENABLED) /\
      (forall o, rep_DataToByte amlModelFile o = inl API_NOT_ENABLED)
    else
      rep_ByteToData amlModelFile data_binary = inr test_object /\
      rep_DataToByte amlModelFile test_object = inr data_binary /\
      rep_ByteToData amlModelFile "invalidBinary" = inl INVALID_BYTE_STR
}.

(** An engine for the witnesses, built with [_DISABLE_PROTOBUF_]: it
    loads the model file, refuses ["NoExist.aml"] as a path and any other
    file as a schema, serializes an object of device ["SAMPLE001"] to
    [fixture_aml_text] (the model's part of it) and parses that text back
    to [test_object]. *)
Definition fixture_aml_text : string := "<CAEXFile SAMPLE001 />".

Definition test_files_engine : RepresentationEngine := {|
  rep_load := fun f =>
    if bool_decide (f = amlModelFile) then inr tt
    else if bool_decide (f = "NoExist.aml"%string) then inl INVALID_FILE_PATH
    else inl INVALID_AML_SCHEMA;
  rep_getRepresentationId := fun _ => amlModelId;
  rep_getConfigInfo := fun _ => inr (fixture_object "config");
  rep_DataToAml := fun _ o =>
    if bool_decide (o_deviceId o = "SAMPLE001"%string) then inr fixture_aml_text else inl NOT_MATCH_TO_AML_MODEL;
  rep_AmlToData := fun _ s =>
    if bool_decide (s = fixture_aml_text) then inr test_object else inl INVALID_AML_SCHEMA;
  rep_DataToByte := fun _ _ => inl API_NOT_ENABLED;
  rep_ByteToData := fun _ _ => inl API_NOT_ENABLED
|}.

(** ** Running the tests against an abstract engine *)

Lemma isEqual_refl s : isEqual s s = true.
Proof. unfold isEqual. by rewrite !bool_decide_eq_true_2. Qed.

Lemma substring_full s : String.substring 0 (String.length s) s = s.
Proof. induction s as [|c s IH]; [done|]. cbn. by rewrite IH. Qed.

Lemma isEqualBinary_refl s n : isEqualBinary s n s n = true.
Proof. unfold isEqualBinary. rewrite Nat.eqb_refl. cbn. by rewrite bool_decide_eq_true_2. Qed.

Lemma st_eval_bind_assoc {X Y Z'} (m : st World X) (f : X -> st World Y) (g : Y -> st World Z') w :
  st_eval (st_bind (st_bind m f) g) w = st_eval (st_bind m (fun x => st_bind (f x) g)) w.
Proof. unfold st_eval. by rewrite st_bind_assoc. Qed.

Lemma st_eval_bind_run {X Y} (m : st World X) (k : X -> st World Y) w w' x :
  m w = Done w' x -> st_eval (st_bind m k) w = st_eval (k x) w'.
Proof. intros H. unfold st_eval. by rewrite (st_bind_Done _ _ _ _ _ H). Qed.

Lemma st_eval_bind_replace {X Y} (m m' : st World X) (k : X -> st World Y) w :
  m w = m' w -> st_eval (st_bind m k) w = st_eval (st_bind m' k) w.
Proof. intros H. unfold st_eval, st_bind. by rewrite H. Qed.

(** With [operator new] succeeding, the two file helpers return the file
    as a C string and the binary file with its size. *)
Lemma TestAML_run s w : TestAML (A := bump_alloc) s w = Done w (cstr_prefix s).
Proof. reflexivity. Qed.

Lemma TestBinary_run b w : TestBinary (A := bump_alloc) b w = Done w (b, String.length b).
Proof. reflexivity. Qed.

Lemma TestAML_ret s : TestAML (A := bump_alloc) s = st_ret (cstr_prefix s).
Proof. reflexivity. Qed.

Lemma TestBinary_ret b : TestBinary (A := bump_alloc) b = st_ret (b, String.length b).
Proof. reflexivity. Qed.

Section Runs.
Context {E : RepresentationEngine}.
Hypothesis Hload : rep_load amlModelFile = inr tt.

Lemma CreateRepresentation_model_run :
  CreateRepresentation (A := bump_alloc) (Some amlModelFile) LOCAL empty_world = Done rep_world (CAML_OK, Some 2%Z).
Proof.
  unfold CreateRepresentation, guard. cbn [VERIFY_STR_NON_NULL].
  rewrite VERIFY_PARAM_NON_NULL_None by done.
  unfold st_bind at 1, new_with, rep_ctor. rewrite Hload. vm_compute. reflexivity.
Qed.

Lemma new_rep_local_run : new_rep_local (A := bump_alloc) empty_world = Done rep_world 2%Z.
Proof. unfold new_rep_local. by rewrite (st_bind_Done _ _ _ _ _ CreateRepresentation_model_run). Qed.

(** [Representation_AmlToData] through [rep] reaches the engine's parser
    with the model file. *)
Lemma AmlToData_rep_world s :
  Representation_AmlToData (A := bump_alloc) 2 (Some s) LOCAL rep_world =
  (let* amlObj := new_with (A := bump_alloc) (obj_ctor (rep_AmlToData amlModelFile s)) in
   register_new_obj (A := bump_alloc) amlObj) rep_world.
Proof. reflexivity. Qed.

(** The engine calls of the conversions, at a world where the handles
    resolve: what remains is engine-free once the engine's answer is
    known. *)
Lemma AmlToData_iso w rh s out b f :
  FindRepresentation rh w = Done w (Some b) -> read_rep b w = Done w f -> rh <> NULL -> out <> NULL ->
  Representation_AmlToData (A := bump_alloc) rh (Some s) out w =
  (let* amlObj := new_with (A := bump_alloc) (obj_ctor (rep_AmlToData f s)) in
   register_new_obj (A := bump_alloc) amlObj) w.
Proof.
  intros HF HR Hrh Hout. unfold Representation_AmlToData, guard.
  rewrite !VERIFY_PARAM_NON_NULL_None by done. cbn [VERIFY_STR_NON_NULL].
  rewrite (st_bind_Done _ _ _ _ _ HF). cbv beta iota. by rewrite (st_bind_Done _ _ _ _ _ HR).
Qed.

Lemma DataToAml_iso w rh oh out b ob f o :
  FindRepresentation rh w = Done w (Some b) -> FindAmlObj oh w = Done w (Some ob) ->
  read_rep b w = Done w f -> read_obj ob w = Done w o -> rh <> NULL -> oh <> NULL -> out <> NULL ->
  Representation_DataToAml (A := bump_alloc) rh oh out w =
  catch_aml (rep_DataToAml f o) (fun amlString =>
    let* amlChar := ConvertStringToCharStr (A := bump_alloc) amlString in
    match amlChar with None => ret_err CAML_NO_MEMORY | Some s => ret_ok s end) w.
Proof.
  intros HF HO HR HRo Hrh Hoh Hout. unfold Representation_DataToAml, guard.
  rewrite !VERIFY_PARAM_NON_NULL_None by done.
  rewrite (st_bind_Done _ _ _ _ _ HF), (st_bind_Done _ _ _ _ _ HO). cbv beta iota.
  by rewrite (st_bind_Done _ _ _ _ _ HR), (st_bind_Done _ _ _ _ _ HRo).
Qed.

Lemma GetRepId_iso w rh out b f :
  FindRepresentation rh w = Done w (Some b) -> read_rep b w = Done w f -> rh <> NULL -> out <> NULL ->
  Representation_GetRepId (A := bump_alloc) rh out w =
  (let* s := ConvertStringToCharStr (A := bump_alloc) (rep_getRepresentationId f) in
   match s with None => st_ret (CAML_NO_MEMORY, Some None) | Some _ => ret_ok s end) w.
Proof.
  intros HF HR Hrh Hout. unfold Representation_GetRepId, guard.
  rewrite !VERIFY_PARAM_NON_NULL_None by done.
  rewrite (st_bind_Done _ _ _ _ _ HF). cbv beta iota. by rewrite (st_bind_Done _ _ _ _ _ HR).
Qed.

Lemma ByteToData_iso w rh buf size out b f :
  FindRepresentation rh w = Done w (Some b) -> read_rep b w = Done w f ->
  rh <> NULL -> out <> NULL -> size <> 0%nat -> (size <= String.length buf)%nat ->
  Representation_ByteToData (A := bump_alloc) rh (Some buf) size out w =
  (let* amlObj := new_with (A := bump_alloc) (obj_ctor (rep_ByteToData f (String.substring 0 size buf))) in
   register_new_obj (A := bump_alloc) amlObj) w.
Proof.
  intros HF HR Hrh Hout Hs Hle. unfold Representation_ByteToData, guard.
  rewrite !VERIFY_PARAM_NON_NULL_None by (done || (unfold NULL; lia)). cbn [VERIFY_STR_NON_NULL].
  rewrite (st_bind_Done _ _ _ _ _ HF). cbv beta iota.
  unfold read_bytes. rewrite decide_True by done. rewrite st_bind_ret_l.
  by rewrite (st_bind_Done _ _ _ _ _ HR).
Qed.

Lemma DataToByte_iso w rh oh out outSize b ob f o :
  FindRepresentation rh w = Done w (Some b) -> FindAmlObj oh w = Done w (Some ob) ->
  read_rep b w = Done w f -> read_obj ob w = Done w o ->
  rh <> NULL -> oh <> NULL -> out <> NULL -> outSize <> NULL ->
  Representation_DataToByte (A := bump_alloc) rh oh out outSize w =
  catch_aml (rep_DataToByte f o) (fun amlString =>
    let* temp := ConvertStringToCharStr (A := bump_alloc) amlString in
    match temp with None => ret_err CAML_NO_MEMORY | Some t => ret_ok (t, String.length amlString) end) w.
Proof.
  intros HF HO HR HRo Hrh Hoh Hout Hsz. unfold Representation_DataToByte, guard.
  rewrite !VERIFY_PARAM_NON_NULL_None by done.
  rewrite (st_bind_Done _ _ _ _ _ HF), (st_bind_Done _ _ _ _ _ HO). cbv beta iota.
  by rewrite (st_bind_Done _ _ _ _ _ HR), (st_bind_Done _ _ _ _ _ HRo).
Qed.

Lemma GetConfigInfo_iso w rh out b f :
  FindRepresentation rh w = Done w (Some b) -> read_rep b w = Done w f -> rh <> NULL -> out <> NULL ->
  Representation_GetConfigInfo (A := bump_alloc) rh out w =
  (let* amlObj := new_with (A := bump_alloc) (obj_ctor (rep_getConfigInfo f)) in
   register_new_obj (A := bump_alloc) amlObj) w.
Proof.
  intros HF HR Hrh Hout. unfold Representation_GetConfigInfo, guard.
  rewrite !VERIFY_PARAM_NON_NULL_None by done.
  rewrite (st_bind_Done _ _ _ _ _ HF). cbv beta iota. by rewrite (st_bind_Done _ _ _ _ _ HR).
Qed.

(** Destroying an object when no data handle is registered: the walker
    over its data has nothing to unregister, whatever the object holds. *)
Lemma DestroyAMLObject_iso w h b o :
  FindAmlObj h w = Done w (Some b) -> w_heap w !! b = Some (BObj o) -> g_amlDataHead w = [] -> h <> NULL ->
  DestroyAMLObject h w = (let* _ := RemoveAmlObj h in ret_ok tt) w.
Proof.
  intros HF Hb Hd Hh. unfold DestroyAMLObject, guard. rewrite VERIFY_PARAM_NON_NULL_None by done.
  rewrite (st_bind_Done _ _ _ _ _ HF). cbv beta iota.
  by rewrite (st_bind_Done _ _ _ _ _ (RemoveOwnedAmlDataHandles_obj_noop _ _ _ ltac:(rewrite Hd; constructor) Hb)).
Qed.

Lemma CreateRepresentation_fail_run f e w :
  rep_load f = inl e ->
  CreateRepresentation (A := bump_alloc) (Some f) LOCAL w = Done w (ExceptionCodeToErrorCode e, None).
Proof.
  intros Hf. unfold CreateRepresentation, guard. cbn [VERIFY_STR_NON_NULL].
  rewrite VERIFY_PARAM_NON_NULL_None by done.
  unfold st_bind at 1, new_with, rep_ctor. by rewrite Hf.
Qed.

Lemma destroyed_rep_local_run : destroyed_rep_local (A := bump_alloc) empty_world = Done empty_world 2%Z.
Proof.
  unfold destroyed_rep_local. rewrite (st_bind_Done _ _ _ _ _ new_rep_local_run). vm_compute. reflexivity.
Qed.

End Runs.

(** Run the engine-free call at the head of a test. *)
Ltac step_closed :=
  match goal with
  | |- context [st_eval (st_bind ?m ?k) ?w] =>
      let v := eval vm_compute in (m w) in
      lazymatch v with
      | Done ?w' ?x =>
          rewrite (st_eval_bind_run m k w w' x ltac:(vm_compute; reflexivity)); cbv beta
      end
  end.

(** Run the creation of [rep] at the head of a test. *)
Ltac rep_new HT :=
  rewrite (st_eval_bind_run _ _ _ _ _ (new_rep_local_run (tf_load _ _ _ _ HT))); cbv beta.

(** Replace the engine call at the head of a test by what the engine
    answers, with the lemma [L] that isolates it. *)
Ltac engine_step L :=
  rewrite ?st_eval_bind_assoc;
  match goal with
  | |- context [st_eval (st_bind ?m ?k) ?w] =>
      erewrite (st_eval_bind_replace m _ k w) by (eapply L; first [reflexivity | discriminate | assumption | cbn; lia])
  end.

(** Read the text test file at the head of a test. *)
Ltac read_aml HT :=
  rewrite ?st_eval_bind_assoc;
  rewrite (st_eval_bind_run _ _ _ _ _ (TestAML_run _ _)), (tf_text _ _ _ _ HT); cbv beta.

(** Read the binary test file at the head of a test. *)
Ltac read_binary :=
  rewrite ?st_eval_bind_assoc;
  rewrite (st_eval_bind_run _ _ _ _ _ (TestBinary_run _ _)); cbv beta iota.

(** Run a test of the suite past its creation of [rep], then evaluate. *)
Ltac run_rep_test Hload :=
  cbv [test_passes];
  first [ rewrite (st_eval_bind_run _ _ _ _ _ (destroyed_rep_local_run Hload))
        | rewrite (st_eval_bind_run _ _ _ _ _ (new_rep_local_run Hload))
        | rewrite (st_eval_bind_run _ _ _ _ _ (CreateRepresentation_model_run Hload)) ];
  vm_compute; reflexivity.

(** C28: the representation tests the binding decides pass for every
    engine that loads the model file and every non-empty binary test
    file: the binary file's size is checked as a pointer, so an empty one
    would make [ByteToData] report [CAML_INVALID_PARAM] instead of
    [CAML_INVALID_HANDLE]. *)
Theorem binding_tests_pass (E : RepresentationEngine) aml_data_text data_binary :
  rep_load amlModelFile = inr tt -> data_binary <> EmptyString ->
  forallb (fun t => test_passes t.2)
    (binding_suite (A := bump_alloc) (E := E) aml_data_text data_binary) = true.
Proof.
  intros Hload Hbin. destruct data_binary as [|c bin]; [done|].
  cbn [binding_suite forallb snd]. rewrite andb_true_r.
  repeat (apply andb_true_iff; split); unfold
    test_ConstructRepresentationTest_ValidAML, test_DestroyRepresentationTest_Valid,
    test_DestroyRepresentationTest_InvalidHandle, test_Representation_AmlToDataTest_InvalidHandle,
    test_Representation_DataToAmlTest_InvalidHandle, test_Representation_ByteToDataTest_InvalidHandle,
    test_Representation_DataToByteTest_InvalidHandle, test_GetRepresentationIdTest_InvalidHandle,
    test_GetConfigInfoTest_InvalidHandle; run_rep_test Hload.
Qed.

(** C20: [Representation_AmlToDataTest.InvalidAml] has undefined
    behaviour whatever the engine reports for ["<invalid />"]: the
    conversion fails as the test expects, leaves [amlObj] unwritten, and
    the test then passes that uninitialised local to [DestroyAMLObject]. *)
Theorem InvalidAml_reads_uninitialized (E : RepresentationEngine) e :
  rep_load amlModelFile = inr tt -> rep_AmlToData amlModelFile "<invalid />" = inl e ->
  test_Representation_AmlToDataTest_InvalidAml (A := bump_alloc) empty_world = Crashed UninitializedRead.
Proof.
  intros Hload Hparse. unfold test_Representation_AmlToDataTest_InvalidAml.
  rewrite (st_bind_Done _ _ _ _ _ (new_rep_local_run Hload)). cbv beta. unfold st_bind at 1.
  rewrite AmlToData_rep_world, Hparse. vm_compute. reflexivity.
Qed.

Section EngineTests.
Context (E : RepresentationEngine) (aml_data_text data_binary : string) (DISABLE_PROTOBUF : bool).
Hypothesis HT : TestFiles E aml_data_text data_binary DISABLE_PROTOBUF.

Lemma construct_tests_pass :
  test_passes (test_ConstructRepresentationTest_InvalidFilePath (A := bump_alloc) (E := E)) = true /\
  test_passes (test_ConstructRepresentationTest_AMLWithoutCAEX (A := bump_alloc) (E := E)) = true /\
  test_passes (test_ConstructRepresentationTest_AMLWithoutSUCL (A := bump_alloc) (E := E)) = true.
Proof.
  cbv [test_passes test_ConstructRepresentationTest_InvalidFilePath
       test_ConstructRepresentationTest_AMLWithoutCAEX test_ConstructRepresentationTest_AMLWithoutSUCL].
  rewrite (st_eval_bind_run _ _ _ _ _ (CreateRepresentation_fail_run _ _ _ (tf_missing _ _ _ _ HT))),
    (st_eval_bind_run _ _ _ _ _ (CreateRepresentation_fail_run _ _ _ (tf_noCAEX _ _ _ _ HT))),
    (st_eval_bind_run _ _ _ _ _ (CreateRepresentation_fail_run _ _ _ (tf_noSUCL _ _ _ _ HT))).
  vm_compute. auto.
Qed.

Lemma AmlToData_ConvertValid_passes :
  test_passes (test_Representation_AmlToDataTest_ConvertValid (A := bump_alloc) aml_data_text) = true.
Proof.
  cbv [test_passes test_Representation_AmlToDataTest_ConvertValid]. rep_new HT. read_aml HT.
  engine_step (fun w rh s out b => AmlToData_iso w rh s out b amlModelFile).
  rewrite (tf_parse _ _ _ _ HT). vm_compute. reflexivity.
Qed.

Lemma DataToAml_ConvertValid_passes :
  test_passes (test_Representation_DataToAmlTest_ConvertValid (A := bump_alloc) (E := E) aml_data_text) = true.
Proof.
  cbv [test_passes test_Representation_DataToAmlTest_ConvertValid].
  rewrite TestAML_ret, (tf_text _ _ _ _ HT). rep_new HT. step_closed.
  engine_step (fun w rh oh out b ob => DataToAml_iso w rh oh out b ob amlModelFile test_object).
  rewrite (tf_print _ _ _ _ HT). cbv -[isEqual]. rewrite isEqual_refl. reflexivity.
Qed.

Lemma InvalidDataToModel_passes :
  test_passes (test_Representation_DataToAmlTest_InvalidDataToModel (A := bump_alloc) (E := E)) = true.
Proof.
  cbv [test_passes test_Representation_DataToAmlTest_InvalidDataToModel]. rep_new HT. repeat step_closed.
  engine_step (fun w rh oh out b ob => DataToAml_iso w rh oh out b ob amlModelFile invalid_object).
  rewrite (tf_not_match _ _ _ _ HT). vm_compute. reflexivity.
Qed.

Lemma IgnoreDataNotInModel_passes :
  test_passes (test_Representation_DataToAmlTest_IgnoreDataNotInModel (A := bump_alloc) (E := E)) = true.
Proof.
  cbv [test_passes test_Representation_DataToAmlTest_IgnoreDataNotInModel]. rep_new HT. repeat step_closed.
  engine_step (fun w rh oh out b ob => DataToAml_iso w rh oh out b ob amlModelFile test_object_extra).
  rewrite (tf_ignore _ _ _ _ HT). repeat step_closed.
  engine_step (fun w rh s out b => AmlToData_iso w rh s out b amlModelFile).
  rewrite (tf_parse _ _ _ _ HT). vm_compute. reflexivity.
Qed.

Lemma GetValid_passes :
  test_passes (test_GetRepresentationIdTest_GetValid (A := bump_alloc) (E := E)) = true.
Proof.
  cbv [test_passes test_GetRepresentationIdTest_GetValid]. rep_new HT.
  engine_step (fun w rh out b => GetRepId_iso w rh out b amlModelFile).
  rewrite (tf_repId _ _ _ _ HT). vm_compute. reflexivity.
Qed.

Lemma ByteToData_ConvertValid_passes :
  test_passes (test_Representation_ByteToDataTest_ConvertValid (A := bump_alloc) (E := E)
                 data_binary DISABLE_PROTOBUF) = true.
Proof.
  pose proof (tf_bytes _ _ _ _ HT) as Hb.
  assert (Hlen : String.length data_binary <> 0%nat)
    by (destruct data_binary; [by destruct (tf_binary _ _ _ _ HT)|discriminate]).
  cbv [test_passes test_Representation_ByteToDataTest_ConvertValid]. rep_new HT. read_binary.
  destruct DISABLE_PROTOBUF; cbv beta iota delta [negb];
    engine_step (fun w rh buf size out b => ByteToData_iso w rh buf size out b amlModelFile);
    rewrite substring_full.
  - rewrite (proj1 Hb). vm_compute. reflexivity.
  - rewrite (proj1 Hb). vm_compute. reflexivity.
Qed.

Lemma InvalidByte_passes :
  test_passes (test_Representation_ByteToDataTest_InvalidByte (A := bump_alloc) (E := E) DISABLE_PROTOBUF) = true.
Proof.
  pose proof (tf_bytes _ _ _ _ HT) as Hb.
  cbv [test_passes test_Representation_ByteToDataTest_InvalidByte]. rep_new HT. cbv zeta.
  engine_step (fun w rh buf size out b => ByteToData_iso w rh buf size out b amlModelFile).
  rewrite substring_full. destruct DISABLE_PROTOBUF.
  - rewrite (proj1 Hb). vm_compute. reflexivity.
  - rewrite (proj2 (proj2 Hb)). vm_compute. reflexivity.
Qed.

Lemma DataToByte_ConvertValid_passes :
  test_passes (test_Representation_DataToByteTest_ConvertValid (A := bump_alloc) (E := E)
                 data_binary DISABLE_PROTOBUF) = true.
Proof.
  pose proof (tf_bytes _ _ _ _ HT) as Hb.
  cbv [test_passes test_Representation_DataToByteTest_ConvertValid]. rewrite TestBinary_ret.
  rep_new HT. step_closed.
  destruct DISABLE_PROTOBUF; cbv beta iota delta [negb];
    engine_step (fun w rh oh out sz b ob => DataToByte_iso w rh oh out sz b ob amlModelFile test_object).
  - rewrite (proj2 Hb). vm_compute. reflexivity.
  - rewrite (proj1 (proj2 Hb)). cbv -[isEqualBinary]. rewrite isEqualBinary_refl. reflexivity.
Qed.

Lemma GetConfigInfo_Valid_passes :
  test_passes (test_GetConfigInfoTest_Valid (A := bump_alloc) (E := E)) = true.
Proof.
  destruct (tf_config _ _ _ _ HT) as [cfg Hcfg].
  cbv [test_passes test_GetConfigInfoTest_Valid]. rep_new HT.
  engine_step (fun w rh out b => GetConfigInfo_iso w rh out b amlModelFile).
  rewrite Hcfg. do 2 step_closed.
  engine_step (fun w h b => DestroyAMLObject_iso w h b cfg).
  vm_compute. reflexivity.
Qed.

End EngineTests.

(** C27: the representation tests that exercise the engine pass for
    every engine and test files meeting [TestFiles], in both builds (with
    the binary API or with [_DISABLE_PROTOBUF_]): the binding passes each
    engine exception through [ExceptionCodeToErrorCode], registers each
    parsed object under a new handle, and [TestAMLObjectHandle] builds
    through the public API exactly the object the files describe. *)
Theorem engine_tests_pass E aml_data_text data_binary DISABLE_PROTOBUF :
  TestFiles E aml_data_text data_binary DISABLE_PROTOBUF ->
  forallb (fun t => test_passes t.2)
    (engine_suite (A := bump_alloc) (E := E) aml_data_text data_binary DISABLE_PROTOBUF) = true.
Proof.
  intros HT. destruct (construct_tests_pass _ _ _ _ HT) as (H1 & H2 & H3).
  cbn [engine_suite forallb snd]. rewrite andb_true_r.
  repeat (apply andb_true_iff; split);
    first [ exact H1 | exact H2 | exact H3
          | exact (AmlToData_ConvertValid_passes _ _ _ _ HT) | exact (DataToAml_ConvertValid_passes _ _ _ _ HT)
          | exact (InvalidDataToModel_passes _ _ _ _ HT) | exact (IgnoreDataNotInModel_passes _ _ _ _ HT)
          | exact (ByteToData_ConvertValid_passes _ _ _ _ HT) | exact (InvalidByte_passes _ _ _ _ HT)
          | exact (DataToByte_ConvertValid_passes _ _ _ _ HT) | exact (GetValid_passes _ _ _ _ HT)
          | exact (GetConfigInfo_Valid_passes _ _ _ _ HT) ].
Qed.

(** ** Witnesses *)

Lemma test_files_engine_TestFiles : TestFiles test_files_engine fixture_aml_text "bin" true.
Proof.
  split; try reflexivity.
  - by eexists.
  - discriminate.
  - split; reflexivity.
Qed.

Lemma binding_tests_pass_witness :
  rep_load (RepresentationEngine := test_files_engine) amlModelFile = inr tt /\ "bin"%string <> EmptyString /\
  forallb (fun t => test_passes t.2)
    (binding_suite (A := bump_alloc) (E := test_files_engine) fixture_aml_text "bin") = true.
Proof.
  assert (H1 : rep_load (RepresentationEngine := test_files_engine) amlModelFile = inr tt) by reflexivity.
  assert (H2 : "bin"%string <> EmptyString) by discriminate.
  split; [exact H1|]. split; [exact H2|]. exact (binding_tests_pass _ _ _ H1 H2).
Defined.

Lemma InvalidAml_reads_uninitialized_witness :
  rep_load (RepresentationEngine := test_files_engine) amlModelFile = inr tt /\
  rep_AmlToData (RepresentationEngine := test_files_engine) amlModelFile "<invalid />" = inl INVALID_AML_SCHEMA /\
  test_Representation_AmlToDataTest_InvalidAml (A := bump_alloc) (E := test_files_engine) empty_world
    = Crashed UninitializedRead.
Proof.
  assert (H1 : rep_load (RepresentationEngine := test_files_engine) amlModelFile = inr tt) by reflexivity.
  assert (H2 : rep_AmlToData (RepresentationEngine := test_files_engine) amlModelFile "<invalid />"
               = inl INVALID_AML_SCHEMA) by reflexivity.
  split; [exact H1|]. split; [exact H2|]. exact (InvalidAml_reads_uninitialized _ _ H1 H2).
Defined.

Lemma engine_tests_pass_witness :
  TestFiles test_files_engine fixture_aml_text "bin" true /\
  forallb (fun t => test_passes t.2)
    (engine_suite (A := bump_alloc) (E := test_files_engine) fixture_aml_text "bin" true) = true.
Proof.
  split; [exact test_files_engine_TestFiles|].
  exact (engine_tests_pass _ _ _ _ test_files_engine_TestFiles).
Defined.
