(* ===== verification/Sample.v ===== *)
(** * The sample client (samples/sample.c)

    [main] builds a representation, prints its id and configuration
    object, builds the object of the example data through the public
    API, prints it, converts it to text and back and to bytes and back,
    printing each result, and destroys what it made.  What [printf]
    writes is the string each function returns; [getCurrentTime] reads
    the clock, which is the section variable [clock].  The buffer
    [indent] of [printAMLData] is 100 bytes: [indent_of] checks each
    [strncat] against it. *)

From S2P Require Import Prelude ErrorCodes Engine Memory HandleManager CamlUtils RegistryFacts RegistryObjects CamlData CamlObject CamlRepresentation UnitTests RepresentationTests.

Definition nl : string := String (Ascii.ascii_of_nat 10) EmptyString.
Definition dq : string := String (Ascii.ascii_of_nat 34) EmptyString.
Fixpoint repeat_str (n : nat) (s : string) : string :=
  match n with O => EmptyString | S n' => s +:+ repeat_str n' s end.

(** The 61 dashes of the separator line that [sample.c] prints. *)
Definition separator : string := repeat_str 61 "-" +:+ nl.

(** The elements of a string array joined by [", "], as the loop of
    [printAMLData] prints them. *)
Fixpoint join_comma (l : list string) : string :=
  match l with
  | [] => EmptyString
  | [x] => x
  | x :: l' => x +:+ ", " +:+ join_comma l'
  end.

(** [strncat(dst, src, n)] on a buffer of [cap] bytes holding the C
    string [dst]: the first [n] characters of [src] and a NUL are written
    from index [strlen(dst)]; [None] when the NUL falls outside the
    buffer. *)
Definition strncat (cap : nat) (dst src : string) (n : nat) : option string :=
  let add := String.substring 0 n src in
  if decide (String.length dst + String.length add + 1 <= cap)%nat then Some (dst +:+ add) else None.

(** [for (int i = 0; i < depth; i++) strncat(indent, "    ", 4);] *)
Fixpoint indent_loop (cap depth : nat) (indent : string) : option string :=
  match depth with
  | O => Some indent
  | S depth' =>
      match strncat cap indent "    " 4 with
      | Some indent' => indent_loop cap depth' indent'
      | None => None
      end
  end.

(** The bound on the nesting depth [printAMLData] recurses to, in calls
    from [printAMLObject] (at depth 1). *)
Definition PRINT_FUEL : nat := 26.

Section Sample.
Context {A : Allocator} {E : RepresentationEngine}.
Variable clock : string.

(** [char* indent = malloc(100); strncpy(indent, "", 1);] then the
    [strncat] loop: [strncpy] through an unchecked [NULL] crashes, a
    [strncat] past the 100 bytes is a bad write. *)
Definition indent_of (depth : nat) : st World string := fun w =>
  match malloc (live w) 100 with
  | None => Crashed NullDereference
  | Some _ =>
      match indent_loop 100 depth EmptyString with
      | Some indent => Done w indent
      | None => Crashed OutOfBoundsWrite
      end
  end.

(** [void printAMLData(amlDataHandle_t amlData, int depth)]: [keys] and
    [size] start [NULL] and 0, [valType] starts [AMLVALTYPE_STRING]; the
    value locals are not initialised. *)
Fixpoint printAMLData (fuel : nat) (amlData : cptr) (depth : nat) : st World string :=
  match fuel with
  | O => st_crash FuelExhausted
  | S fuel' =>
      let* indent := indent_of depth in
      let* r := AMLData_GetKeys amlData LOCAL LOCAL in
      let keys := default [] (snd r) in
      let* body :=
        (fix each (ks : list string) : st World string :=
           match ks with
           | [] => st_ret EmptyString
           | key :: rest =>
               let head := indent +:+ "    " +:+ dq +:+ key +:+ dq +:+ " : " in
               let* t := AMLData_GetValueType amlData (Some key) LOCAL in
               let valType := default AMLVALTYPE_STRING (snd t) in
               let* v :=
                 match valType with
                 | AMLVALTYPE_STRING =>
                     let* g := AMLData_GetValueStr amlData (Some key) LOCAL in
                     out_val g
                 | AMLVALTYPE_STRINGARRAY =>
                     let* g := AMLData_GetValueStrArr amlData (Some key) LOCAL LOCAL in
                     let* valStrArr := out_val g in
                     st_ret ("[" +:+ join_comma valStrArr +:+ "]")
                 | AMLVALTYPE_AMLDATA =>
                     let* g := AMLData_GetValueAMLData amlData (Some key) LOCAL in
                     let* valAMLData := out_val g in
                     let* inner := printAMLData fuel' valAMLData (S depth) in
                     st_ret (nl +:+ inner)
                 end in
               let* tail := each rest in
               st_ret (head +:+ v +:+ (match rest with [] => EmptyString | _ => "," end) +:+ nl +:+ tail)
           end) keys in
      st_ret (indent +:+ "{" +:+ nl +:+ body +:+ indent +:+ "}")
  end.

(** [void printAMLObject(amlObjectHandle_t amlObj)]: none of its locals
    is initialised. *)
Definition printAMLObject (amlObj : cptr) : st World string :=
  let* a := AMLObject_GetDeviceId amlObj LOCAL in
  let* b := AMLObject_GetTimeStamp amlObj LOCAL in
  let* c := AMLObject_GetId amlObj LOCAL in
  let* deviceId := out_cstr a in
  let* timeStamp := out_cstr b in
  let* id := out_cstr c in
  let head := "{" +:+ nl +:+ "    " +:+ dq +:+ "device" +:+ dq +:+ " : " +:+ deviceId +:+ "," +:+ nl +:+
              "    " +:+ dq +:+ "timeStamp" +:+ dq +:+ " : " +:+ timeStamp +:+ "," +:+ nl +:+
              "    " +:+ dq +:+ "id" +:+ dq +:+ " : " +:+ id +:+ "," +:+ nl in
  let* n := AMLObject_GetDataNames amlObj LOCAL LOCAL in
  let* dataNames := out_val n in
  let* body :=
    (fix each (names : list string) : st World string :=
       match names with
       | [] => st_ret EmptyString
       | name :: rest =>
           let* g := AMLObject_GetData amlObj (Some name) LOCAL in
           let* data := out_val g in
           let* d := printAMLData PRINT_FUEL data 1 in
           let* tail := each rest in
           st_ret ("    " +:+ dq +:+ name +:+ dq +:+ " : " +:+ nl +:+ d +:+
                   (match rest with [] => EmptyString | _ => "," +:+ nl end) +:+ tail)
       end) dataNames in
  st_ret (head +:+ body +:+ nl +:+ "}" +:+ nl).

(** [void printByte(uint8_t* amlByte, size_t byteSize)] *)
Definition printByte (amlByte : string) (byteSize : nat) : st World string :=
  let* bytes := read_bytes amlByte byteSize in
  st_ret (hex bytes +:+ nl).

(** [char* getCurrentTime()]: [NULL] when [malloc(10)] fails. *)
Definition getCurrentTime : st World cstr := fun w =>
  match malloc (live w) 10 with
  | None => Done w None
  | Some _ => Done w (Some clock)
  end.

(** The text half of [representationConvertApiTest] (lines of
    [amlStr] and [objectFromStr]): what it prints and [objectFromStr]. *)
Definition convert_text (rep object : cptr) : st World (string * cptr) :=
  let* s := Representation_DataToAml rep object LOCAL in
  let* amlStr := out_val s in
  let out1 := "DataToAML :" +:+ nl +:+ amlStr +:+ nl +:+ separator in
  let* r := Representation_AmlToData rep (Some amlStr) LOCAL in
  let* objectFromStr := out_val r in
  let* p := printAMLObject objectFromStr in
  st_ret (out1 +:+ "AmlToData :" +:+ nl +:+ p +:+ separator, objectFromStr).

(** The byte half, with the final destruction of both objects:
    [amlByte] and [byteSize] are not initialised. *)
Definition convert_bytes (rep object objectFromStr : cptr) : st World string :=
  let* b := Representation_DataToByte rep object LOCAL LOCAL in
  let* bs := out_val b in
  let '(amlByte, byteSize) := bs in
  let* p1 := printByte amlByte byteSize in
  let* r := Representation_ByteToData rep (Some amlByte) byteSize LOCAL in
  let* objectFromByte := out_val r in
  let* p2 := printAMLObject objectFromByte in
  let* _ := DestroyAMLObject objectFromStr in
  let* _ := DestroyAMLObject objectFromByte in
  st_ret ("DataToByte :" +:+ nl +:+ p1 +:+ separator +:+ "ByteToData :" +:+ nl +:+ p2 +:+ separator).

(** [void representationConvertApiTest(representation_t rep, amlObjectHandle_t object)] *)
Definition representationConvertApiTest (rep object : cptr) : st World string :=
  let* t := convert_text rep object in
  let* b := convert_bytes rep object t.2 in
  st_ret (t.1 +:+ b).

(** [int main()] *)
Definition sample_main : st World string :=
  let* c := CreateRepresentation (Some "sample_data_model.aml"%string) LOCAL in
  let* rep := out_val c in
  let* g := Representation_GetRepId rep LOCAL in
  let* repId := out_cstr g in
  let out1 := nl +:+ "Representation Id : " +:+ repId +:+ nl +:+ nl in
  let* g2 := Representation_GetConfigInfo rep LOCAL in
  let* config := out_val g2 in
  let* out2 := printAMLObject config in
  let* _ := DestroyAMLObject config in
  let* model := new_data_local in
  let* _ := AMLData_SetValueStr model (Some "a"%string) (Some "Model_107.113.97.248"%string) in
  let* _ := AMLData_SetValueStr model (Some "b"%string) (Some "SR-P7-970"%string) in
  let* axis := new_data_local in
  let* _ := AMLData_SetValueStr axis (Some "x"%string) (Some "20"%string) in
  let* _ := AMLData_SetValueStr axis (Some "y"%string) (Some "110"%string) in
  let* _ := AMLData_SetValueStr axis (Some "z"%string) (Some "80"%string) in
  let* info := new_data_local in
  let* _ := AMLData_SetValueStr info (Some "id"%string) (Some "f437da3b"%string) in
  let* _ := AMLData_SetValueAMLData info (Some "axis"%string) axis in
  let* sample := new_data_local in
  let* _ := AMLData_SetValueAMLData sample (Some "info"%string) info in
  let* _ := AMLData_SetValueStrArr sample (Some "appendix"%string)
              (Some [Some "935"%string; Some "52303"%string; Some "1442"%string]) 3 in
  let* currTime := getCurrentTime in
  let* r := CreateAMLObject (Some "SAMPLE001"%string) currTime LOCAL in
  let* object := out_val r in
  let* _ := AMLObject_AddData object (Some "Model"%string) model in
  let* _ := AMLObject_AddData object (Some "Sample"%string) sample in
  let* out3 := printAMLObject object in
  let* out4 := representationConvertApiTest rep object in
  let* _ := DestroyAMLData model in
  let* _ := DestroyAMLData axis in
  let* _ := DestroyAMLData info in
  let* _ := DestroyAMLData sample in
  let* _ := DestroyAMLObject object in
  let* _ := DestroyRepresentation rep in
  st_ret (out1 +:+ out2 +:+ separator +:+ out3 +:+ separator +:+ out4).

End Sample.

(** An engine for the witnesses: any non-empty schema path loads, an
    object's text and bytes are its device id, parsed back to
    [fixture_object]; with [bytes = false] the binary API is compiled
    out. *)
Definition sample_engine (bytes : bool) : RepresentationEngine := {|
  rep_load := fun f => if bool_decide (f = "")%string then inl INVALID_FILE_PATH else inr tt;
  rep_getRepresentationId := fun f => f;
  rep_getConfigInfo := fun _ => inr (fixture_object "config");
  rep_DataToAml := fun _ o => inr (o_deviceId o);
  rep_AmlToData := fun _ s => inr (fixture_object s);
  rep_DataToByte := fun _ o => if bytes then inr (o_deviceId o) else inl API_NOT_ENABLED;
  rep_ByteToData := fun _ s => if bytes then inr (fixture_object s) else inl API_NOT_ENABLED
|}.

(** A value nesting [n] containers, and an object (block 2, handle 1)
    holding one such value. *)
Fixpoint nest (n : nat) : AMLData :=
  match n with
  | O => [("leaf"%string, AVString "x")]
  | S n' => [("k"%string, AVData (nest n'))]
  end.

Definition deep_world (n : nat) : World :=
  mkWorld {[2%Z := BObj (mkAMLObject "dev" "ts" "dev_ts" [("d"%string, nest n)])]}
    [Build_amlObject_t 1 2 true] [] [].

(** A run that, from every well-formed world, ends in undefined
    behaviour. *)
Definition st_crashes {X} (m : st World X) : Prop :=
  forall w, reg_wf w -> exists c, m w = Crashed c.

(** ** Lemmas *)

Lemma st_crashes_bind {X Y} (m : st World X) (k : X -> st World Y) :
  st_preserves reg_wf m -> (forall x, st_crashes (k x)) -> st_crashes (st_bind m k).
Proof.
  intros Hm Hk w Hwf. unfold st_bind. destruct (m w) as [w1 x|c] eqn:E; [|by eexists].
  exact (Hk x w1 (Hm _ _ _ Hwf E)).
Qed.

Lemma st_crashes_bind_l {X Y} (m : st World X) (k : X -> st World Y) :
  st_crashes m -> st_crashes (st_bind m k).
Proof. intros Hm w Hwf. unfold st_bind. by destruct (Hm w Hwf) as [c ->]; eexists. Qed.

Lemma out_val_pure {T} (r : result T) : st_pure (out_val r).
Proof. unfold out_val. destruct (snd r); [apply st_pure_ret|apply st_pure_crash]. Qed.

Lemma out_cstr_pure (r : result cstr) : st_pure (out_cstr r).
Proof. unfold out_cstr. destruct (snd r) as [[]|]; [apply st_pure_ret|apply st_pure_crash..]. Qed.

(** ** The indentation loop *)

Lemma string_app_cons c (s t : string) : String c s +:+ t = String c (s +:+ t).
Proof. reflexivity. Qed.

Lemma string_length_app (s t : string) : String.length (s +:+ t) = (String.length s + String.length t)%nat.
Proof. induction s as [|c s IH]; [done|]. rewrite string_app_cons. cbn. by rewrite IH. Qed.

Lemma string_app_assoc (s t u : string) : (s +:+ t) +:+ u = s +:+ (t +:+ u).
Proof. induction s as [|c s IH]; [done|]. rewrite !string_app_cons. by rewrite IH. Qed.

Lemma string_app_nil_r (s : string) : s +:+ EmptyString = s.
Proof. induction s as [|c s IH]; [done|]. rewrite string_app_cons. by rewrite IH. Qed.

(** From a C string that fits in the buffer, the loop writes [depth]
    times four spaces after it, and stays in the buffer exactly when the
    last NUL, at index [strlen(indent) + 4 * depth], is below [cap]. *)
Lemma indent_loop_spec cap depth indent :
  (String.length indent + 1 <= cap)%nat ->
  indent_loop cap depth indent =
    if decide (String.length indent + 4 * depth + 1 <= cap)%nat
    then Some (indent +:+ repeat_str depth "    ") else None.
Proof.
  revert indent. induction depth as [|k IH]; intros indent Hfit; cbn [indent_loop repeat_str].
  - rewrite decide_True by lia. by rewrite string_app_nil_r.
  - unfold strncat. cbn [String.substring String.length]. case_decide as H1.
    + rewrite IH, string_length_app, string_app_assoc by (rewrite string_length_app; cbn; lia).
      cbn [String.length]. case_decide; case_decide; done || lia.
    + rewrite decide_False by lia. done.
Qed.

(** The indentation of [printAMLData]: built for a depth of at most 24,
    a bad write past the buffer from depth 25. *)
Lemma indent_of_spec `{Allocator} depth w :
  indent_of depth w =
    match malloc (live w) 100 with
    | None => Crashed NullDereference
    | Some _ => if decide (depth <= 24)%nat then Done w (repeat_str depth "    ") else Crashed OutOfBoundsWrite
    end.
Proof.
  unfold indent_of. destruct (malloc _ _); [|done]. rewrite indent_loop_spec by (cbn; lia). cbn [String.length].
  by case_decide; case_decide; try lia.
Qed.

Lemma indent_of_pure `{Allocator} d : st_pure (indent_of d).
Proof.
  intros w w' s. unfold indent_of. destruct (malloc _ _); [destruct (indent_loop _ _ _)|]; by intros [= <-].
Qed.

Lemma getCurrentTime_pure `{Allocator} clock : st_pure (getCurrentTime clock).
Proof. intros w w' s. unfold getCurrentTime. destruct (malloc _ _); by intros [= <-]. Qed.

Lemma printByte_pure b n : st_pure (printByte b n).
Proof. unfold printByte. apply st_pure_bind; [apply read_bytes_pure|intros; apply st_pure_ret]. Qed.

#[local] Hint Resolve out_val_pure out_cstr_pure indent_of_pure getCurrentTime_pure printByte_pure : aml.

(** A handle registered in a well-formed world resolves to a live block
    of its kind. *)
Lemma obj_entry_read w h n : reg_wf w -> obj_entry w h = Some n -> exists o, read_obj (on_cppObj n) w = Done w o.
Proof.
  intros Hwf [Hin _]%ll_find_Some. pose proof (wf_objs_owned _ Hwf) as Ho. rewrite Forall_forall in Ho.
  destruct (Ho n Hin) as [_ [o Hb]]. exists o. unfold read_obj. by rewrite Hb.
Qed.

Lemma rep_entry_read w h n : reg_wf w -> rep_entry w h = Some n -> exists f, read_rep (rn_cppObj n) w = Done w f.
Proof.
  intros Hwf [Hin _]%ll_find_Some. pose proof (wf_reps_owned _ Hwf) as Ho. rewrite Forall_forall in Ho.
  destruct (Ho n Hin) as [f Hb]. exists f. unfold read_rep. by rewrite Hb.
Qed.

Section Protobuf.
Context `{AS : AllocatorSpec} {E : RepresentationEngine}.

(** An engine built without the binary API: [DataToByte] always throws. *)
Hypothesis no_bytes : forall f o, exists e, rep_DataToByte f o = inl e.

(** [Representation_DataToByte] then writes neither out-parameter. *)
Lemma DataToByte_writes_nothing w rh oh out sz :
  reg_wf w -> exists c, Representation_DataToByte rh oh out sz w = Done w (c, None).
Proof.
  intros Hwf. unfold Representation_DataToByte, guard.
  destruct (VERIFY_PARAM_NON_NULL rh); [by eexists|]. destruct (VERIFY_PARAM_NON_NULL oh); [by eexists|].
  destruct (VERIFY_PARAM_NON_NULL out); [by eexists|]. destruct (VERIFY_PARAM_NON_NULL sz); [by eexists|].
  unfold st_bind at 1 2, FindRepresentation, FindAmlObj.
  destruct (rep_entry w rh) as [n|] eqn:En; destruct (obj_entry w oh) as [m|] eqn:Em; cbn; try by eexists.
  destruct (rep_entry_read _ _ _ Hwf En) as [f Hf]. destruct (obj_entry_read _ _ _ Hwf Em) as [o Ho].
  unfold st_bind. rewrite Hf, Ho. destruct (no_bytes f o) as [e ->]. by eexists.
Qed.

(** So the byte half of [representationConvertApiTest] reads the
    uninitialised [amlByte] and [byteSize], whatever came before. *)
Lemma convert_bytes_uninitialized rep object objectFromStr w :
  reg_wf w -> convert_bytes rep object objectFromStr w = Crashed UninitializedRead.
Proof.
  intros Hwf. unfold convert_bytes, st_bind at 1.
  destruct (DataToByte_writes_nothing w rep object LOCAL LOCAL Hwf) as [c ->]. reflexivity.
Qed.

End Protobuf.

Section Invariant.
Context `{AS : AllocatorSpec} {E : RepresentationEngine}.

Lemma CreateRepresentation_preserves f out : st_preserves reg_wf (CreateRepresentation f out).
Proof. intros w w' r Hwf H. exact (proj1 (CreateRepresentation_wf_atomic _ _ _ _ _ Hwf H)). Qed.

Lemma new_data_local_wf : st_preserves reg_wf new_data_local.
Proof.
  unfold new_data_local. apply st_preserves_bind; [apply CreateAMLData_wf|].
  intros. apply st_pure_preserves, out_val_pure.
Qed.

End Invariant.

(** The calls of the sample that may change the registry. *)
Ltac sample_calls :=
  first [ apply CreateRepresentation_preserves | apply Representation_GetConfigInfo_wf
        | apply Representation_AmlToData_wf | apply DestroyRepresentation_wf
        | apply new_data_local_wf | apply DestroyAMLData_wf | apply AMLData_SetValueStr_wf
        | apply AMLData_SetValueStrArr_wf | apply AMLData_SetValueAMLData_wf | apply AMLData_GetValueAMLData_wf
        | apply CreateAMLObject_wf | apply AMLObject_AddData_wf | apply AMLObject_GetData_wf
        | apply DestroyAMLObject_wf
        | apply st_pure_preserves;
          first [ apply AMLData_GetKeys_pure | apply AMLData_GetValueType_pure | apply AMLData_GetValueStr_pure
                | apply AMLData_GetValueStrArr_pure | apply AMLObject_GetDataNames_pure | apply get_string_field_pure
                | apply Representation_GetRepId_pure | apply Representation_DataToAml_pure ] ].

(** Step through a chain of binds of the sample's calls; [tac] proves
    the recursive ones. *)
Ltac pres_chain tac :=
  repeat (intros;
    lazymatch goal with
    | |- st_preserves _ (st_ret _) => apply st_pure_preserves, st_pure_ret
    | |- st_preserves _ (st_bind _ _) =>
        apply st_preserves_bind;
          [first [solve [tac | sample_calls | apply st_pure_preserves; eauto with aml] | case_match]|]
    | |- st_preserves _ _ => solve [tac | sample_calls | apply st_pure_preserves; eauto with aml]
    end).

Section Printers.
Context `{AS : AllocatorSpec} {E : RepresentationEngine}.

Lemma printAMLData_wf fuel h d : st_preserves reg_wf (printAMLData fuel h d).
Proof.
  revert h d. induction fuel as [|fuel IH]; intros h d; [apply st_pure_preserves, st_pure_crash|].
  cbn [printAMLData]. apply st_preserves_bind; [apply st_pure_preserves, indent_of_pure|intros indent].
  apply st_preserves_bind; [sample_calls|intros r].
  apply st_preserves_bind; [|intros; apply st_pure_preserves, st_pure_ret].
  induction (default [] r.2) as [|key rest IHl]; [apply st_pure_preserves, st_pure_ret|].
  cbv beta fix iota. pres_chain ltac:(first [apply IH | exact IHl]).
Qed.

Lemma printAMLObject_wf h : st_preserves reg_wf (printAMLObject h).
Proof.
  unfold printAMLObject. pres_chain fail. intros dataNames.
  apply st_preserves_bind; [|pres_chain fail].
  match goal with |- st_preserves _ (_ ?l) => induction l as [|name rest IHl] end;
    [apply st_pure_preserves, st_pure_ret|].
  cbv beta fix iota. pres_chain ltac:(first [apply printAMLData_wf | exact IHl]).
Qed.

Lemma convert_text_wf rep object : st_preserves reg_wf (convert_text rep object).
Proof. unfold convert_text. pres_chain ltac:(apply printAMLObject_wf). Qed.

End Printers.

Section NoBytes.
Context `{AS : AllocatorSpec} {E : RepresentationEngine}.
Hypothesis no_bytes : forall f o, exists e, rep_DataToByte f o = inl e.

Lemma representationConvertApiTest_crashes rep object : st_crashes (representationConvertApiTest rep object).
Proof.
  unfold representationConvertApiTest. apply st_crashes_bind; [apply convert_text_wf|intros t].
  apply st_crashes_bind_l. intros w Hwf. exists UninitializedRead. by apply convert_bytes_uninitialized.
Qed.

End NoBytes.

(** Step through [main] up to the call that ends it. *)
Ltac crash_chain tac :=
  repeat (intros;
    lazymatch goal with
    | |- st_crashes (st_bind _ _) =>
        first [ apply st_crashes_bind_l; solve [tac]
              | apply st_crashes_bind;
                  [solve [sample_calls | apply printAMLObject_wf | apply st_pure_preserves; eauto with aml]|] ]
    end).

(** C19: built with [_DISABLE_PROTOBUF_] (the engine's [DataToByte]
    always throws), [main] never runs to its end: from any well-formed
    world, with any allocator and whatever else the engine answers, it
    ends in undefined behaviour; if nothing before goes wrong,
    [printByte] reads the [amlByte] and [byteSize] that
    [Representation_DataToByte] left unwritten. *)
Theorem sample_main_crashes `{AS : AllocatorSpec} {E : RepresentationEngine} clock w :
  (forall f o, exists e, rep_DataToByte f o = inl e) -> reg_wf w ->
  exists c, sample_main clock w = Crashed c.
Proof.
  intros Hno Hwf. revert w Hwf. fold (st_crashes (sample_main clock)). unfold sample_main. cbv zeta.
  crash_chain ltac:(apply (representationConvertApiTest_crashes Hno)).
Qed.

(** ** The printer's fuel *)

(** A run that never stops for lack of fuel. *)
Definition st_no_fuel {X} (m : st World X) : Prop := forall w, m w <> Crashed FuelExhausted.

Lemma no_fuel_bind {X Y} (m : st World X) (k : X -> st World Y) :
  st_no_fuel m -> (forall x, st_no_fuel (k x)) -> st_no_fuel (st_bind m k).
Proof. intros Hm Hk w. unfold st_bind. destruct (m w) as [w1 x|c] eqn:E; [apply Hk|]. intros [= ->]. by apply (Hm w). Qed.

Lemma no_fuel_ret {X} (x : X) : st_no_fuel (st_ret x).
Proof. by intros w. Qed.

Lemma no_fuel_crash {X} c : c <> FuelExhausted -> st_no_fuel (X := X) (st_crash c).
Proof. intros Hc w [= ->]. done. Qed.

Lemma no_fuel_guard {T} chk (k : st World (result T)) : st_no_fuel k -> st_no_fuel (guard chk k).
Proof. intros Hk. unfold guard. case_match; [apply no_fuel_ret|done]. Qed.

Lemma no_fuel_catch {X T} (r : ResultCode + X) (k : X -> st World (result T)) :
  (forall x, st_no_fuel (k x)) -> st_no_fuel (catch_aml r k).
Proof. intros Hk. unfold catch_aml. case_match; [apply no_fuel_ret|done]. Qed.

(** The registry's and the heap's primitives return, or stop on a freed
    block. *)
Ltac no_fuel_leaf := intros ?w; repeat (cbn; case_match); discriminate.

Lemma FindAmlData_no_fuel h : st_no_fuel (FindAmlData h).
Proof. no_fuel_leaf. Qed.
Lemma FindAmlDataHandle_no_fuel p : st_no_fuel (FindAmlDataHandle p).
Proof. no_fuel_leaf. Qed.
Lemma FindAmlObj_no_fuel h : st_no_fuel (FindAmlObj h).
Proof. no_fuel_leaf. Qed.
Lemma AddAmlDataHandle_no_fuel `{Allocator} p nd : st_no_fuel (AddAmlDataHandle p nd).
Proof. unfold AddAmlDataHandle. no_fuel_leaf. Qed.
Lemma read_data_no_fuel p : st_no_fuel (read_data p).
Proof. unfold read_data. no_fuel_leaf. Qed.
Lemma read_obj_no_fuel b : st_no_fuel (read_obj b).
Proof. unfold read_obj. no_fuel_leaf. Qed.
Lemma ConvertStringToCharStr_no_fuel `{Allocator} s : st_no_fuel (ConvertStringToCharStr s).
Proof. unfold ConvertStringToCharStr. no_fuel_leaf. Qed.
Lemma out_val_no_fuel {T} (r : result T) : st_no_fuel (out_val r).
Proof. unfold out_val. case_match; [apply no_fuel_ret|by apply no_fuel_crash]. Qed.

Lemma ConvertVectorToCharStrArr_no_fuel `{Allocator} l : st_no_fuel (ConvertVectorToCharStrArr l).
Proof.
  intros w. unfold ConvertVectorToCharStrArr. destruct (malloc _ _); [|done]. revert w.
  induction l as [|s l IH]; intros w; [done|]. cbn [ConvertEach].
  apply no_fuel_bind; [apply ConvertStringToCharStr_no_fuel|]. intros [c|]; [|apply no_fuel_ret].
  apply no_fuel_bind; [exact IH|intros; apply no_fuel_ret].
Qed.

#[local] Hint Resolve FindAmlData_no_fuel FindAmlDataHandle_no_fuel FindAmlObj_no_fuel AddAmlDataHandle_no_fuel
  read_data_no_fuel read_obj_no_fuel ConvertStringToCharStr_no_fuel ConvertVectorToCharStrArr_no_fuel
  out_val_no_fuel no_fuel_ret : aml.

Ltac solve_no_fuel_with tac :=
  repeat (intros; first
    [ solve [tac]
    | apply no_fuel_guard | apply no_fuel_catch | apply no_fuel_bind | apply no_fuel_ret
    | progress case_match | solve [eauto with aml] ]).

Ltac solve_no_fuel := solve_no_fuel_with fail.

Lemma find_or_add_alias_no_fuel `{Allocator} q : st_no_fuel (find_or_add_alias q).
Proof. unfold find_or_add_alias. solve_no_fuel. Qed.

#[local] Hint Resolve find_or_add_alias_no_fuel : aml.

Lemma data_getters_no_fuel `{Allocator} h k :
  st_no_fuel (AMLData_GetKeys h LOCAL LOCAL) /\ st_no_fuel (AMLData_GetValueType h (Some k) LOCAL) /\
  st_no_fuel (AMLData_GetValueStr h (Some k) LOCAL) /\ st_no_fuel (AMLData_GetValueStrArr h (Some k) LOCAL LOCAL) /\
  st_no_fuel (AMLData_GetValueAMLData h (Some k) LOCAL).
Proof.
  unfold AMLData_GetKeys, AMLData_GetValueType, AMLData_GetValueStr, AMLData_GetValueStrArr,
    AMLData_GetValueAMLData.
  repeat split; solve_no_fuel.
Qed.

(** The indentation either stops the run with a bad write or a [NULL]
    buffer, or is made for a depth of at most 24. *)
Lemma no_fuel_bind_indent `{Allocator} {Y} d (k : string -> st World Y) :
  ((d <= 24)%nat -> forall s, st_no_fuel (k s)) -> st_no_fuel (st_bind (indent_of d) k).
Proof.
  intros Hk w. unfold st_bind. rewrite indent_of_spec.
  destruct (malloc _ _); [|done]. case_decide; [by apply Hk|done].
Qed.

(** C21: the [strncat] loop of [printAMLData] fits its 100-byte
    [indent] buffer exactly up to depth 24: there it writes [depth] times
    four spaces, and from depth 25 on [printAMLData] stops with a write
    past the buffer, the 25th [strncat] putting its NUL at index 100. *)
Theorem printAMLData_indent_overflow {A : Allocator} fuel h d w :
  is_Some (malloc (live w) 100) ->
  ((d <= 24)%nat -> indent_of d w = Done w (repeat_str d "    ")) /\
  ((24 < d)%nat -> printAMLData (S fuel) h d w = Crashed OutOfBoundsWrite).
Proof.
  intros [a Ha]. split; intros Hd.
  - by rewrite indent_of_spec, Ha, decide_True by lia.
  - cbn [printAMLData]. unfold st_bind at 1. by rewrite indent_of_spec, Ha, decide_False by lia.
Qed.

(** [PRINT_FUEL] is enough: [printAMLData] started with fuel [f] at
    depth [d], [f + d >= 26], never stops for lack of fuel, because the
    100-byte [indent] buffer overflows at depth 25 before the fuel can run
    out; so the fuel of the model cuts off no run of the C code. *)
Theorem printAMLData_fuel_enough {A : Allocator} fuel h d :
  (26 <= fuel + d)%nat -> (1 <= fuel)%nat -> st_no_fuel (printAMLData fuel h d).
Proof.
  revert h d. induction fuel as [|f IH]; intros h d Hs H1; [lia|].
  cbn [printAMLData]. apply no_fuel_bind_indent. intros Hd indent.
  destruct (data_getters_no_fuel h "") as (Hkeys & _).
  apply no_fuel_bind; [exact Hkeys|intros r]. apply no_fuel_bind; [|intros; apply no_fuel_ret].
  induction (default [] r.2) as [|key rest IHl]; [apply no_fuel_ret|]. cbv beta fix iota.
  destruct (data_getters_no_fuel h key) as (_ & Ht & Hs1 & Ha & Hd1).
  solve_no_fuel_with ltac:(first [exact IHl | exact Ht | exact Hs1 | exact Ha | exact Hd1 | apply IH; lia]).
Qed.

(** ** Witnesses *)

(** Built without the binary API, [main] stops at [printByte]; built
    with it, the same run prints to the end. *)
Lemma sample_main_crashes_witness :
  (forall f o, exists e, rep_DataToByte (RepresentationEngine := sample_engine false) f o = inl e) /\
  reg_wf empty_world /\
  (exists c, sample_main (A := bump_alloc) (E := sample_engine false) "120000123" empty_world = Crashed c) /\
  sample_main (A := bump_alloc) (E := sample_engine false) "120000123" empty_world = Crashed UninitializedRead /\
  is_Some (st_eval (sample_main (A := bump_alloc) (E := sample_engine true) "120000123") empty_world).
Proof.
  assert (H1 : forall f o, exists e, rep_DataToByte (RepresentationEngine := sample_engine false) f o = inl e)
    by (intros; eexists; reflexivity).
  assert (H2 : reg_wf empty_world) by (apply reg_wfb_sound; vm_compute; reflexivity).
  split; [exact H1|]. split; [exact H2|].
  split; [exact (sample_main_crashes (A := bump_alloc) "120000123" empty_world H1 H2)|].
  split; vm_compute; [reflexivity|by eexists].
Defined.

(** From [printAMLObject], a value 24 containers deep is printed at
    depth 25. *)
Lemma printAMLData_indent_overflow_witness :
  is_Some (malloc (Allocator := bump_alloc) (live (deep_world 24)) 100) /\
  indent_of (A := bump_alloc) 24 (deep_world 24) = Done (deep_world 24) (repeat_str 24 "    ") /\
  printAMLData (A := bump_alloc) 1 3 25 (deep_world 24) = Crashed OutOfBoundsWrite /\
  printAMLObject (A := bump_alloc) 1 (deep_world 24) = Crashed OutOfBoundsWrite /\
  is_Some (st_eval (printAMLObject (A := bump_alloc) 1) (deep_world 23)).
Proof.
  assert (Ha : is_Some (malloc (Allocator := bump_alloc) (live (deep_world 24)) 100)) by (eexists; reflexivity).
  split; [exact Ha|].
  split; [apply (proj1 (printAMLData_indent_overflow (A := bump_alloc) 0 3 24 (deep_world 24) Ha)); lia|].
  split; [apply (proj2 (printAMLData_indent_overflow (A := bump_alloc) 0 3 25 (deep_world 24) Ha)); lia|].
  split; vm_compute; [reflexivity|by eexists].
Defined.

